(* ===== verification/_CoqProject ===== *)
-Q . S2P
Prelude.v
Value.v
ApiProviders.v
ApiServer.v
Secret.v
Storage.v
Provider.v
ProviderFacts.v
Hash.v
Merge.v
Generator.v
GeneratorFacts.v
Base64.v
Resolver.v
ResolverFacts.v
Webhook.v
WebhookFacts.v
Fmt.v
OCI.v
TLS.v
ModuleTLS.v
Common.v
Status.v
Client.v
Action.v
Objects.v
ConfigMaps.v
CABundle.v
CABundleFacts.v
Workload.v
WorkloadFacts.v
GeneratedConfig.v
GeneratedConfigFacts.v
NetworkPolicy.v
NetworkPolicyFacts.v
Pointer.v
Kustomize.v
KustomizeFacts.v
Manifests.v
Apply.v
ApplyFacts.v
DeployHelpers.v
Exclusion.v
NetworkResources.v
Preflight.v
Adoption.v
AdoptionFacts.v
AdoptionTheorems.v
Migration.v
MigrationFacts.v
MigrationJobFacts.v
Watches.v
OperatorConfig.v
StatusUpdate.v
ManifestStep.v
Reconcile.v
EndToEnd.v
Startup.v
Cache.v
Wiring.v
Configgen.v
CommandLine.v
Samples.v
ModuleParams.v
Module.v
ModuleFacts.v
ModuleConfig.v
ModuleMain.v
Witnesses.v
MigrationWitnesses.v
AdoptionWitnesses.v
ConfigMapWitnesses.v
WorkloadWitnesses.v
ManifestWitnesses.v
ApplyWitnesses.v
ControllerWitnesses.v
ModuleWitnesses.v
StartWitnesses.v
EndToEndWitnesses.v
