(* ===== verification/Prelude.v ===== *)
(** * Verification of the OGX Kubernetes operator

    The repository holds two operators in Go.  The operator proper reconciles
    [OGXServer] custom resources: an admission webhook validates the resource, a
    generator turns its typed [spec] and the base configuration of the
    distribution image into the server's [config.yaml] and the environment of its
    pods, and a controller renders and applies the manifests, moves data from
    former installations, and reports the state.  The module operator
    ([ogx-module/]) deploys the first one for a platform.  This development models
    both, from the start of the process to the objects in the cluster, and proves
    what they guarantee.

    ** How the parts fit together

    - The start ([main.go], file [Startup]) resolves the TLS options
      ([pkg/tls/tls.go], file [TLS]), makes the manager with its cache (file
      [Cache]), cleans up after an upgrade ([pkg/cluster/cluster.go]), puts the
      operator's own ConfigMap in place (file [OperatorConfig]) and sets the
      webhook and the controller up.
    - The webhook ([api/v1beta1/ogxserver_webhook.go], file [Webhook]) admits an
      [OGXServer] (types in [ApiProviders] and [ApiServer]).
    - The controller ([controllers/ogxserver_controller.go], file [Reconcile]) is
      woken up by the watches (files [Watches] and [Wiring]).  One reconciliation
      adopts what a legacy resource left ([legacy_adoption.go], file [Adoption]),
      removes unsafe exposure ([network_resources.go], file [NetworkResources]),
      checks the ConfigMaps of the spec (file [ConfigMaps]), gathers certificates
      (file [CABundle]), generates the configuration
      ([configmap_reconciler.go], file [GeneratedConfig]), renders and applies the
      manifests (file [ManifestStep]), reconciles the Ingress, cleans up adopted
      networking, runs the migration Job ([migration_job.go], file [Migration]),
      and reports the status with the Praxis preflight (files [Status],
      [StatusUpdate] and [Preflight]).
    - The generator ([pkg/config/generator.go], file [Generator]) parses the base
      configuration, which the resolver ([resolver.go], file [Resolver]) takes
      from the labels of the image through an LRU cache and the registry client
      ([oci_fetcher.go], file [OCI]), and calls the provider expanders
      ([provider.go], file [Provider]), the merge and model functions
      ([merge.go], [resource.go], file [Merge]), the storage expansion
      ([storage.go], file [Storage]) and the secret collector ([secret.go], file
      [Secret]).  A provider expander writes [${env.NAME}] where the collector
      injects a variable [NAME] from a Secret; the two walk the same spec
      independently.  The command [cmd/configgen] (files [Configgen] and
      [CommandLine]) runs the same generator outside of the cluster.
    - The manifest step builds the pod ([resource_helper.go], file [Workload]),
      renders the base manifests through the plugins of [pkg/deploy/plugins/]
      (files [Pointer], [Kustomize], [Manifests]; the network policy plugin is
      the file [NetworkPolicy]), deletes what the spec leaves out (file
      [Exclusion]) and applies the rest ([pkg/deploy/kustomizer.go],
      [pkg/compare/], file [Apply]).  [DeployHelpers] is what else [pkg/deploy/]
      exports.
    - The module operator starts ([ogx-module/cmd/], file [ModuleMain]) with its
      configuration ([pkg/config/], file [ModuleConfig]) and TLS options
      ([pkg/tls/], file [ModuleTLS]); its reconciler (file [Module]) stages the
      manifests of the operator (file [ModuleParams]), deploys them, and reports.

    ** The files

    A component has a file with its data and operations, named as in the source,
    and where its proofs are long a second one, [...Facts] or [...Theorems].

    - [Prelude] (this file): Go strings, errors and fallible results with their
      notation and inversion tactic, sorting, and [MapRange], the interface for
      the order in which Go ranges over a map.
    - Shared models: [Value], the dynamic values of [interface{}]; [Fmt],
      [fmt.Sprintf] and the text of errors; [Hash], SHA-256, hexadecimal text and
      [strconv.Atoi], checked against published test vectors; [Base64];
      [Client], the interface to the API server with its laws and a client that
      satisfies them; [Action], the monad of computations that may fail, with the
      rules for what every run preserves (hint database [keeps]) and what a
      successful run has done; [Objects], metadata, owners, lists and patches;
      [Common], names and labels.
    - Resources and generation: [ApiProviders], [ApiServer], [Webhook],
      [WebhookFacts], [Secret], [Storage], [Provider], [ProviderFacts], [Merge],
      [Generator], [GeneratorFacts], [Resolver], [ResolverFacts], [OCI],
      [Configgen], [CommandLine].
    - The controller: [ConfigMaps], [CABundle], [CABundleFacts], [Workload],
      [WorkloadFacts], [GeneratedConfig], [GeneratedConfigFacts],
      [NetworkPolicy], [NetworkPolicyFacts], [NetworkResources], [Preflight],
      [Pointer], [Kustomize], [KustomizeFacts], [Manifests], [Apply],
      [ApplyFacts], [DeployHelpers], [Exclusion], [ManifestStep], [Status],
      [StatusUpdate], [Adoption], [AdoptionFacts], [AdoptionTheorems],
      [Migration], [MigrationFacts], [MigrationJobFacts], [OperatorConfig],
      [Watches], [Reconcile], and [EndToEnd], which composes the generation, the
      pod and the rendering.
    - The process: [TLS], [Startup], [Cache], [Wiring].
    - The module operator: [ModuleParams], [Module], [ModuleFacts],
      [ModuleConfig], [ModuleTLS], [ModuleMain].
    - [Samples] and the files [...Witnesses]: concrete objects, libraries and
      clusters, and the theorems applied at them.

    ** Conventions

    A Go error is a value of [error] that keeps the format string and its
    arguments; a function that returns an error returns a [result].  A panic is
    [None] (only the cache of the resolver, which follows pointers, can panic).  A
    nil-able pointer or map is an [option]; a nil and an empty slice are both the
    empty list where no reader tells them apart.  In-place updates of a map are
    functions from the old map to the new one; where a map is reachable twice (the
    storage section and the configuration that holds it) the update is written
    through.  An [int] of the source that only counts is a [Z]; the one that is
    parsed from text keeps its 64-bit range.  A function that ranges over a map
    takes a [MapRange] instance, so each theorem holds of every iteration order.

    A function that writes the cluster or the status is a computation of the
    monad [M]: state passing with a result, in which what was written before a
    failure stays written.  The cluster is reached through [Client], [Lister],
    [Patcher], [Applier] and [StatusWriter], whose laws say that reads are current
    and that a failed write changes nothing; the theorems hold for every
    implementation, so for every pattern of failing calls.  Each kind of objects
    is a store of its own, and [zoom] runs a component on its part of the state;
    [Apply] and [Exclusion], which work on any kind, have one store whose keys
    carry the kind.  What a component only reads is a snapshot, taken when its
    step starts.  Interleavings are modelled where the code meets them: the
    migration and the resolver as transition systems in which others act between
    the steps, the rest by laws that say nothing of other objects.

    Code outside of the repository is a parameter, with what is relied on as a
    named hypothesis or the laws of a class: YAML and JSON coding, label
    selectors, semantic [DeepEqual], [SetControllerReference], PEM and X.509,
    [sort.Slice], quantities, the JSON pointer package, kustomize, typed
    conversions, the REST mapper, HTTP, [RetryOnConflict],
    [NewTLSConfigFromProfile], viper, and the platform libraries of the module
    operator (deployer, garbage collector, condition manager, file system).  What
    a NetworkPolicy lets in follows the Kubernetes documentation of its rules,
    read back from the emitted JSON; a shell command line is read by a model of
    how a POSIX shell splits words; the tables of [crypto/tls] and the parsing of
    the package [flag] are written out.

    Fuel occurs twice: the SHA-256 block loop is given as many steps as there are
    words, and the PEM loop one more than the length of its text, which is proved
    enough because every block consumes some of it.

    ** What is shown

    - Reconciliation: what each run answers and writes; after a success the pods
      run on exactly the configuration that was generated, which is in place; no
      Ingress but the instance's own changes, and unsafe exposure goes first.
    - Start: what holds once the manager runs; whatever the operator makes
      carries the label by which its cache holds it, and what legacy installations
      left does not.
    - End to end: the ConfigMap of the generated text is mounted in the pods of the
      rendered Deployment at the path that its variables name, and every secret
      reference of the spec is a variable there that the text reads.
    - Generation: what each section of the configuration contains, for both
      pipelines; an admitted object generates unique provider IDs, and every model refers to a declared provider; the command
      makes what the operator makes, and which of its arguments count.
    - Webhook: exactly which objects are admitted, on creation and on update.
    - Resolver: the pointer structure refines an LRU list of at most 64 entries and
      never panics; in every interleaving the cache only holds configurations that
      were published for images pinned by digest; where the labels come from.
    - ConfigMaps: a generated configuration is never changed; the clean-up spares
      what a rollout may need; the CA bundle holds certificates only, within its
      bounds.
    - Manifests: the rendering, which loops over resources for every field,
      refines a specification on one tree; the manifests refer to each other
      consistently; the Deployment follows the spec; every mount of the pod has its
      volume.
    - Application: what is not the instance's own stays, also when calls fail; a
      success establishes the manifests; the kinds that the spec leaves out are
      gone; how a full replacement loses its owner.
    - Network policy and Ingress: exactly which traffic is let in, in both modes;
      in Praxis mode only the Praxis pods, the operator and what the user adds.
    - Adoption: ownership in every run, the hand-over of the volume claim,
      convergence, clean-up.
    - Migration: cutover readiness is sound in every reachable state; the
      reconciliation refines an abstract machine and converges; no user text is
      more than one word of the command.
    - Status and watches: what the report says; whatever a reconciliation reads of
      Secrets and ConfigMaps wakes it up, and so does every change of what it
      created, but for the kinds that are not watched and for volume claims.
    - TLS: what both operators serve follows the profile of the cluster, and
      falls back only when it may; where the two agree and differ.
    - Module operator: the finalizer guards the clean-up; what a run deploys and
      reports; the substitution of images changes nothing else.

    ** What is not modelled

    The feature flags, which are constants that nothing reads; the types of
    [api/v1alpha1], which no function reads, because adoption works on names; the
    generated deep copies, which are the identity on immutable values; the
    registration of types in schemes and the builder of controller-runtime, whose
    watches are a table in [Wiring]; logging; and the flags of the two operators'
    processes.  The watcher of TLS profiles is modelled up to its registration, the
    fallback watcher of the module operator by its rounds. *)

From Stdlib Require Import Ascii ZArith.
From stdpp Require Export gmap strings list sorting.

#[export] Set Default Proof Using "Type".
#[export] Set Warnings "-clear-no-such-hyp".

(** ** Go strings

    A Go [string] is a byte sequence; it is modelled by [String.string], one
    [ascii] per byte.  [String.le] is byte-wise lexicographic order, the order
    of Go's [<] on strings. *)

#[global] Open Scope string_scope.
#[global] Open Scope list_scope.
#[global] Open Scope stdpp_scope.

(** The bytes of a string, and the string of a list of bytes. *)
Fixpoint chars (s : string) : list ascii :=
  match s with EmptyString => [] | String c s' => c :: chars s' end.

Fixpoint of_chars (l : list ascii) : string :=
  match l with [] => EmptyString | c :: l' => String c (of_chars l') end.

Definition in_range (lo hi c : ascii) : bool :=
  (nat_of_ascii lo <=? nat_of_ascii c)%nat && (nat_of_ascii c <=? nat_of_ascii hi)%nat.

Lemma chars_of_chars l : chars (of_chars l) = l.
Proof. induction l; cbn; congruence. Qed.

Lemma of_chars_chars s : of_chars (chars s) = s.
Proof. induction s; cbn; congruence. Qed.

Lemma chars_app s1 s2 : chars (s1 +:+ s2) = chars s1 ++ chars s2.
Proof. induction s1 as [|c s1 IH]; [done|]. change (c :: chars (s1 +:+ s2) = c :: chars s1 ++ chars s2). by rewrite IH. Qed.

#[export] Instance chars_inj : Inj (=) (=) chars.
Proof. intros s1 s2 H. by rewrite <- (of_chars_chars s1), H, of_chars_chars. Qed.

Lemma string_length_app s1 s2 : String.length (s1 +:+ s2) = (String.length s1 + String.length s2)%nat.
Proof. induction s1 as [|c s1 IH]; [done|]. change (S (String.length (s1 +:+ s2)) = S (String.length s1 + String.length s2)). by rewrite IH. Qed.

Lemma string_app_inj_l s t1 t2 : (s +:+ t1 = s +:+ t2)%string → t1 = t2.
Proof. induction s as [|c s IH]; cbn; [done|]. intros [= H]. by apply IH. Qed.

Declare Scope go_scope.
Delimit Scope go_scope with go.
#[global] Open Scope go_scope.

(** [x |> f] passes a value through a sequence of updates, the way the source
    passes a map through a sequence of assignments. *)
Notation "x |> f" := (f x) (at level 63, left associativity, only parsing) : go_scope.

(** ** Go errors and fallible results

    [Errorf format args] is the value of [fmt.Errorf(format, args...)] and
    [Wrapf format args cause] that of a format that wraps [cause] with [%w].
    The controllers declare two error types of their own: one asks to be run
    again after some seconds, the other says that retrying is pointless. *)

Inductive error : Type :=
| Errorf (format : string) (args : list string)
| Wrapf (format : string) (args : list string) (cause : error)
| requeueError (after : Z)
| terminalError (message : string).

(** [errors.New] *)
Definition New (msg : string) : error := Errorf msg [].

Inductive result (A : Type) : Type :=
| Ok (a : A)
| Err (e : error).
Arguments Ok {_} _.
Arguments Err {_} _.

#[global] Instance result_ret : MRet result := @Ok.
#[global] Instance result_bind : MBind result := λ A B f r,
  match r with Ok a => f a | Err e => Err e end.
#[global] Instance result_fmap : FMap result := λ A B f r,
  match r with Ok a => Ok (f a) | Err e => Err e end.

(** [if err != nil { return fmt.Errorf("... %w", args, err) }] *)
Definition wrap {A} (format : string) (args : list string) (r : result A) : result A :=
  match r with
  | Ok a => Ok a
  | Err e => Err (Wrapf format args e)
  end.

Definition is_ok {A} (r : result A) : bool :=
  match r with Ok _ => true | Err _ => false end.

(** Two results agree when both succeed with the same value or both fail.  It
    is the equality left when only the text of an error may depend on the
    iteration order of a map. *)
Definition same_outcome {A} (r1 r2 : result A) : Prop :=
  match r1, r2 with
  | Ok a, Ok b => a = b
  | Err _, Err _ => True
  | _, _ => False
  end.

#[global] Instance same_outcome_equivalence {A} : Equivalence (@same_outcome A).
Proof.
  split.
  - intros [a|e]; done.
  - intros [a|e] [b|e']; cbn; done.
  - intros [a|e] [b|e'] [c|e'']; cbn; try done. intros -> ->. done.
Qed.

(** ** Case analysis on results *)

Lemma bind_Ok {A B} (f : A → result B) (r : result A) (b : B) :
  r ≫= f = Ok b ↔ ∃ a, r = Ok a ∧ f a = Ok b.
Proof. destruct r; cbn; split; try (intros (? & [= ->] & ?)); eauto; done. Qed.

Lemma fmap_Ok {A B} (f : A → B) (r : result A) (b : B) :
  f <$> r = Ok b ↔ ∃ a, r = Ok a ∧ b = f a.
Proof. destruct r; cbn; split; [intros [= <-]| intros (? & [= ->] & ->) | |intros (? & ? & ?)]; eauto; done. Qed.

Lemma wrap_Ok {A} fmt args (r : result A) (a : A) :
  wrap fmt args r = Ok a ↔ r = Ok a.
Proof. destruct r; cbn; split; done. Qed.

Lemma wrap_is_ok {A} fmt args (r : result A) : is_ok (wrap fmt args r) = is_ok r.
Proof. by destruct r. Qed.

Lemma bind_is_ok {A B} (f : A → result B) (r : result A) :
  is_ok (r ≫= f) = match r with Ok a => is_ok (f a) | Err _ => false end.
Proof. by destruct r. Qed.

(** The congruence rules by which [same_outcome] is propagated. *)
Lemma same_outcome_bind {A B} (f g : A → result B) r1 r2 :
  same_outcome r1 r2 → (∀ a, same_outcome (f a) (g a)) →
  same_outcome (r1 ≫= f) (r2 ≫= g).
Proof. intros Hr Hf. destruct r1, r2; cbn in *; subst; done || apply Hf. Qed.

Lemma same_outcome_fmap {A B} (f : A → B) r1 r2 :
  same_outcome r1 r2 → same_outcome (f <$> r1) (f <$> r2).
Proof. destruct r1, r2; cbn; congruence || done. Qed.

Lemma same_outcome_wrap {A} fmt args (r1 r2 : result A) :
  same_outcome r1 r2 → same_outcome (wrap fmt args r1) (wrap fmt args r2).
Proof. destruct r1, r2; cbn; done. Qed.

(** Decomposes every hypothesis that says a computation succeeded. *)
Ltac res_inv :=
  repeat match goal with
  | H : _ ≫= _ = Ok _ |- _ => apply bind_Ok in H as (? & ? & ?)
  | H : _ <$> _ = Ok _ |- _ => apply fmap_Ok in H as (? & ? & ->)
  | H : wrap _ _ _ = Ok _ |- _ => apply wrap_Ok in H
  | H : mret _ = Ok _ |- _ => unfold mret, result_ret in H
  | H : Ok _ = Ok _ |- _ => injection H as H; try subst
  | H : Err _ = Ok _ |- _ => discriminate H
  end.

(** Closes a closed decidable goal by evaluation. *)
Ltac decided := apply (bool_decide_unpack _); vm_compute; exact I.

(** ** Loops that may fail

    [for _, x := range l { y, err := f(x); if err != nil { return err }; out = append(out, y) }] *)
Fixpoint mapM_result {A B} (f : A → result B) (l : list A) : result (list B) :=
  match l with
  | [] => Ok []
  | x :: l' => y ← f x; ys ← mapM_result f l'; Ok (y :: ys)
  end.

(** [for _, x := range l { acc, err = f(acc, x); if err != nil { return err } }] *)
Fixpoint foldM_result {A B} (f : B → A → result B) (l : list A) (acc : B) : result B :=
  match l with
  | [] => Ok acc
  | x :: l' => acc' ← f acc x; foldM_result f l' acc'
  end.

Lemma mapM_result_Forall2 {A B} (f : A → result B) l k :
  mapM_result f l = Ok k ↔ Forall2 (λ x y, f x = Ok y) l k.
Proof.
  split.
  - revert k. induction l as [|x l IH]; cbn; intros k Hk; res_inv; [done|].
    constructor; eauto.
  - induction 1 as [|x y l k Hxy _ IH]; cbn; [done|]. by rewrite Hxy, IH.
Qed.

Lemma mapM_result_is_ok {A B} (f : A → result B) l :
  is_ok (mapM_result f l) = forallb (λ x, is_ok (f x)) l.
Proof.
  induction l as [|x l IH]; cbn; [done|].
  rewrite bind_is_ok. destruct (f x); cbn; [|done].
  rewrite bind_is_ok. rewrite <- IH. by destruct (mapM_result f l).
Qed.

Lemma same_outcome_mapM {A B} (f g : A → result B) l :
  (∀ x, same_outcome (f x) (g x)) → same_outcome (mapM_result f l) (mapM_result g l).
Proof.
  intros Hfg. induction l as [|x l IH]; cbn [mapM_result]; [done|].
  apply same_outcome_bind; [apply Hfg|]. intros y.
  apply same_outcome_bind; [apply IH|]. done.
Qed.

Lemma foldM_result_app {A B} (f : B → A → result B) l1 l2 acc :
  foldM_result f (l1 ++ l2) acc = foldM_result f l1 acc ≫= foldM_result f l2.
Proof.
  revert acc. induction l1 as [|x l1 IH]; intros acc; cbn; [done|].
  destruct (f acc x); cbn; [apply IH|done].
Qed.

(** ** Sorting

    [sort.Strings] and [sort.Slice] by a string key.  Go's sorts are unstable;
    the theorems that use [sort_by] show that the order of equal keys does not
    matter where it is used. *)

Definition sort_strings (l : list string) : list string := merge_sort String.le l.

Definition key_le {A} (key : A → string) : relation A := λ x y, String.le (key x) (key y).

#[global] Instance key_le_dec {A} (key : A → string) : RelDecision (key_le key).
Proof. intros x y. unfold key_le. apply _. Defined.

#[global] Instance key_le_trans {A} (key : A → string) : Transitive (key_le key).
Proof. intros x y z. unfold key_le. apply transitivity. Qed.

#[global] Instance key_le_total {A} (key : A → string) : Total (key_le key).
Proof. intros x y. unfold key_le. apply total, _. Qed.

Definition sort_by {A} (key : A → string) (l : list A) : list A := merge_sort (key_le key) l.

Lemma sort_strings_Permutation l : sort_strings l ≡ₚ l.
Proof. apply merge_sort_Permutation. Qed.

Lemma sort_strings_Sorted l : Sorted String.le (sort_strings l).
Proof. apply (Sorted_merge_sort String.le). Qed.

(** Sorting forgets the order of its input. *)
Lemma sort_strings_proper l1 l2 : l1 ≡ₚ l2 → sort_strings l1 = sort_strings l2.
Proof.
  intros Hp. apply (Sorted_unique String.le); try apply sort_strings_Sorted.
  by rewrite !sort_strings_Permutation.
Qed.

Lemma sort_by_Permutation {A} (key : A → string) l : sort_by key l ≡ₚ l.
Proof. apply merge_sort_Permutation. Qed.

Lemma sort_by_Sorted {A} (key : A → string) l : Sorted (key_le key) (sort_by key l).
Proof. apply (Sorted_merge_sort (key_le key)). Qed.

Lemma sort_by_StronglySorted {A} (key : A → string) l :
  StronglySorted (key_le key) (sort_by key l).
Proof. apply (StronglySorted_merge_sort (key_le key)). Qed.

(** Two elements of a list without duplicate keys are equal when their keys are. *)
Lemma NoDup_key_inj {A} (key : A → string) (l : list A) x y :
  NoDup (key <$> l) → x ∈ l → y ∈ l → key x = key y → x = y.
Proof.
  induction l as [|z l IH]; cbn; intros Hnd Hx Hy Hxy; [by apply not_elem_of_nil in Hx|].
  apply NoDup_cons in Hnd as [Hz Hnd].
  apply elem_of_cons in Hx as [->|Hx]; apply elem_of_cons in Hy as [->|Hy]; try done.
  - destruct Hz. rewrite Hxy. by apply list_elem_of_fmap_2.
  - destruct Hz. rewrite <- Hxy. by apply list_elem_of_fmap_2.
  - by apply IH.
Qed.

Lemma sort_by_proper {A} (key : A → string) l1 l2 :
  NoDup (key <$> l1) → l1 ≡ₚ l2 → sort_by key l1 = sort_by key l2.
Proof.
  intros Hnd Hp. apply (StronglySorted_unique_strong (key_le key));
    try apply sort_by_StronglySorted; [|by rewrite !sort_by_Permutation].
  intros x y Hx Hy Hxy Hyx.
  rewrite sort_by_Permutation in Hx. rewrite sort_by_Permutation, <- Hp in Hy.
  eapply NoDup_key_inj; [done..|]. unfold key_le in *. by apply (anti_symm String.le).
Qed.

(** The first element of a sorted list has the least key. *)
Lemma sort_by_head_min {A} (key : A → string) l x l' :
  sort_by key l = x :: l' → x ∈ l ∧ ∀ y, y ∈ l → key_le key x y.
Proof.
  intros Hs. pose proof (sort_by_StronglySorted key l) as Hss.
  rewrite Hs in Hss. apply StronglySorted_inv in Hss as [_ Hall].
  assert (∀ y, y ∈ l ↔ y ∈ x :: l') as Hin.
  { intros y. by rewrite <- Hs, sort_by_Permutation. }
  split; [apply Hin; left|]. intros y Hy%Hin.
  apply elem_of_cons in Hy as [->|Hy]; [unfold key_le; reflexivity|].
  by eapply Forall_forall in Hall.
Qed.

Lemma sort_strings_head_min l x l' :
  sort_strings l = x :: l' → x ∈ l ∧ ∀ y, y ∈ l → String.le x y.
Proof.
  intros Hs. pose proof (sort_strings_Permutation l) as Hp. rewrite Hs in Hp.
  pose proof (sort_strings_Sorted l) as Hss. rewrite Hs in Hss.
  apply Sorted_StronglySorted in Hss; [|intros ???; apply transitivity].
  apply StronglySorted_inv in Hss as [_ Hall].
  setoid_rewrite <- Hp. split; [left|]. intros y [->|Hy]%elem_of_cons; [reflexivity|].
  by eapply Forall_forall in Hall.
Qed.

Lemma StronglySorted_filter {A} (R : relation A) (P : A → Prop) `{!∀ x, Decision (P x)} l :
  StronglySorted R l → StronglySorted R (filter P l).
Proof.
  induction 1 as [|x l _ IH Hx]; [constructor|]. rewrite filter_cons. case_decide; [|done].
  constructor; [done|]. rewrite Forall_forall in *. intros y [_ Hy]%list_elem_of_filter. by apply Hx.
Qed.

Lemma sort_by_nil {A} (key : A → string) l : sort_by key l = [] ↔ l = [].
Proof.
  split; [|by intros ->]. intros Hs.
  pose proof (sort_by_Permutation key l) as Hp. rewrite Hs in Hp.
  by apply Permutation_nil_l in Hp.
Qed.

(** ** Ranging over a map

    Go's [range] over a map visits the entries in an unspecified order.  An
    instance of [MapRange] is one such order: a model parameterised by it is a
    model of every run, and a theorem that two orders give the same result is
    a theorem that the source is deterministic. *)

Class MapRange : Type := {
  range : ∀ {A}, gmap string A → list (string * A);
  range_Permutation : ∀ A (m : gmap string A), range m ≡ₚ map_to_list m;
}.

(** One order, for evaluation. *)
Definition map_to_list_range : MapRange :=
  {| range := λ A m, map_to_list m; range_Permutation := λ A m, reflexivity _ |}.

(** Another, the reverse of it. *)
Definition reverse_range : MapRange :=
  {| range := λ A m, reverse (map_to_list m);
     range_Permutation := λ A m, reverse_Permutation _ |}.

Section range.
Context {A : Type} {MR : MapRange}.
Implicit Types (m : gmap string A).

Lemma elem_of_range m k v : (k, v) ∈ range m ↔ m !! k = Some v.
Proof. by rewrite range_Permutation, elem_of_map_to_list. Qed.

Lemma range_NoDup_keys m : NoDup ((range m).*1).
Proof. rewrite range_Permutation. apply NoDup_fst_map_to_list. Qed.

Lemma list_to_map_range m : list_to_map (range m) = m.
Proof.
  rewrite (list_to_map_proper _ (map_to_list m)).
  - apply list_to_map_to_list.
  - apply range_NoDup_keys.
  - apply range_Permutation.
Qed.
End range.

Lemma range_orders {A} (MR1 MR2 : MapRange) (m : gmap string A) :
  @range MR1 A m ≡ₚ @range MR2 A m.
Proof. by rewrite !range_Permutation. Qed.
