(* ===== verification/Value.v ===== *)
(** * Dynamic values

    The Go type [interface{}] as the config generator uses it: a tree of the
    dynamic types that occur in a parsed or generated [config.yaml].  A type
    assertion [v.(T)] succeeds exactly when the dynamic type of [v] is [T], so
    [[]string] and [[]interface{}] are different constructors although they
    serialise alike. *)

From S2P Require Import Prelude.

#[local] Unset Elimination Schemes.

Inductive any : Type :=
| ANil
| AString (s : string)
| ABool (b : bool)
| AInt (z : Z)                          (* int *)
| AInt32 (z : Z)                        (* int32 *)
| AStrings (l : list string)            (* []string *)
| AList (l : list any)                  (* []interface{} *)
| AMap (m : gmap string any)            (* map[string]interface{} *)
| AStrMap (m : gmap string string)      (* map[string]string *)
| ARegisteredResources (models vectorStores : list any) (* *RegisteredResources *)
| AOther (repr : string).               (* any other dynamic type: a float, a time, ... *)

(** [map[string]interface{}] (non-nil). *)
Abbreviation object := (gmap string any).

(** Type assertions [v, ok := x.(T)]. *)
Definition as_object (v : any) : option object :=
  match v with AMap m => Some m | _ => None end.

Definition as_list (v : any) : option (list any) :=
  match v with AList l => Some l | _ => None end.

Definition as_string (v : any) : option string :=
  match v with AString s => Some s | _ => None end.

(** [m[k]] on a map of interface values: the zero value, nil, when absent. *)
Definition index (m : object) (k : string) : any := default ANil (m !! k).

Lemma index_empty k : index ∅ k = ANil.
Proof. unfold index. by rewrite lookup_empty. Qed.

(** ** Conditional assignments

    The shapes of [if cond { cfg[key] = value }] that the expanders repeat. *)

(** [if p != nil { cfg[key] = inj( *p ) }] *)
Definition set_some {A} (key : string) (inj : A → any) (p : option A) (cfg : object) : object :=
  match p with Some v => <[key := inj v]> cfg | None => cfg end.

(** [if s != "" { cfg[key] = s }] *)
Definition set_nonempty (key s : string) (cfg : object) : object :=
  if bool_decide (s = "") then cfg else <[key := AString s]> cfg.

(** [if len(l) > 0 { cfg[key] = inj(l) }] *)
Definition set_list {A} (key : string) (inj : list A → any) (l : list A) (cfg : object) : object :=
  match l with [] => cfg | _ => <[key := inj l]> cfg end.

(** [if len(m) > 0 { cfg[key] = inj(m) }] *)
Definition set_map {A} (key : string) (inj : gmap string A → any) (m : gmap string A)
    (cfg : object) : object :=
  if (size m =? 0)%nat then cfg else <[key := inj m]> cfg.

(** A nil-able map of values: [None] is the nil map. *)
Definition map_or_nil {A} (m : option (gmap string A)) : gmap string A := default ∅ m.

(** ** Lookups through conditional assignments

    The database [cfg] pushes a lookup through a sequence of assignments; the
    side conditions compare constant keys. *)

Section lookup.
Context {A : Type}.
Implicit Types (cfg : object) (k j s : string).

Lemma lookup_set_some_eq k (inj : A → any) p cfg :
  set_some k inj p cfg !! k = match p with Some v => Some (inj v) | None => cfg !! k end.
Proof. destruct p; cbn; [apply lookup_insert_eq|done]. Qed.

Lemma lookup_set_some_ne k j (inj : A → any) p cfg :
  k ≠ j → set_some k inj p cfg !! j = cfg !! j.
Proof. intros. destruct p; cbn; [by apply lookup_insert_ne|done]. Qed.

Lemma lookup_set_nonempty_eq k s cfg :
  set_nonempty k s cfg !! k = if bool_decide (s = "") then cfg !! k else Some (AString s).
Proof. unfold set_nonempty. case_bool_decide; [done|apply lookup_insert_eq]. Qed.

Lemma lookup_set_nonempty_ne k j s cfg :
  k ≠ j → set_nonempty k s cfg !! j = cfg !! j.
Proof. intros. unfold set_nonempty. case_bool_decide; [done|by apply lookup_insert_ne]. Qed.

Lemma lookup_set_list_ne k j (inj : list A → any) l cfg :
  k ≠ j → set_list k inj l cfg !! j = cfg !! j.
Proof. intros. destruct l; [done|by apply lookup_insert_ne]. Qed.

Lemma lookup_set_map_ne k j (inj : gmap string A → any) m cfg :
  k ≠ j → set_map k inj m cfg !! j = cfg !! j.
Proof. intros. unfold set_map. case_match; [done|by apply lookup_insert_ne]. Qed.

Lemma lookup_set_map_eq k (inj : gmap string A → any) m cfg :
  set_map k inj m cfg !! k = if decide (m = ∅) then cfg !! k else Some (inj m).
Proof.
  unfold set_map. destruct (decide (m = ∅)) as [->|Hm].
  - by rewrite map_size_empty.
  - destruct (Nat.eqb_spec (size m) 0) as [H0|_]; [|apply lookup_insert_eq].
    by apply map_size_empty_iff in H0.
Qed.

Lemma lookup_assign_eq k (v : A) (m : gmap string A) : <[k := v]> m !! k = Some v.
Proof. apply lookup_insert_eq. Qed.

Lemma lookup_assign_ne k j (v : A) (m : gmap string A) : k ≠ j → <[k := v]> m !! j = m !! j.
Proof. apply lookup_insert_ne. Qed.
End lookup.

Create Rewrite HintDb cfg.

#[export] Hint Rewrite @lookup_set_some_eq @lookup_set_nonempty_eq @lookup_assign_eq : cfg.
#[export] Hint Rewrite @lookup_set_some_ne @lookup_set_nonempty_ne @lookup_set_list_ne
  @lookup_set_map_ne @lookup_assign_ne using discriminate : cfg.

(** Reads a constant key from a configuration built by assignments. *)
Ltac cfg_lookup := autorewrite with cfg.
