(* ===== verification/ApiProviders.v ===== *)
(** * Provider types of the v1beta1 API

    The data of [api/v1beta1/provider_types*.go]: one record per struct, with
    the fields of the struct in order.  An optional pointer is an [option], an
    omitted slice the empty list, a nil-able map an [option (gmap ...)]; the
    embedded structs are fields.  [DeriveID] is the method of the interface
    [Provider]; [IDs] collects the IDs of a group of providers. *)

From Stdlib Require Import Ascii.
From S2P Require Import Prelude Value.

(** ** Shared structures *)

(** [SecretKeyRef]: a key of a Kubernetes Secret. *)
Record SecretKeyRef := { SKR_Name : string; SKR_Key : string }.

(** [ConfigMapKeyRef]: a key of a ConfigMap. *)
Record ConfigMapKeyRef := { CKR_Name : string; CKR_Key : string }.

#[export] Instance SecretKeyRef_eq_dec : EqDecision SecretKeyRef.
Proof. solve_decision. Defined.

(** The interface [Provider]. *)
Class Provider (A : Type) : Type := DeriveID : A → string.

Record RoutedProviderBase := { Base_ID : string }.

Definition deriveOrDefault (b : RoutedProviderBase) (defaultID : string) : string :=
  if negb (bool_decide (Base_ID b = "")) then Base_ID b else defaultID.

(** [deriveSliceIDs] maps [DeriveID] over a provider slice. *)
Definition deriveSliceIDs {A} `{Provider A} (items : list A) : list string :=
  DeriveID <$> items.

(** The raw JSON of [apiextensionsv1.JSON]; [None] is a nil [Raw]. *)
Record JSON := { JSON_Raw : option string }.

Record CustomProvider := {
  Custom_Base : RoutedProviderBase;
  Custom_Type : string;
  Custom_SecretRefs : gmap string SecretKeyRef;
  Custom_Settings : option JSON;
}.

(** [strings.ReplaceAll(s, "::", "-")]: non-overlapping, from the left. *)
Fixpoint replaceColons (s : string) : string :=
  match s with
  | String ":"%char (String ":"%char s') => String "-"%char (replaceColons s')
  | String c s' => String c (replaceColons s')
  | EmptyString => EmptyString
  end.

#[export] Instance CustomProvider_DeriveID : Provider CustomProvider := λ c,
  deriveOrDefault (Custom_Base c) (replaceColons (Custom_Type c)).

(** ** Inference: [provider_types_inference.go] *)

Record TLSConfig := {
  TLSC_Verify : option bool;
  TLSC_MinVersion : string;
  TLSC_Ciphers : list string;
}.

Record ProxyConfig := {
  Proxy_URL : option string;
  Proxy_HTTP : option string;
  Proxy_HTTPS : option string;
  Proxy_CACert : option string;
  Proxy_NoProxy : list string;
}.

Record TimeoutConfig := {
  Timeout_Connect : option Z;
  Timeout_Read : option Z;
}.

Record NetworkConfig := {
  NC_TLS : option TLSConfig;
  NC_Proxy : option ProxyConfig;
  NC_Timeout : option TimeoutConfig;
  NC_Headers : gmap string string;
}.

Record RemoteInferenceCommonConfig := {
  RIC_AllowedModels : list string;
  RIC_RefreshModels : option bool;
  RIC_Network : option NetworkConfig;
}.

Record VLLMProvider := {
  VLLM_Base : RoutedProviderBase;
  VLLM_Common : RemoteInferenceCommonConfig;
  VLLM_Endpoint : string;
  VLLM_APIToken : option SecretKeyRef;
  VLLM_MaxTokens : option Z;
}.

#[export] Instance VLLMProvider_DeriveID : Provider VLLMProvider := λ p,
  deriveOrDefault (VLLM_Base p) "remote-vllm".

Record OpenAIProvider := {
  OpenAI_Base : RoutedProviderBase;
  OpenAI_Common : RemoteInferenceCommonConfig;
  OpenAI_Endpoint : string;
  OpenAI_APIKey : SecretKeyRef;
}.

#[export] Instance OpenAIProvider_DeriveID : Provider OpenAIProvider := λ p,
  deriveOrDefault (OpenAI_Base p) "remote-openai".

Record AzureProvider := {
  Azure_Base : RoutedProviderBase;
  Azure_Common : RemoteInferenceCommonConfig;
  Azure_Endpoint : string;
  Azure_APIKey : SecretKeyRef;
  Azure_APIVersion : string;
  Azure_APIType : string;
}.

#[export] Instance AzureProvider_DeriveID : Provider AzureProvider := λ p,
  deriveOrDefault (Azure_Base p) "remote-azure".

Record BedrockProvider := {
  Bedrock_Base : RoutedProviderBase;
  Bedrock_Common : RemoteInferenceCommonConfig;
  Bedrock_Region : string;
  Bedrock_APIKey : option SecretKeyRef;
  Bedrock_AWSAccessKeyID : option SecretKeyRef;
  Bedrock_AWSSecretAccessKey : option SecretKeyRef;
  Bedrock_AWSSessionToken : option SecretKeyRef;
  Bedrock_AWSRoleArn : string;
  Bedrock_AWSWebIdentityTokenFile : string;
  Bedrock_AWSRoleSessionName : string;
  Bedrock_ProfileName : string;
  Bedrock_TotalMaxAttempts : option Z;
  Bedrock_RetryMode : string;
  Bedrock_ConnectTimeout : option Z;
  Bedrock_ReadTimeout : option Z;
  Bedrock_SessionTTL : option Z;
}.

#[export] Instance BedrockProvider_DeriveID : Provider BedrockProvider := λ p,
  deriveOrDefault (Bedrock_Base p) "remote-bedrock".

Record VertexAIProvider := {
  VertexAI_Base : RoutedProviderBase;
  VertexAI_Common : RemoteInferenceCommonConfig;
  VertexAI_Project : string;
  VertexAI_Location : string;
}.

#[export] Instance VertexAIProvider_DeriveID : Provider VertexAIProvider := λ p,
  deriveOrDefault (VertexAI_Base p) "remote-vertexai".

Record WatsonxProvider := {
  Watsonx_Base : RoutedProviderBase;
  Watsonx_Common : RemoteInferenceCommonConfig;
  Watsonx_Endpoint : string;
  Watsonx_APIKey : SecretKeyRef;
  Watsonx_ProjectID : string;
  Watsonx_Timeout : option Z;
}.

#[export] Instance WatsonxProvider_DeriveID : Provider WatsonxProvider := λ p,
  deriveOrDefault (Watsonx_Base p) "remote-watsonx".

Record InferenceRemoteProviders := {
  IR_VLLM : list VLLMProvider;
  IR_OpenAI : list OpenAIProvider;
  IR_Azure : list AzureProvider;
  IR_Bedrock : list BedrockProvider;
  IR_VertexAI : list VertexAIProvider;
  IR_Watsonx : list WatsonxProvider;
  IR_Custom : list CustomProvider;
}.

Record InferenceInlineProviders := { II_Custom : list CustomProvider }.

Record InferenceProvidersSpec := {
  Inference_Remote : option InferenceRemoteProviders;
  Inference_Inline : option InferenceInlineProviders;
}.

(** The [IDs] methods have nil receivers: a nil group has no IDs. *)
Definition InferenceRemoteProviders_IDs (r : option InferenceRemoteProviders) : list string :=
  match r with
  | None => []
  | Some r =>
      deriveSliceIDs (IR_VLLM r) ++ deriveSliceIDs (IR_OpenAI r) ++
      deriveSliceIDs (IR_Azure r) ++ deriveSliceIDs (IR_Bedrock r) ++
      deriveSliceIDs (IR_VertexAI r) ++ deriveSliceIDs (IR_Watsonx r) ++
      deriveSliceIDs (IR_Custom r)
  end.

Definition InferenceInlineProviders_IDs (i : option InferenceInlineProviders) : list string :=
  match i with None => [] | Some i => deriveSliceIDs (II_Custom i) end.

Definition InferenceProvidersSpec_IDs (s : option InferenceProvidersSpec) : list string :=
  match s with
  | None => []
  | Some s => InferenceRemoteProviders_IDs (Inference_Remote s) ++
              InferenceInlineProviders_IDs (Inference_Inline s)
  end.

(** ** Vector I/O: [provider_types_vectorio.go] *)

Record HNSWConfig := {
  HNSW_M : option Z;
  HNSW_EfConstruction : option Z;
  HNSW_EfSearch : option Z;
}.

Record IVFFlatConfig := {
  IVF_Nlist : option Z;
  IVF_Nprobe : option Z;
}.

Record VectorIndexConfig := {
  VI_HNSW : option HNSWConfig;
  VI_IVFFlat : option IVFFlatConfig;
}.

Record PgvectorProvider := {
  Pgvector_Base : RoutedProviderBase;
  Pgvector_Host : string;
  Pgvector_Port : option Z;
  Pgvector_DB : string;
  Pgvector_User : string;
  Pgvector_Password : SecretKeyRef;
  Pgvector_DistanceMetric : string;
  Pgvector_VectorIndex : option VectorIndexConfig;
}.

#[export] Instance PgvectorProvider_DeriveID : Provider PgvectorProvider := λ p,
  deriveOrDefault (Pgvector_Base p) "remote-pgvector".

Definition PersistenceNamespace (p : PgvectorProvider) : string :=
  ("vector_io::" +:+ deriveOrDefault (Pgvector_Base p) "pgvector")%string.

Record MilvusProvider := {
  Milvus_Base : RoutedProviderBase;
  Milvus_URI : string;
  Milvus_Token : option SecretKeyRef;
  Milvus_ConsistencyLevel : string;
}.

#[export] Instance MilvusProvider_DeriveID : Provider MilvusProvider := λ p,
  deriveOrDefault (Milvus_Base p) "remote-milvus".

Record QdrantProvider := {
  Qdrant_Base : RoutedProviderBase;
  Qdrant_URL : string;
  Qdrant_Host : string;
  Qdrant_Port : option Z;
  Qdrant_APIKey : option SecretKeyRef;
  Qdrant_Location : string;
  Qdrant_GRPCPort : option Z;
  Qdrant_PreferGRPC : option bool;
  Qdrant_HTTPS : option bool;
  Qdrant_Prefix : string;
  Qdrant_Timeout : option Z;
}.

#[export] Instance QdrantProvider_DeriveID : Provider QdrantProvider := λ p,
  deriveOrDefault (Qdrant_Base p) "remote-qdrant".

Record VectorIORemoteProviders := {
  VR_Pgvector : list PgvectorProvider;
  VR_Milvus : list MilvusProvider;
  VR_Qdrant : list QdrantProvider;
  VR_Custom : list CustomProvider;
}.

Record VectorIOInlineProviders := { VInl_Custom : list CustomProvider }.

Record VectorIOProvidersSpec := {
  VectorIO_Remote : option VectorIORemoteProviders;
  VectorIO_Inline : option VectorIOInlineProviders;
}.

Definition VectorIORemoteProviders_IDs (r : option VectorIORemoteProviders) : list string :=
  match r with
  | None => []
  | Some r => deriveSliceIDs (VR_Pgvector r) ++ deriveSliceIDs (VR_Milvus r) ++
              deriveSliceIDs (VR_Qdrant r) ++ deriveSliceIDs (VR_Custom r)
  end.

Definition VectorIOInlineProviders_IDs (i : option VectorIOInlineProviders) : list string :=
  match i with None => [] | Some i => deriveSliceIDs (VInl_Custom i) end.

Definition VectorIOProvidersSpec_IDs (s : option VectorIOProvidersSpec) : list string :=
  match s with
  | None => []
  | Some s => VectorIORemoteProviders_IDs (VectorIO_Remote s) ++
              VectorIOInlineProviders_IDs (VectorIO_Inline s)
  end.

(** ** Vector store and compaction settings: [provider_types_responses.go] *)

Record QualifiedModel := {
  QM_ProviderID : string;
  QM_ModelID : string;
  QM_EmbeddingDimensions : option Z;
}.

Record RerankerModel := { RM_ProviderID : string; RM_ModelID : string }.

Record RewriteQueryParams := {
  RQ_Model : option QualifiedModel;
  RQ_Prompt : string;
  RQ_MaxTokens : option Z;
  RQ_Temperature : option string;
}.

Record FileSearchDisplayParams := {
  FSD_HeaderTemplate : string;
  FSD_FooterTemplate : string;
}.

Record ContextPromptParams := {
  CP_ChunkAnnotationTemplate : string;
  CP_ContextTemplate : string;
}.

Record AnnotationPromptParams := {
  AP_EnableAnnotations : option bool;
  AP_AnnotationInstructionTemplate : string;
  AP_ChunkAnnotationTemplate : string;
}.

Record FileIngestionParams := {
  FI_DefaultChunkSizeTokens : option Z;
  FI_DefaultChunkOverlapTokens : option Z;
}.

Record ChunkRetrievalParams := {
  CR_ChunkMultiplier : option Z;
  CR_MaxTokensInContext : option Z;
  CR_DefaultRerankerStrategy : option string;
  CR_RRFImpactFactor : option string;
  CR_WeightedSearchAlpha : option string;
  CR_DefaultSearchMode : option string;
}.

Record FileBatchParams := {
  FB_MaxConcurrentFilesPerBatch : option Z;
  FB_FileBatchChunkSize : option Z;
  FB_CleanupIntervalSeconds : option Z;
}.

Record ContextualRetrievalParams := {
  CX_Model : option QualifiedModel;
  CX_DefaultTimeoutSeconds : option Z;
  CX_DefaultMaxConcurrency : option Z;
  CX_MaxDocumentTokens : option Z;
}.

Record VectorStoresConfig := {
  VS_DefaultProviderID : string;
  VS_DefaultEmbeddingModel : option QualifiedModel;
  VS_DefaultRerankerModel : option RerankerModel;
  VS_RewriteQueryParams : option RewriteQueryParams;
  VS_FileSearchParams : option FileSearchDisplayParams;
  VS_ContextPromptParams : option ContextPromptParams;
  VS_AnnotationPromptParams : option AnnotationPromptParams;
  VS_FileIngestionParams : option FileIngestionParams;
  VS_ChunkRetrievalParams : option ChunkRetrievalParams;
  VS_FileBatchParams : option FileBatchParams;
  VS_ContextualRetrievalParams : option ContextualRetrievalParams;
}.

Record CompactionConfig := {
  CC_SummarizationPrompt : string;
  CC_SummaryPrefix : string;
  CC_SummarizationModel : string;
  CC_DefaultCompactThreshold : option Z;
  CC_TokenizerEncoding : string;
}.

Record InlineBuiltinResponsesProvider := {
  Builtin_VectorStoresConfig : option VectorStoresConfig;
  Builtin_CompactionConfig : option CompactionConfig;
}.

#[export] Instance InlineBuiltinResponsesProvider_DeriveID :
  Provider InlineBuiltinResponsesProvider := λ _, "inline-builtin".

Record ResponsesRemoteProviders := { RR_Custom : list CustomProvider }.

Record ResponsesInlineProviders := {
  RI_Builtin : option InlineBuiltinResponsesProvider;
  RI_Custom : list CustomProvider;
}.

Record ResponsesProvidersSpec := {
  Responses_Remote : option ResponsesRemoteProviders;
  Responses_Inline : option ResponsesInlineProviders;
}.

(** [if p != nil { ids = append(ids, p.DeriveID()) }] *)
Definition pointerID {A} `{Provider A} (p : option A) : list string :=
  match p with Some p => [DeriveID p] | None => [] end.

Definition ResponsesRemoteProviders_IDs (r : option ResponsesRemoteProviders) : list string :=
  match r with None => [] | Some r => deriveSliceIDs (RR_Custom r) end.

Definition ResponsesInlineProviders_IDs (i : option ResponsesInlineProviders) : list string :=
  match i with
  | None => []
  | Some i => pointerID (RI_Builtin i) ++ deriveSliceIDs (RI_Custom i)
  end.

Definition ResponsesProvidersSpec_IDs (s : option ResponsesProvidersSpec) : list string :=
  match s with
  | None => []
  | Some s => ResponsesRemoteProviders_IDs (Responses_Remote s) ++
              ResponsesInlineProviders_IDs (Responses_Inline s)
  end.

(** ** Tool runtime: [provider_types_toolruntime.go] *)

Record BraveSearchProvider := {
  Brave_Base : RoutedProviderBase;
  Brave_APIKey : SecretKeyRef;
  Brave_MaxResults : option Z;
}.

#[export] Instance BraveSearchProvider_DeriveID : Provider BraveSearchProvider := λ p,
  deriveOrDefault (Brave_Base p) "remote-brave-search".

Record TavilySearchProvider := {
  Tavily_Base : RoutedProviderBase;
  Tavily_APIKey : SecretKeyRef;
  Tavily_MaxResults : option Z;
}.

#[export] Instance TavilySearchProvider_DeriveID : Provider TavilySearchProvider := λ p,
  deriveOrDefault (Tavily_Base p) "remote-tavily-search".

Record ModelContextProtocolProvider := { MCP_Base : RoutedProviderBase }.

#[export] Instance ModelContextProtocolProvider_DeriveID :
  Provider ModelContextProtocolProvider := λ p,
  deriveOrDefault (MCP_Base p) "remote-model-context-protocol".

Record InlineFileSearchProvider := {
  FileSearch_Base : RoutedProviderBase;
  FileSearch_VectorStoresConfig : option VectorStoresConfig;
}.

#[export] Instance InlineFileSearchProvider_DeriveID : Provider InlineFileSearchProvider := λ p,
  deriveOrDefault (FileSearch_Base p) "inline-file-search".

Record ToolRuntimeRemoteProviders := {
  TR_BraveSearch : list BraveSearchProvider;
  TR_TavilySearch : list TavilySearchProvider;
  TR_ModelContextProtocol : list ModelContextProtocolProvider;
  TR_Custom : list CustomProvider;
}.

Record ToolRuntimeInlineProviders := {
  TI_FileSearch : list InlineFileSearchProvider;
  TI_Custom : list CustomProvider;
}.

Record ToolRuntimeProvidersSpec := {
  ToolRuntime_Remote : option ToolRuntimeRemoteProviders;
  ToolRuntime_Inline : option ToolRuntimeInlineProviders;
}.

Definition ToolRuntimeRemoteProviders_IDs (r : option ToolRuntimeRemoteProviders) : list string :=
  match r with
  | None => []
  | Some r => deriveSliceIDs (TR_BraveSearch r) ++ deriveSliceIDs (TR_TavilySearch r) ++
              deriveSliceIDs (TR_ModelContextProtocol r) ++ deriveSliceIDs (TR_Custom r)
  end.

Definition ToolRuntimeInlineProviders_IDs (i : option ToolRuntimeInlineProviders) : list string :=
  match i with
  | None => []
  | Some i => deriveSliceIDs (TI_FileSearch i) ++ deriveSliceIDs (TI_Custom i)
  end.

Definition ToolRuntimeProvidersSpec_IDs (s : option ToolRuntimeProvidersSpec) : list string :=
  match s with
  | None => []
  | Some s => ToolRuntimeRemoteProviders_IDs (ToolRuntime_Remote s) ++
              ToolRuntimeInlineProviders_IDs (ToolRuntime_Inline s)
  end.

(** ** Files: [provider_types_files.go] *)

Record S3Provider := {
  S3_BucketName : string;
  S3_Region : string;
  S3_AWSAccessKeyID : option SecretKeyRef;
  S3_AWSSecretAccessKey : option SecretKeyRef;
  S3_EndpointURL : string;
  S3_AutoCreateBucket : option bool;
}.

#[export] Instance S3Provider_DeriveID : Provider S3Provider := λ _, "remote-s3".

Record InlineLocalFSProvider := { LocalFS_TTLSecs : option Z }.

#[export] Instance InlineLocalFSProvider_DeriveID : Provider InlineLocalFSProvider := λ _,
  "inline-localfs".

Record FilesRemoteProviders := {
  FR_S3 : option S3Provider;
  FR_Custom : list CustomProvider;
}.

Record FilesInlineProviders := {
  FIn_LocalFS : option InlineLocalFSProvider;
  FIn_Custom : list CustomProvider;
}.

Record FilesProvidersSpec := {
  Files_Remote : option FilesRemoteProviders;
  Files_Inline : option FilesInlineProviders;
}.

Definition FilesRemoteProviders_IDs (r : option FilesRemoteProviders) : list string :=
  match r with
  | None => []
  | Some r => pointerID (FR_S3 r) ++ deriveSliceIDs (FR_Custom r)
  end.

Definition FilesInlineProviders_IDs (i : option FilesInlineProviders) : list string :=
  match i with
  | None => []
  | Some i => pointerID (FIn_LocalFS i) ++ deriveSliceIDs (FIn_Custom i)
  end.

Definition FilesProvidersSpec_IDs (s : option FilesProvidersSpec) : list string :=
  match s with
  | None => []
  | Some s => FilesRemoteProviders_IDs (Files_Remote s) ++
              FilesInlineProviders_IDs (Files_Inline s)
  end.

(** ** Batches: [provider_types_batches.go] *)

Record InlineReferenceProvider := {
  Reference_MaxConcurrentBatches : option Z;
  Reference_MaxConcurrentRequestsPerBatch : option Z;
}.

#[export] Instance InlineReferenceProvider_DeriveID : Provider InlineReferenceProvider := λ _,
  "inline-reference".

Record BatchesRemoteProviders := { BR_Custom : list CustomProvider }.

Record BatchesInlineProviders := {
  BI_Reference : option InlineReferenceProvider;
  BI_Custom : list CustomProvider;
}.

Record BatchesProvidersSpec := {
  Batches_Remote : option BatchesRemoteProviders;
  Batches_Inline : option BatchesInlineProviders;
}.

Definition BatchesRemoteProviders_IDs (r : option BatchesRemoteProviders) : list string :=
  match r with None => [] | Some r => deriveSliceIDs (BR_Custom r) end.

Definition BatchesInlineProviders_IDs (i : option BatchesInlineProviders) : list string :=
  match i with
  | None => []
  | Some i => pointerID (BI_Reference i) ++ deriveSliceIDs (BI_Custom i)
  end.

Definition BatchesProvidersSpec_IDs (s : option BatchesProvidersSpec) : list string :=
  match s with
  | None => []
  | Some s => BatchesRemoteProviders_IDs (Batches_Remote s) ++
              BatchesInlineProviders_IDs (Batches_Inline s)
  end.

(** ** File processors: [provider_types_fileprocessors.go] *)

Record FileProcessorChunkConfig := {
  Chunk_DefaultChunkSizeTokens : option Z;
  Chunk_DefaultChunkOverlapTokens : option Z;
}.

Record InlineAutoFileProcessorProvider := {
  Auto_Chunk : FileProcessorChunkConfig;
  Auto_ExtractMetadata : option bool;
  Auto_CleanText : option bool;
}.

#[export] Instance InlineAutoFileProcessorProvider_DeriveID :
  Provider InlineAutoFileProcessorProvider := λ _, "inline-auto".

Record InlinePyPDFFileProcessorProvider := {
  PyPDF_Chunk : FileProcessorChunkConfig;
  PyPDF_ExtractMetadata : option bool;
  PyPDF_CleanText : option bool;
}.

#[export] Instance InlinePyPDFFileProcessorProvider_DeriveID :
  Provider InlinePyPDFFileProcessorProvider := λ _, "inline-pypdf".

Record InlineMarkItDownFileProcessorProvider := { MarkItDown_Chunk : FileProcessorChunkConfig }.

#[export] Instance InlineMarkItDownFileProcessorProvider_DeriveID :
  Provider InlineMarkItDownFileProcessorProvider := λ _, "inline-markitdown".

Record InlineDoclingFileProcessorProvider := {
  Docling_Chunk : FileProcessorChunkConfig;
  Docling_DoOCR : option bool;
}.

#[export] Instance InlineDoclingFileProcessorProvider_DeriveID :
  Provider InlineDoclingFileProcessorProvider := λ _, "inline-docling".

Record DoclingServeProvider := {
  DoclingServe_BaseURL : string;
  DoclingServe_APIKey : option SecretKeyRef;
  DoclingServe_DefaultChunkSizeTokens : option Z;
}.

#[export] Instance DoclingServeProvider_DeriveID : Provider DoclingServeProvider := λ _,
  "remote-docling-serve".

Record FileProcessorsRemoteProviders := {
  FPR_DoclingServe : option DoclingServeProvider;
  FPR_Custom : list CustomProvider;
}.

Record FileProcessorsInlineProviders := {
  FPI_Auto : option InlineAutoFileProcessorProvider;
  FPI_PyPDF : option InlinePyPDFFileProcessorProvider;
  FPI_MarkItDown : option InlineMarkItDownFileProcessorProvider;
  FPI_Docling : option InlineDoclingFileProcessorProvider;
  FPI_Custom : list CustomProvider;
}.

Record FileProcessorsProvidersSpec := {
  FileProcessors_Remote : option FileProcessorsRemoteProviders;
  FileProcessors_Inline : option FileProcessorsInlineProviders;
}.

Definition FileProcessorsRemoteProviders_IDs
    (r : option FileProcessorsRemoteProviders) : list string :=
  match r with
  | None => []
  | Some r => pointerID (FPR_DoclingServe r) ++ deriveSliceIDs (FPR_Custom r)
  end.

Definition FileProcessorsInlineProviders_IDs
    (i : option FileProcessorsInlineProviders) : list string :=
  match i with
  | None => []
  | Some i =>
      pointerID (FPI_Auto i) ++ pointerID (FPI_PyPDF i) ++ pointerID (FPI_MarkItDown i) ++
      pointerID (FPI_Docling i) ++ deriveSliceIDs (FPI_Custom i)
  end.

Definition FileProcessorsProvidersSpec_IDs
    (s : option FileProcessorsProvidersSpec) : list string :=
  match s with
  | None => []
  | Some s => FileProcessorsRemoteProviders_IDs (FileProcessors_Remote s) ++
              FileProcessorsInlineProviders_IDs (FileProcessors_Inline s)
  end.

(** ** All providers: [provider_types.go] *)

Record ProvidersSpec := {
  PS_Inference : option InferenceProvidersSpec;
  PS_VectorIo : option VectorIOProvidersSpec;
  PS_ToolRuntime : option ToolRuntimeProvidersSpec;
  PS_Files : option FilesProvidersSpec;
  PS_Batches : option BatchesProvidersSpec;
  PS_Responses : option ResponsesProvidersSpec;
  PS_FileProcessors : option FileProcessorsProvidersSpec;
}.

Definition ProvidersSpec_IDs (s : option ProvidersSpec) : list string :=
  match s with
  | None => []
  | Some s =>
      InferenceProvidersSpec_IDs (PS_Inference s) ++ VectorIOProvidersSpec_IDs (PS_VectorIo s) ++
      ToolRuntimeProvidersSpec_IDs (PS_ToolRuntime s) ++ FilesProvidersSpec_IDs (PS_Files s) ++
      BatchesProvidersSpec_IDs (PS_Batches s) ++ ResponsesProvidersSpec_IDs (PS_Responses s) ++
      FileProcessorsProvidersSpec_IDs (PS_FileProcessors s)
  end.
