(* ===== verification/ApiServer.v ===== *)
(** * The OGXServer custom resource

    The data and methods of [api/v1beta1/ogxserver_types.go].  Values whose
    type is declared by Kubernetes and which the operator only passes on
    (resource requirements, probes, network-policy rules, ...) are their JSON
    tree, of type [any]; a [resource.Quantity] is its text and a [metav1.Time]
    a number of seconds. *)

From Stdlib Require Import Ascii.
From S2P Require Import Prelude Value ApiProviders.

(** ** Constants *)

Definition DefaultServerPort : Z := 8321.
Definition DefaultLabelKey : string := "app".
Definition DefaultLabelValue : string := "ogx".
Definition AdoptedFromLabel : string := "ogx.io/adopted-from".
Definition AdoptedAtAnnotation : string := "ogx.io/adopted-at".
Definition DefaultPraxisPodLabelKey : string := "app.kubernetes.io/name".
Definition DefaultPraxisPodLabelValue : string := "praxis-gateway".
Definition DefaultPraxisNamespace : string := "praxis-standalone".
Definition DefaultNamespaceNameLabel : string := "kubernetes.io/metadata.name".
Definition AdoptStorageAnnotation : string := "ogx.io/adopt-storage".
Definition AdoptNetworkingAnnotation : string := "ogx.io/adopt-networking".

(** ** The specification *)

Record DistributionSpec := { Dist_Name : string; Dist_Image : string }.

Record ModelConfig := {
  Model_Name : string;
  Model_Provider : string;
  Model_ContextLength : option Z;
  Model_ModelType : string;
  Model_Quantization : string;
}.

Record ResourcesSpec := { Resources_Models : list ModelConfig }.

Record KVStorageSpec := {
  KV_Type : string;
  KV_Endpoint : string;
  KV_Password : option SecretKeyRef;
}.

Record SQLStorageSpec := {
  SQL_Type : string;
  SQL_ConnectionString : option SecretKeyRef;
}.

Record StateStorageSpec := {
  Storage_KV : option KVStorageSpec;
  Storage_SQL : option SQLStorageSpec;
}.

Record TLSSpec := { TLS_SecretName : string }.

#[export] Instance TLSSpec_eq_dec : EqDecision TLSSpec.
Proof. solve_decision. Defined.

Record TrustConfig := { Trust_CACertificates : list ConfigMapKeyRef }.

Record IdentityConfig := { Identity_Cert : ConfigMapKeyRef; Identity_Key : SecretKeyRef }.

Record TLSClientConfig := {
  TLSClient_Trust : option TrustConfig;
  TLSClient_Identity : option IdentityConfig;
}.

Record NetworkPolicySpec := {
  NP_Enabled : option bool;
  NP_PolicyTypes : list string;
  NP_Ingress : list any;   (* []networkingv1.NetworkPolicyIngressRule *)
  NP_Egress : list any;    (* []networkingv1.NetworkPolicyEgressRule *)
}.

Record ExternalAccessConfig := {
  EA_Enabled : bool;
  EA_Hostname : string;
  EA_TLS : option TLSSpec;
}.

#[export] Instance ExternalAccessConfig_eq_dec : EqDecision ExternalAccessConfig.
Proof. solve_decision. Defined.

Record NetworkSpec := {
  Net_Port : Z;
  Net_TLS : option TLSSpec;
  Net_ExternalAccess : option ExternalAccessConfig;
  Net_Policy : option NetworkPolicySpec;
}.

Record MonitoringSpec := { Mon_Enabled : option bool; Mon_MetricsPort : option Z }.

Record PVCStorageSpec := { PVC_Size : option string; PVC_MountPath : string }.

Record PodDisruptionBudgetSpec := {
  PDB_MinAvailable : option any;
  PDB_MaxUnavailable : option any;
}.

Record AutoscalingSpec := {
  AS_MinReplicas : option Z;
  AS_MaxReplicas : Z;
  AS_TargetCPUUtilizationPercentage : option Z;
  AS_TargetMemoryUtilizationPercentage : option Z;
}.

(** [corev1.Volume]: the sources the webhook names, each by the JSON of its
    settings, and any other source by its kind. *)
Record VolumeSource := {
  Vol_ConfigMap : option string;
  Vol_Secret : option string;
  Vol_EmptyDir : option string;
  Vol_PersistentVolumeClaim : option string;
  Vol_Projected : option string;
  Vol_DownwardAPI : option string;
  Vol_Other : option (string * string);
}.

Record Volume := { Vol_Name : string; Vol_Source : VolumeSource }.

#[export] Instance VolumeSource_eq_dec : EqDecision VolumeSource.
Proof. solve_decision. Defined.

#[export] Instance Volume_eq_dec : EqDecision Volume.
Proof. solve_decision. Defined.

(** [corev1.EnvVar]; a source other than a Secret key is kept as JSON. *)
Record SecretKeySelector := { Sel_Name : string; Sel_Key : string }.

#[export] Instance SecretKeySelector_eq_dec : EqDecision SecretKeySelector.
Proof. solve_decision. Defined.

Record EnvVarSource := {
  Src_SecretKeyRef : option SecretKeySelector;
  Src_Other : option any;
}.

Record EnvVar := {
  Env_Name : string;
  Env_Value : string;
  Env_ValueFrom : option EnvVarSource;
}.

Record WorkloadOverrides := {
  WO_ServiceAccountName : string;
  WO_Env : list EnvVar;
  WO_Command : list string;
  WO_Args : list string;
  WO_Volumes : list Volume;
  WO_VolumeMounts : list any;
}.

(** [corev1.ResourceRequirements]: a quantity is the text it was parsed from. *)
Record ResourceRequirements := {
  RR_Limits : gmap string string;
  RR_Requests : gmap string string;
  RR_Claims : list any;
}.

Record WorkloadSpec := {
  WL_Replicas : option Z;
  WL_Workers : option Z;
  WL_Resources : option ResourceRequirements;
  WL_ResourceClaims : list any;
  WL_Autoscaling : option AutoscalingSpec;
  WL_Storage : option PVCStorageSpec;
  WL_PodDisruptionBudget : option PodDisruptionBudgetSpec;
  WL_TopologySpreadConstraints : list any;
  WL_Overrides : option WorkloadOverrides;
}.

(** [metav1.LabelSelector] *)
Record LabelSelectorRequirement := {
  Req_Key : string;
  Req_Operator : string;
  Req_Values : list string;
}.

Record LabelSelector := {
  LS_MatchLabels : gmap string string;
  LS_MatchExpressions : list LabelSelectorRequirement;
}.

Record PraxisSelector := {
  PSel_Namespace : string;
  PSel_PodSelector : LabelSelector;
}.

Record MigrationJobSpec := {
  MJ_Enabled : option bool;
  MJ_TargetConnectionString : option SecretKeyRef;
  MJ_FallbackTenant : string;
  MJ_FallbackOwnerSubject : string;
}.

Record PraxisModeSpec := {
  Praxis_Enabled : option bool;
  Praxis_PraxisSelector : option PraxisSelector;
  Praxis_MigrationJob : option MigrationJobSpec;
}.

Record OGXServerSpec := {
  Spec_Distribution : DistributionSpec;
  Spec_Providers : option ProvidersSpec;
  Spec_Resources : option ResourcesSpec;
  Spec_Storage : option StateStorageSpec;
  Spec_DisabledAPIs : list string;
  Spec_RegistryRefreshIntervalSeconds : option Z;
  Spec_Network : option NetworkSpec;
  Spec_TLS : option TLSClientConfig;
  Spec_Workload : option WorkloadSpec;
  Spec_Monitoring : option MonitoringSpec;
  Spec_BaseConfig : option ConfigMapKeyRef;
  Spec_OverrideConfig : option ConfigMapKeyRef;
  Spec_PraxisMode : option PraxisModeSpec;
}.

(** [metav1.ObjectMeta]: the part the operator reads. *)
Record ObjectMeta := {
  Meta_Name : string;
  Meta_Namespace : string;
  Meta_UID : string;
  Meta_Generation : Z;
  Meta_Annotations : gmap string string;
  Meta_Labels : gmap string string;
}.

Record OGXServer := { Server_Meta : ObjectMeta; Server_Spec : OGXServerSpec }.

Definition Server_Name (r : OGXServer) : string := Meta_Name (Server_Meta r).

(** ** Schema validation

    The [XValidation] rules of the CRD: what the API server guarantees of any
    object the operator sees.  [has(self.f)] of a string field is [f <> ""]. *)

Definition KVStorageSpec_valid (kv : KVStorageSpec) : Prop :=
  (KV_Type kv = "redis" → KV_Endpoint kv ≠ "") ∧
  (KV_Endpoint kv ≠ "" → KV_Type kv = "redis") ∧
  (KV_Password kv ≠ None → KV_Type kv = "redis").

Definition SQLStorageSpec_valid (sql : SQLStorageSpec) : Prop :=
  (SQL_Type sql = "postgres" → SQL_ConnectionString sql ≠ None) ∧
  (SQL_ConnectionString sql ≠ None → SQL_Type sql = "postgres").

(** ** Methods *)

Definition IsPraxisModeEnabled (s : OGXServerSpec) : bool :=
  match Spec_PraxisMode s with
  | None => false
  | Some pm => match Praxis_Enabled pm with None => true | Some b => b end
  end.

Definition HasOverrideConfig (r : OGXServer) : bool :=
  match Spec_OverrideConfig (Server_Spec r) with
  | None => false
  | Some oc => negb (bool_decide (CKR_Name oc = "")) && negb (bool_decide (CKR_Key oc = ""))
  end.

Definition HasDeclarativeConfig (r : OGXServer) : bool :=
  let s := Server_Spec r in
  bool_decide (is_Some (Spec_Providers s)) || bool_decide (is_Some (Spec_Resources s)) ||
  bool_decide (is_Some (Spec_Storage s)) || negb (length (Spec_DisabledAPIs s) =? 0)%nat.

Definition GetAdoptStorageSource (r : OGXServer) : string :=
  default "" (Meta_Annotations (Server_Meta r) !! AdoptStorageAnnotation).

Definition GetAdoptNetworkingSource (r : OGXServer) : string :=
  default "" (Meta_Annotations (Server_Meta r) !! AdoptNetworkingAnnotation).

(** The characters of [dns1123LabelRegex]. *)
Definition isDNSAlnum (c : ascii) : bool := in_range "a" "z" c || in_range "0" "9" c.

Definition isDNSChar (c : ascii) : bool := isDNSAlnum c || bool_decide (c = "-"%char).

Definition dns1123LabelMaxLen : nat := 63.

(** The regular expression [^[a-z0-9]([a-z0-9\-]{0,61}[a-z0-9])?$]: a first
    character, then nothing or at most 61 characters and a last one. *)
Definition dns1123LabelMatch (s : string) : bool :=
  match chars s with
  | [] => false
  | c :: rest =>
      isDNSAlnum c &&
      match reverse rest with
      | [] => true
      | z :: mid => isDNSAlnum z && (length mid <=? 61)%nat && forallb isDNSChar mid
      end
  end.

Definition ValidateAdoptionAnnotation (value : string) : result unit :=
  if bool_decide (value = "") then
    Err (New "failed to validate adoption annotation: value must not be empty")
  else if (dns1123LabelMaxLen <? String.length value)%nat then
    Err (Errorf "failed to validate adoption annotation: value %q exceeds %d characters" [value; "63"])
  else if negb (dns1123LabelMatch value) then
    Err (Errorf "failed to validate adoption annotation: value %q is not a valid RFC 1123 DNS label"
           [value])
  else Ok tt.

Definition GetEffectivePVCName (r : OGXServer) : string :=
  let src := GetAdoptStorageSource r in
  if negb (bool_decide (src = "")) && is_ok (ValidateAdoptionAnnotation src)
  then (src +:+ "-pvc")%string
  else (Server_Name r +:+ "-pvc")%string.
