(* ===== verification/Secret.v ===== *)
(** * Secret references and environment variables

    The package file [pkg/config/secret.go]: the environment variables that
    carry the secrets a spec refers to, their names, and the check that two
    secrets never claim one name. *)

From Stdlib Require Import Ascii.
From S2P Require Import Prelude Value ApiProviders ApiServer.

Definition envVarPrefix : string := "OGX".

(** ** Environment variable names *)

Definition isEnvVarAlphaNum (r : ascii) : bool := in_range "A" "Z" r || in_range "0" "9" r.

(** [strings.ToUpper] on the bytes of a string.  Two non-ASCII letters have an
    ASCII upper case: U+0131 (dotless i, bytes C4 B1) and U+017F (long s, bytes
    C5 BF).  Every other non-ASCII rune has a non-ASCII upper case; it is left
    as it is, since the next step replaces either form by an underscore. *)
Definition upperByte (c : ascii) : ascii :=
  if in_range "a" "z" c then ascii_of_nat (nat_of_ascii c - 32) else c.

Fixpoint toUpper (l : list ascii) : list ascii :=
  match l with
  | "196"%char :: "177"%char :: l' => "I"%char :: toUpper l'
  | "197"%char :: "191"%char :: l' => "S"%char :: toUpper l'
  | c :: l' => upperByte c :: toUpper l'
  | [] => []
  end.

(** The loop of [trimAndCollapseToUnderscore]: each maximal run of other
    characters becomes one underscore. *)
Fixpoint collapse (l : list ascii) (lastUnderscore : bool) : list ascii :=
  match l with
  | [] => []
  | r :: l' =>
      if isEnvVarAlphaNum r then r :: collapse l' false
      else if lastUnderscore then collapse l' true
      else "_"%char :: collapse l' true
  end.

(** [strings.Trim(s, "_")] *)
Fixpoint trimLeft (l : list ascii) : list ascii :=
  match l with
  | "_"%char :: l' => trimLeft l'
  | _ => l
  end.

Definition trimUnderscores (l : list ascii) : list ascii :=
  reverse (trimLeft (reverse (trimLeft l))).

Definition trimAndCollapseToUnderscore (l : list ascii) : list ascii :=
  trimUnderscores (collapse l false).

Definition ensureValidEnvVarPrefix (l : list ascii) : list ascii :=
  match l with
  | [] => ["_"%char]
  | c :: _ => if in_range "0" "9" c then "_"%char :: l else l
  end.

Definition normalizeEnvVarField (s : string) : string :=
  of_chars (ensureValidEnvVarPrefix (trimAndCollapseToUnderscore (toUpper (chars s)))).

(** [buildEnvVarName] constructs OGX_<PROVIDER_ID>_<FIELD>. *)
Definition buildEnvVarName (providerID field : string) : string :=
  (envVarPrefix +:+ "_" +:+ normalizeEnvVarField providerID +:+ "_" +:+ field)%string.

(** The substitution ["${env.NAME}"]. *)
Definition envSubst (name : string) : string := ("${env." +:+ name +:+ "}")%string.

Definition envVarRef (providerID field : string) : string :=
  envSubst (buildEnvVarName providerID field).

(** [envVarNameRegex]: [^[A-Z_][A-Z0-9_]*$]. *)
Definition isEnvVarChar (c : ascii) : bool := isEnvVarAlphaNum c || bool_decide (c = "_"%char).

Definition envVarNameMatch (name : string) : bool :=
  match chars name with
  | [] => false
  | c :: l => isEnvVarChar c && negb (in_range "0" "9" c) && forallb isEnvVarChar l
  end.

(** ** The environment variables of a spec *)

Definition secretSource (ref : SecretKeyRef) : option EnvVarSource :=
  Some {| Src_SecretKeyRef := Some {| Sel_Name := SKR_Name ref; Sel_Key := SKR_Key ref |};
          Src_Other := None |}.

Definition secretToEnvVar (providerID field : string) (ref : SecretKeyRef) : EnvVar :=
  {| Env_Name := buildEnvVarName providerID field;
     Env_Value := "";
     Env_ValueFrom := secretSource ref |}.

(** [if ref != nil { envVars = append(envVars, secretToEnvVar(id, field, *ref)) }] *)
Definition optSecret (providerID field : string) (ref : option SecretKeyRef) : list EnvVar :=
  match ref with Some ref => [secretToEnvVar providerID field ref] | None => [] end.

Section collect.
  Context {MR : MapRange}.

Definition collectCustomProviderSecrets (p : CustomProvider) : list EnvVar :=
  let keys := sort_strings ((range (Custom_SecretRefs p)).*1) in
  flat_map (λ key,
    (* key was read from the map, so the lookup succeeds *)
    optSecret (DeriveID p) (normalizeEnvVarField key) (Custom_SecretRefs p !! key)) keys.

Definition collectBedrockSecrets (p : BedrockProvider) : list EnvVar :=
  let id := DeriveID p in
  optSecret id "API_KEY" (Bedrock_APIKey p) ++
  optSecret id "AWS_ACCESS_KEY_ID" (Bedrock_AWSAccessKeyID p) ++
  optSecret id "AWS_SECRET_ACCESS_KEY" (Bedrock_AWSSecretAccessKey p) ++
  optSecret id "AWS_SESSION_TOKEN" (Bedrock_AWSSessionToken p).

Definition collectRemoteInferenceSecrets (remote : InferenceRemoteProviders) : list EnvVar :=
  flat_map (λ p, optSecret (DeriveID p) "API_TOKEN" (VLLM_APIToken p)) (IR_VLLM remote) ++
  flat_map (λ p, [secretToEnvVar (DeriveID p) "API_KEY" (OpenAI_APIKey p)]) (IR_OpenAI remote) ++
  flat_map (λ p, [secretToEnvVar (DeriveID p) "API_KEY" (Azure_APIKey p)]) (IR_Azure remote) ++
  flat_map collectBedrockSecrets (IR_Bedrock remote) ++
  flat_map (λ p, [secretToEnvVar (DeriveID p) "API_KEY" (Watsonx_APIKey p)]) (IR_Watsonx remote) ++
  flat_map collectCustomProviderSecrets (IR_Custom remote).

(** [if spec.X != nil { envVars = append(envVars, collect(spec.X)...) }] *)
Definition collectOpt {A} (f : A → list EnvVar) (o : option A) : list EnvVar :=
  match o with Some a => f a | None => [] end.

Definition collectInferenceSecrets (spec : InferenceProvidersSpec) : list EnvVar :=
  collectOpt collectRemoteInferenceSecrets (Inference_Remote spec) ++
  collectOpt (λ i, flat_map collectCustomProviderSecrets (II_Custom i)) (Inference_Inline spec).

Definition collectVectorIOSecrets (spec : VectorIOProvidersSpec) : list EnvVar :=
  collectOpt (λ r,
    flat_map (λ p, [secretToEnvVar (DeriveID p) "PASSWORD" (Pgvector_Password p)]) (VR_Pgvector r) ++
    flat_map (λ p, optSecret (DeriveID p) "TOKEN" (Milvus_Token p)) (VR_Milvus r) ++
    flat_map (λ p, optSecret (DeriveID p) "API_KEY" (Qdrant_APIKey p)) (VR_Qdrant r) ++
    flat_map collectCustomProviderSecrets (VR_Custom r)) (VectorIO_Remote spec) ++
  collectOpt (λ i, flat_map collectCustomProviderSecrets (VInl_Custom i)) (VectorIO_Inline spec).

Definition collectToolRuntimeSecrets (spec : ToolRuntimeProvidersSpec) : list EnvVar :=
  collectOpt (λ r,
    flat_map (λ p, [secretToEnvVar (DeriveID p) "API_KEY" (Brave_APIKey p)]) (TR_BraveSearch r) ++
    flat_map (λ p, [secretToEnvVar (DeriveID p) "API_KEY" (Tavily_APIKey p)]) (TR_TavilySearch r) ++
    flat_map collectCustomProviderSecrets (TR_Custom r)) (ToolRuntime_Remote spec) ++
  collectOpt (λ i, flat_map collectCustomProviderSecrets (TI_Custom i)) (ToolRuntime_Inline spec).

Definition collectFilesSecrets (spec : FilesProvidersSpec) : list EnvVar :=
  collectOpt (λ r,
    collectOpt (λ p,
      optSecret (DeriveID p) "AWS_ACCESS_KEY_ID" (S3_AWSAccessKeyID p) ++
      optSecret (DeriveID p) "AWS_SECRET_ACCESS_KEY" (S3_AWSSecretAccessKey p)) (FR_S3 r) ++
    flat_map collectCustomProviderSecrets (FR_Custom r)) (Files_Remote spec) ++
  collectOpt (λ i, flat_map collectCustomProviderSecrets (FIn_Custom i)) (Files_Inline spec).

Definition collectFileProcessorsSecrets (spec : FileProcessorsProvidersSpec) : list EnvVar :=
  collectOpt (λ r,
    collectOpt (λ p, optSecret (DeriveID p) "API_KEY" (DoclingServe_APIKey p))
      (FPR_DoclingServe r) ++
    flat_map collectCustomProviderSecrets (FPR_Custom r)) (FileProcessors_Remote spec) ++
  collectOpt (λ i, flat_map collectCustomProviderSecrets (FPI_Custom i)) (FileProcessors_Inline spec).

Definition collectCustomSecretsFromSlices (remote inline : list CustomProvider) : list EnvVar :=
  flat_map collectCustomProviderSecrets remote ++ flat_map collectCustomProviderSecrets inline.

Definition collectBatchesSecrets (spec : BatchesProvidersSpec) : list EnvVar :=
  collectCustomSecretsFromSlices
    (match Batches_Remote spec with Some r => BR_Custom r | None => [] end)
    (match Batches_Inline spec with Some i => BI_Custom i | None => [] end).

Definition collectResponsesSecrets (spec : ResponsesProvidersSpec) : list EnvVar :=
  collectCustomSecretsFromSlices
    (match Responses_Remote spec with Some r => RR_Custom r | None => [] end)
    (match Responses_Inline spec with Some i => RI_Custom i | None => [] end).

Definition collectProviderSecrets (providers : ProvidersSpec) : list EnvVar :=
  collectOpt collectInferenceSecrets (PS_Inference providers) ++
  collectOpt collectVectorIOSecrets (PS_VectorIo providers) ++
  collectOpt collectToolRuntimeSecrets (PS_ToolRuntime providers) ++
  collectOpt collectFilesSecrets (PS_Files providers) ++
  collectOpt collectBatchesSecrets (PS_Batches providers) ++
  collectOpt collectResponsesSecrets (PS_Responses providers) ++
  collectOpt collectFileProcessorsSecrets (PS_FileProcessors providers).

Definition storageKVPasswordEnv : string := (envVarPrefix +:+ "_STORAGE_KV_PASSWORD")%string.
Definition storageSQLConnectionEnv : string :=
  (envVarPrefix +:+ "_STORAGE_SQL_CONNECTION_STRING")%string.

Definition collectStorageSecrets (storage : StateStorageSpec) : list EnvVar :=
  collectOpt (λ kv,
    collectOpt (λ ref,
      [{| Env_Name := storageKVPasswordEnv; Env_Value := ""; Env_ValueFrom := secretSource ref |}])
      (KV_Password kv)) (Storage_KV storage) ++
  collectOpt (λ sql,
    collectOpt (λ ref,
      [{| Env_Name := storageSQLConnectionEnv; Env_Value := ""; Env_ValueFrom := secretSource ref |}])
      (SQL_ConnectionString sql)) (Storage_SQL storage).

Definition collectSecretRefsRaw (spec : OGXServerSpec) : list EnvVar :=
  collectOpt collectProviderSecrets (Spec_Providers spec) ++
  collectOpt collectStorageSecrets (Spec_Storage spec).

Definition addUniqueEnvVars (dst : gmap string EnvVar) (envVars : list EnvVar) : gmap string EnvVar :=
  foldl (λ dst env,
    match dst !! Env_Name env with
    | Some _ => dst
    | None => <[Env_Name env := env]> dst
    end) dst envVars.

Definition CollectSecretRefs (spec : OGXServerSpec) : list EnvVar :=
  let unique := addUniqueEnvVars ∅ (collectSecretRefsRaw spec) in
  sort_by Env_Name ((range unique).*2).

(** ** Name collisions *)

Definition validateStep (seen : gmap string SecretKeySelector) (env : EnvVar)
    : result (gmap string SecretKeySelector) :=
  if negb (envVarNameMatch (Env_Name env)) then
    Err (Errorf "failed to validate generated env var name %q" [Env_Name env])
  else
    match Env_ValueFrom env ≫= Src_SecretKeyRef with
    | None => Ok seen
    | Some ref =>
        match seen !! Env_Name env with
        | Some existing =>
            if negb (bool_decide (Sel_Name existing = Sel_Name ref)) ||
               negb (bool_decide (Sel_Key existing = Sel_Key ref))
            then Err (Errorf "failed to validate env var name collision for %q: %s/%s conflicts with %s/%s"
                   [Env_Name env; Sel_Name existing; Sel_Key existing; Sel_Name ref; Sel_Key ref])
            else Ok seen
        | None => Ok (<[Env_Name env := ref]> seen)
        end
    end.

Definition ValidateSecretRefEnvVarNames (spec : OGXServerSpec) : result unit :=
  _ ← foldM_result validateStep (collectSecretRefsRaw spec) ∅; Ok tt.

End collect.

(** ** The names are valid *)

Lemma collapse_chars l b : Forall (λ c, isEnvVarChar c = true) (collapse l b).
Proof.
  revert b. induction l as [|r l IH]; intros b; cbn; [constructor|].
  destruct (isEnvVarAlphaNum r) eqn:Hr; [|destruct b]; try apply IH; constructor; try apply IH.
  - unfold isEnvVarChar. by rewrite Hr.
  - reflexivity.
Qed.

Lemma trimLeft_suffix l : ∃ p, l = p ++ trimLeft l.
Proof.
  induction l as [|c l [p IH]]; [by exists []|].
  destruct (decide (c = "_"%char)) as [->|Hc].
  - exists ("_"%char :: p). cbn. by rewrite <- IH.
  - exists []. destruct c as [[] [] [] [] [] [] [] []]; done.
Qed.

Lemma trimLeft_Forall P l : Forall P l → Forall P (trimLeft l).
Proof. intros H. destruct (trimLeft_suffix l) as [p Hp]. rewrite Hp in H. by apply Forall_app in H as [_ ?]. Qed.

Lemma trimUnderscores_Forall P l : Forall P l → Forall P (trimUnderscores l).
Proof. intros H. unfold trimUnderscores. by apply Forall_reverse, trimLeft_Forall, Forall_reverse, trimLeft_Forall. Qed.

Lemma normalizeEnvVarField_chars s :
  Forall (λ c, isEnvVarChar c = true) (chars (normalizeEnvVarField s)).
Proof.
  unfold normalizeEnvVarField. rewrite chars_of_chars.
  assert (Forall (λ c, isEnvVarChar c = true) (trimAndCollapseToUnderscore (toUpper (chars s))))
    as H by apply trimUnderscores_Forall, collapse_chars.
  destruct (trimAndCollapseToUnderscore _) as [|c l]; cbn; [by repeat constructor|].
  destruct (in_range _ _ c); [by constructor|done].
Qed.

(** A field that the operator appends to a name: a constant or a normalised key. *)
Definition validField (field : string) : Prop :=
  Forall (λ c, isEnvVarChar c = true) (chars field).

Lemma buildEnvVarName_valid id field :
  validField field → envVarNameMatch (buildEnvVarName id field) = true.
Proof.
  intros Hf. unfold envVarNameMatch, buildEnvVarName, envVarPrefix. rewrite !chars_app.
  change (chars "OGX") with ["O"; "G"; "X"]%char. change (chars "_") with ["_"%char].
  cbn [app]. apply andb_true_intro. split; [done|].
  rewrite forallb_forall. intros c Hc%list_elem_of_In. revert c Hc. apply Forall_forall.
  repeat (constructor; [done|]). apply Forall_app. split; [apply normalizeEnvVarField_chars|].
  constructor; done.
Qed.

(** The environment variables the collectors create. *)
Inductive secretEnv : EnvVar → Prop :=
| secretEnv_provider id field ref :
    validField field → secretEnv (secretToEnvVar id field ref)
| secretEnv_kv ref :
    secretEnv {| Env_Name := storageKVPasswordEnv; Env_Value := "";
                 Env_ValueFrom := secretSource ref |}
| secretEnv_sql ref :
    secretEnv {| Env_Name := storageSQLConnectionEnv; Env_Value := "";
                 Env_ValueFrom := secretSource ref |}.

Lemma Forall_flat_map_intro {A B} (P : B → Prop) (f : A → list B) l :
  (∀ x, Forall P (f x)) → Forall P (flat_map f l).
Proof. intros Hf. induction l; cbn; [constructor|]. apply Forall_app; auto. Qed.

Lemma Forall_collectOpt_intro {A} (P : EnvVar → Prop) (f : A → list EnvVar) o :
  (∀ x, Forall P (f x)) → Forall P (collectOpt f o).
Proof. intros Hf. destruct o; cbn; [apply Hf|constructor]. Qed.

Lemma Forall_optSecret_intro id field ref : validField field → Forall secretEnv (optSecret id field ref).
Proof. intros. destruct ref; cbn; repeat constructor. done. Qed.

Ltac valid_field :=
  unfold validField; first [apply normalizeEnvVarField_chars | cbn [chars]; repeat constructor].

(** Walks through a collector down to the variables it creates. *)
Ltac collect_forall :=
  repeat first
    [ progress intros
    | apply Forall_app_2
    | apply Forall_collectOpt_intro
    | apply Forall_flat_map_intro
    | apply Forall_optSecret_intro; valid_field
    | apply Forall_singleton, secretEnv_provider; valid_field ].

Section collected.
Context {MR : MapRange}.

Lemma collectProviderSecrets_secretEnv ps : Forall secretEnv (collectProviderSecrets ps).
Proof.
  unfold collectProviderSecrets, collectInferenceSecrets, collectRemoteInferenceSecrets,
    collectBedrockSecrets, collectVectorIOSecrets, collectToolRuntimeSecrets, collectFilesSecrets,
    collectBatchesSecrets, collectResponsesSecrets, collectFileProcessorsSecrets,
    collectCustomSecretsFromSlices, collectCustomProviderSecrets.
  collect_forall.
Qed.

Lemma collectSecretRefsRaw_secretEnv spec : Forall secretEnv (collectSecretRefsRaw spec).
Proof.
  unfold collectSecretRefsRaw. apply Forall_app_2; apply Forall_collectOpt_intro; intros x.
  - apply collectProviderSecrets_secretEnv.
  - unfold collectStorageSecrets.
    collect_forall; apply Forall_singleton; constructor.
Qed.
End collected.

Lemma secretEnv_name_valid e : secretEnv e → envVarNameMatch (Env_Name e) = true.
Proof. destruct 1; [by apply buildEnvVarName_valid|reflexivity..]. Qed.

Lemma secretEnv_ref e : secretEnv e → is_Some (Env_ValueFrom e ≫= Src_SecretKeyRef).
Proof. destruct 1; cbn; eauto. Qed.

Lemma secretEnv_eq e1 e2 : secretEnv e1 → secretEnv e2 → Env_Name e1 = Env_Name e2 →
  Env_ValueFrom e1 ≫= Src_SecretKeyRef = Env_ValueFrom e2 ≫= Src_SecretKeyRef → e1 = e2.
Proof.
  destruct 1, 1; cbn; unfold secretToEnvVar, secretSource; cbn; intros Hn [= H1 H2]; congruence.
Qed.

(** ** Collisions *)

(** What a variable refers to. *)
Definition envRef (e : EnvVar) : option SecretKeySelector := Env_ValueFrom e ≫= Src_SecretKeyRef.

(** Variables of the same name refer to the same key of the same Secret. *)
Definition consistent (l : list EnvVar) : Prop :=
  ∀ e1 e2, e1 ∈ l → e2 ∈ l → Env_Name e1 = Env_Name e2 → envRef e1 = envRef e2.

Lemma validateStep_spec seen e ref :
  envVarNameMatch (Env_Name e) = true → envRef e = Some ref →
  match seen !! Env_Name e with
  | Some ref' => if decide (ref' = ref) then validateStep seen e = Ok seen
                 else is_ok (validateStep seen e) = false
  | None => validateStep seen e = Ok (<[Env_Name e := ref]> seen)
  end.
Proof.
  intros Hn Hr. unfold validateStep, envRef in *. rewrite Hn, Hr. cbn.
  destruct (seen !! Env_Name e) as [[n k]|]; [|done]. destruct ref as [n' k']; cbn.
  repeat case_bool_decide; cbn; case_decide; congruence.
Qed.

Lemma consistent_cons e l :
  consistent (e :: l) ↔
  (∀ e', e' ∈ l → Env_Name e' = Env_Name e → envRef e' = envRef e) ∧ consistent l.
Proof.
  unfold consistent. split.
  - intros Hc. split; [intros e' He' Hn|intros e1 e2 H1 H2 Hn]; apply Hc; set_solver.
  - intros [He Hc] e1 e2 H1 H2 Hn.
    apply elem_of_cons in H1 as [->|H1]; apply elem_of_cons in H2 as [->|H2]; auto.
    symmetry. auto.
Qed.

(** The references recorded so far agree with the variables still to check. *)
Definition agrees (seen : gmap string SecretKeySelector) (l : list EnvVar) : Prop :=
  ∀ e ref, e ∈ l → seen !! Env_Name e = Some ref → envRef e = Some ref.

Lemma agrees_cons seen e l :
  agrees seen (e :: l) ↔
  (∀ ref, seen !! Env_Name e = Some ref → envRef e = Some ref) ∧ agrees seen l.
Proof.
  unfold agrees. split.
  - intros H. split; [intros ref|intros e' ref He']; apply H; set_solver.
  - intros [He Hl] e' ref [->|He']%elem_of_cons; eauto.
Qed.

Lemma agrees_insert seen n ref l :
  seen !! n = None →
  agrees (<[n := ref]> seen) l ↔
  (∀ e, e ∈ l → Env_Name e = n → envRef e = Some ref) ∧ agrees seen l.
Proof.
  unfold agrees. intros Hn. split.
  - intros H. split; intros e; [intros He <-; apply H; [done|apply lookup_insert_eq]|].
    intros r He Hr. apply H; [done|]. rewrite lookup_insert_ne; congruence.
  - intros [Hnew Hold] e r He. rewrite lookup_insert. case_decide; [intros [= <-]; auto|auto].
Qed.

Lemma validate_fold_spec l seen :
  Forall secretEnv l →
  is_ok (foldM_result validateStep l seen) = true ↔ consistent l ∧ agrees seen l.
Proof.
  revert seen. induction l as [|e l IH]; intros seen Hl.
  { split; [|done]. intros _. split; intros e1 e2 H; by apply not_elem_of_nil in H. }
  apply Forall_cons in Hl as [He Hl]. cbn [foldM_result]. rewrite bind_is_ok.
  destruct (secretEnv_ref e He) as [ref Href]. fold (envRef e) in Href.
  pose proof (validateStep_spec seen e ref (secretEnv_name_valid e He) Href) as Hstep.
  rewrite consistent_cons, agrees_cons, Href.
  destruct (seen !! Env_Name e) as [ref'|] eqn:Hseen; [case_decide as Hd; [subst ref'|]|].
  - rewrite Hstep, (IH seen Hl). split; [intros [Hc Ha]|intuition].
    repeat split; try done. intros e' He' Hn. apply Ha; [done|]. by rewrite Hn.
  - destruct (validateStep seen e); [done|]. split; [done|]. intros [_ [Hs _]].
    specialize (Hs ref' eq_refl). congruence.
  - rewrite Hstep, (IH _ Hl), agrees_insert by done. split; [|intuition].
    intros (? & ? & ?). repeat split; done.
Qed.

(** ** Deduplication *)

(** The first variable of a name. *)
Definition firstNamed (n : string) (l : list EnvVar) : option EnvVar :=
  head (filter (λ e, Env_Name e = n) l).

Lemma firstNamed_Some n l e : firstNamed n l = Some e → e ∈ l ∧ Env_Name e = n.
Proof.
  unfold firstNamed. intros H. apply head_Some_elem_of in H. by apply list_elem_of_filter in H as [??].
Qed.

Lemma addUniqueEnvVars_lookup dst l n :
  addUniqueEnvVars dst l !! n =
  match dst !! n with Some e => Some e | None => firstNamed n l end.
Proof.
  revert dst. induction l as [|e l IH]; intros dst; cbn; [by destruct (dst !! n)|].
  unfold addUniqueEnvVars in IH. rewrite IH. unfold firstNamed. rewrite filter_cons.
  destruct (decide (Env_Name e = n)) as [<-|Hn].
  - destruct (dst !! Env_Name e) as [e'|] eqn:He; [by rewrite He|]. by rewrite lookup_insert_eq.
  - destruct (dst !! Env_Name e); [done|]. by rewrite lookup_insert_ne.
Qed.

Section deduplicated.
Context {MR : MapRange}.

Let unique (spec : OGXServerSpec) : gmap string EnvVar :=
  addUniqueEnvVars ∅ (collectSecretRefsRaw spec).

Lemma unique_lookup spec n : unique spec !! n = firstNamed n (collectSecretRefsRaw spec).
Proof. unfold unique. by rewrite addUniqueEnvVars_lookup, lookup_empty. Qed.

Lemma unique_key spec n e : unique spec !! n = Some e → Env_Name e = n.
Proof. rewrite unique_lookup. intros H. by apply firstNamed_Some in H as [_ ?]. Qed.

(** The names of the deduplicated variables are the keys of the map. *)
Lemma unique_names spec : Env_Name <$> (range (unique spec)).*2 = (range (unique spec)).*1.
Proof.
  rewrite <- list_fmap_compose. apply list_fmap_ext. intros i [n e] Hi. cbn.
  apply list_elem_of_lookup_2, elem_of_range in Hi. by eapply unique_key.
Qed.

Lemma elem_of_CollectSecretRefs spec e :
  e ∈ CollectSecretRefs spec ↔ firstNamed (Env_Name e) (collectSecretRefsRaw spec) = Some e.
Proof.
  unfold CollectSecretRefs. fold (unique spec).
  rewrite sort_by_Permutation, list_elem_of_fmap, <- unique_lookup. split.
  - intros ([n e'] & -> & Hin%elem_of_range). cbn. by rewrite (unique_key _ _ _ Hin).
  - intros H. exists (Env_Name e, e). split; [done|]. by apply elem_of_range.
Qed.

Lemma CollectSecretRefs_NoDup spec : NoDup (Env_Name <$> CollectSecretRefs spec).
Proof.
  unfold CollectSecretRefs. fold (unique spec).
  rewrite sort_by_Permutation, unique_names. apply range_NoDup_keys.
Qed.

Lemma firstNamed_is_Some l e : e ∈ l → is_Some (firstNamed (Env_Name e) l).
Proof.
  intros He. unfold firstNamed.
  assert (e ∈ filter (λ e', Env_Name e' = Env_Name e) l) as H by by apply list_elem_of_filter.
  destruct (filter _ l); [by apply not_elem_of_nil in H|by eexists].
Qed.
End deduplicated.

(** ** Independence of the iteration order of maps *)

Section order.
Variables MR1 MR2 : MapRange.

Lemma collectCustomProviderSecrets_order p :
  @collectCustomProviderSecrets MR1 p = @collectCustomProviderSecrets MR2 p.
Proof.
  unfold collectCustomProviderSecrets. f_equal. apply sort_strings_proper.
  f_equiv. apply range_orders.
Qed.

Lemma flat_map_custom_order l :
  flat_map (@collectCustomProviderSecrets MR1) l = flat_map (@collectCustomProviderSecrets MR2) l.
Proof. apply flat_map_ext, collectCustomProviderSecrets_order. Qed.

Lemma collectOpt_order {A} (f g : A → list EnvVar) o :
  (∀ x, f x = g x) → collectOpt f o = collectOpt g o.
Proof. intros H. destruct o; cbn; auto. Qed.

(** Descends to the custom providers, the only place where a map is ranged over. *)
Ltac collect_order :=
  repeat first
    [ reflexivity | apply flat_map_custom_order | apply (f_equal2 app)
    | apply collectOpt_order; intros ? ].

Lemma collectSecretRefsRaw_order spec :
  @collectSecretRefsRaw MR1 spec = @collectSecretRefsRaw MR2 spec.
Proof.
  unfold collectSecretRefsRaw, collectProviderSecrets, collectInferenceSecrets,
    collectRemoteInferenceSecrets, collectVectorIOSecrets, collectToolRuntimeSecrets,
    collectFilesSecrets, collectBatchesSecrets, collectResponsesSecrets,
    collectFileProcessorsSecrets, collectCustomSecretsFromSlices.
  collect_order.
Qed.
End order.

(** ** Theorems *)

(** Every environment variable name generated for a spec matches the
    pattern of a legal name, whatever IDs and secret keys the user chose; the
    name check of [ValidateSecretRefEnvVarNames] never fires. *)
Theorem collected_env_names_valid {MR : MapRange} spec :
  Forall (λ e, envVarNameMatch (Env_Name e) = true) (collectSecretRefsRaw spec).
Proof.
  eapply Forall_impl; [apply collectSecretRefsRaw_secretEnv|]. apply secretEnv_name_valid.
Qed.

(** [ValidateSecretRefEnvVarNames] accepts a spec exactly when no two
    secret references that share an environment variable name refer to
    different Secret keys. *)
Theorem ValidateSecretRefEnvVarNames_spec {MR : MapRange} spec :
  ValidateSecretRefEnvVarNames spec = Ok tt ↔
  ∀ e1 e2, e1 ∈ collectSecretRefsRaw spec → e2 ∈ collectSecretRefsRaw spec →
    Env_Name e1 = Env_Name e2 → envRef e1 = envRef e2.
Proof.
  pose proof (validate_fold_spec (collectSecretRefsRaw spec) ∅ (collectSecretRefsRaw_secretEnv spec)) as H.
  unfold ValidateSecretRefEnvVarNames. fold (consistent (collectSecretRefsRaw spec)).
  destruct (foldM_result _ _ _) as [seen|err]; cbn in *; split; try done.
  - intros _. by apply H.
  - intros Hc. destruct H as [_ H]. discriminate H. split; [done|]. intros e ref _ H'.
    by rewrite lookup_empty in H'.
Qed.

(** [CollectSecretRefs] is sorted by name, has one variable per name, and
    keeps for each name the first variable collected under it. *)
Theorem CollectSecretRefs_spec {MR : MapRange} spec :
  StronglySorted (key_le Env_Name) (CollectSecretRefs spec) ∧
  NoDup (Env_Name <$> CollectSecretRefs spec) ∧
  ∀ e, e ∈ CollectSecretRefs spec ↔
       firstNamed (Env_Name e) (collectSecretRefsRaw spec) = Some e.
Proof.
  split; [apply sort_by_StronglySorted|].
  split; [apply CollectSecretRefs_NoDup|apply elem_of_CollectSecretRefs].
Qed.

(** When the collision check passes, deduplication loses nothing: every
    secret reference of the spec reaches the Deployment's environment. *)
Theorem CollectSecretRefs_complete {MR : MapRange} spec e :
  ValidateSecretRefEnvVarNames spec = Ok tt →
  e ∈ collectSecretRefsRaw spec → e ∈ CollectSecretRefs spec.
Proof.
  intros Hv He. apply elem_of_CollectSecretRefs.
  pose proof (collectSecretRefsRaw_secretEnv spec) as Hall. rewrite Forall_forall in Hall.
  destruct (firstNamed_is_Some _ _ He) as [e' He']. rewrite He'. f_equal.
  apply firstNamed_Some in He' as [Hin Hn]. apply secretEnv_eq; auto.
  pose proof (validate_fold_spec (collectSecretRefsRaw spec) ∅ (collectSecretRefsRaw_secretEnv spec)) as H.
  unfold ValidateSecretRefEnvVarNames in Hv.
  destruct (foldM_result _ _ _); [|done]. by apply H.
Qed.

Lemma CollectSecretRefs_order (MR1 MR2 : MapRange) spec :
  @CollectSecretRefs MR1 spec = @CollectSecretRefs MR2 spec.
Proof.
  pose proof (@CollectSecretRefs_NoDup MR1 spec) as Hnd.
  unfold CollectSecretRefs in *. rewrite sort_by_Permutation in Hnd.
  rewrite (collectSecretRefsRaw_order MR1 MR2) in *.
  apply sort_by_proper; [done|]. f_equiv. apply range_orders.
Qed.

(** The environment of the Deployment does not depend on the order in
    which Go ranges over maps. *)
Theorem CollectSecretRefs_deterministic (MR1 MR2 : MapRange) spec :
  @CollectSecretRefs MR1 spec = @CollectSecretRefs MR2 spec.
Proof. apply CollectSecretRefs_order. Qed.
