(* ===== verification/Storage.v ===== *)
(** * The storage section

    The package file [pkg/config/storage.go]: the [storage] section generated
    from [spec.storage]. *)

From S2P Require Import Prelude Value ApiProviders ApiServer Secret.

Definition defaultKVBackend : object :=
  <["type" := AString "kv_sqlite"]>
  {["db_path" := AString "${env.SQLITE_STORE_DIR:=/.ogx}/kvstore.db"]}.

Definition defaultSQLBackend : object :=
  <["type" := AString "sql_sqlite"]>
  {["db_path" := AString "${env.SQLITE_STORE_DIR:=/.ogx}/sqlstore.db"]}.

Definition expandKVBackend (kv : KVStorageSpec) : object :=
  if bool_decide (KV_Type kv = "redis") then
    <["type" := AString "kv_redis"]> {["host" := AString (KV_Endpoint kv)]}
    |> set_some "password" (λ _, AString (envSubst storageKVPasswordEnv)) (KV_Password kv)
  else defaultKVBackend.

Definition expandSQLBackend (sql : SQLStorageSpec) : object :=
  if bool_decide (SQL_Type sql = "postgres") then
    <["type" := AString "sql_postgres"]>
    {["connection_string" := AString (envSubst storageSQLConnectionEnv)]}
  else defaultSQLBackend.

Definition store (backend attribute value : string) : any :=
  AMap (<["backend" := AString backend]> {[attribute := AString value]}).

Definition defaultStores : object :=
  <["metadata" := store "kv_default" "namespace" "registry"]>
  (<["inference" := store "sql_default" "table_name" "inference_store"]>
  (<["conversations" := store "sql_default" "table_name" "openai_conversations"]>
  {["prompts" := store "kv_default" "namespace" "prompts"]})).

(** [None] is the nil map: the base storage is kept. *)
Definition ApplyStorage (storage : option StateStorageSpec) : option object :=
  match storage with
  | None => None
  | Some storage =>
      let backends : object :=
        ∅
        |> (λ b, <["kv_default" := AMap match Storage_KV storage with
                                        | Some kv => expandKVBackend kv
                                        | None => defaultKVBackend
                                        end]> b)
        |> (λ b, <["sql_default" := AMap match Storage_SQL storage with
                                         | Some sql => expandSQLBackend sql
                                         | None => defaultSQLBackend
                                         end]> b) in
      Some (<["backends" := AMap backends]> {["stores" := AMap defaultStores]})
  end.

(** ** Well-formedness of a storage section *)

(** Every store names a declared backend. *)
Definition stores_resolved (storage : object) : Prop :=
  ∃ backends stores,
    storage !! "backends" = Some (AMap backends) ∧
    storage !! "stores" = Some (AMap stores) ∧
    ∀ name s, stores !! name = Some s →
      ∃ fields backend b,
        s = AMap fields ∧ fields !! "backend" = Some (AString backend) ∧
        backends !! backend = Some (AMap b) ∧ is_Some (b !! "type").

Lemma expandKVBackend_type kv : is_Some (expandKVBackend kv !! "type").
Proof.
  unfold expandKVBackend. case_bool_decide; [|by eexists].
  destruct (KV_Password kv); cbn; by eexists.
Qed.

Lemma expandSQLBackend_type sql : is_Some (expandSQLBackend sql !! "type").
Proof. unfold expandSQLBackend. case_bool_decide; by eexists. Qed.

Lemma defaultStores_backend name s :
  defaultStores !! name = Some s →
  ∃ backend attribute value,
    s = store backend attribute value ∧ (backend = "kv_default" ∨ backend = "sql_default").
Proof.
  unfold defaultStores. revert s.
  repeat (rewrite lookup_insert; case_decide; [intros s [= <-]; eauto 6|]).
  intros s [_ <-]%lookup_singleton_Some. eauto 6.
Qed.

(** Every store that [ApplyStorage] declares refers to a backend that it
    declares too, and that backend has a type. *)
Theorem ApplyStorage_resolved storage section :
  ApplyStorage storage = Some section → stores_resolved section.
Proof.
  destruct storage as [storage|]; [|done]. cbn. intros [= <-].
  do 2 eexists. split; [reflexivity|]. split; [reflexivity|]. intros name s Hs.
  destruct (defaultStores_backend _ _ Hs) as (backend & attribute & value & -> & Hb).
  do 2 eexists. destruct Hb as [-> | ->]; eexists;
    (split; [reflexivity|]; split; [apply lookup_insert_eq|]; split; [reflexivity|]).
  - destruct (Storage_KV storage); [apply expandKVBackend_type|by eexists].
  - destruct (Storage_SQL storage); [apply expandSQLBackend_type|by eexists].
Qed.

(** On a spec that satisfies the CRD's rules, the storage section refers to
    a secret variable exactly when the collector injects it. *)
Theorem storage_secrets_match (storage : StateStorageSpec) :
  (∀ kv, Storage_KV storage = Some kv → KVStorageSpec_valid kv) →
  (∀ sql, Storage_SQL storage = Some sql → SQLStorageSpec_valid sql) →
  (storageKVPasswordEnv ∈ Env_Name <$> collectStorageSecrets storage ↔
   ∃ kv, Storage_KV storage = Some kv ∧
         expandKVBackend kv !! "password" = Some (AString (envSubst storageKVPasswordEnv))) ∧
  (storageSQLConnectionEnv ∈ Env_Name <$> collectStorageSecrets storage ↔
   ∃ sql, Storage_SQL storage = Some sql ∧
          expandSQLBackend sql !! "connection_string" =
          Some (AString (envSubst storageSQLConnectionEnv))).
Proof.
  destruct storage as [kv sql]. cbn. intros Hkv Hsql.
  unfold collectStorageSecrets. cbn [Storage_KV Storage_SQL].
  rewrite fmap_app, !elem_of_app. split; split.
  - intros [H|H].
    + destruct kv as [kv|]; [|by apply not_elem_of_nil in H].
      exists kv. split; [done|]. destruct (Hkv kv eq_refl) as (_ & _ & Hp).
      unfold expandKVBackend. cbn in H.
      destruct (KV_Password kv) eqn:E; [|by apply not_elem_of_nil in H].
      by rewrite bool_decide_true by by apply Hp.
    + destruct sql as [sql|]; cbn in H; [destruct (SQL_ConnectionString sql); cbn in H|]; set_solver.
  - intros (kv' & -> & H). left. unfold expandKVBackend in H. cbn.
    case_bool_decide; [|done]. destruct (KV_Password kv'); [left|done].
  - intros [H|H].
    + destruct kv as [kv|]; cbn in H; [destruct (KV_Password kv); cbn in H|]; set_solver.
    + destruct sql as [sql|]; [|by apply not_elem_of_nil in H].
      exists sql. split; [done|]. destruct (Hsql sql eq_refl) as (_ & Hp).
      unfold expandSQLBackend. cbn in H.
      destruct (SQL_ConnectionString sql) eqn:E; [|by apply not_elem_of_nil in H].
      by rewrite bool_decide_true by by apply Hp.
  - intros (sql' & -> & H). right. unfold expandSQLBackend in H. cbn.
    case_bool_decide as Ht; [|done]. destruct (Hsql sql' eq_refl) as (Hc & _).
    destruct (SQL_ConnectionString sql'); [left|by destruct (Hc Ht)].
Qed.
