(* ===== verification/Provider.v ===== *)
(** * Provider expansion

    The package file [pkg/config/provider.go]: the typed providers of a spec
    become the provider lists of [config.yaml].  [json.Unmarshal] into a map is
    the parameter [json_object] of the section. *)

From S2P Require Import Prelude Value ApiProviders ApiServer Secret.

(** [ConfigProvider] of [pkg/config/types.go]; [None] is a nil [Config]. *)
Record ConfigProvider := {
  ProviderID : string;
  ProviderType : string;
  Config : option object;
}.

Definition newProvider (id type : string) (cfg : object) : ConfigProvider :=
  {| ProviderID := id; ProviderType := type; Config := Some cfg |}.

(** ** Setters *)

Definition setSecretRef (key providerID field : string) (ref : option SecretKeyRef) : object → object :=
  set_some key (λ _, AString (envVarRef providerID field)) ref.

Definition setString (key val : string) : object → object := set_nonempty key val.

Definition setIntPtr (key : string) (val : option Z) : object → object := set_some key AInt val.

Definition setBoolPtr (key : string) (val : option bool) : object → object := set_some key ABool val.

Definition setStringPtr (key : string) (val : option string) : object → object :=
  set_some key AString val.

(** ** Network settings of remote providers *)

Definition applyTLSConfig (tls : option TLSConfig) (cfg : object) : object :=
  match tls with
  | None => cfg
  | Some tls =>
      let m := ∅
        |> setBoolPtr "verify" (TLSC_Verify tls)
        |> setString "min_version" (TLSC_MinVersion tls)
        |> set_list "ciphers" AStrings (TLSC_Ciphers tls) in
      set_map "tls" AMap m cfg
  end.

Definition applyTimeoutConfig (timeout : option TimeoutConfig) (cfg : object) : object :=
  match timeout with
  | None => cfg
  | Some timeout =>
      let m := ∅
        |> setIntPtr "connect" (Timeout_Connect timeout)
        |> setIntPtr "read" (Timeout_Read timeout) in
      set_map "timeout" AMap m cfg
  end.

Definition applyProxyConfig (proxy : option ProxyConfig) (cfg : object) : object :=
  match proxy with
  | None => cfg
  | Some proxy =>
      let m := ∅
        |> setStringPtr "url" (Proxy_URL proxy)
        |> setStringPtr "http" (Proxy_HTTP proxy)
        |> setStringPtr "https" (Proxy_HTTPS proxy)
        |> setStringPtr "ca_cert" (Proxy_CACert proxy)
        |> set_list "no_proxy" AStrings (Proxy_NoProxy proxy) in
      set_map "proxy" AMap m cfg
  end.

Definition applyNetworkConfig (network : option NetworkConfig) (cfg : object) : object :=
  match network with
  | None => cfg
  | Some network =>
      let n := ∅
        |> applyTLSConfig (NC_TLS network)
        |> applyTimeoutConfig (NC_Timeout network)
        |> set_map "headers" AStrMap (NC_Headers network)
        |> applyProxyConfig (NC_Proxy network) in
      set_map "network" AMap n cfg
  end.

Definition applyCommonInferenceConfig (c : RemoteInferenceCommonConfig) (cfg : object) : object :=
  cfg
  |> setBoolPtr "refresh_models" (RIC_RefreshModels c)
  |> set_list "allowed_models" AStrings (RIC_AllowedModels c)
  |> applyNetworkConfig (RIC_Network c).

(** ** Remote inference providers *)

Definition expandVLLMProvider (p : VLLMProvider) : ConfigProvider :=
  newProvider (DeriveID p) "remote::vllm"
    ({["base_url" := AString (VLLM_Endpoint p)]}
     |> setIntPtr "max_tokens" (VLLM_MaxTokens p)
     |> setSecretRef "api_token" (DeriveID p) "API_TOKEN" (VLLM_APIToken p)
     |> applyCommonInferenceConfig (VLLM_Common p)).

Definition expandOpenAIProvider (p : OpenAIProvider) : ConfigProvider :=
  newProvider (DeriveID p) "remote::openai"
    ({["api_key" := AString (envVarRef (DeriveID p) "API_KEY")]}
     |> setString "base_url" (OpenAI_Endpoint p)
     |> applyCommonInferenceConfig (OpenAI_Common p)).

Definition expandAzureProvider (p : AzureProvider) : ConfigProvider :=
  newProvider (DeriveID p) "remote::azure"
    (<["base_url" := AString (Azure_Endpoint p)]>
     {["api_key" := AString (envVarRef (DeriveID p) "API_KEY")]}
     |> setString "api_version" (Azure_APIVersion p)
     |> setString "api_type" (Azure_APIType p)
     |> applyCommonInferenceConfig (Azure_Common p)).

Definition expandBedrockProvider (p : BedrockProvider) : ConfigProvider :=
  let id := DeriveID p in
  newProvider id "remote::bedrock"
    ({["region_name" := AString (Bedrock_Region p)]}
     |> setSecretRef "api_key" id "API_KEY" (Bedrock_APIKey p)
     |> setSecretRef "aws_access_key_id" id "AWS_ACCESS_KEY_ID" (Bedrock_AWSAccessKeyID p)
     |> setSecretRef "aws_secret_access_key" id "AWS_SECRET_ACCESS_KEY" (Bedrock_AWSSecretAccessKey p)
     |> setSecretRef "aws_session_token" id "AWS_SESSION_TOKEN" (Bedrock_AWSSessionToken p)
     |> setString "aws_role_arn" (Bedrock_AWSRoleArn p)
     |> setString "aws_web_identity_token_file" (Bedrock_AWSWebIdentityTokenFile p)
     |> setString "aws_role_session_name" (Bedrock_AWSRoleSessionName p)
     |> setString "profile_name" (Bedrock_ProfileName p)
     |> setString "retry_mode" (Bedrock_RetryMode p)
     |> setIntPtr "total_max_attempts" (Bedrock_TotalMaxAttempts p)
     |> setIntPtr "connect_timeout" (Bedrock_ConnectTimeout p)
     |> setIntPtr "read_timeout" (Bedrock_ReadTimeout p)
     |> setIntPtr "session_ttl" (Bedrock_SessionTTL p)
     |> applyCommonInferenceConfig (Bedrock_Common p)).

Definition expandVertexAIProvider (p : VertexAIProvider) : ConfigProvider :=
  newProvider (DeriveID p) "remote::vertexai"
    ({["project" := AString (VertexAI_Project p)]}
     |> setString "location" (VertexAI_Location p)
     |> applyCommonInferenceConfig (VertexAI_Common p)).

Definition expandWatsonxProvider (p : WatsonxProvider) : ConfigProvider :=
  newProvider (DeriveID p) "remote::watsonx"
    ({["api_key" := AString (envVarRef (DeriveID p) "API_KEY")]}
     |> setString "base_url" (Watsonx_Endpoint p)
     |> setString "project_id" (Watsonx_ProjectID p)
     |> setIntPtr "timeout" (Watsonx_Timeout p)
     |> applyCommonInferenceConfig (Watsonx_Common p)).

(** ** Vector I/O providers *)

(** A nil map stands for "no index settings"; so does an empty one. *)
Definition nonEmpty (m : object) : option object :=
  if (size m =? 0)%nat then None else Some m.

Definition expandPgvectorHNSW (hnsw : option HNSWConfig) : option object :=
  match hnsw with
  | None => None
  | Some hnsw => nonEmpty (∅
      |> setIntPtr "m" (HNSW_M hnsw)
      |> setIntPtr "ef_construction" (HNSW_EfConstruction hnsw)
      |> setIntPtr "ef_search" (HNSW_EfSearch hnsw))
  end.

Definition expandPgvectorIVFFlat (ivfFlat : option IVFFlatConfig) : option object :=
  match ivfFlat with
  | None => None
  | Some ivfFlat => nonEmpty (∅
      |> setIntPtr "nlist" (IVF_Nlist ivfFlat)
      |> setIntPtr "nprobe" (IVF_Nprobe ivfFlat))
  end.

Definition expandPgvectorVectorIndex (vectorIndex : option VectorIndexConfig) : option object :=
  match vectorIndex with
  | None => None
  | Some vi => nonEmpty (∅
      |> set_some "hnsw" AMap (expandPgvectorHNSW (VI_HNSW vi))
      |> set_some "ivf_flat" AMap (expandPgvectorIVFFlat (VI_IVFFlat vi)))
  end.

Definition expandPgvectorProvider (p : PgvectorProvider) : ConfigProvider :=
  newProvider (DeriveID p) "remote::pgvector"
    (∅
     |> setString "host" (Pgvector_Host p)
     |> setIntPtr "port" (Pgvector_Port p)
     |> setString "db" (Pgvector_DB p)
     |> setString "user" (Pgvector_User p)
     |> insert "password" (AString (envVarRef (DeriveID p) "PASSWORD"))
     |> setString "distance_metric" (Pgvector_DistanceMetric p)
     |> set_some "vector_index" AMap (expandPgvectorVectorIndex (Pgvector_VectorIndex p))
     |> insert "persistence" (AMap (<["backend" := AString "kv_default"]>
                                    {["namespace" := AString (PersistenceNamespace p)]}))).

Definition expandMilvusProvider (p : MilvusProvider) : ConfigProvider :=
  newProvider (DeriveID p) "remote::milvus"
    ({["uri" := AString (Milvus_URI p)]}
     |> setSecretRef "token" (DeriveID p) "TOKEN" (Milvus_Token p)
     |> setString "consistency_level" (Milvus_ConsistencyLevel p)).

Definition applyQdrantConnectionConfig (p : QdrantProvider) (cfg : object) : object :=
  cfg
  |> setString "url" (Qdrant_URL p)
  |> setString "host" (Qdrant_Host p)
  |> setIntPtr "port" (Qdrant_Port p)
  |> setString "location" (Qdrant_Location p).

Definition applyQdrantAuthConfig (p : QdrantProvider) (cfg : object) : object :=
  setSecretRef "api_key" (DeriveID p) "API_KEY" (Qdrant_APIKey p) cfg.

Definition applyQdrantRuntimeConfig (p : QdrantProvider) (cfg : object) : object :=
  cfg
  |> setIntPtr "grpc_port" (Qdrant_GRPCPort p)
  |> setBoolPtr "prefer_grpc" (Qdrant_PreferGRPC p)
  |> setBoolPtr "https" (Qdrant_HTTPS p)
  |> setString "prefix" (Qdrant_Prefix p)
  |> setIntPtr "timeout" (Qdrant_Timeout p).

Definition expandQdrantProvider (p : QdrantProvider) : ConfigProvider :=
  newProvider (DeriveID p) "remote::qdrant"
    (∅
     |> applyQdrantConnectionConfig p
     |> applyQdrantAuthConfig p
     |> applyQdrantRuntimeConfig p).

(** ** Vector store settings *)

Definition expandQualifiedModel (qm : QualifiedModel) : object :=
  <["provider_id" := AString (QM_ProviderID qm)]> {["model_id" := AString (QM_ModelID qm)]}
  |> setIntPtr "embedding_dimensions" (QM_EmbeddingDimensions qm).

Definition expandRerankerModel (model : RerankerModel) : object :=
  <["provider_id" := AString (RM_ProviderID model)]> {["model_id" := AString (RM_ModelID model)]}.

Definition expandRewriteQueryParams (params : RewriteQueryParams) : object :=
  ∅
  |> set_some "model" (λ m, AMap (expandQualifiedModel m)) (RQ_Model params)
  |> setString "prompt" (RQ_Prompt params)
  |> setIntPtr "max_tokens" (RQ_MaxTokens params)
  |> setStringPtr "temperature" (RQ_Temperature params).

Definition expandFileSearchParams (params : FileSearchDisplayParams) : object :=
  ∅
  |> setString "header_template" (FSD_HeaderTemplate params)
  |> setString "footer_template" (FSD_FooterTemplate params).

Definition expandContextPromptParams (params : ContextPromptParams) : object :=
  ∅
  |> setString "chunk_annotation_template" (CP_ChunkAnnotationTemplate params)
  |> setString "context_template" (CP_ContextTemplate params).

Definition expandAnnotationPromptParams (params : AnnotationPromptParams) : object :=
  ∅
  |> setBoolPtr "enable_annotations" (AP_EnableAnnotations params)
  |> setString "annotation_instruction_template" (AP_AnnotationInstructionTemplate params)
  |> setString "chunk_annotation_template" (AP_ChunkAnnotationTemplate params).

Definition expandFileIngestionParams (params : FileIngestionParams) : object :=
  ∅
  |> setIntPtr "default_chunk_size_tokens" (FI_DefaultChunkSizeTokens params)
  |> setIntPtr "default_chunk_overlap_tokens" (FI_DefaultChunkOverlapTokens params).

Definition expandChunkRetrievalParams (params : ChunkRetrievalParams) : object :=
  ∅
  |> setIntPtr "chunk_multiplier" (CR_ChunkMultiplier params)
  |> setIntPtr "max_tokens_in_context" (CR_MaxTokensInContext params)
  |> setStringPtr "default_reranker_strategy" (CR_DefaultRerankerStrategy params)
  |> setStringPtr "rrf_impact_factor" (CR_RRFImpactFactor params)
  |> setStringPtr "weighted_search_alpha" (CR_WeightedSearchAlpha params)
  |> setStringPtr "default_search_mode" (CR_DefaultSearchMode params).

Definition expandFileBatchParams (params : FileBatchParams) : object :=
  ∅
  |> setIntPtr "max_concurrent_files_per_batch" (FB_MaxConcurrentFilesPerBatch params)
  |> setIntPtr "file_batch_chunk_size" (FB_FileBatchChunkSize params)
  |> setIntPtr "cleanup_interval_seconds" (FB_CleanupIntervalSeconds params).

Definition expandContextualRetrievalParams (params : ContextualRetrievalParams) : object :=
  ∅
  |> set_some "model" (λ m, AMap (expandQualifiedModel m)) (CX_Model params)
  |> setIntPtr "default_timeout_seconds" (CX_DefaultTimeoutSeconds params)
  |> setIntPtr "default_max_concurrency" (CX_DefaultMaxConcurrency params)
  |> setIntPtr "max_document_tokens" (CX_MaxDocumentTokens params).

Definition applyVectorStoreDefaults (vs : VectorStoresConfig) (cfg : object) : object :=
  cfg
  |> setString "default_provider_id" (VS_DefaultProviderID vs)
  |> set_some "default_embedding_model" (λ m, AMap (expandQualifiedModel m))
       (VS_DefaultEmbeddingModel vs)
  |> set_some "default_reranker_model" (λ m, AMap (expandRerankerModel m))
       (VS_DefaultRerankerModel vs).

Definition applyVectorStoreSearchConfig (vs : VectorStoresConfig) (cfg : object) : object :=
  cfg
  |> set_some "rewrite_query_params" (λ p, AMap (expandRewriteQueryParams p))
       (VS_RewriteQueryParams vs)
  |> set_some "file_search_params" (λ p, AMap (expandFileSearchParams p)) (VS_FileSearchParams vs)
  |> set_some "chunk_retrieval_params" (λ p, AMap (expandChunkRetrievalParams p))
       (VS_ChunkRetrievalParams vs).

Definition applyVectorStorePromptConfig (vs : VectorStoresConfig) (cfg : object) : object :=
  cfg
  |> set_some "context_prompt_params" (λ p, AMap (expandContextPromptParams p))
       (VS_ContextPromptParams vs)
  |> set_some "annotation_prompt_params" (λ p, AMap (expandAnnotationPromptParams p))
       (VS_AnnotationPromptParams vs).

Definition applyVectorStoreIngestionConfig (vs : VectorStoresConfig) (cfg : object) : object :=
  cfg
  |> set_some "file_ingestion_params" (λ p, AMap (expandFileIngestionParams p))
       (VS_FileIngestionParams vs)
  |> set_some "file_batch_params" (λ p, AMap (expandFileBatchParams p)) (VS_FileBatchParams vs)
  |> set_some "contextual_retrieval_params" (λ p, AMap (expandContextualRetrievalParams p))
       (VS_ContextualRetrievalParams vs).

Definition expandVectorStoresConfig (vs : VectorStoresConfig) : object :=
  ∅
  |> applyVectorStoreDefaults vs
  |> applyVectorStoreSearchConfig vs
  |> applyVectorStorePromptConfig vs
  |> applyVectorStoreIngestionConfig vs.

Definition expandCompactionConfig (cc : CompactionConfig) : object :=
  ∅
  |> setString "summarization_prompt" (CC_SummarizationPrompt cc)
  |> setString "summary_prefix" (CC_SummaryPrefix cc)
  |> setString "summarization_model" (CC_SummarizationModel cc)
  |> setIntPtr "default_compact_threshold" (CC_DefaultCompactThreshold cc)
  |> setString "tokenizer_encoding" (CC_TokenizerEncoding cc).

(** ** Tool runtime, files, batches, responses and file processors *)

Definition expandBraveSearchProvider (p : BraveSearchProvider) : ConfigProvider :=
  newProvider (DeriveID p) "remote::brave-search"
    ({["api_key" := AString (envVarRef (DeriveID p) "API_KEY")]}
     |> setIntPtr "max_results" (Brave_MaxResults p)).

Definition expandTavilySearchProvider (p : TavilySearchProvider) : ConfigProvider :=
  newProvider (DeriveID p) "remote::tavily-search"
    ({["api_key" := AString (envVarRef (DeriveID p) "API_KEY")]}
     |> setIntPtr "max_results" (Tavily_MaxResults p)).

Definition expandMCPProvider (p : ModelContextProtocolProvider) : ConfigProvider :=
  newProvider (DeriveID p) "remote::model-context-protocol" ∅.

Definition expandInlineFileSearchProvider (p : InlineFileSearchProvider) : ConfigProvider :=
  newProvider (DeriveID p) "inline::rag-runtime"
    (∅ |> set_some "vector_stores_config" (λ vs, AMap (expandVectorStoresConfig vs))
            (FileSearch_VectorStoresConfig p)).

Definition expandS3Provider (p : S3Provider) : ConfigProvider :=
  newProvider (DeriveID p) "remote::s3"
    ({["bucket_name" := AString (S3_BucketName p)]}
     |> setString "region" (S3_Region p)
     |> setString "endpoint_url" (S3_EndpointURL p)
     |> setSecretRef "aws_access_key_id" (DeriveID p) "AWS_ACCESS_KEY_ID" (S3_AWSAccessKeyID p)
     |> setSecretRef "aws_secret_access_key" (DeriveID p) "AWS_SECRET_ACCESS_KEY"
          (S3_AWSSecretAccessKey p)
     |> setBoolPtr "auto_create_bucket" (S3_AutoCreateBucket p)).

Definition expandLocalFSProvider (p : InlineLocalFSProvider) : ConfigProvider :=
  newProvider (DeriveID p) "inline::localfs" (∅ |> setIntPtr "ttl_secs" (LocalFS_TTLSecs p)).

Definition expandReferenceProvider (p : InlineReferenceProvider) : ConfigProvider :=
  newProvider (DeriveID p) "inline::batch-reference"
    (∅
     |> setIntPtr "max_concurrent_batches" (Reference_MaxConcurrentBatches p)
     |> setIntPtr "max_concurrent_requests_per_batch" (Reference_MaxConcurrentRequestsPerBatch p)).

Definition expandBuiltinResponsesProvider (p : InlineBuiltinResponsesProvider) : ConfigProvider :=
  newProvider (DeriveID p) "inline::responses"
    (∅
     |> set_some "vector_stores_config" (λ vs, AMap (expandVectorStoresConfig vs))
          (Builtin_VectorStoresConfig p)
     |> set_some "compaction_config" (λ cc, AMap (expandCompactionConfig cc))
          (Builtin_CompactionConfig p)).

Definition expandDoclingServeProvider (p : DoclingServeProvider) : ConfigProvider :=
  newProvider (DeriveID p) "remote::docling-serve"
    ({["base_url" := AString (DoclingServe_BaseURL p)]}
     |> setSecretRef "api_key" (DeriveID p) "API_KEY" (DoclingServe_APIKey p)
     |> setIntPtr "default_chunk_size_tokens" (DoclingServe_DefaultChunkSizeTokens p)).

Definition setChunkConfig (c : FileProcessorChunkConfig) (cfg : object) : object :=
  cfg
  |> setIntPtr "default_chunk_size_tokens" (Chunk_DefaultChunkSizeTokens c)
  |> setIntPtr "default_chunk_overlap_tokens" (Chunk_DefaultChunkOverlapTokens c).

Definition expandAutoFileProcessorProvider (p : InlineAutoFileProcessorProvider) : ConfigProvider :=
  newProvider (DeriveID p) "inline::auto"
    (∅
     |> setChunkConfig (Auto_Chunk p)
     |> setBoolPtr "extract_metadata" (Auto_ExtractMetadata p)
     |> setBoolPtr "clean_text" (Auto_CleanText p)).

Definition expandPyPDFFileProcessorProvider (p : InlinePyPDFFileProcessorProvider) : ConfigProvider :=
  newProvider (DeriveID p) "inline::pypdf"
    (∅
     |> setChunkConfig (PyPDF_Chunk p)
     |> setBoolPtr "extract_metadata" (PyPDF_ExtractMetadata p)
     |> setBoolPtr "clean_text" (PyPDF_CleanText p)).

Definition expandMarkItDownFileProcessorProvider
    (p : InlineMarkItDownFileProcessorProvider) : ConfigProvider :=
  newProvider (DeriveID p) "inline::markitdown" (∅ |> setChunkConfig (MarkItDown_Chunk p)).

Definition expandDoclingFileProcessorProvider
    (p : InlineDoclingFileProcessorProvider) : ConfigProvider :=
  newProvider (DeriveID p) "inline::docling"
    (∅
     |> setChunkConfig (Docling_Chunk p)
     |> setBoolPtr "do_ocr" (Docling_DoOCR p)).

(** ** Custom providers and the expansion of a whole spec *)

Section expand.
  Context {MR : MapRange}.
  (** [json.Unmarshal(raw, &settings)] with [settings] a
      [map[string]interface{}]: the decoded object, [None] for JSON [null]. *)
  Context (json_object : string → result (option object)).

Definition conflictError (id key : string) : error :=
  Errorf "failed to expand provider %q: key %q appears in both secretRefs and settings" [id; key].

Definition expandCustomProvider (p : CustomProvider) : result ConfigProvider :=
  let id := DeriveID p in
  let cfg : object := foldl (λ cfg '(key, _),
    <[key := AString (envVarRef id (normalizeEnvVarField key))]> cfg)
    ∅ (range (Custom_SecretRefs p)) in
  cfg ← match Custom_Settings p ≫= JSON_Raw with
        | None => Ok cfg
        | Some raw =>
            settings ← wrap "failed to unmarshal settings JSON for provider %q: %w" [id]
                         (json_object raw);
            foldM_result (λ cfg '(k, v),
              match Custom_SecretRefs p !! k with
              | Some _ => Err (conflictError id k)
              | None => Ok (<[k := v]> cfg)
              end) (range (map_or_nil settings)) cfg
        end;
  Ok (newProvider id (Custom_Type p) cfg).

Definition appendCustomProviders (providers : list ConfigProvider) (custom : list CustomProvider)
    : result (list ConfigProvider) :=
  foldM_result (λ providers p,
    cp ← expandCustomProvider p; Ok (providers ++ [cp])) custom providers.

(** [if p != nil { providers = append(providers, expand( *p )) }] *)
Definition pointerProvider {A} (expand : A → ConfigProvider) (p : option A) : list ConfigProvider :=
  match p with Some p => [expand p] | None => [] end.

(** [if spec.X != nil { block }], where the block may return an error. *)
Definition whenSome {A} (o : option A)
    (block : A → list ConfigProvider → result (list ConfigProvider))
    (providers : list ConfigProvider) : result (list ConfigProvider) :=
  match o with Some a => block a providers | None => Ok providers end.

Definition expandRemoteInferenceProviders (remote : InferenceRemoteProviders)
    (providers : list ConfigProvider) : list ConfigProvider :=
  providers ++ (expandVLLMProvider <$> IR_VLLM remote) ++
  (expandOpenAIProvider <$> IR_OpenAI remote) ++ (expandAzureProvider <$> IR_Azure remote) ++
  (expandBedrockProvider <$> IR_Bedrock remote) ++ (expandVertexAIProvider <$> IR_VertexAI remote) ++
  (expandWatsonxProvider <$> IR_Watsonx remote).

Definition expandInferenceProviders (spec : InferenceProvidersSpec) : result (list ConfigProvider) :=
  providers ← whenSome (Inference_Remote spec) (λ r providers,
    appendCustomProviders (expandRemoteInferenceProviders r providers) (IR_Custom r)) [];
  whenSome (Inference_Inline spec) (λ i providers,
    appendCustomProviders providers (II_Custom i)) providers.

Definition expandVectorIOProviders (spec : VectorIOProvidersSpec) : result (list ConfigProvider) :=
  providers ← whenSome (VectorIO_Remote spec) (λ r providers,
    appendCustomProviders (providers ++ (expandPgvectorProvider <$> VR_Pgvector r) ++
      (expandMilvusProvider <$> VR_Milvus r) ++ (expandQdrantProvider <$> VR_Qdrant r))
      (VR_Custom r)) [];
  whenSome (VectorIO_Inline spec) (λ i providers,
    appendCustomProviders providers (VInl_Custom i)) providers.

Definition expandToolRuntimeProviders (spec : ToolRuntimeProvidersSpec)
    : result (list ConfigProvider) :=
  providers ← whenSome (ToolRuntime_Remote spec) (λ r providers,
    appendCustomProviders (providers ++ (expandBraveSearchProvider <$> TR_BraveSearch r) ++
      (expandTavilySearchProvider <$> TR_TavilySearch r) ++
      (expandMCPProvider <$> TR_ModelContextProtocol r)) (TR_Custom r)) [];
  whenSome (ToolRuntime_Inline spec) (λ i providers,
    appendCustomProviders (providers ++ (expandInlineFileSearchProvider <$> TI_FileSearch i))
      (TI_Custom i)) providers.

Definition expandFilesProviders (spec : FilesProvidersSpec) : result (list ConfigProvider) :=
  providers ← whenSome (Files_Remote spec) (λ r providers,
    appendCustomProviders (providers ++ pointerProvider expandS3Provider (FR_S3 r))
      (FR_Custom r)) [];
  whenSome (Files_Inline spec) (λ i providers,
    appendCustomProviders (providers ++ pointerProvider expandLocalFSProvider (FIn_LocalFS i))
      (FIn_Custom i)) providers.

Definition expandBatchesProviders (spec : BatchesProvidersSpec) : result (list ConfigProvider) :=
  providers ← whenSome (Batches_Remote spec) (λ r providers,
    appendCustomProviders providers (BR_Custom r)) [];
  whenSome (Batches_Inline spec) (λ i providers,
    appendCustomProviders (providers ++ pointerProvider expandReferenceProvider (BI_Reference i))
      (BI_Custom i)) providers.

Definition expandResponsesProviders (spec : ResponsesProvidersSpec) : result (list ConfigProvider) :=
  providers ← whenSome (Responses_Remote spec) (λ r providers,
    appendCustomProviders providers (RR_Custom r)) [];
  whenSome (Responses_Inline spec) (λ i providers,
    appendCustomProviders
      (providers ++ pointerProvider expandBuiltinResponsesProvider (RI_Builtin i))
      (RI_Custom i)) providers.

Definition expandFileProcessorsProviders (spec : FileProcessorsProvidersSpec)
    : result (list ConfigProvider) :=
  providers ← whenSome (FileProcessors_Remote spec) (λ r providers,
    appendCustomProviders
      (providers ++ pointerProvider expandDoclingServeProvider (FPR_DoclingServe r))
      (FPR_Custom r)) [];
  whenSome (FileProcessors_Inline spec) (λ i providers,
    appendCustomProviders (providers ++
      pointerProvider expandAutoFileProcessorProvider (FPI_Auto i) ++
      pointerProvider expandPyPDFFileProcessorProvider (FPI_PyPDF i) ++
      pointerProvider expandMarkItDownFileProcessorProvider (FPI_MarkItDown i) ++
      pointerProvider expandDoclingFileProcessorProvider (FPI_Docling i)) (FPI_Custom i)) providers.

(** A [providerExpander]: an API type and the expansion of its spec. *)
Record providerExpander := {
  apiType : string;
  expand : unit → result (list ConfigProvider);
}.

(** [if p.X != nil { out = append(out, providerExpander{name, ...}) }] *)
Definition expanderFor {A} (name : string) (f : A → result (list ConfigProvider)) (o : option A)
    : list providerExpander :=
  match o with Some a => [{| apiType := name; expand := λ _, f a |}] | None => [] end.

Definition buildProviderExpanders (p : ProvidersSpec) : list providerExpander :=
  expanderFor "inference" expandInferenceProviders (PS_Inference p) ++
  expanderFor "vector_io" expandVectorIOProviders (PS_VectorIo p) ++
  expanderFor "tool_runtime" expandToolRuntimeProviders (PS_ToolRuntime p) ++
  expanderFor "files" expandFilesProviders (PS_Files p) ++
  expanderFor "batches" expandBatchesProviders (PS_Batches p) ++
  expanderFor "responses" expandResponsesProviders (PS_Responses p) ++
  expanderFor "file_processors" expandFileProcessorsProviders (PS_FileProcessors p).

Definition expandStep (res : gmap string (list ConfigProvider)) (e : providerExpander)
    : result (gmap string (list ConfigProvider)) :=
  ps ← wrap "failed to expand %s providers: %w" [apiType e] (expand e ());
  Ok (match ps with [] => res | _ => <[apiType e := ps]> res end).

(** [None] is the nil map, for a spec without providers. *)
Definition ExpandProviders (providers : option ProvidersSpec)
    : result (option (gmap string (list ConfigProvider))) :=
  match providers with
  | None => Ok None
  | Some p => res ← foldM_result expandStep (buildProviderExpanders p) ∅; Ok (Some res)
  end.

End expand.
