(* ===== verification/ProviderFacts.v ===== *)
(** * Properties of provider expansion

    Theorems about [Provider.v]: what a custom provider becomes, that the
    expanded providers carry the IDs the admission webhook checked, that every
    injected secret is referred to, and that map order does not matter. *)

From S2P Require Import Prelude Value ApiProviders ApiServer Secret Provider.

(** ** Loops over the entries of a map *)

Lemma foldl_insert_lookup {A B} (f : string → A → B) (l : list (string * A)) (m0 : gmap string B) i :
  NoDup (l.*1) →
  foldl (λ m '(k, v), <[k := f k v]> m) m0 l !! i =
  match (list_to_map l : gmap string A) !! i with Some v => Some (f i v) | None => m0 !! i end.
Proof.
  revert m0. induction l as [|[k v] l IH]; intros m0 Hnd; cbn; [by rewrite lookup_empty|].
  cbn in Hnd. apply NoDup_cons in Hnd as [Hk Hnd]. rewrite (IH _ Hnd).
  destruct (decide (k = i)) as [->|Hne].
  - rewrite (not_elem_of_list_to_map_1 l) by done. by rewrite !lookup_insert_eq.
  - by rewrite !lookup_insert_ne.
Qed.

Lemma foldl_range_lookup {A B} {MR : MapRange} (f : string → A → B) (m : gmap string A)
    (m0 : gmap string B) i :
  foldl (λ m '(k, v), <[k := f k v]> m) m0 (range m) !! i =
  match m !! i with Some v => Some (f i v) | None => m0 !! i end.
Proof. by rewrite foldl_insert_lookup, list_to_map_range by apply range_NoDup_keys. Qed.

(** The loop that copies settings while refusing the keys of [refs]: it succeeds
    when no key is refused, and then the settings take precedence. *)
Lemma foldM_guard_Ok {A R} (refs : gmap string R) (err : string → error) (l : list (string * A))
    (m0 m : gmap string A) :
  foldM_result (λ m '(k, v),
    match refs !! k with Some _ => Err (err k) | None => Ok (<[k := v]> m) end) l m0 = Ok m ↔
  (∀ k v, (k, v) ∈ l → refs !! k = None) ∧ m = foldl (λ m '(k, v), <[k := v]> m) m0 l.
Proof.
  revert m0. induction l as [|[k v] l IH]; intros m0; cbn.
  - split; [intros [= ->]|by intros [_ ->]]. split; [|done]. intros k v H. by apply not_elem_of_nil in H.
  - destruct (refs !! k) eqn:Hk; cbn.
    + split; [done|]. intros [Hl _]. specialize (Hl k v). rewrite Hl in Hk; [done|left].
    + rewrite IH. split; intros [Hl ->]; (split; [|done]); intros k' v' Hin.
      * apply elem_of_cons in Hin as [[= -> ->]|Hin]; eauto.
      * apply (Hl k' v'). by right.
Qed.

Lemma copy_settings_Ok {A R} {MR : MapRange} (refs : gmap string R) err (s m0 m : gmap string A) :
  foldM_result (λ m '(k, v),
    match refs !! k with Some _ => Err (err k) | None => Ok (<[k := v]> m) end) (range s) m0 = Ok m ↔
  (∀ k, is_Some (s !! k) → refs !! k = None) ∧
  (∀ k, m !! k = match s !! k with Some v => Some v | None => m0 !! k end).
Proof.
  rewrite foldM_guard_Ok. split.
  - intros [Hok ->]. split.
    + intros k [v Hv]. eapply Hok. by apply elem_of_range.
    + intros k. apply (foldl_range_lookup (λ _ v, v)).
  - intros [Hok Hm]. split.
    + intros k v Hin%elem_of_range. eauto.
    + apply map_eq. intros k. by rewrite Hm, (foldl_range_lookup (λ _ v, v)).
Qed.

(** ** Custom providers *)

Section custom.
Context {MR : MapRange} (json_object : string → result (option object)).

(** The settings of a provider: its JSON object, or none. *)
Definition customSettings (p : CustomProvider) : result object :=
  match Custom_Settings p ≫= JSON_Raw with
  | None => Ok ∅
  | Some raw => map_or_nil <$> json_object raw
  end.

(** The config of a custom provider: references for its secrets, and its
    settings for the other keys. *)
Definition customConfig (p : CustomProvider) (settings : object) (k : string) : option any :=
  match Custom_SecretRefs p !! k with
  | Some _ => Some (AString (envVarRef (DeriveID p) (normalizeEnvVarField k)))
  | None => settings !! k
  end.

Lemma secret_part_lookup p k :
  foldl (λ (cfg : object) '(key, _),
    <[key := AString (envVarRef (DeriveID p) (normalizeEnvVarField key))]> cfg)
    ∅ (range (Custom_SecretRefs p)) !! k = customConfig p ∅ k.
Proof.
  rewrite (foldl_range_lookup (λ key _, AString (envVarRef (DeriveID p) (normalizeEnvVarField key)))).
  done.
Qed.

Lemma expandCustomProvider_unfold p cp :
  expandCustomProvider json_object p = Ok cp ↔
  ∃ settings cfg,
    customSettings p = Ok settings ∧
    (∀ k, is_Some (settings !! k) → Custom_SecretRefs p !! k = None) ∧
    (∀ k, cfg !! k = customConfig p settings k) ∧
    cp = newProvider (DeriveID p) (Custom_Type p) cfg.
Proof.
  unfold expandCustomProvider, customSettings. pose proof (secret_part_lookup p) as Hcfg0.
  set (cfg0 := foldl _ _ _) in *. clearbody cfg0.
  destruct (Custom_Settings p ≫= JSON_Raw) as [raw|]; cbn -[foldM_result].
  - destruct (json_object raw) as [settings|e]; cbn -[foldM_result];
      [|by split; [|intros (? & ? & ? & _)]].
    rewrite bind_Ok. setoid_rewrite copy_settings_Ok. set (m := map_or_nil settings).
    split.
    + intros (cfg & [Hd Hcfg] & [= <-]). exists m, cfg. repeat split; try done.
      intros k. rewrite Hcfg, Hcfg0. unfold customConfig.
      destruct (m !! k) as [v|] eqn:Hm; [by rewrite Hd by eauto|]. by rewrite lookup_empty.
    + intros (? & cfg & [= <-] & Hd & Hcfg & ->). exists cfg. repeat split; try done.
      intros k. rewrite Hcfg, Hcfg0. unfold customConfig.
      destruct (m !! k) as [v|] eqn:Hm; [by rewrite Hd by eauto|]. by rewrite lookup_empty.
  - split.
    + intros [= <-]. exists ∅, cfg0. repeat split; auto. intros k [v Hv]. by rewrite lookup_empty in Hv.
    + intros (settings & cfg & [= <-] & _ & Hcfg & ->). do 2 f_equal. apply map_eq. intros k.
      by rewrite Hcfg0, Hcfg.
Qed.
End custom.

(** ** Appending custom providers *)

Section append.
Context {MR : MapRange} (json_object : string → result (option object)).

Lemma appendCustomProviders_mapM providers custom :
  appendCustomProviders json_object providers custom =
  (λ cs, providers ++ cs) <$> mapM_result (expandCustomProvider json_object) custom.
Proof.
  unfold appendCustomProviders. revert providers.
  induction custom as [|p custom IH]; intros providers; cbn; [by rewrite app_nil_r|].
  destruct (expandCustomProvider json_object p) as [cp|e]; cbn; [|done].
  rewrite IH. destruct (mapM_result _ custom); cbn; [|done]. by rewrite <- app_assoc.
Qed.

Lemma appendCustomProviders_Ok providers custom ps :
  appendCustomProviders json_object providers custom = Ok ps ↔
  ∃ cs, ps = providers ++ cs ∧
        Forall2 (λ p cp, expandCustomProvider json_object p = Ok cp) custom cs.
Proof.
  rewrite appendCustomProviders_mapM, fmap_Ok. setoid_rewrite mapM_result_Forall2.
  split; intros (cs & ? & ?); eauto.
Qed.

Lemma whenSome_Ok {A} (o : option A) block ps qs :
  whenSome o block ps = Ok qs ↔
  match o with Some a => block a ps = Ok qs | None => qs = ps end.
Proof. destruct o; cbn; [done|]. split; [by intros [= ->]|by intros ->]. Qed.
End append.

(** Turns a hypothesis that an expansion succeeded into the shape of its result:
    one [Forall2] per slice of custom providers. *)
Ltac expand_inv :=
  repeat match goal with
  | H : _ ≫= _ = Ok _ |- _ => apply bind_Ok in H as (? & ? & ?)
  | H : whenSome ?o _ _ = Ok _ |- _ => apply whenSome_Ok in H; destruct o; cbn in H; subst
  | H : appendCustomProviders _ _ _ = Ok _ |- _ =>
      apply appendCustomProviders_Ok in H as (? & -> & ?)
  end.

(** ** Provider IDs *)

Section ids.
Context {MR : MapRange} (json_object : string → result (option object)).

Lemma custom_ids custom cs :
  Forall2 (λ p cp, expandCustomProvider json_object p = Ok cp) custom cs →
  ProviderID <$> cs = deriveSliceIDs custom.
Proof.
  induction 1 as [|p cp custom cs Hp _ IH]; cbn; [done|]. rewrite IH. f_equal.
  apply expandCustomProvider_unfold in Hp as (s & cfg & _ & _ & _ & ->). done.
Qed.

Lemma slice_ids {A} `{Provider A} (f : A → ConfigProvider) (l : list A) :
  (∀ a, ProviderID (f a) = DeriveID a) → ProviderID <$> (f <$> l) = deriveSliceIDs l.
Proof. intros Hf. induction l as [|a l IH]; [done|]. cbn. rewrite Hf. f_equal. apply IH. Qed.

Lemma pointer_ids {A} `{Provider A} (f : A → ConfigProvider) (o : option A) :
  (∀ a, ProviderID (f a) = DeriveID a) → ProviderID <$> pointerProvider f o = pointerID o.
Proof. intros Hf. destruct o; cbn; [by rewrite Hf|done]. Qed.

(** Every expander names its provider by [DeriveID]. *)
Ltac ids :=
  rewrite ?fmap_app;
  repeat (rewrite slice_ids by reflexivity); repeat (rewrite pointer_ids by reflexivity);
  repeat match goal with H : Forall2 _ _ _ |- _ => rewrite (custom_ids _ _ H); clear H end;
  cbn; rewrite ?app_nil_r, <- ?app_assoc; reflexivity.

Lemma inference_ids s ps :
  expandInferenceProviders json_object s = Ok ps →
  ProviderID <$> ps = InferenceProvidersSpec_IDs (Some s).
Proof.
  unfold expandInferenceProviders, expandRemoteInferenceProviders. intros H.
  destruct s; cbn in *; expand_inv; ids.
Qed.

Lemma vectorIO_ids s ps :
  expandVectorIOProviders json_object s = Ok ps →
  ProviderID <$> ps = VectorIOProvidersSpec_IDs (Some s).
Proof. unfold expandVectorIOProviders. intros H. destruct s; cbn in *; expand_inv; ids. Qed.

Lemma toolRuntime_ids s ps :
  expandToolRuntimeProviders json_object s = Ok ps →
  ProviderID <$> ps = ToolRuntimeProvidersSpec_IDs (Some s).
Proof. unfold expandToolRuntimeProviders. intros H. destruct s; cbn in *; expand_inv; ids. Qed.

Lemma files_ids s ps :
  expandFilesProviders json_object s = Ok ps →
  ProviderID <$> ps = FilesProvidersSpec_IDs (Some s).
Proof. unfold expandFilesProviders. intros H. destruct s; cbn in *; expand_inv; ids. Qed.

Lemma batches_ids s ps :
  expandBatchesProviders json_object s = Ok ps →
  ProviderID <$> ps = BatchesProvidersSpec_IDs (Some s).
Proof. unfold expandBatchesProviders. intros H. destruct s; cbn in *; expand_inv; ids. Qed.

Lemma responses_ids s ps :
  expandResponsesProviders json_object s = Ok ps →
  ProviderID <$> ps = ResponsesProvidersSpec_IDs (Some s).
Proof. unfold expandResponsesProviders. intros H. destruct s; cbn in *; expand_inv; ids. Qed.

Lemma fileProcessors_ids s ps :
  expandFileProcessorsProviders json_object s = Ok ps →
  ProviderID <$> ps = FileProcessorsProvidersSpec_IDs (Some s).
Proof. unfold expandFileProcessorsProviders. intros H. destruct s; cbn in *; expand_inv; ids. Qed.
End ids.

(** ** The map of expanded providers *)

(** The API types, in the order of [buildProviderExpanders]. *)
Definition apiTypes : list string :=
  ["inference"; "vector_io"; "tool_runtime"; "files"; "batches"; "responses"; "file_processors"].

Lemma apiTypes_NoDup : NoDup apiTypes.
Proof. by apply (bool_decide_unpack _). Qed.

(** The providers of an API type, none when the map has no entry. *)
Definition providersOf (m : gmap string (list ConfigProvider)) (api : string) : list ConfigProvider :=
  default [] (m !! api).

Section expanded.
Context {MR : MapRange} (json_object : string → result (option object)).

Lemma expandStep_Ok m e m' :
  expandStep m e = Ok m' ↔
  ∃ ps, expand e () = Ok ps ∧ m' = match ps with [] => m | _ => <[apiType e := ps]> m end.
Proof.
  unfold expandStep. rewrite bind_Ok. setoid_rewrite wrap_Ok.
  split; intros (ps & ? & H); exists ps; (split; [done|]); congruence.
Qed.

Lemma expandStep_fold es m m' :
  foldM_result expandStep es m = Ok m' → NoDup (apiType <$> es) →
  (∀ e, e ∈ es → m !! apiType e = None →
     ∃ ps, expand e () = Ok ps ∧ providersOf m' (apiType e) = ps) ∧
  (∀ a, a ∉ apiType <$> es → m' !! a = m !! a).
Proof.
  revert m. induction es as [|e es IH]; cbn [foldM_result]; intros m H Hnd.
  { injection H as ->. split; [|done]. intros e He. by apply not_elem_of_nil in He. }
  apply bind_Ok in H as (m1 & (ps & Hps & Hm1)%expandStep_Ok & H).
  cbn in Hnd. apply NoDup_cons in Hnd as [He Hnd]. destruct (IH _ H Hnd) as [IH1 IH2].
  assert (∀ a, a ≠ apiType e → m1 !! a = m !! a) as Hother.
  { intros a Ha. subst m1. destruct ps; [done|]. by rewrite lookup_insert_ne. }
  split.
  - intros e' [->|He']%elem_of_cons Hm.
    + exists ps. split; [done|]. unfold providersOf. rewrite (IH2 _ He). subst m1.
      destruct ps; [by rewrite Hm|by rewrite lookup_insert_eq].
    + apply IH1; [done|]. rewrite Hother; [done|]. intros Heq. apply He. rewrite <- Heq.
      by apply list_elem_of_fmap_2.
  - intros a Ha. cbn in Ha. apply not_elem_of_cons in Ha as [Hne Ha].
    by rewrite (IH2 _ Ha), Hother.
Qed.

Lemma expanderFor_sublist {A} name f (o : option A) :
  apiType <$> expanderFor name f o `sublist_of` [name].
Proof. destruct o; cbn; [done|]. apply sublist_nil_l. Qed.

Lemma buildProviderExpanders_sublist p :
  apiType <$> buildProviderExpanders json_object p `sublist_of` apiTypes.
Proof.
  unfold buildProviderExpanders. rewrite !fmap_app.
  change apiTypes with (["inference"] ++ ["vector_io"] ++ ["tool_runtime"] ++ ["files"] ++
    ["batches"] ++ ["responses"] ++ ["file_processors"]).
  repeat apply sublist_app; apply expanderFor_sublist.
Qed.

Lemma buildProviderExpanders_NoDup p : NoDup (apiType <$> buildProviderExpanders json_object p).
Proof. eapply sublist_NoDup; eauto using apiTypes_NoDup, buildProviderExpanders_sublist. Qed.

(** What one slot of the spec contributes. *)
Definition slotOutput {A} (f : A → result (list ConfigProvider)) (o : option A)
    (ps : list ConfigProvider) : Prop :=
  match o with Some a => f a = Ok ps | None => ps = [] end.

Lemma slot_output {A} p res name f (o : option A) :
  foldM_result expandStep (buildProviderExpanders json_object p) ∅ = Ok res →
  (∀ e, e ∈ expanderFor name f o → e ∈ buildProviderExpanders json_object p) →
  (o = None → name ∉ apiType <$> buildProviderExpanders json_object p) →
  slotOutput f o (providersOf res name).
Proof.
  intros H Hin Hout. destruct (expandStep_fold _ _ _ H (buildProviderExpanders_NoDup p)) as [H1 H2].
  destruct o as [a|]; cbn.
  - destruct (H1 {| apiType := name; expand := λ _, f a |}) as (ps & Hps & Heq); [|done|].
    { apply Hin. left. }
    cbn in *. by rewrite Heq.
  - unfold providersOf. by rewrite (H2 name) by auto.
Qed.

Lemma expanderFor_name {A} name name' f (o : option A) :
  name ∈ apiType <$> expanderFor name' f o → name = name' ∧ o ≠ None.
Proof. destruct o; cbn; [|by intros ?%not_elem_of_nil]. by intros ->%list_elem_of_singleton. Qed.

(** The slots of the expanded map. *)
Definition expandedSlots (p : ProvidersSpec) (res : gmap string (list ConfigProvider)) : Prop :=
  slotOutput (expandInferenceProviders json_object) (PS_Inference p) (providersOf res "inference") ∧
  slotOutput (expandVectorIOProviders json_object) (PS_VectorIo p) (providersOf res "vector_io") ∧
  slotOutput (expandToolRuntimeProviders json_object) (PS_ToolRuntime p)
    (providersOf res "tool_runtime") ∧
  slotOutput (expandFilesProviders json_object) (PS_Files p) (providersOf res "files") ∧
  slotOutput (expandBatchesProviders json_object) (PS_Batches p) (providersOf res "batches") ∧
  slotOutput (expandResponsesProviders json_object) (PS_Responses p) (providersOf res "responses") ∧
  slotOutput (expandFileProcessorsProviders json_object) (PS_FileProcessors p)
    (providersOf res "file_processors").

Ltac slot := 
  eapply slot_output; [done| |];
  [ intros e He; unfold buildProviderExpanders; rewrite !elem_of_app; tauto
  | intros HNone; unfold buildProviderExpanders; rewrite !fmap_app, !elem_of_app;
    intros Hn; decompose [or] Hn; clear Hn;
    match goal with
    | Hn : _ ∈ apiType <$> expanderFor _ _ _ |- _ => by apply expanderFor_name in Hn as [? ?]
    end ].

Lemma ExpandProviders_slots p res :
  ExpandProviders json_object (Some p) = Ok (Some res) → expandedSlots p res.
Proof.
  unfold ExpandProviders. intros H. apply bind_Ok in H as (res' & H & [= ->]).
  unfold expandedSlots. repeat split; slot.
Qed.

Lemma ExpandProviders_keys p res a :
  ExpandProviders json_object (Some p) = Ok (Some res) → is_Some (res !! a) → a ∈ apiTypes.
Proof.
  unfold ExpandProviders. intros H [ps Ha]. apply bind_Ok in H as (res' & H & [= ->]).
  destruct (expandStep_fold _ _ _ H (buildProviderExpanders_NoDup p)) as [_ H2].
  destruct (decide (a ∈ apiType <$> buildProviderExpanders json_object p)) as [Hin|Hout].
  - eauto using elem_of_sublist, buildProviderExpanders_sublist.
  - by rewrite (H2 _ Hout), lookup_empty in Ha.
Qed.
End expanded.

(** ** Secrets that the config refers to *)

(** The config of a provider has a value that is the substitution of [name]. *)
Definition refersTo (name : string) (cp : ConfigProvider) : Prop :=
  ∃ cfg key, Config cp = Some cfg ∧ cfg !! key = Some (AString (envSubst name)).

(** Every variable of [envs] is referred to by a provider of [ps]. *)
Definition covered (envs : list EnvVar) (ps : list ConfigProvider) : Prop :=
  ∀ e, e ∈ envs → ∃ cp, cp ∈ ps ∧ refersTo (Env_Name e) cp.

Lemma covered_nil ps : covered [] ps.
Proof. intros e He. by apply not_elem_of_nil in He. Qed.

Lemma covered_app envs1 envs2 ps :
  covered envs1 ps → covered envs2 ps → covered (envs1 ++ envs2) ps.
Proof. intros H1 H2 e [He|He]%elem_of_app; auto. Qed.

Lemma covered_incl envs ps qs : covered envs ps → ps ⊆ qs → covered envs qs.
Proof. intros H Hs e He. destruct (H e He) as (cp & Hcp & Hr). eauto. Qed.

Lemma covered_slice {A} (collect : A → list EnvVar) (expand : A → ConfigProvider) l :
  (∀ a, covered (collect a) [expand a]) → covered (flat_map collect l) (expand <$> l).
Proof.
  intros H. induction l as [|a l IH]; cbn; [apply covered_nil|].
  apply covered_app; [eapply covered_incl; [apply H|set_solver]|].
  eapply covered_incl; [apply IH|set_solver].
Qed.

Lemma covered_collectOpt {A} (collect : A → list EnvVar) (expand : A → ConfigProvider) o :
  (∀ a, covered (collect a) [expand a]) →
  covered (collectOpt collect o) (pointerProvider expand o).
Proof. intros H. destruct o; cbn; [apply H|apply covered_nil]. Qed.

(** One secret field of a typed provider. *)
Lemma covered_secret key id field ref cp :
  (ref ≠ None → ∃ cfg, Config cp = Some cfg ∧ cfg !! key = Some (AString (envVarRef id field))) →
  covered (optSecret id field ref) [cp].
Proof.
  intros H e He. destruct ref as [ref|]; [|by apply not_elem_of_nil in He].
  apply list_elem_of_singleton in He as ->. destruct H as (cfg & Hc & Hk); [done|].
  exists cp. split; [left|]. by exists cfg, key.
Qed.

Lemma applyNetworkConfig_ne n cfg k : k ≠ "network" → applyNetworkConfig n cfg !! k = cfg !! k.
Proof. intros Hk. destruct n; cbn; [|done]. by rewrite lookup_set_map_ne. Qed.

Lemma applyCommon_ne c cfg k :
  k ≠ "network" → k ≠ "allowed_models" → k ≠ "refresh_models" →
  applyCommonInferenceConfig c cfg !! k = cfg !! k.
Proof.
  intros. unfold applyCommonInferenceConfig, setBoolPtr.
  by rewrite applyNetworkConfig_ne, lookup_set_list_ne, lookup_set_some_ne.
Qed.

#[local] Hint Rewrite applyCommon_ne using discriminate : cfg.

(** Proves that the field [key] of an expanded provider holds its reference. *)
Ltac secret_field key :=
  apply (covered_secret key); intros Href; eexists; split; [reflexivity|];
  unfold applyQdrantConnectionConfig, applyQdrantAuthConfig, applyQdrantRuntimeConfig,
    setSecretRef, setString, setIntPtr, setBoolPtr, setStringPtr;
  cfg_lookup;
  match goal with |- context [match ?r with Some _ => _ | None => _ end] =>
    destruct r; [done|by destruct Href] end.

(** The same for a required secret. *)
Lemma covered_required key id field ref cp :
  (∃ cfg, Config cp = Some cfg ∧ cfg !! key = Some (AString (envVarRef id field))) →
  covered [secretToEnvVar id field ref] [cp].
Proof. intros H. by apply (covered_secret key id field (Some ref)). Qed.

Ltac required_field key :=
  apply (covered_required key); eexists; split; [reflexivity|];
  unfold setString, setIntPtr; cfg_lookup; done.

Create HintDb covered.

(** Typed providers: each secret field is referred to under its own key. *)
Section typed.
Lemma covered_vllm l :
  covered (flat_map (λ p, optSecret (DeriveID p) "API_TOKEN" (VLLM_APIToken p)) l)
          (expandVLLMProvider <$> l).
Proof. apply covered_slice. intros p. secret_field "api_token". Qed.

Lemma covered_openai l :
  covered (flat_map (λ p, [secretToEnvVar (DeriveID p) "API_KEY" (OpenAI_APIKey p)]) l)
          (expandOpenAIProvider <$> l).
Proof. apply covered_slice. intros p. required_field "api_key". Qed.

Lemma covered_azure l :
  covered (flat_map (λ p, [secretToEnvVar (DeriveID p) "API_KEY" (Azure_APIKey p)]) l)
          (expandAzureProvider <$> l).
Proof. apply covered_slice. intros p. required_field "api_key". Qed.

Lemma covered_bedrock l :
  covered (flat_map collectBedrockSecrets l) (expandBedrockProvider <$> l).
Proof.
  apply covered_slice. intros p. unfold collectBedrockSecrets. repeat apply covered_app.
  - secret_field "api_key".
  - secret_field "aws_access_key_id".
  - secret_field "aws_secret_access_key".
  - secret_field "aws_session_token".
Qed.

Lemma covered_watsonx l :
  covered (flat_map (λ p, [secretToEnvVar (DeriveID p) "API_KEY" (Watsonx_APIKey p)]) l)
          (expandWatsonxProvider <$> l).
Proof. apply covered_slice. intros p. required_field "api_key". Qed.

Lemma covered_pgvector l :
  covered (flat_map (λ p, [secretToEnvVar (DeriveID p) "PASSWORD" (Pgvector_Password p)]) l)
          (expandPgvectorProvider <$> l).
Proof. apply covered_slice. intros p. required_field "password". Qed.

Lemma covered_milvus l :
  covered (flat_map (λ p, optSecret (DeriveID p) "TOKEN" (Milvus_Token p)) l)
          (expandMilvusProvider <$> l).
Proof. apply covered_slice. intros p. secret_field "token". Qed.

Lemma covered_qdrant l :
  covered (flat_map (λ p, optSecret (DeriveID p) "API_KEY" (Qdrant_APIKey p)) l)
          (expandQdrantProvider <$> l).
Proof. apply covered_slice. intros p. secret_field "api_key". Qed.

Lemma covered_brave l :
  covered (flat_map (λ p, [secretToEnvVar (DeriveID p) "API_KEY" (Brave_APIKey p)]) l)
          (expandBraveSearchProvider <$> l).
Proof. apply covered_slice. intros p. required_field "api_key". Qed.

Lemma covered_tavily l :
  covered (flat_map (λ p, [secretToEnvVar (DeriveID p) "API_KEY" (Tavily_APIKey p)]) l)
          (expandTavilySearchProvider <$> l).
Proof. apply covered_slice. intros p. required_field "api_key". Qed.

Lemma covered_s3 o :
  covered (collectOpt (λ p,
    optSecret (DeriveID p) "AWS_ACCESS_KEY_ID" (S3_AWSAccessKeyID p) ++
    optSecret (DeriveID p) "AWS_SECRET_ACCESS_KEY" (S3_AWSSecretAccessKey p)) o)
    (pointerProvider expandS3Provider o).
Proof.
  apply covered_collectOpt. intros p. apply covered_app.
  - secret_field "aws_access_key_id".
  - secret_field "aws_secret_access_key".
Qed.

Lemma covered_doclingServe o :
  covered (collectOpt (λ p, optSecret (DeriveID p) "API_KEY" (DoclingServe_APIKey p)) o)
          (pointerProvider expandDoclingServeProvider o).
Proof. apply covered_collectOpt. intros p. secret_field "api_key". Qed.
End typed.

#[local] Hint Resolve covered_vllm covered_openai covered_azure covered_bedrock covered_watsonx
  covered_pgvector covered_milvus covered_qdrant covered_brave covered_tavily covered_s3
  covered_doclingServe : covered.

Section covered.
Context {MR : MapRange} (json_object : string → result (option object)).

Lemma covered_custom p cp :
  expandCustomProvider json_object p = Ok cp → covered (collectCustomProviderSecrets p) [cp].
Proof.
  intros (s & cfg & _ & _ & Hcfg & ->)%expandCustomProvider_unfold e He.
  unfold collectCustomProviderSecrets in He.
  apply list_elem_of_In, in_flat_map in He as (key & _ & He%list_elem_of_In).
  destruct (Custom_SecretRefs p !! key) as [ref|] eqn:Hkey; [|by apply not_elem_of_nil in He].
  apply list_elem_of_singleton in He as ->. eexists. split; [left|].
  exists cfg, key. split; [done|]. rewrite Hcfg. unfold customConfig. by rewrite Hkey.
Qed.

Lemma covered_customs custom cs :
  Forall2 (λ p cp, expandCustomProvider json_object p = Ok cp) custom cs →
  covered (flat_map collectCustomProviderSecrets custom) cs.
Proof.
  induction 1 as [|p cp custom cs Hp _ IH]; cbn; [apply covered_nil|].
  apply covered_app; [eapply covered_incl; [by apply covered_custom|set_solver]|].
  eapply covered_incl; [apply IH|set_solver].
Qed.
Local Hint Resolve covered_customs : covered.

(** Splits the collected variables into slices and finds each among the providers. *)
Ltac covers :=
  cbn; rewrite ?app_nil_r; repeat apply covered_app; try apply covered_nil;
  (eapply covered_incl; [solve [eauto 2 with covered]|set_solver]).

Lemma inference_covered s ps :
  expandInferenceProviders json_object s = Ok ps → covered (collectInferenceSecrets s) ps.
Proof.
  unfold expandInferenceProviders, expandRemoteInferenceProviders, collectInferenceSecrets,
    collectRemoteInferenceSecrets.
  intros H. destruct s; cbn in *; expand_inv; covers.
Qed.

Lemma vectorIO_covered s ps :
  expandVectorIOProviders json_object s = Ok ps → covered (collectVectorIOSecrets s) ps.
Proof.
  unfold expandVectorIOProviders, collectVectorIOSecrets.
  intros H. destruct s; cbn in *; expand_inv; covers.
Qed.

Lemma toolRuntime_covered s ps :
  expandToolRuntimeProviders json_object s = Ok ps → covered (collectToolRuntimeSecrets s) ps.
Proof.
  unfold expandToolRuntimeProviders, collectToolRuntimeSecrets.
  intros H. destruct s; cbn in *; expand_inv; covers.
Qed.

Lemma files_covered s ps :
  expandFilesProviders json_object s = Ok ps → covered (collectFilesSecrets s) ps.
Proof.
  unfold expandFilesProviders, collectFilesSecrets.
  intros H. destruct s; cbn -[optSecret] in *; expand_inv; covers.
Qed.

Lemma batches_covered s ps :
  expandBatchesProviders json_object s = Ok ps → covered (collectBatchesSecrets s) ps.
Proof.
  unfold expandBatchesProviders, collectBatchesSecrets, collectCustomSecretsFromSlices.
  intros H. destruct s; cbn in *; expand_inv; covers.
Qed.

Lemma responses_covered s ps :
  expandResponsesProviders json_object s = Ok ps → covered (collectResponsesSecrets s) ps.
Proof.
  unfold expandResponsesProviders, collectResponsesSecrets, collectCustomSecretsFromSlices.
  intros H. destruct s; cbn in *; expand_inv; covers.
Qed.

Lemma fileProcessors_covered s ps :
  expandFileProcessorsProviders json_object s = Ok ps → covered (collectFileProcessorsSecrets s) ps.
Proof.
  unfold expandFileProcessorsProviders, collectFileProcessorsSecrets.
  intros H. destruct s; cbn -[optSecret] in *; expand_inv; covers.
Qed.
End covered.

(** ** Independence of map order *)

Section order.
Context (json_object : string → result (option object)) (MR1 MR2 : MapRange).

Lemma customSettings_order p cp1 :
  @expandCustomProvider MR1 json_object p = Ok cp1 →
  @expandCustomProvider MR2 json_object p = Ok cp1.
Proof. rewrite !expandCustomProvider_unfold. done. Qed.
End order.

Lemma expandCustomProvider_order json_object (MR1 MR2 : MapRange) p :
  same_outcome (@expandCustomProvider MR1 json_object p) (@expandCustomProvider MR2 json_object p).
Proof.
  destruct (@expandCustomProvider MR1 json_object p) eqn:H1.
  - apply (customSettings_order _ MR1 MR2) in H1. by rewrite H1.
  - destruct (@expandCustomProvider MR2 json_object p) eqn:H2; [|done].
    apply (customSettings_order _ MR2 MR1) in H2. congruence.
Qed.

Lemma appendCustomProviders_order json_object (MR1 MR2 : MapRange) ps custom :
  same_outcome (@appendCustomProviders MR1 json_object ps custom)
               (@appendCustomProviders MR2 json_object ps custom).
Proof.
  rewrite !appendCustomProviders_mapM. apply same_outcome_fmap, same_outcome_mapM.
  apply expandCustomProvider_order.
Qed.

Lemma whenSome_order {A} (o : option A) block1 block2 ps :
  (∀ a ps, same_outcome (block1 a ps) (block2 a ps)) →
  same_outcome (whenSome o block1 ps) (whenSome o block2 ps).
Proof. intros H. destruct o; cbn; [apply H|done]. Qed.

(** One expansion: its blocks agree, so it does. *)
Ltac order_blocks :=
  apply same_outcome_bind; [|intros ps];
  apply whenSome_order; intros; apply appendCustomProviders_order.

(** Two expanders of the same type that agree on their outcome. *)
Definition same_expander (e1 e2 : providerExpander) : Prop :=
  apiType e1 = apiType e2 ∧ same_outcome (expand e1 ()) (expand e2 ()).

Lemma expanderFor_order {A} name f1 f2 (o : option A) :
  (∀ a, same_outcome (f1 a) (f2 a)) →
  Forall2 same_expander (expanderFor name f1 o) (expanderFor name f2 o).
Proof. intros H. destruct o; cbn; repeat constructor. apply H. Qed.

Lemma buildProviderExpanders_order json_object (MR1 MR2 : MapRange) p :
  Forall2 same_expander (@buildProviderExpanders MR1 json_object p)
                        (@buildProviderExpanders MR2 json_object p).
Proof.
  unfold buildProviderExpanders.
  repeat apply Forall2_app; apply expanderFor_order; intros s; order_blocks.
Qed.

Lemma expandStep_order m e1 e2 :
  same_expander e1 e2 → same_outcome (expandStep m e1) (expandStep m e2).
Proof.
  intros [Ht Ho]. unfold expandStep. rewrite Ht. apply same_outcome_bind; [|done].
  by apply same_outcome_wrap.
Qed.

Lemma expand_fold_order es1 es2 m :
  Forall2 same_expander es1 es2 →
  same_outcome (foldM_result expandStep es1 m) (foldM_result expandStep es2 m).
Proof.
  intros H. revert m. induction H as [|e1 e2 es1 es2 He _ IH]; intros m; cbn [foldM_result]; [done|].
  apply same_outcome_bind; [by apply expandStep_order|apply IH].
Qed.

Lemma ExpandProviders_order json_object (MR1 MR2 : MapRange) ps :
  same_outcome (@ExpandProviders MR1 json_object ps) (@ExpandProviders MR2 json_object ps).
Proof.
  destruct ps as [p|]; [|done]. cbn [ExpandProviders].
  apply same_outcome_bind; [|done]. apply expand_fold_order, buildProviderExpanders_order.
Qed.

(** ** When expansion fails *)

(** The custom providers of a spec. *)
Definition optCustoms {A} (f : A → list CustomProvider) (o : option A) : list CustomProvider :=
  match o with Some a => f a | None => [] end.

Definition customProviders (p : ProvidersSpec) : list CustomProvider :=
  optCustoms (λ s, optCustoms IR_Custom (Inference_Remote s) ++
                   optCustoms II_Custom (Inference_Inline s)) (PS_Inference p) ++
  optCustoms (λ s, optCustoms VR_Custom (VectorIO_Remote s) ++
                   optCustoms VInl_Custom (VectorIO_Inline s)) (PS_VectorIo p) ++
  optCustoms (λ s, optCustoms TR_Custom (ToolRuntime_Remote s) ++
                   optCustoms TI_Custom (ToolRuntime_Inline s)) (PS_ToolRuntime p) ++
  optCustoms (λ s, optCustoms FR_Custom (Files_Remote s) ++
                   optCustoms FIn_Custom (Files_Inline s)) (PS_Files p) ++
  optCustoms (λ s, optCustoms BR_Custom (Batches_Remote s) ++
                   optCustoms BI_Custom (Batches_Inline s)) (PS_Batches p) ++
  optCustoms (λ s, optCustoms RR_Custom (Responses_Remote s) ++
                   optCustoms RI_Custom (Responses_Inline s)) (PS_Responses p) ++
  optCustoms (λ s, optCustoms FPR_Custom (FileProcessors_Remote s) ++
                   optCustoms FPI_Custom (FileProcessors_Inline s)) (PS_FileProcessors p).

Section failure.
Context {MR : MapRange} (json_object : string → result (option object)).

Definition customOk (p : CustomProvider) : bool := is_ok (expandCustomProvider json_object p).

Lemma append_is_ok ps custom :
  is_ok (appendCustomProviders json_object ps custom) = forallb customOk custom.
Proof.
  rewrite appendCustomProviders_mapM.
  transitivity (is_ok (mapM_result (expandCustomProvider json_object) custom));
    [by destruct (mapM_result _ custom)|apply mapM_result_is_ok].
Qed.

(** Two blocks in a row succeed when the custom providers of both do. *)
Lemma blocks_is_ok {A B} (o1 : option A) (o2 : option B) f1 f2 g1 g2 :
  is_ok (ps ← whenSome o1 (λ a ps, appendCustomProviders json_object (f1 a ps) (g1 a)) [];
         whenSome o2 (λ b ps, appendCustomProviders json_object (f2 b ps) (g2 b)) ps) =
  forallb customOk (optCustoms g1 o1 ++ optCustoms g2 o2).
Proof.
  rewrite forallb_app, bind_is_ok. unfold whenSome, optCustoms.
  destruct o1 as [a|], o2 as [b|]; cbn; try done.
  - rewrite <- (append_is_ok (f1 a []) (g1 a)).
    destruct (appendCustomProviders _ (f1 a []) (g1 a)); cbn; [apply append_is_ok|done].
  - rewrite <- (append_is_ok (f1 a []) (g1 a)).
    by destruct (appendCustomProviders _ (f1 a []) (g1 a)).
  - apply append_is_ok.
Qed.

Lemma fold_is_ok es m :
  is_ok (foldM_result expandStep es m) = forallb (λ e, is_ok (expand e ())) es.
Proof.
  revert m. induction es as [|e es IH]; intros m; [done|]. cbn [foldM_result forallb].
  rewrite bind_is_ok. destruct (expandStep m e) as [m'|err] eqn:He.
  - apply expandStep_Ok in He as (ps & -> & _). apply IH.
  - unfold expandStep in He. by destruct (expand e ()).
Qed.

Lemma expanderFor_is_ok {A} name f (o : option A) g :
  (∀ a, is_ok (f a) = forallb customOk (g a)) →
  forallb (λ e, is_ok (expand e ())) (expanderFor name f o) = forallb customOk (optCustoms g o).
Proof. intros H. destruct o; cbn; [by rewrite H, andb_true_r|done]. Qed.

Lemma ExpandProviders_is_ok p :
  is_ok (ExpandProviders json_object (Some p)) = forallb customOk (customProviders p).
Proof.
  unfold ExpandProviders. rewrite bind_is_ok.
  transitivity (is_ok (foldM_result expandStep (buildProviderExpanders json_object p) ∅));
    [by destruct (foldM_result _ _ _)|].
  rewrite fold_is_ok. unfold buildProviderExpanders, customProviders.
  rewrite !forallb_app.
  repeat (f_equal; [apply expanderFor_is_ok; intros s; apply blocks_is_ok|]).
  apply expanderFor_is_ok. intros s. apply blocks_is_ok.
Qed.
End failure.

(** ** Theorems *)

Section theorems.
Context {MR : MapRange} (json_object : string → result (option object)).

Lemma expanded_provider_ids p res :
  ExpandProviders json_object (Some p) = Ok (Some res) →
  flat_map (λ api, ProviderID <$> providersOf res api) apiTypes = ProvidersSpec_IDs (Some p).
Proof.
  intros (Hi & Hv & Ht & Hf & Hb & Hr & Hp)%ExpandProviders_slots.
  cbn [flat_map apiTypes ProvidersSpec_IDs]. rewrite app_nil_r.
  repeat apply (f_equal2 app).
  - destruct (PS_Inference p); [by apply (inference_ids json_object)|by rewrite Hi].
  - destruct (PS_VectorIo p); [by apply (vectorIO_ids json_object)|by rewrite Hv].
  - destruct (PS_ToolRuntime p); [by apply (toolRuntime_ids json_object)|by rewrite Ht].
  - destruct (PS_Files p); [by apply (files_ids json_object)|by rewrite Hf].
  - destruct (PS_Batches p); [by apply (batches_ids json_object)|by rewrite Hb].
  - destruct (PS_Responses p); [by apply (responses_ids json_object)|by rewrite Hr].
  - destruct (PS_FileProcessors p); [by apply (fileProcessors_ids json_object)|by rewrite Hp].
Qed.

(** The provider IDs of the generated sections are, in order, the IDs that
    [ProvidersSpec.IDs] reports: what the admission webhook checks for
    uniqueness is what ends up in the config. *)
Theorem ExpandProviders_IDs p res :
  ExpandProviders json_object (Some p) = Ok (Some res) →
  flat_map (λ api, ProviderID <$> providersOf res api) apiTypes = ProvidersSpec_IDs (Some p).
Proof. apply expanded_provider_ids. Qed.

Lemma provider_secrets_covered p res e :
  ExpandProviders json_object (Some p) = Ok (Some res) → e ∈ collectProviderSecrets p →
  ∃ api cp, api ∈ apiTypes ∧ cp ∈ providersOf res api ∧ refersTo (Env_Name e) cp.
Proof.
  intros (Hi & Hv & Ht & Hf & Hb & Hr & Hp)%ExpandProviders_slots He.
  unfold collectProviderSecrets in He.
  assert (∀ {A} (collect : A → list EnvVar) f (o : option A) api,
    (∀ a ps, f a = Ok ps → covered (collect a) ps) → api ∈ apiTypes →
    slotOutput f o (providersOf res api) → e ∈ collectOpt collect o →
    ∃ api cp, api ∈ apiTypes ∧ cp ∈ providersOf res api ∧ refersTo (Env_Name e) cp) as slot.
  { intros A collect f o api Hc Hapi Ho Hin. destruct o as [a|]; [|by apply not_elem_of_nil in Hin].
    destruct (Hc _ _ Ho e Hin) as (cp & ? & ?). by exists api, cp. }
  rewrite !elem_of_app in He. destruct He as [He|[He|[He|[He|[He|[He|He]]]]]].
  - eapply slot; [apply (inference_covered json_object)|..]; eauto. by apply (bool_decide_unpack _).
  - eapply slot; [apply (vectorIO_covered json_object)|..]; eauto. by apply (bool_decide_unpack _).
  - eapply slot; [apply (toolRuntime_covered json_object)|..]; eauto. by apply (bool_decide_unpack _).
  - eapply slot; [apply (files_covered json_object)|..]; eauto. by apply (bool_decide_unpack _).
  - eapply slot; [apply (batches_covered json_object)|..]; eauto. by apply (bool_decide_unpack _).
  - eapply slot; [apply (responses_covered json_object)|..]; eauto. by apply (bool_decide_unpack _).
  - eapply slot; [apply (fileProcessors_covered json_object)|..]; eauto. by apply (bool_decide_unpack _).
Qed.

(** The two lists that must be kept in sync are: every secret variable
    that [collectProviderSecrets] injects into the Deployment is referred to
    by the config of one of the expanded providers. *)
Theorem ExpandProviders_covers_secrets p res e :
  ExpandProviders json_object (Some p) = Ok (Some res) → e ∈ collectProviderSecrets p →
  ∃ api cp cfg key,
    api ∈ apiTypes ∧ cp ∈ providersOf res api ∧ Config cp = Some cfg ∧
    cfg !! key = Some (AString (envSubst (Env_Name e))).
Proof.
  intros H He. destruct (provider_secrets_covered p res e H He) as (api & cp & ? & ? & cfg & key & ? & ?).
  by exists api, cp, cfg, key.
Qed.

(** Expansion fails exactly when some custom provider does. *)
Theorem ExpandProviders_fails_iff_custom p :
  is_ok (ExpandProviders json_object (Some p)) =
  forallb (λ c, is_ok (expandCustomProvider json_object c)) (customProviders p).
Proof. apply ExpandProviders_is_ok. Qed.

(** A custom provider is expanded exactly when its settings decode to an
    object that shares no key with its secret references; the config is then
    the union of the settings and one environment reference per secret. *)
Theorem expandCustomProvider_spec p :
  (is_ok (expandCustomProvider json_object p) = true ↔
   ∃ settings, customSettings json_object p = Ok settings ∧
     ∀ k, is_Some (settings !! k) → Custom_SecretRefs p !! k = None) ∧
  ∀ cp, expandCustomProvider json_object p = Ok cp →
    ∃ settings cfg,
      customSettings json_object p = Ok settings ∧
      cp = newProvider (DeriveID p) (Custom_Type p) cfg ∧
      ∀ k, cfg !! k = match Custom_SecretRefs p !! k with
                      | Some _ => Some (AString (envVarRef (DeriveID p) (normalizeEnvVarField k)))
                      | None => settings !! k
                      end.
Proof.
  split.
  - split.
    + destruct (expandCustomProvider json_object p) eqn:H; [|done]. intros _.
      apply expandCustomProvider_unfold in H as (s & cfg & ? & ? & _). eauto.
    + intros (s & Hs & Hd).
      set (cfg := map_imap (λ k _, Some (AString (envVarRef (DeriveID p) (normalizeEnvVarField k))))
                    (Custom_SecretRefs p) ∪ s).
      assert (expandCustomProvider json_object p = Ok (newProvider (DeriveID p) (Custom_Type p) cfg))
        as ->; [|done].
      apply expandCustomProvider_unfold. exists s, cfg. repeat split; try done.
      intros k. unfold cfg, customConfig. rewrite lookup_union, map_lookup_imap.
      by destruct (Custom_SecretRefs p !! k), (s !! k).
  - intros cp (s & cfg & ? & _ & ? & ->)%expandCustomProvider_unfold. by exists s, cfg.
Qed.
End theorems.

(** The expanded providers do not depend on the order in which Go ranges
    over maps: two runs agree on success and on the result. *)
Theorem ExpandProviders_deterministic json_object (MR1 MR2 : MapRange) ps :
  same_outcome (@ExpandProviders MR1 json_object ps) (@ExpandProviders MR2 json_object ps).
Proof. apply ExpandProviders_order. Qed.
