(* ===== verification/Hash.v ===== *)
(** * SHA-256, hexadecimal text and integers of the Go standard library

    [crypto/sha256.Sum256], [encoding/hex.EncodeToString] and [strconv.Atoi]
    as the config generator uses them.  A byte is a [Z] in [0, 255], a word
    of the hash a [Z] in [0, 2^32). *)

From Stdlib Require Import Ascii ZArith Lia.
From stdpp Require Import pretty.
From S2P Require Import Prelude.

#[local] Open Scope Z_scope.

(** ** SHA-256 (FIPS 180-4) *)

Definition mask32 (x : Z) : Z := Z.land x (2 ^ 32 - 1).
Definition add32 (x y : Z) : Z := mask32 (x + y).
Definition rotr (n x : Z) : Z := Z.lor (Z.shiftr x n) (mask32 (Z.shiftl x (32 - n))).

Definition bsig0 x := Z.lxor (rotr 2 x) (Z.lxor (rotr 13 x) (rotr 22 x)).
Definition bsig1 x := Z.lxor (rotr 6 x) (Z.lxor (rotr 11 x) (rotr 25 x)).
Definition ssig0 x := Z.lxor (rotr 7 x) (Z.lxor (rotr 18 x) (Z.shiftr x 3)).
Definition ssig1 x := Z.lxor (rotr 17 x) (Z.lxor (rotr 19 x) (Z.shiftr x 10)).
Definition ch x y z := Z.lxor (Z.land x y) (Z.land (mask32 (Z.lnot x)) z).
Definition maj x y z := Z.lxor (Z.land x y) (Z.lxor (Z.land x z) (Z.land y z)).

(** The constants are not listed: FIPS 180-4 defines them as the first 32
    fractional bits of the square and cube roots of the first primes. *)

Definition isPrime (n : nat) : bool :=
  forallb (λ d, negb (Nat.eqb (Nat.modulo n d) 0)) (seq 2 (n - 2)).

(** The 64 primes up to 311. *)
Definition primes : list Z := Z.of_nat <$> List.filter isPrime (seq 2 310).

(** The largest [r + d] with [d < 2^bits] whose cube is at most [n]. *)
Fixpoint cubeRoot (bits : nat) (n r : Z) : Z :=
  match bits with
  | O => r
  | S bits =>
      let r' := r + 2 ^ Z.of_nat bits in
      cubeRoot bits n (if r' * r' * r' <=? n then r' else r)
  end.

Definition roundConstants : list Z :=
  Eval vm_compute in (λ p, mask32 (cubeRoot 36 (p * 2 ^ 96) 0)) <$> primes.

Definition initialState : list Z :=
  Eval vm_compute in (λ p, mask32 (Z.sqrt (p * 2 ^ 64))) <$> take 8 primes.

Definition nthZ (n : nat) (l : list Z) : Z := nth n l 0.

(** The message schedule, latest word first. *)
Fixpoint extendSchedule (n : nat) (w : list Z) : list Z :=
  match n with
  | O => w
  | S n =>
      let next := add32 (add32 (ssig1 (nthZ 1 w)) (nthZ 6 w))
                        (add32 (ssig0 (nthZ 14 w)) (nthZ 15 w)) in
      extendSchedule n (next :: w)
  end.

Definition compressRound (st : list Z) (kw : Z * Z) : list Z :=
  match st with
  | [a; b; c; d; e; f; g; h] =>
      let t1 := add32 (add32 (add32 h (bsig1 e)) (add32 (ch e f g) kw.1)) kw.2 in
      let t2 := add32 (bsig0 a) (maj a b c) in
      [add32 t1 t2; a; b; c; add32 d t1; e; f; g]
  | _ => st
  end.

Definition compress (st block : list Z) : list Z :=
  let w := reverse (extendSchedule 48 (reverse block)) in
  zip_with add32 st (foldl compressRound st (zip roundConstants w)).

Fixpoint bytesOf (s : string) : list Z :=
  match s with
  | EmptyString => []
  | String c s' => Z.of_N (N_of_ascii c) :: bytesOf s'
  end.

(** The [n] big-endian bytes of [x]. *)
Fixpoint bigEndian (n : nat) (x : Z) : list Z :=
  match n with
  | O => []
  | S n => Z.land (Z.shiftr x (8 * Z.of_nat n)) 255 :: bigEndian n x
  end.

Definition padMessage (msg : list Z) : list Z :=
  let len := Z.of_nat (length msg) in
  msg ++ [128] ++ repeat 0 (Z.to_nat ((55 - len) mod 64)) ++ bigEndian 8 (8 * len).

(** The 32-bit words of a byte list whose length is a multiple of four. *)
Fixpoint wordsOf (l : list Z) : list Z :=
  match l with
  | a :: b :: c :: d :: l' =>
      Z.lor (Z.shiftl a 24) (Z.lor (Z.shiftl b 16) (Z.lor (Z.shiftl c 8) d)) :: wordsOf l'
  | _ => []
  end.

(** Consumes the words sixteen at a time; [fuel] bounds the number of blocks. *)
Fixpoint absorb (fuel : nat) (st ws : list Z) : list Z :=
  match fuel, ws with
  | S fuel, _ :: _ => absorb fuel (compress st (take 16 ws)) (drop 16 ws)
  | _, _ => st
  end.

Definition Sum256 (msg : string) : list Z :=
  let ws := wordsOf (padMessage (bytesOf msg)) in
  flat_map (bigEndian 4) (absorb (length ws) initialState ws).

(** ** Hexadecimal text *)

Definition hexDigit (n : Z) : ascii :=
  match nth_error (chars "0123456789abcdef") (Z.to_nat n) with Some c => c | None => "0"%char end.

Fixpoint EncodeToString (l : list Z) : string :=
  match l with
  | [] => EmptyString
  | b :: l => String (hexDigit (Z.shiftr b 4)) (String (hexDigit (Z.land b 15)) (EncodeToString l))
  end.

(** The test vectors of FIPS 180-4. *)
Example Sum256_empty :
  EncodeToString (Sum256 "") = "e3b0c44298fc1c149afbf4c8996fb92427ae41e4649b934ca495991b7852b855".
Proof. vm_compute. reflexivity. Qed.

Example Sum256_abc :
  EncodeToString (Sum256 "abc") = "ba7816bf8f01cfea414140de5dae2223b00361a396177a9cb410ff61f20015ad".
Proof. vm_compute. reflexivity. Qed.

Example Sum256_two_blocks :
  EncodeToString (Sum256 "abcdbcdecdefdefgefghfghighijhijkijkljklmklmnlmnomnopnopq") =
  "248d6a61d20638b8e5c026930c3e6039a33ce45964ff2167f6ecedd419db06c1".
Proof. vm_compute. reflexivity. Qed.

Definition contentHash (data : string) : string := EncodeToString (take 8 (Sum256 data)).

Lemma length_bigEndian n x : length (bigEndian n x) = n.
Proof. revert x. induction n; intros; cbn; auto. Qed.

Lemma length_compress st block : length st = 8%nat → length (compress st block) = 8%nat.
Proof.
  intros Hst. unfold compress. rewrite length_zip_with.
  assert (H : ∀ l st, length st = 8%nat → length (foldl compressRound st l) = 8%nat).
  { induction l as [|kw l IH]; intros st' Hst'; [done|]. apply IH.
    do 8 (destruct st' as [|? st']; [done|]). by destruct st'. }
  rewrite H by done. lia.
Qed.

Lemma length_absorb fuel st ws : length st = 8%nat → length (absorb fuel st ws) = 8%nat.
Proof.
  revert st ws. induction fuel as [|fuel IH]; intros st [|w ws] Hst; cbn [absorb]; try done.
  by apply IH, length_compress.
Qed.

Lemma length_Sum256 msg : length (Sum256 msg) = 32%nat.
Proof.
  unfold Sum256. set (ws := wordsOf _).
  pose proof (length_absorb (length ws) initialState ws eq_refl) as Hl.
  revert Hl. generalize (absorb (length ws) initialState ws). intros l Hl.
  do 8 (destruct l as [|? l]; [done|]). by destruct l.
Qed.

Definition isHexDigit (c : ascii) : bool := in_range "0" "9" c || in_range "a" "f" c.

Lemma hexDigit_hex n : isHexDigit (hexDigit n) = true.
Proof.
  unfold hexDigit. generalize (Z.to_nat n). intros k.
  do 16 (destruct k as [|k]; [done|]). by destruct k.
Qed.

Lemma EncodeToString_hex l : forallb isHexDigit (chars (EncodeToString l)) = true.
Proof. induction l; cbn; [done|]. by rewrite !hexDigit_hex. Qed.

Lemma length_EncodeToString l : String.length (EncodeToString l) = (2 * length l)%nat.
Proof. induction l; cbn; [done|]. rewrite IHl. lia. Qed.

Lemma length_contentHash data : String.length (contentHash data) = 16%nat.
Proof. unfold contentHash. rewrite length_EncodeToString, length_take, length_Sum256. done. Qed.

(** ** [strconv.Atoi] on a 64-bit platform *)

Definition isDigit (c : ascii) : bool := in_range "0" "9" c.

Fixpoint parseDigits (acc : Z) (l : list ascii) : option Z :=
  match l with
  | [] => Some acc
  | c :: l =>
      if isDigit c then parseDigits (10 * acc + (Z.of_nat (nat_of_ascii c) - 48)) l else None
  end.

Definition minInt : Z := - 2 ^ 63.
Definition maxInt : Z := 2 ^ 63 - 1.

Definition Atoi (s : string) : option Z :=
  let parse (sign : Z) ds :=
    match ds with
    | [] => None
    | _ => n ← parseDigits 0 ds;
           if (minInt <=? sign * n) && (sign * n <=? maxInt) then Some (sign * n) else None
    end in
  match chars s with
  | [] => None
  | c :: rest =>
      if bool_decide (c = "-"%char) then parse (-1) rest
      else if bool_decide (c = "+"%char) then parse 1 rest
      else parse 1 (c :: rest)
  end.

(** Parsing the decimal text of a number gives the number back. *)

Lemma parseDigits_pretty_go x s :
  parseDigits 0 (chars (pretty_N_go x s)) = parseDigits (Z.of_N x) (chars s).
Proof.
  revert s. induction (N.lt_wf_0 x) as [x _ IH]; intros s.
  assert (x = 0 ∨ 0 < x)%N as [->|Hx] by lia; [done|].
  rewrite pretty_N_go_step, IH by (done || by apply N.div_lt). cbn [chars parseDigits].
  assert (Hd : (x `mod` 10 < 10)%N) by (apply N.mod_lt; lia).
  assert (Hx' : Z.of_N x = 10 * Z.of_N (x / 10) + Z.of_N (x mod 10)).
  { rewrite (N.div_mod x 10) at 1 by lia. lia. }
  rewrite Hx'. revert Hd. generalize (x `mod` 10)%N. intros d Hd.
  assert (d = 0 ∨ d = 1 ∨ d = 2 ∨ d = 3 ∨ d = 4 ∨ d = 5 ∨ d = 6 ∨ d = 7 ∨ d = 8 ∨ d = 9)%N
    as Hc by lia.
  repeat (destruct Hc as [->|Hc]; [done|]). by subst.
Qed.

Lemma pretty_go_head x s :
  (0 < x)%N → ∃ c s', pretty_N_go x s = String c s' ∧ isDigit c = true.
Proof.
  revert s. induction (N.lt_wf_0 x) as [x _ IH]; intros s Hx.
  rewrite pretty_N_go_step by done.
  destruct (N.eq_0_gt_0_cases (x `div` 10)) as [->|Hq].
  - rewrite pretty_N_go_0. do 2 eexists. split; [reflexivity|].
    unfold pretty_N_char. by repeat case_match.
  - apply IH; [by apply N.div_lt|done].
Qed.

Lemma parse_pretty_N (x : N) :
  ∃ c l, chars (pretty x) = c :: l ∧ isDigit c = true ∧ parseDigits 0 (c :: l) = Some (Z.of_N x).
Proof.
  unfold pretty, pretty_N. case_decide as Hx; [subst; by exists "0"%char, []|].
  assert (0 < x)%N as Hpos by lia.
  destruct (pretty_go_head x "" Hpos) as (c & s' & E & Hc).
  exists c, (chars s'). split; [by rewrite E|]. split; [done|].
  change (c :: chars s') with (chars (String c s')). by rewrite <- E, parseDigits_pretty_go.
Qed.

Lemma Atoi_pretty (z : Z) : minInt ≤ z ≤ maxInt → Atoi (pretty z) = Some z.
Proof.
  intros Hz. unfold Atoi.
  assert (Hb : ∀ v, v = z → (minInt <=? v) && (v <=? maxInt) = true) by lia.
  assert (Hnat : ∀ x : N, Z.of_N x = z → Atoi (pretty x) = Some z).
  { intros x Hx. unfold Atoi. destruct (parse_pretty_N x) as (c & l & -> & Hc & Hp).
    rewrite !bool_decide_false by (intros ->; discriminate).
    rewrite Hp. cbn [mbind option_bind].
    rewrite Hb by (destruct (Z.of_N x); lia). f_equal. destruct (Z.of_N x); lia. }
  destruct z as [|p|p].
  - done.
  - apply (Hnat (N.pos p)). done.
  - change (chars (pretty (Z.neg p))) with ("-"%char :: chars (pretty (N.pos p))).
    destruct (parse_pretty_N (N.pos p)) as (c & l & -> & Hc & Hp).
    rewrite bool_decide_true by done. rewrite Hp. cbn [mbind option_bind].
    by rewrite Hb.
Qed.

Lemma Atoi_range s v : Atoi s = Some v → minInt ≤ v ≤ maxInt.
Proof.
  unfold Atoi.
  assert (H : ∀ sign ds, match ds with
      | [] => None
      | _ :: _ => n ← parseDigits 0 ds;
           if (minInt <=? sign * n) && (sign * n <=? maxInt) then Some (sign * n) else None
      end = Some v → minInt ≤ v ≤ maxInt).
  { intros sign [|c ds]; [done|]. destruct (parseDigits 0 (c :: ds)) as [n|]; cbn [mbind option_bind]; [|done].
    destruct (Z.leb_spec minInt (sign * n)), (Z.leb_spec (sign * n) maxInt); cbn; try done.
    intros [= <-]. lia. }
  destruct (chars s) as [|c rest]; [done|].
  repeat case_bool_decide; [apply (H (-1) rest)|apply (H 1 rest)|apply (H 1 (c :: rest))].
Qed.
