(* ===== verification/Merge.v ===== *)
(** * Base configuration, merging, and model resources

    The package files [pkg/config/types.go], [pkg/config/merge.go] and
    [pkg/config/resource.go].  [gopkg.in/yaml.v3] decoding into a [BaseConfig]
    is the parameter [yaml_base] of [ParseBaseConfig]. *)

From S2P Require Import Prelude Value ApiProviders ApiServer Provider.

(** ** Data *)

Record ConfigModel := {
  CM_ModelID : string;
  CM_ProviderID : string;
  CM_ModelType : string;
  CM_ContextLength : option Z;
  CM_Quantization : string;
}.

Record RegisteredResources := {
  RR_Models : list any;
  RR_VectorStores : list any;
}.

(** A map field is [None] when nil; for a slice, nil and empty are not
    distinguished by any reader and both are the empty list. *)
Record BaseConfig := {
  Base_Version : string;
  Base_DistroName : string;
  Base_ImageName : string;
  Base_APIs : list string;
  Base_Providers : option (gmap string (list ConfigProvider));
  Base_RegisteredResources : option RegisteredResources;
  Base_VectorStores : option object;
  Base_Server : option object;
  Base_Storage : option object;
}.

(** ** Merging *)

Definition ParseBaseConfig (yaml_base : string → result BaseConfig) (data : string)
    : result BaseConfig :=
  cfg ← wrap "failed to parse base config: %w" [] (yaml_base data);
  if bool_decide (Base_Version cfg = "") then
    Err (New "failed to validate base config: missing required 'version' field")
  else Ok cfg.

Section merge.
Context {MR : MapRange}.

(** [for k, v := range m { dst[k] = v }] *)
Definition copyInto {A} (dst m : gmap string A) : gmap string A :=
  foldl (λ dst kv, <[kv.1 := kv.2]> dst) dst (range m).

Definition MergeProviders (base user : option (gmap string (list ConfigProvider)))
    : option (gmap string (list ConfigProvider)) :=
  match user, base with
  | None, _ => base
  | _, None => user
  | Some user, Some base => Some (copyInto (copyInto ∅ base) user)
  end.
End merge.

Definition MergeStorage (base user : option object) : option object :=
  match user, base with
  | None, _ => base
  | _, None => user
  | Some user, Some _ => Some user
  end.

(** The set built by [for _, d := range l { set[d] = true }]. *)
Definition stringSet (l : list string) : gmap string bool :=
  foldl (λ set d, <[d := true]> set) ∅ l.

Definition MergeAPIs (baseAPIs disabledAPIs : list string) : list string :=
  match disabledAPIs with
  | [] => baseAPIs
  | _ =>
      let disabled := stringSet disabledAPIs in
      filter (λ api, default false (disabled !! api) = false) baseAPIs
  end.

(** ** Models *)

Definition defaultModelType : string := "llm".

Definition providersFor (providers : option (gmap string (list ConfigProvider))) (api : string)
    : list ConfigProvider :=
  default [] (map_or_nil providers !! api).

(** The provider of one model: the explicit one, or the first inference
    provider in the order of IDs. *)
Definition assignProvider (m : ModelConfig)
    (providers : option (gmap string (list ConfigProvider))) : result string :=
  if bool_decide (Model_Provider m = "") then
    match providersFor providers "inference" with
    | [] => Err (Errorf "failed to assign provider for model %q: no explicit provider and no inference providers are configured" [Model_Name m])
    | inferenceProviders =>
        match sort_by ProviderID inferenceProviders with
        | first :: _ => Ok (ProviderID first)
        | [] => Ok "" (* sorting keeps the length *)
        end
    end
  else Ok (Model_Provider m).

Definition expandModel (providers : option (gmap string (list ConfigProvider)))
    (m : ModelConfig) : result ConfigModel :=
  providerID ← assignProvider m providers;
  Ok {| CM_ModelID := Model_Name m;
        CM_ProviderID := providerID;
        CM_ModelType :=
          if bool_decide (Model_ModelType m = "") then defaultModelType else Model_ModelType m;
        CM_ContextLength := Model_ContextLength m;
        CM_Quantization := Model_Quantization m |}.

Definition ExpandResources (resources : option ResourcesSpec)
    (providers : option (gmap string (list ConfigProvider))) : result (list ConfigModel) :=
  match resources with
  | None => Ok []
  | Some resources => mapM_result (expandModel providers) (Resources_Models resources)
  end.

(** ** Lemmas *)

Lemma copyInto_union {MR : MapRange} {A} (dst m : gmap string A) : copyInto dst m = m ∪ dst.
Proof.
  unfold copyInto. rewrite <- (list_to_map_range m) at 2.
  pose proof (range_NoDup_keys m) as Hnd. revert dst Hnd.
  induction (range m) as [|[k v] l IH]; intros dst Hnd; cbn; [by rewrite (left_id ∅ (∪))|].
  apply NoDup_cons in Hnd as [Hk Hnd]. rewrite IH by done.
  rewrite <- insert_union_r by by apply not_elem_of_list_to_map_1.
  by rewrite insert_union_l.
Qed.

Lemma stringSet_lookup l x :
  default false (stringSet l !! x) = bool_decide (x ∈ l).
Proof.
  unfold stringSet.
  assert (∀ s : gmap string bool, default false (foldl (λ set d, <[d:=true]> set) s l !! x) =
          bool_decide (x ∈ l) || default false (s !! x)) as H.
  { induction l as [|y l IH]; intros s; cbn [foldl].
    - by rewrite bool_decide_false by apply not_elem_of_nil.
    - rewrite IH. rewrite (bool_decide_ext (x ∈ y :: l) (x = y ∨ x ∈ l)) by apply elem_of_cons.
      rewrite bool_decide_or. destruct (decide (x = y)) as [->|Hne].
      + rewrite lookup_insert_eq, (bool_decide_true (y = y)) by done. cbn.
        by rewrite orb_true_r.
      + rewrite lookup_insert_ne by done. by rewrite (bool_decide_false (x = y)) by done. }
  rewrite H, lookup_empty. cbn. by rewrite orb_false_r.
Qed.

Lemma MergeAPIs_filter base disabled : MergeAPIs base disabled = filter (λ a, a ∉ disabled) base.
Proof.
  unfold MergeAPIs. destruct disabled as [|d disabled].
  - induction base as [|a base IH]; [done|].
    rewrite filter_cons_True by apply not_elem_of_nil. by rewrite <- IH.
  - apply list_filter_iff. intros a. rewrite stringSet_lookup. by rewrite bool_decide_eq_false.
Qed.

(** [id] is the ID of a provider of [l], and no provider of [l] has a lesser one. *)
Definition leastID (id : string) (l : list ConfigProvider) : Prop :=
  (∃ p, p ∈ l ∧ ProviderID p = id) ∧ ∀ p, p ∈ l → String.le id (ProviderID p).

Lemma assignProvider_spec m providers id :
  assignProvider m providers = Ok id ↔
  (Model_Provider m ≠ "" ∧ id = Model_Provider m) ∨
  (Model_Provider m = "" ∧ leastID id (providersFor providers "inference")).
Proof.
  unfold assignProvider. case_bool_decide as Hm; [|split; [intros [= <-]; auto|intros [[_ ->]|[? _]]; done]].
  set (l := providersFor providers "inference"). rewrite Hm. clearbody l.
  assert (Hl : l = [] ∨ ∃ x l', sort_by ProviderID l = x :: l').
  { destruct (sort_by ProviderID l) as [|x l'] eqn:E; [left; by apply sort_by_nil in E|eauto]. }
  destruct Hl as [->|(x & l' & E)].
  - split; [done|]. intros [[? _]|(_ & (p & Hp & _) & _)]; [done|]. by apply not_elem_of_nil in Hp.
  - destruct l as [|p l]; [done|]. rewrite E.
    apply sort_by_head_min in E as [Hx Hmin]. unfold key_le in Hmin. split.
    + intros [= <-]. right. split; [done|]. split; [by exists x|]. done.
    + intros [[? _]|(_ & (q & Hq & <-) & Hle)]; [done|]. f_equal.
      apply (anti_symm String.le); auto.
Qed.

(** ** Properties *)

(** [MergeProviders] works by whole API blocks: a block of the user
    replaces the base block of the same API type, every other base block is
    kept, nothing else appears. *)
Theorem MergeProviders_lookup {MR : MapRange} base user api :
  map_or_nil (MergeProviders base user) !! api =
  match map_or_nil user !! api with
  | Some block => Some block
  | None => map_or_nil base !! api
  end.
Proof.
  destruct user as [user|], base as [base|]; cbn; rewrite ?lookup_empty; try done.
  - rewrite !copyInto_union, (right_id ∅ (∪)), lookup_union.
    destruct (user !! api), (base !! api); done.
  - by destruct (user !! api).
Qed.

(** [ExpandResources] yields one model per requested model, in order; each
    keeps its explicit provider or gets the inference provider with the least
    ID, and the model type defaults to [llm]. *)
Theorem ExpandResources_spec (resources : ResourcesSpec) providers models :
  ExpandResources (Some resources) providers = Ok models ↔
  Forall2 (λ m cm,
    CM_ModelID cm = Model_Name m ∧
    (Model_Provider m ≠ "" → CM_ProviderID cm = Model_Provider m) ∧
    (Model_Provider m = "" →
       leastID (CM_ProviderID cm) (providersFor providers "inference")) ∧
    CM_ModelType cm = (if bool_decide (Model_ModelType m = "") then "llm" else Model_ModelType m) ∧
    CM_ContextLength cm = Model_ContextLength m ∧
    CM_Quantization cm = Model_Quantization m) (Resources_Models resources) models.
Proof.
  cbn. rewrite mapM_result_Forall2.
  assert (H : ∀ m cm, expandModel providers m = Ok cm ↔
    ∃ id, assignProvider m providers = Ok id ∧
      cm = {| CM_ModelID := Model_Name m; CM_ProviderID := id;
              CM_ModelType := if bool_decide (Model_ModelType m = "") then defaultModelType
                              else Model_ModelType m;
              CM_ContextLength := Model_ContextLength m; CM_Quantization := Model_Quantization m |}).
  { intros m cm. unfold expandModel. rewrite bind_Ok.
    split; [intros (id & Hid & [= <-])|intros (id & Hid & ->)]; eauto. }
  split; intros Hall; eapply Forall2_impl; try exact Hall; intros m cm.
  - intros (id & Hid & ->)%H. cbn. apply assignProvider_spec in Hid as [[Hp ->]|[Hp Hl]]; split_and!; by intros.
  - intros (H1 & H2 & H3 & H4 & H5 & H6). apply H. exists (CM_ProviderID cm).
    split; [apply assignProvider_spec; destruct (decide (Model_Provider m = "")); auto|].
    destruct cm; cbn in *; by subst.
Qed.

(** [ExpandResources] fails exactly when some model names no provider and
    the merged configuration has no inference provider. *)
Theorem ExpandResources_fails_iff (resources : ResourcesSpec) providers :
  is_ok (ExpandResources (Some resources) providers) = false ↔
  providersFor providers "inference" = [] ∧
  ∃ m, m ∈ Resources_Models resources ∧ Model_Provider m = "".
Proof.
  cbn. rewrite mapM_result_is_ok, <- not_true_iff_false, forallb_forall.
  assert (H : ∀ m, is_ok (expandModel providers m) = true ↔
            ¬ (providersFor providers "inference" = [] ∧ Model_Provider m = "")).
  { intros m. unfold expandModel. rewrite bind_is_ok. unfold assignProvider.
    case_bool_decide as Hm; [|split; [by intros _ [_ ?]|done]].
    destruct (providersFor providers "inference") as [|p l].
    - cbn. split; [done|]. intros []. done.
    - destruct (sort_by ProviderID (p :: l)); cbn; (split; [intros _ [? _]; discriminate|intros _; reflexivity]). }
  setoid_rewrite H. setoid_rewrite <- list_elem_of_In. split.
  - intros Hn. destruct (decide (providersFor providers "inference" = [])) as [He|He].
    + split; [done|]. destruct (decide (Exists (λ m, Model_Provider m = "") (Resources_Models resources)))
        as [Hx|Hx]; [by apply Exists_exists in Hx|].
      exfalso. apply Hn. intros m Hm [_ Hp]. apply Hx, Exists_exists. eauto.
    + exfalso. apply Hn. by intros m _ [? _].
  - intros [He (m & Hm & Hp)] Hall. by eapply Hall.
Qed.
