(* ===== verification/Generator.v ===== *)
(** * Configuration generation

    The package file [pkg/config/generator.go]: from a spec and a base
    configuration to the [config.yaml] of the server.  The parameters of the
    section stand for code outside the repository: [yaml_base] and [yaml_map]
    are [yaml.Unmarshal] into a [BaseConfig] and into a map, [yaml_marshal] is
    [yaml.Marshal] of a map, and [json_object] is [json.Unmarshal] of a custom
    provider's settings. *)

From Stdlib Require Import ZArith.
From S2P Require Import Prelude Value ApiProviders ApiServer Secret Storage Provider Hash Merge.

#[local] Open Scope Z_scope.

Record GeneratedConfig := {
  Gen_ConfigYAML : string;
  Gen_ContentHash : string;
  Gen_EnvVars : list EnvVar;
  Gen_ProviderCount : Z;
  Gen_ResourceCount : Z;
  Gen_ConfigVersion : Z;
  Gen_ConfigVersionDefaulted : bool;
  Gen_PraxisAPIsFiltered : bool;
}.

(** ** Disabled APIs *)

Definition praxisServedAPIs : list string := ["responses"; "conversations"].

Definition appendIfMissing (items : list string) (value : string) : list string :=
  if existsb (λ item, bool_decide (item = value)) items then items else items ++ [value].

Definition effectiveDisabledAPIs (specDisabled : list string) (praxisMode : bool) : list string :=
  if negb praxisMode then specDisabled
  else foldl appendIfMissing specDisabled praxisServedAPIs.

(** An entry of a raw [apis] list is dropped when it is a disabled name. *)
Definition omitted (omit : gmap string bool) (item : any) : bool :=
  match as_string item with Some name => default false (omit !! name) | None => false end.

Definition filterAPIList (cfg : object) (disabled : list string) : object * bool :=
  match as_list (index cfg "apis") with
  | None => (cfg, false)
  | Some raw =>
      let omit := stringSet disabled in
      let kept := filter (λ item, omitted omit item = false) raw in
      if (length kept =? 0)%nat then (cfg, false)
      else (<["apis" := AList kept]> cfg, true)
  end.

(** ** Sections of the final configuration *)

Definition serializeProvider (p : ConfigProvider) : any :=
  AMap ({["provider_id" := AString (ProviderID p)]}
        |> (λ entry : object, <["provider_type" := AString (ProviderType p)]> entry)
        |> (λ entry, <["config" := AMap (map_or_nil (Config p))]> entry)).

Definition serializeModel (m : ConfigModel) : any :=
  AMap ({["model_id" := AString (CM_ModelID m)]}
        |> (λ entry : object, <["provider_id" := AString (CM_ProviderID m)]> entry)
        |> set_nonempty "model_type" (CM_ModelType m)
        |> set_some "context_length" AInt (CM_ContextLength m)
        |> set_nonempty "quantization" (CM_Quantization m)).

Definition serializeModels (models : list ConfigModel) : list any := serializeModel <$> models.

Definition buildRegisteredResources (base : BaseConfig) (userModels : list ConfigModel)
    : RegisteredResources :=
  let rr := default {| RR_Models := []; RR_VectorStores := [] |} (Base_RegisteredResources base) in
  match userModels with
  | [] => rr
  | _ => {| RR_Models := serializeModels userModels; RR_VectorStores := RR_VectorStores rr |}
  end.

Definition accessRule (actions : list string) (condition : option string) (description : string) : any :=
  AMap ({["permit" := AMap {["actions" := AStrings actions]}]}
        |> set_some "when" AString condition
        |> (λ rule : object, <["description" := AString description]> rule)).

Definition praxisAuth : any :=
  AMap
    (<["provider_config" :=
         AMap (<["type" := AString "upstream_header"]>
               (<["principal_header" := AString "x-user-id"]>
                {["tenant_header" := AString "x-tenant-id"]}))]>
     {["access_policy" :=
         AList [accessRule ["read"] (Some "resource is unowned") "All users can read system resources";
                accessRule ["create"] None "Authenticated users can create resources";
                accessRule ["read"; "update"; "delete"] (Some "user is owner")
                  "Owners can manage their own resources"]]}).

Definition applyPraxisAuth (server : object) : object := <["auth" := praxisAuth]> server.

(** [spec.Network.Port] when it is set. *)
Definition specPort (spec : OGXServerSpec) : option Z :=
  match Spec_Network spec with
  | Some n => if Net_Port n =? 0 then None else Some (Net_Port n)
  | None => None
  end.

Definition serverSection (cfg : object) : result object :=
  match index cfg "server" with
  | ANil => Ok ∅
  | AMap section => Ok section
  | _ => Err (New "failed to parse default config: server must be an object")
  end.

(** [None] is the nil map. *)
Definition storageSection (cfg : object) : option object := as_object (index cfg "storage").

Definition hasVectorIOProvider (cfg : object) : bool :=
  match as_object (index cfg "providers") with
  | None => false
  | Some providers =>
      match as_list (index providers "vector_io") with
      | Some vectorIO => (0 <? length vectorIO)%nat
      | None => false
      end
  end.

Definition buildStorageSection (cfg : object) (storage : option object) (base : BaseConfig) : object :=
  match storage, Base_Storage base with
  | Some storage, _ => <["storage" := AMap storage]> cfg
  | None, Some storage => <["storage" := AMap storage]> cfg
  | None, None => cfg
  end.

Definition praxisVectorStoreTable : string := "openai_vector_stores".

Definition isSQLBackend (backend : any) : bool :=
  match as_object backend ≫= λ cfg, as_string (index cfg "type") with
  | Some backendType => String.prefix "sql_" backendType
  | None => false
  end.

Section generator.
Context {MR : MapRange}.

Definition buildServerSection (base : BaseConfig) (spec : OGXServerSpec) (praxisMode : bool)
    : object :=
  let server := copyInto ∅ (map_or_nil (Base_Server base)) in
  let server := if praxisMode then applyPraxisAuth server else server in
  match specPort spec with
  | Some port => <["port" := AInt32 port]> server
  | None =>
      match server !! "port" with
      | Some _ => server
      | None => <["port" := AInt32 DefaultServerPort]> server
      end
  end.

Definition serializeProviders (providers : gmap string (list ConfigProvider)) : object :=
  foldl (λ section '(apiType, ps), <[apiType := AList (serializeProvider <$> ps)]> section) ∅
    (range providers).

(** The empty name stands for no backend. *)
Definition sqlBackendName (storage : object) : string :=
  match as_object (index storage "backends") with
  | None => ""
  | Some backends =>
      if isSQLBackend (index backends "sql_default") then "sql_default"
      else
        match sort_strings (filter (λ kv, isSQLBackend kv.2 = true) (range backends)).*1 with
        | [] => ""
        | name :: _ => name
        end
  end.

Definition vectorStoreEntry (backend : string) : any :=
  AMap (<["table_name" := AString praxisVectorStoreTable]> {["backend" := AString backend]}).

(** The storage map after the in-place update. *)
Definition applyPraxisVectorStoreMetadata (storage : object) (hasVectorIO : bool) : object :=
  if negb hasVectorIO then storage
  else
    let backend := sqlBackendName storage in
    if bool_decide (backend = "") then storage
    else
      let install (stores : object) :=
        match index stores "vector_stores" with
        | ANil => <["stores" := AMap (<["vector_stores" := vectorStoreEntry backend]> stores)]> storage
        | _ => storage
        end in
      match storage !! "stores" with
      | Some (AMap stores) => install stores
      | Some _ => storage
      | None => install ∅
      end.

(** [applyPraxisVectorStoreMetadata(storageSection(cfg), has)]: the section
    is shared with [cfg], so the update is seen there. *)
Definition applyVectorStoreMetadataTo (cfg : object) (hasVectorIO : bool) : object :=
  match storageSection cfg with
  | None => cfg
  | Some storage => <["storage" := AMap (applyPraxisVectorStoreMetadata storage hasVectorIO)]> cfg
  end.

Definition distroName (spec : OGXServerSpec) (cfg : object) : object :=
  let d := Spec_Distribution spec in
  if negb (bool_decide (Dist_Name d = "")) then <["distro_name" := AString (Dist_Name d)]> cfg
  else set_nonempty "distro_name" (Dist_Image d) cfg.

Definition buildFinalConfig (base : BaseConfig)
    (providers : option (gmap string (list ConfigProvider))) (models : list ConfigModel)
    (storage : option object) (apis : list string) (spec : OGXServerSpec) (praxisMode : bool)
    : object :=
  let rr := buildRegisteredResources base models in
  let cfg := {["version" := AString (Base_Version base)]}
    |> distroName spec
    |> set_list "apis" AStrings apis
    |> set_map "providers" (λ ps, AMap (serializeProviders ps)) (map_or_nil providers)
    |> (λ cfg : object,
         <["registered_resources" := ARegisteredResources (RR_Models rr) (RR_VectorStores rr)]> cfg)
    |> set_some "vector_stores" AMap (Base_VectorStores base)
    |> (λ cfg, <["server" := AMap (buildServerSection base spec praxisMode)]> cfg) in
  let cfg := buildStorageSection cfg storage base in
  if praxisMode
  then applyVectorStoreMetadataTo cfg (0 <? length (providersFor providers "vector_io"))%nat
  else cfg.

Definition countProviders (providers : option (gmap string (list ConfigProvider))) : Z :=
  foldl (λ count kv, count + Z.of_nat (length kv.2)) 0 (range (map_or_nil providers)).

Definition parseConfigVersion (version : string) : Z * bool :=
  match Atoi version with
  | None => (2, false)
  | Some v => (v, true)
  end.

(** ** The pipeline *)

Context (yaml_base : string → result BaseConfig).
Context (yaml_map : string → result (option object)).
Context (yaml_marshal : object → result string).
Context (json_object : string → result (option object)).

Definition GenerateConfig (spec : OGXServerSpec) (baseConfigData : string) (praxisMode : bool)
    : result GeneratedConfig :=
  baseConfig ← wrap "failed to parse base config: %w" [] (ParseBaseConfig yaml_base baseConfigData);
  userProviders ← wrap "failed to expand providers: %w" []
    (ExpandProviders json_object (Spec_Providers spec));
  let mergedProviders := MergeProviders (Base_Providers baseConfig) userProviders in
  userModels ← wrap "failed to expand resources: %w" []
    (ExpandResources (Spec_Resources spec) mergedProviders);
  let userStorage := ApplyStorage (Spec_Storage spec) in
  let mergedStorage := MergeStorage (Base_Storage baseConfig) userStorage in
  let disabledAPIs := effectiveDisabledAPIs (Spec_DisabledAPIs spec) praxisMode in
  let mergedAPIs := MergeAPIs (Base_APIs baseConfig) disabledAPIs in
  let finalConfig := buildFinalConfig baseConfig mergedProviders userModels mergedStorage
                       mergedAPIs spec praxisMode in
  configYAML ← wrap "failed to serialize config: %w" [] (yaml_marshal finalConfig);
  let '(configVersion, configVersionParsed) := parseConfigVersion (Base_Version baseConfig) in
  Ok {| Gen_ConfigYAML := configYAML;
        Gen_ContentHash := contentHash configYAML;
        Gen_EnvVars := CollectSecretRefs spec;
        Gen_ProviderCount := countProviders mergedProviders;
        Gen_ResourceCount := Z.of_nat (length userModels);
        Gen_ConfigVersion := configVersion;
        Gen_ConfigVersionDefaulted := negb configVersionParsed;
        Gen_PraxisAPIsFiltered := praxisMode && (0 <? length (Base_APIs baseConfig))%nat |}.

Definition GeneratePraxisDefaultConfig (spec : OGXServerSpec) (baseConfigData : string)
    : result GeneratedConfig :=
  baseConfig ← wrap "failed to parse base config: %w" [] (ParseBaseConfig yaml_base baseConfigData);
  cfg ← wrap "failed to parse default config: %w" [] (yaml_map baseConfigData);
  let cfg := map_or_nil cfg in
  server ← serverSection cfg;
  let server := applyPraxisAuth server
    |> set_some "port" AInt32 (specPort spec) in
  let cfg := <["server" := AMap server]> cfg in
  let cfg := applyVectorStoreMetadataTo cfg (hasVectorIOProvider cfg) in
  let '(cfg, apisFiltered) :=
    filterAPIList cfg (effectiveDisabledAPIs (Spec_DisabledAPIs spec) true) in
  configYAML ← wrap "failed to serialize config: %w" [] (yaml_marshal cfg);
  let '(configVersion, configVersionParsed) := parseConfigVersion (Base_Version baseConfig) in
  Ok {| Gen_ConfigYAML := configYAML;
        Gen_ContentHash := contentHash configYAML;
        Gen_EnvVars := CollectSecretRefs spec;
        Gen_ProviderCount := countProviders (Base_Providers baseConfig);
        Gen_ResourceCount :=
          match Base_RegisteredResources baseConfig with
          | Some rr => Z.of_nat (length (RR_Models rr))
          | None => 0
          end;
        Gen_ConfigVersion := configVersion;
        Gen_ConfigVersionDefaulted := negb configVersionParsed;
        Gen_PraxisAPIsFiltered := apisFiltered |}.
End generator.
