(* ===== verification/GeneratorFacts.v ===== *)
(** * Properties of the generated configuration

    What [GenerateConfig] and [GeneratePraxisDefaultConfig] of [Generator.v]
    guarantee of the document they hand to the YAML serializer. *)

From Stdlib Require Import ZArith.
From S2P Require Import Prelude Value ApiProviders ApiServer Secret Storage Provider ProviderFacts Hash Merge Generator.
From stdpp Require Import pretty.

#[local] Open Scope Z_scope.

(** ** Which APIs a configuration serves

    The source describes the server's rule in the comment of [filterAPIList]:
    [if run_config.apis:] is a truthiness test, so an absent or empty list
    serves every API and only a non-empty list restricts. *)

Definition apiEntries (cfg : object) : list any :=
  match index cfg "apis" with
  | AList l => l
  | AStrings l => AString <$> l
  | _ => []
  end.

(** Whether the entry is the given API name. *)
Definition isAPIEntry (api : string) (entry : any) : bool :=
  match entry with AString s => bool_decide (s = api) | _ => false end.

Definition servesAPI (cfg : object) (api : string) : bool :=
  match apiEntries cfg with
  | [] => true
  | entries => existsb (isAPIEntry api) entries
  end.

Lemma appendIfMissing_elem l v x : x ∈ appendIfMissing l v ↔ x ∈ l ∨ x = v.
Proof.
  unfold appendIfMissing. destruct (existsb _ l) eqn:E.
  - apply existsb_exists in E as (y & Hy%list_elem_of_In & ->%bool_decide_eq_true).
    split; [by left|]. by intros [?| ->].
  - rewrite elem_of_app, list_elem_of_singleton. done.
Qed.

Lemma effectiveDisabledAPIs_elem l praxis x :
  x ∈ effectiveDisabledAPIs l praxis ↔ x ∈ l ∨ praxis = true ∧ x ∈ praxisServedAPIs.
Proof.
  unfold effectiveDisabledAPIs. destruct praxis; cbn.
  - rewrite !appendIfMissing_elem. unfold praxisServedAPIs. set_solver.
  - set_solver.
Qed.

Lemma omitted_stringSet l item :
  omitted (stringSet l) item = true ↔ ∃ s, item = AString s ∧ s ∈ l.
Proof.
  unfold omitted. destruct item; cbn; split; try done; try (intros (? & ? & _); discriminate).
  - rewrite stringSet_lookup, bool_decide_eq_true. eauto.
  - rewrite stringSet_lookup, bool_decide_eq_true. by intros (? & [= <-] & ?).
Qed.

Lemma servesAPI_false cfg api :
  servesAPI cfg api = false ↔ apiEntries cfg ≠ [] ∧ AString api ∉ apiEntries cfg.
Proof.
  unfold servesAPI. destruct (apiEntries cfg) as [|e l]; [by split; [|intros [? _]]|].
  rewrite <- not_true_iff_false, existsb_exists. split.
  - intros Hn. split; [done|]. intros Hin. apply Hn. exists (AString api).
    split; [by apply list_elem_of_In|]. cbn. by rewrite bool_decide_eq_true.
  - intros [_ Hn] (x & Hx & Ha). apply Hn. destruct x; try done.
    cbn in Ha. apply bool_decide_eq_true in Ha as <-. by apply list_elem_of_In.
Qed.

Lemma elem_of_kept (disabled : list string) (raw : list any) e :
  e ∈ filter (λ item, omitted (stringSet disabled) item = false) raw ↔
  e ∈ raw ∧ ∀ api, api ∈ disabled → e ≠ AString api.
Proof. rewrite list_elem_of_filter, <- not_true_iff_false, omitted_stringSet. naive_solver. Qed.

Lemma filterAPIList_facts cfg disabled :
  let '(cfg', filtered) := filterAPIList cfg disabled in
  (∀ k, k ≠ "apis" → cfg' !! k = cfg !! k) ∧
  (filtered = true → ∀ api, api ∈ disabled → servesAPI cfg' api = false) ∧
  (filtered = false → cfg' = cfg).
Proof.
  unfold filterAPIList. destruct (as_list (index cfg "apis")) as [raw|]; [|done].
  destruct (filter _ raw) as [|e0 kept] eqn:Hk; cbn [length Nat.eqb]; [done|].
  split_and!; [intros k Hne; by apply lookup_insert_ne| |done].
  intros _ api Hapi. apply servesAPI_false. unfold apiEntries, index. rewrite lookup_insert_eq.
  cbn. split; [done|]. rewrite <- Hk. intros [_ Hin]%elem_of_kept. by apply (Hin api Hapi).
Qed.

(** [filterAPIList] touches nothing but [apis].  When it reports success the
    list is non-empty and lacks exactly the disabled names, so none of them is
    served; when it reports failure the configuration is unchanged. *)
Theorem filterAPIList_spec cfg disabled :
  let '(cfg', filtered) := filterAPIList cfg disabled in
  (∀ k, k ≠ "apis" → cfg' !! k = cfg !! k) ∧
  (filtered = true ↔
     ∃ raw, index cfg "apis" = AList raw ∧ ∃ e, e ∈ raw ∧ ∀ api, api ∈ disabled → e ≠ AString api) ∧
  (filtered = true → ∀ api, api ∈ disabled → servesAPI cfg' api = false) ∧
  (filtered = true → ∀ e, e ∈ apiEntries cfg' ↔
     e ∈ apiEntries cfg ∧ ∀ api, api ∈ disabled → e ≠ AString api) ∧
  (filtered = false → cfg' = cfg).
Proof.
  unfold filterAPIList.
  destruct (as_list (index cfg "apis")) as [raw|] eqn:Hraw.
  2: { split_and!; try done. split; [done|]. intros (raw & E & _). by rewrite E in Hraw. }
  assert (E : index cfg "apis" = AList raw).
  { destruct (index cfg "apis"); try done. by injection Hraw as ->. }
  assert (Hkept : ∀ e, e ∈ filter (λ item, omitted (stringSet disabled) item = false) raw ↔
            e ∈ raw ∧ ∀ api, api ∈ disabled → e ≠ AString api).
  { intros e. apply elem_of_kept. }
  destruct (filter _ raw) as [|e0 kept] eqn:Hk; cbn [length Nat.eqb].
  - split_and!; try done. split; [done|]. intros (raw' & E' & e & He & Hd).
    rewrite E in E'. injection E' as <-. exfalso. apply (not_elem_of_nil e).
    apply Hkept. eauto.
  - assert (Hent : apiEntries (<["apis" := AList (e0 :: kept)]> cfg) = e0 :: kept).
    { unfold apiEntries, index. by rewrite lookup_insert_eq. }
    split_and!.
    + intros k Hne. by apply lookup_insert_ne.
    + split; [|done]. intros _. exists raw. split; [done|]. exists e0. apply Hkept. left.
    + intros _ api Hapi. apply servesAPI_false. rewrite Hent. split; [done|].
      intros [_ Hin]%Hkept. by apply (Hin api Hapi).
    + intros _ e. rewrite Hent, Hkept. unfold apiEntries. by rewrite E.
    + done.
Qed.

(** ** The SQL backend of the vector stores *)

Definition sqlBackends {MR : MapRange} (backends : object) : list string :=
  (filter (λ kv : string * any, isSQLBackend kv.2 = true) (range backends)).*1.

Lemma elem_of_sqlBackends {MR : MapRange} backends n :
  n ∈ sqlBackends backends ↔ isSQLBackend (index backends n) = true.
Proof.
  unfold sqlBackends. rewrite list_elem_of_fmap. split.
  - intros ((k & v) & -> & [Hv Hin]%list_elem_of_filter). apply elem_of_range in Hin.
    unfold index. cbn in *. by rewrite Hin.
  - intros Hn. unfold index in Hn. destruct (backends !! n) as [v|] eqn:E; [|done].
    exists (n, v). split; [done|]. apply list_elem_of_filter. split; [done|]. by apply elem_of_range.
Qed.

(** [n] is the backend the source prefers: the conventional one, else the least. *)
Definition preferredBackend (backends : object) (n : string) : Prop :=
  isSQLBackend (index backends n) = true ∧
  (n = "sql_default" ∨
   isSQLBackend (index backends "sql_default") = false ∧
   ∀ n', isSQLBackend (index backends n') = true → String.le n n').

Lemma sqlBackendName_preferred {MR : MapRange} storage backends :
  index storage "backends" = AMap backends →
  (∃ n, isSQLBackend (index backends n) = true) →
  preferredBackend backends (sqlBackendName storage).
Proof.
  intros Hb (n & Hn). unfold sqlBackendName. rewrite Hb. cbn [as_object].
  destruct (isSQLBackend (index backends "sql_default")) eqn:Hd; [split; auto|].
  apply elem_of_sqlBackends in Hn. fold (sqlBackends backends).
  destruct (sort_strings (sqlBackends backends)) as [|m l] eqn:Hs.
  { rewrite <- sort_strings_Permutation, Hs in Hn. by apply not_elem_of_nil in Hn. }
  apply sort_strings_head_min in Hs as [Hm Hmin].
  split; [by apply elem_of_sqlBackends|]. right. split; [done|].
  intros n' Hn'. by apply Hmin, elem_of_sqlBackends.
Qed.

(** A non-empty answer names a declared SQL backend. *)
Lemma sqlBackendName_declared {MR : MapRange} storage :
  sqlBackendName storage ≠ "" →
  ∃ backends, index storage "backends" = AMap backends ∧
              isSQLBackend (index backends (sqlBackendName storage)) = true.
Proof.
  intros Hne. unfold sqlBackendName in Hne.
  destruct (index storage "backends") as [| | | | | | |backends| | |] eqn:Hb; try done.
  exists backends. split; [done|]. apply sqlBackendName_preferred; [done|].
  cbn [as_object] in Hne. destruct (isSQLBackend (index backends "sql_default")) eqn:Hd; [eauto|].
  fold (sqlBackends backends) in Hne.
  destruct (sort_strings (sqlBackends backends)) as [|m l] eqn:Hs; [done|].
  exists m. apply elem_of_sqlBackends. rewrite <- sort_strings_Permutation, Hs. left.
Qed.

Lemma sqlBackendName_order (MR1 MR2 : MapRange) storage :
  @sqlBackendName MR1 storage = @sqlBackendName MR2 storage.
Proof.
  unfold sqlBackendName. destruct (as_object _) as [backends|]; [|done]. case_match; [done|].
  by rewrite (sort_strings_proper _ _ (fmap_Permutation fst _ _
    (filter_Permutation _ _ _ (range_orders MR1 MR2 backends)))).
Qed.

(** The vector-store entry of a storage section, nil when there is none. *)
Definition vectorStoreOf (storage : object) : any :=
  match storage !! "stores" with
  | Some (AMap stores) => index stores "vector_stores"
  | _ => ANil
  end.

(** The sections the source can complete: no [stores], or an object. *)
Definition storesUsable (storage : object) : bool :=
  match storage !! "stores" with None | Some (AMap _) => true | Some _ => false end.

(** [applyPraxisVectorStoreMetadata] adds at most the entry
    [stores.vector_stores]: every other key, every other store and an existing
    entry are kept.  It adds the entry exactly when a vector_io provider is
    configured, [stores] can hold it, none is declared and a SQL backend
    exists; the entry then names a SQL backend that the section declares. *)
Theorem applyPraxisVectorStoreMetadata_spec {MR : MapRange} storage hasVectorIO :
  let storage' := applyPraxisVectorStoreMetadata storage hasVectorIO in
  let added := hasVectorIO && negb (bool_decide (sqlBackendName storage = ""))
               && storesUsable storage
               && match vectorStoreOf storage with ANil => true | _ => false end in
  (∀ k, k ≠ "stores" → storage' !! k = storage !! k) ∧
  (added = false → storage' = storage) ∧
  (added = true → ∃ stores backends,
     storage' !! "stores" = Some (AMap stores) ∧
     vectorStoreOf storage' = vectorStoreEntry (sqlBackendName storage) ∧
     (∀ k old, k ≠ "vector_stores" → storage !! "stores" = Some (AMap old) →
        stores !! k = old !! k) ∧
     storage' !! "backends" = Some (AMap backends) ∧
     isSQLBackend (index backends (sqlBackendName storage)) = true).
Proof.
  cbv zeta. unfold applyPraxisVectorStoreMetadata, storesUsable, vectorStoreOf.
  destruct hasVectorIO; [|done]. cbn [negb andb].
  case_bool_decide as Hb; [done|]. cbn [negb andb].
  destruct (sqlBackendName_declared storage Hb) as (backends & Hbk & Hsql).
  assert (Hbk' : storage !! "backends" = Some (AMap backends)).
  { unfold index in Hbk. destruct (storage !! "backends"); cbn in Hbk; congruence. }
  assert (Hadd : ∀ stores, index stores "vector_stores" = ANil →
    (∀ old, storage !! "stores" = Some (AMap old) → old = stores) →
    let storage' := <["stores" := AMap (<["vector_stores" := vectorStoreEntry (sqlBackendName storage)]> stores)]> storage in
    (∀ k, k ≠ "stores" → storage' !! k = storage !! k) ∧
    ∃ stores' backends', storage' !! "stores" = Some (AMap stores') ∧
      index stores' "vector_stores" = vectorStoreEntry (sqlBackendName storage) ∧
      (∀ k old, k ≠ "vector_stores" → storage !! "stores" = Some (AMap old) → stores' !! k = old !! k) ∧
      storage' !! "backends" = Some (AMap backends') ∧
      isSQLBackend (index backends' (sqlBackendName storage)) = true).
  { intros stores _ Hold. cbv zeta. split; [intros k Hk; by apply lookup_insert_ne|].
    do 2 eexists. split; [apply lookup_insert_eq|]. split_and!.
    - unfold index. by rewrite lookup_insert_eq.
    - intros k old Hk ->%Hold. by apply lookup_insert_ne.
    - rewrite lookup_insert_ne by done. exact Hbk'.
    - done. }
  destruct (storage !! "stores") as [[| | | | | | |stores| | |]|] eqn:Hst; try done.
  - destruct (index stores "vector_stores") eqn:Hv; try done.
    destruct (Hadd stores Hv) as [Hk (s' & b' & Hs & H)]; [by intros old [= ->]|].
    split; [done|]. split; [done|]. intros _. exists s', b'. by rewrite Hs.
  - destruct (Hadd ∅ (index_empty _)) as [Hk (s' & b' & Hs & H)]; [done|].
    split; [done|]. split; [done|]. intros _. exists s', b'.
    rewrite index_empty, Hs. done.
Qed.

(** A storage section that a Praxis configuration completes: vectors are stored,
    the section has room for the stores, declares no store of vector stores, and has
    a SQL backend (with a name). *)
Definition lacksVectorStores (storage : object) (hasVectorIO : bool) : Prop :=
  hasVectorIO = true ∧ storesUsable storage = true ∧ vectorStoreOf storage = ANil ∧
  ∃ backends n, storage !! "backends" = Some (AMap backends) ∧ preferredBackend backends n ∧ n ≠ "".

(** The section with the store of vector stores: a table in the preferred SQL
    backend of the section; everything else is kept. *)
Definition completed (storage storage' : object) : Prop :=
  ∃ stores backends n,
    storage' !! "stores" = Some (AMap stores) ∧
    stores !! "vector_stores" =
      Some (AMap (<["table_name" := AString "openai_vector_stores"]> {["backend" := AString n]})) ∧
    storage !! "backends" = Some (AMap backends) ∧ preferredBackend backends n ∧
    (∀ k, k ≠ "stores" → storage' !! k = storage !! k) ∧
    (∀ k, k ≠ "vector_stores" → stores !! k = match storage !! "stores" with Some (AMap old) => old !! k | _ => None end).

Lemma preferredBackend_unique backends n n' :
  preferredBackend backends n → preferredBackend backends n' → n = n'.
Proof.
  intros [H1 [->|[Hd Hle]]] [H1' [->|[Hd' Hle']]]; try congruence.
  apply (anti_symm String.le); auto.
Qed.

Lemma sqlBackendName_ne {MR : MapRange} storage :
  sqlBackendName storage ≠ "" ↔
  ∃ backends n, storage !! "backends" = Some (AMap backends) ∧ preferredBackend backends n ∧ n ≠ "".
Proof.
  split.
  - intros Hne. destruct (sqlBackendName_declared storage Hne) as (backends & Hi & Hsql).
    exists backends, (sqlBackendName storage). split_and!; [|by apply sqlBackendName_preferred; [|eexists]|done].
    unfold index in Hi. destruct (storage !! "backends"); cbn in Hi; congruence.
  - intros (backends & n & Hb & Hp & Hn). assert (Hi : index storage "backends" = AMap backends) by (unfold index; by rewrite Hb).
    rewrite (preferredBackend_unique _ _ _ (sqlBackendName_preferred storage backends Hi (ex_intro _ n (proj1 Hp))) Hp). done.
Qed.

Lemma applyPraxisVectorStoreMetadata_completes {MR : MapRange} storage hasVectorIO :
  let storage' := applyPraxisVectorStoreMetadata storage hasVectorIO in
  (lacksVectorStores storage hasVectorIO → completed storage storage') ∧
  (¬ lacksVectorStores storage hasVectorIO → storage' = storage).
Proof.
  cbv zeta. unfold applyPraxisVectorStoreMetadata, lacksVectorStores, storesUsable, vectorStoreOf.
  rewrite <- sqlBackendName_ne. destruct hasVectorIO; [|by split; [intros []|]]. cbn [negb].
  case_bool_decide as Hb; [by split; [intros (_ & _ & _ & ?)|]|].
  destruct (proj1 (sqlBackendName_ne storage) Hb) as (backends & n & Hbk & Hp & Hn).
  assert (Hi : index storage "backends" = AMap backends) by (unfold index; by rewrite Hbk).
  rewrite (preferredBackend_unique _ _ _ (sqlBackendName_preferred storage backends Hi (ex_intro _ n (proj1 Hp))) Hp) in *.
  assert (Hadd : ∀ old : object,
    (∀ k, k ≠ "vector_stores" → old !! k = match storage !! "stores" with Some (AMap old) => old !! k | _ => None end) →
    completed storage (<["stores" := AMap (<["vector_stores" := vectorStoreEntry n]> old)]> storage)).
  { intros old Hold. do 3 eexists. split; [apply lookup_insert_eq|]. split; [apply lookup_insert_eq|].
    split_and!; [done|done|intros k Hk; by apply lookup_insert_ne|]. intros k Hk. rewrite lookup_insert_ne by done. by apply Hold. }
  destruct (storage !! "stores") as [v|] eqn:Hst.
  - destruct v as [| | | | | | |old| | |]; try (split; [by intros (_ & ? & _)|done]). destruct (index old "vector_stores") eqn:Hv;
      (split; [|by intros []]) || (split; [by intros (_ & _ & ? & _)|done]). intros _. by apply Hadd.
  - split; [intros _; by apply Hadd|]. intros []. by split_and!.
Qed.

Lemma applyPraxisVectorStoreMetadata_declared {MR : MapRange} storage h :
  vectorStoreOf storage ≠ ANil → applyPraxisVectorStoreMetadata storage h = storage.
Proof.
  unfold applyPraxisVectorStoreMetadata, vectorStoreOf. intros Hne.
  destruct h; [|done]. cbn [negb]. case_bool_decide; [done|].
  destruct (storage !! "stores") as [[| | | | | | |stores| | |]|]; try done.
  by destruct (index stores "vector_stores").
Qed.

Lemma applyPraxisVectorStoreMetadata_cases {MR : MapRange} storage :
  applyPraxisVectorStoreMetadata storage true = storage ∨
  vectorStoreOf (applyPraxisVectorStoreMetadata storage true) ≠ ANil.
Proof.
  unfold applyPraxisVectorStoreMetadata. cbn [negb]. case_bool_decide; [by left|].
  assert (Hin : ∀ stores b, vectorStoreOf (<["stores" := AMap
            (<["vector_stores" := vectorStoreEntry b]> stores)]> storage) ≠ ANil).
  { intros stores b. unfold vectorStoreOf, index. by rewrite !lookup_insert_eq. }
  destruct (storage !! "stores") as [[| | | | | | |stores| | |]|]; try by left.
  - destruct (index stores "vector_stores"); first [by left|right; apply Hin].
  - rewrite index_empty. right. apply Hin.
Qed.

(** Completing a storage section twice is completing it once. *)
Theorem applyPraxisVectorStoreMetadata_idempotent {MR : MapRange} storage hasVectorIO :
  applyPraxisVectorStoreMetadata (applyPraxisVectorStoreMetadata storage hasVectorIO) hasVectorIO =
  applyPraxisVectorStoreMetadata storage hasVectorIO.
Proof.
  destruct hasVectorIO; [|done].
  destruct (applyPraxisVectorStoreMetadata_cases storage) as [E|Hne]; [by rewrite !E|].
  by apply applyPraxisVectorStoreMetadata_declared.
Qed.

(** ** The server section *)

(** The server section is the base section with two keys decided by the
    operator: [port] is the spec's port, else the base port, else 8321; [auth]
    is the upstream-header policy in Praxis mode, else the base one. *)
Theorem buildServerSection_spec {MR : MapRange} base spec praxisMode :
  let server := buildServerSection base spec praxisMode in
  let baseServer := map_or_nil (Base_Server base) in
  server !! "port" = Some match specPort spec with
                          | Some port => AInt32 port
                          | None => default (AInt32 8321) (baseServer !! "port")
                          end ∧
  server !! "auth" = (if praxisMode then Some praxisAuth else baseServer !! "auth") ∧
  ∀ k, k ≠ "port" → k ≠ "auth" → server !! k = baseServer !! k.
Proof.
  cbv zeta. unfold buildServerSection. rewrite copyInto_union, map_union_empty.
  set (b := map_or_nil (Base_Server base)).
  assert (Hs : ∀ k, (if praxisMode then applyPraxisAuth b else b) !! k =
     if praxisMode && bool_decide (k = "auth") then Some praxisAuth else b !! k).
  { intros k. destruct praxisMode; cbn [andb]; [|done]. unfold applyPraxisAuth.
    case_bool_decide as Hk; [subst; apply lookup_insert_eq|by apply lookup_insert_ne]. }
  set (s := if praxisMode then applyPraxisAuth b else b) in *.
  pose proof (Hs "port") as Hp. rewrite (bool_decide_false ("port" = "auth")), andb_false_r in Hp by done.
  pose proof (Hs "auth") as Ha. rewrite (bool_decide_true ("auth" = "auth")), andb_true_r in Ha by done.
  assert (Ho : ∀ k, k ≠ "auth" → s !! k = b !! k).
  { intros k Hk. by rewrite Hs, bool_decide_false, andb_false_r. }
  assert (Hins : ∀ v, let server := <["port" := v]> s in server !! "port" = Some v ∧
    server !! "auth" = (if praxisMode then Some praxisAuth else b !! "auth") ∧
    ∀ k, k ≠ "port" → k ≠ "auth" → server !! k = b !! k).
  { intros v. cbv zeta. rewrite lookup_insert_eq, lookup_insert_ne by done.
    split_and!; [done|done|]. intros k Hk1 Hk2. rewrite lookup_insert_ne by done. auto. }
  destruct (specPort spec) as [port|]; [apply Hins|].
  rewrite Hp. destruct (b !! "port") as [v|] eqn:Hv; [|apply Hins].
  split_and!; [done|done|]. auto.
Qed.

Lemma buildServerSection_auth {MR : MapRange} base spec :
  buildServerSection base spec true !! "auth" = Some praxisAuth.
Proof.
  unfold buildServerSection, applyPraxisAuth. destruct (specPort spec).
  - rewrite lookup_insert_ne by done. apply lookup_insert_eq.
  - destruct (_ !! "port"); [apply lookup_insert_eq|].
    rewrite lookup_insert_ne by done. apply lookup_insert_eq.
Qed.

(** ** Serialized providers *)

Lemma serializeProviders_lookup {MR : MapRange} ps api :
  serializeProviders ps !! api = (λ l, AList (serializeProvider <$> l)) <$> ps !! api.
Proof.
  unfold serializeProviders.
  rewrite (foldl_range_lookup (λ _ l, AList (serializeProvider <$> l)) ps ∅ api), lookup_empty.
  by destruct (ps !! api).
Qed.

Lemma serializeProvider_config cp cfg :
  Config cp = Some cfg →
  ∃ entry, serializeProvider cp = AMap entry ∧ entry !! "config" = Some (AMap cfg).
Proof.
  intros Hc. unfold serializeProvider. eexists. split; [reflexivity|].
  rewrite Hc. apply lookup_insert_eq.
Qed.

Definition entryCount (v : any) : Z :=
  match v with AList l => Z.of_nat (length l) | _ => 0 end.

Lemma count_fold {A} (f : A → Z) (l : list A) n :
  foldl (λ count x, count + f x) n l = n + foldr (λ x s, f x + s) 0 l.
Proof.
  revert n. induction l as [|x l IH]; intros n; cbn; [lia|]. rewrite IH. lia.
Qed.

Lemma foldr_sum_Permutation {A} (f : A → Z) l1 l2 :
  l1 ≡ₚ l2 → foldr (λ x s, f x + s) 0 l1 = foldr (λ x s, f x + s) 0 l2.
Proof. induction 1; cbn; lia. Qed.

Lemma countProviders_order (MR1 MR2 : MapRange) ps :
  @countProviders MR1 ps = @countProviders MR2 ps.
Proof.
  unfold countProviders. rewrite !count_fold. f_equal.
  apply (foldr_sum_Permutation (λ kv, Z.of_nat (length kv.2))), range_orders.
Qed.

(** [ProviderCount] is the number of entries of the [providers] section
    that is written to the configuration. *)
Theorem countProviders_spec {MR : MapRange} (providers : gmap string (list ConfigProvider)) :
  countProviders (Some providers) =
  foldr (λ kv s, entryCount kv.2 + s) 0 (map_to_list (serializeProviders providers)).
Proof.
  assert (E : serializeProviders providers = (λ l, AList (serializeProvider <$> l)) <$> providers).
  { apply map_eq. intros k. by rewrite serializeProviders_lookup, lookup_fmap. }
  unfold countProviders. rewrite count_fold, E, map_to_list_fmap. cbn [map_or_nil default].
  rewrite (foldr_sum_Permutation (λ kv, Z.of_nat (length kv.2)) _ _ (range_Permutation _ providers)).
  cbn. induction (map_to_list providers) as [|[k l] kvs IH]; cbn; [done|].
  rewrite length_fmap. cbn in IH. lia.
Qed.

(** ** Version and hash *)

(** A version that is the decimal text of a 64-bit integer is read back;
    [ConfigVersion] is 2 when the text is not a number. *)
Theorem parseConfigVersion_roundtrip :
  (∀ z : Z, minInt ≤ z ≤ maxInt → parseConfigVersion (pretty z) = (z, true)) ∧
  (∀ s, (parseConfigVersion s).2 = false → (parseConfigVersion s).1 = 2) ∧
  (∀ s, (parseConfigVersion s).2 = true → minInt ≤ (parseConfigVersion s).1 ≤ maxInt).
Proof.
  unfold parseConfigVersion. split_and!.
  - intros z Hz. by rewrite Atoi_pretty.
  - intros s. by destruct (Atoi s).
  - intros s. destruct (Atoi s) as [v|] eqn:E; [|done]. intros _. by apply Atoi_range in E.
Qed.

(** ** Sections that an update leaves alone *)

Lemma storageSection_ext cfg1 cfg2 :
  cfg1 !! "storage" = cfg2 !! "storage" → storageSection cfg1 = storageSection cfg2.
Proof. unfold storageSection, index. by intros ->. Qed.

Lemma hasVectorIOProvider_ext cfg1 cfg2 :
  cfg1 !! "providers" = cfg2 !! "providers" → hasVectorIOProvider cfg1 = hasVectorIOProvider cfg2.
Proof. unfold hasVectorIOProvider, index. by intros ->. Qed.

Lemma applyVectorStoreMetadataTo_ne {MR : MapRange} cfg h k :
  k ≠ "storage" → applyVectorStoreMetadataTo cfg h !! k = cfg !! k.
Proof.
  intros Hk. unfold applyVectorStoreMetadataTo.
  destruct (storageSection cfg); [by apply lookup_insert_ne|done].
Qed.

Lemma applyVectorStoreMetadataTo_storage {MR : MapRange} cfg h :
  storageSection (applyVectorStoreMetadataTo cfg h) =
  (λ s, applyPraxisVectorStoreMetadata s h) <$> storageSection cfg.
Proof.
  unfold applyVectorStoreMetadataTo. destruct (storageSection cfg) eqn:E; [|by rewrite E].
  unfold storageSection, index. by rewrite lookup_insert_eq.
Qed.

Lemma elem_of_block {MR : MapRange} base res api cp :
  cp ∈ providersOf res api →
  cp ∈ providersFor (MergeProviders (Base_Providers base) (Some res)) api.
Proof.
  unfold providersOf, providersFor, MergeProviders.
  destruct (Base_Providers base) as [ps|]; cbn; [|done].
  rewrite !copyInto_union, map_union_empty, lookup_union.
  destruct (res !! api); cbn; [|intros H; by apply not_elem_of_nil in H].
  by destruct (ps !! api).
Qed.

Lemma secret_name_collected {MR : MapRange} spec p e l :
  Spec_Providers spec = Some p → e ∈ collectProviderSecrets p → l = CollectSecretRefs spec →
  Env_Name e ∈ Env_Name <$> l.
Proof.
  intros Hp He ->.
  assert (Hraw : e ∈ collectSecretRefsRaw spec).
  { unfold collectSecretRefsRaw. rewrite Hp. apply elem_of_app. by left. }
  destruct (firstNamed_is_Some _ _ Hraw) as [e' He'].
  apply list_elem_of_fmap. exists e'. pose proof (firstNamed_Some _ _ _ He') as [Hin Hn].
  split; [done|]. apply elem_of_CollectSecretRefs. by rewrite Hn.
Qed.

(** A provider entry of the document reads the variable. *)
Definition readsVariable (cfg : object) (name : string) : Prop :=
  ∃ section api entries entry config key,
    cfg !! "providers" = Some (AMap section) ∧ section !! api = Some (AList entries) ∧
    AMap entry ∈ entries ∧ entry !! "config" = Some (AMap config) ∧
    config !! key = Some (AString (envSubst name)).

(** ** The pipeline *)

Section pipeline.
Context (yaml_base : string → result BaseConfig).
Context (yaml_marshal : object → result string).
Context (json_object : string → result (option object)).

(** The configuration that [GenerateConfig] hands to the serializer. *)
Definition finalConfigOf {MR : MapRange} (spec : OGXServerSpec) (base : BaseConfig)
    (userProviders : option (gmap string (list ConfigProvider))) (models : list ConfigModel)
    (praxisMode : bool) : object :=
  buildFinalConfig base (MergeProviders (Base_Providers base) userProviders) models
    (MergeStorage (Base_Storage base) (ApplyStorage (Spec_Storage spec)))
    (MergeAPIs (Base_APIs base) (effectiveDisabledAPIs (Spec_DisabledAPIs spec) praxisMode))
    spec praxisMode.

Lemma GenerateConfig_inv {MR : MapRange} spec data praxisMode g :
  GenerateConfig yaml_base yaml_marshal json_object spec data praxisMode = Ok g →
  ∃ base userProviders models,
    yaml_base data = Ok base ∧ Base_Version base ≠ "" ∧
    ExpandProviders json_object (Spec_Providers spec) = Ok userProviders ∧
    ExpandResources (Spec_Resources spec)
      (MergeProviders (Base_Providers base) userProviders) = Ok models ∧
    yaml_marshal (finalConfigOf spec base userProviders models praxisMode) = Ok (Gen_ConfigYAML g) ∧
    Gen_ContentHash g = contentHash (Gen_ConfigYAML g) ∧
    Gen_EnvVars g = CollectSecretRefs spec ∧
    Gen_ResourceCount g = Z.of_nat (length models) ∧
    Gen_PraxisAPIsFiltered g = praxisMode && (0 <? length (Base_APIs base))%nat.
Proof.
  unfold GenerateConfig, ParseBaseConfig. intros H. res_inv.
  case_bool_decide; [done|]. res_inv. destruct (parseConfigVersion _) as [v p].
  res_inv. do 3 eexists. split_and!; eauto.
Qed.

(** Reading a key of the final configuration. *)
Lemma buildStorageSection_ne cfg storage base k :
  k ≠ "storage" → buildStorageSection cfg storage base !! k = cfg !! k.
Proof.
  intros Hk. unfold buildStorageSection.
  destruct storage, (Base_Storage base); try done; by apply lookup_insert_ne.
Qed.

Lemma distroName_ne spec cfg k : "distro_name" ≠ k → distroName spec cfg !! k = cfg !! k.
Proof.
  intros Hk. unfold distroName. case_match; [by apply lookup_insert_ne|].
  by apply lookup_set_nonempty_ne.
Qed.

(** A key other than [storage] is the one of the last assignment to it. *)
Lemma buildFinalConfig_lookup {MR : MapRange} base ps models storage apis spec praxis :
  let cfg := buildFinalConfig base ps models storage apis spec praxis in
  cfg !! "version" = Some (AString (Base_Version base)) ∧
  cfg !! "apis" = (match apis with [] => None | _ => Some (AStrings apis) end) ∧
  cfg !! "vector_stores" = AMap <$> Base_VectorStores base ∧
  cfg !! "server" = Some (AMap (buildServerSection base spec praxis)) ∧
  (let rr := buildRegisteredResources base models in
   cfg !! "registered_resources" =
     Some (ARegisteredResources (RR_Models rr) (RR_VectorStores rr))) ∧
  (∀ api, providersFor ps api ≠ [] →
     ∃ section, cfg !! "providers" = Some (AMap section) ∧
       section !! api = Some (AList (serializeProvider <$> providersFor ps api))).
Proof.
  cbv zeta. unfold buildFinalConfig.
  match goal with |- context [buildStorageSection ?c _ _] => set (cfg := c) end.
  assert (Hk : ∀ k, k ≠ "storage" →
    (if praxis then applyVectorStoreMetadataTo (buildStorageSection cfg storage base)
                      (0 <? length (providersFor ps "vector_io"))%nat
     else buildStorageSection cfg storage base) !! k = cfg !! k).
  { intros k Hk. destruct praxis; rewrite ?applyVectorStoreMetadataTo_ne by done;
      by apply buildStorageSection_ne. }
  rewrite !Hk by done. subst cfg. clear Hk.
  split_and!; cfg_lookup; rewrite ?distroName_ne by done; try done.
  - destruct apis; cbn [set_list]; [|apply lookup_insert_eq].
    by rewrite distroName_ne, lookup_singleton_ne.
  - intros api Hapi. cfg_lookup. rewrite lookup_set_map_eq.
    destruct (decide (map_or_nil ps = ∅)) as [E|_].
    + unfold providersFor in Hapi. by rewrite E, lookup_empty in Hapi.
    + eexists. split; [reflexivity|]. rewrite serializeProviders_lookup.
      unfold providersFor in *. by destruct (map_or_nil ps !! api).
Qed.

(** The APIs listed by the final configuration. *)
Lemma finalConfig_entries {MR : MapRange} spec base userProviders models praxis :
  apiEntries (finalConfigOf spec base userProviders models praxis) =
  AString <$> filter (λ a, a ∉ effectiveDisabledAPIs (Spec_DisabledAPIs spec) praxis) (Base_APIs base).
Proof.
  unfold apiEntries, index, finalConfigOf.
  rewrite (proj1 (proj2 (buildFinalConfig_lookup _ _ _ _ _ _ _))), MergeAPIs_filter.
  by destruct (filter _ (Base_APIs base)).
Qed.

(** C9. What [GenerateConfig] emits: the server section carries the port the
    spec asks for and, in Praxis mode, the upstream-header policy; the listed
    APIs are the base ones minus the disabled ones and, in Praxis mode, minus
    the Praxis-served ones; the base vector stores are kept, the base
    registered models are kept unless the spec lists models. *)
Theorem GenerateConfig_emits {MR : MapRange} spec data praxisMode g :
  GenerateConfig yaml_base yaml_marshal json_object spec data praxisMode = Ok g →
  ∃ base cfg server,
    yaml_base data = Ok base ∧ yaml_marshal cfg = Ok (Gen_ConfigYAML g) ∧
    cfg !! "version" = Some (AString (Base_Version base)) ∧ Base_Version base ≠ "" ∧
    cfg !! "server" = Some (AMap server) ∧
    (praxisMode = true → server !! "auth" = Some praxisAuth) ∧
    (∀ port, specPort spec = Some port → server !! "port" = Some (AInt32 port)) ∧
    (∀ api, AString api ∈ apiEntries cfg ↔
       api ∈ Base_APIs base ∧ (api ∉ Spec_DisabledAPIs spec) ∧
       (praxisMode = true → api ∉ praxisServedAPIs)) ∧
    cfg !! "vector_stores" = AMap <$> Base_VectorStores base ∧
    (∃ rr, cfg !! "registered_resources" = Some (ARegisteredResources (RR_Models rr) (RR_VectorStores rr)) ∧
       (Gen_ResourceCount g ≠ 0 → Z.of_nat (length (RR_Models rr)) = Gen_ResourceCount g) ∧
       (Gen_ResourceCount g = 0 →
          rr = default {| RR_Models := []; RR_VectorStores := [] |} (Base_RegisteredResources base))).
Proof.
  intros (base & ups & models & Hb & Hv & _ & _ & Hm & _ & _ & Hrc & _)%GenerateConfig_inv.
  exists base, (finalConfigOf spec base ups models praxisMode), (buildServerSection base spec praxisMode).
  pose proof (finalConfig_entries spec base ups models praxisMode) as He.
  unfold finalConfigOf in *.
  match goal with |- context [buildFinalConfig ?b ?p ?m ?s ?a ?sp ?x] =>
    destruct (buildFinalConfig_lookup b p m s a sp x) as (H1 & _ & H3 & H4 & H5 & _) end.
  split_and!; try done.
  - intros ->. apply buildServerSection_auth.
  - intros port Hp. unfold buildServerSection. rewrite Hp. apply lookup_insert_eq.
  - intros api. rewrite He, list_elem_of_fmap. setoid_rewrite list_elem_of_filter.
    setoid_rewrite effectiveDisabledAPIs_elem. split.
    + intros (x & [= ->] & Hn & Hin). split_and!; [done|tauto|]. intros Hp Hs. apply Hn. auto.
    + intros (Hin & Hn & Hp). exists api. split_and!; [done| |done]. intros [?|[? ?]]; [done|by apply Hp].
  - eexists. split; [exact H5|]. rewrite Hrc. unfold buildRegisteredResources.
    destruct models; cbn [length]; [done|]. split; [|lia].
    intros _. cbn [RR_Models]. unfold serializeModels. by rewrite length_fmap.
Qed.

(** When the spec disables every API of the base configuration, the emitted
    configuration has no [apis] list at all, so the server serves every API,
    the Praxis-served ones included; yet [PraxisAPIsFiltered] is reported. *)
Theorem GenerateConfig_all_disabled {MR : MapRange} spec data base g :
  GenerateConfig yaml_base yaml_marshal json_object spec data true = Ok g →
  yaml_base data = Ok base → Base_APIs base ≠ [] →
  (∀ api, api ∈ Base_APIs base → api ∈ Spec_DisabledAPIs spec ∨ api ∈ praxisServedAPIs) →
  Gen_PraxisAPIsFiltered g = true ∧
  ∃ cfg, yaml_marshal cfg = Ok (Gen_ConfigYAML g) ∧ cfg !! "apis" = None ∧
         ∀ api, servesAPI cfg api = true.
Proof.
  intros (base' & ups & models & Hb & _ & _ & _ & Hm & _ & _ & _ & Hf)%GenerateConfig_inv Hb' Hne Hall.
  rewrite Hb in Hb'. injection Hb' as ->. split.
  { rewrite Hf. by destruct (Base_APIs base). }
  eexists. split; [exact Hm|].
  pose proof (finalConfig_entries spec base ups models true) as He.
  assert (Hnil : filter (λ a, a ∉ effectiveDisabledAPIs (Spec_DisabledAPIs spec) true) (Base_APIs base) = []).
  { destruct (filter _ _) as [|a l] eqn:E; [done|].
    assert (Ha : a ∈ filter (λ a, a ∉ effectiveDisabledAPIs (Spec_DisabledAPIs spec) true) (Base_APIs base))
      by (rewrite E; left).
    apply list_elem_of_filter in Ha as [Hn Hin]. destruct Hn.
    apply effectiveDisabledAPIs_elem. destruct (Hall a Hin); auto. }
  rewrite Hnil in He. split; [|intros api; unfold servesAPI; by rewrite He].
  unfold finalConfigOf. rewrite (proj1 (proj2 (buildFinalConfig_lookup _ _ _ _ _ _ _))), MergeAPIs_filter.
  by rewrite Hnil.
Qed.

(** When at least one base API stays enabled, the report is right: no
    disabled API and no Praxis-served API is served. *)
Theorem GenerateConfig_filters {MR : MapRange} spec data base g api :
  GenerateConfig yaml_base yaml_marshal json_object spec data true = Ok g →
  yaml_base data = Ok base →
  (∃ a, a ∈ Base_APIs base ∧ (a ∉ Spec_DisabledAPIs spec) ∧ a ∉ praxisServedAPIs) →
  api ∈ Spec_DisabledAPIs spec ∨ api ∈ praxisServedAPIs →
  Gen_PraxisAPIsFiltered g = true ∧
  ∃ cfg, yaml_marshal cfg = Ok (Gen_ConfigYAML g) ∧ servesAPI cfg api = false.
Proof.
  intros (base' & ups & models & Hb & _ & _ & _ & Hm & _ & _ & _ & Hf)%GenerateConfig_inv
    Hb' (a & Ha & Hd & Hs) Hapi.
  rewrite Hb in Hb'. injection Hb' as ->. split.
  { rewrite Hf. destruct (Base_APIs base); [by apply not_elem_of_nil in Ha|done]. }
  eexists. split; [exact Hm|]. apply servesAPI_false. rewrite finalConfig_entries. split.
  - assert (Hin : AString a ∈ AString <$>
      filter (λ a, a ∉ effectiveDisabledAPIs (Spec_DisabledAPIs spec) true) (Base_APIs base)).
    { apply list_elem_of_fmap_2, list_elem_of_filter. split; [|done].
      rewrite effectiveDisabledAPIs_elem. tauto. }
    intros E. rewrite E in Hin. by apply not_elem_of_nil in Hin.
  - intros (x & [= ->] & [Hn _]%list_elem_of_filter)%list_elem_of_fmap. apply Hn.
    apply effectiveDisabledAPIs_elem. tauto.
Qed.

(** Every secret of the providers is read by the generated document. *)
Lemma secrets_read {MR : MapRange} spec data praxisMode g p :
  GenerateConfig yaml_base yaml_marshal json_object spec data praxisMode = Ok g → Spec_Providers spec = Some p →
  ∃ cfg, yaml_marshal cfg = Ok (Gen_ConfigYAML g) ∧
    ∀ e, e ∈ collectProviderSecrets p → readsVariable cfg (Env_Name e).
Proof.
  intros (base & ups & models & _ & _ & Hps & _ & Hm & _)%GenerateConfig_inv Hp.
  exists (finalConfigOf spec base ups models praxisMode). split; [exact Hm|]. intros e He.
  rewrite Hp in Hps. destruct ups as [res|]; [|cbn in Hps; by res_inv].
  destruct (provider_secrets_covered json_object p res e Hps He)
    as (api & cp & _ & Hcp & cfg & key & Hcfg & Hkey).
  pose proof (elem_of_block base res api cp Hcp) as Hblock. unfold finalConfigOf.
  match goal with |- readsVariable (buildFinalConfig ?b ?ps ?m ?s ?a ?sp ?x) _ =>
    destruct (buildFinalConfig_lookup b ps m s a sp x) as (_ & _ & _ & _ & _ & Hsec) end.
  destruct (Hsec api) as (section & Hs1 & Hs2).
  { intros E. rewrite E in Hblock. by apply not_elem_of_nil in Hblock. }
  destruct (serializeProvider_config cp cfg Hcfg) as (entry & He1 & He2).
  exists section, api. eexists. exists entry, cfg, key. split_and!; [exact Hs1|exact Hs2| |done..].
  rewrite <- He1. by apply list_elem_of_fmap_2.
Qed.

(** Every secret variable that the spec's providers need is injected into
    the Deployment and referred to by a provider entry of the emitted
    configuration. *)
Theorem GenerateConfig_secrets_wired {MR : MapRange} spec data praxisMode g p e :
  GenerateConfig yaml_base yaml_marshal json_object spec data praxisMode = Ok g →
  Spec_Providers spec = Some p → e ∈ collectProviderSecrets p →
  Env_Name e ∈ Env_Name <$> Gen_EnvVars g ∧
  ∃ cfg section api entries entry config key,
    yaml_marshal cfg = Ok (Gen_ConfigYAML g) ∧
    cfg !! "providers" = Some (AMap section) ∧ section !! api = Some (AList entries) ∧
    AMap entry ∈ entries ∧ entry !! "config" = Some (AMap config) ∧
    config !! key = Some (AString (envSubst (Env_Name e))).
Proof.
  intros Hg Hp He. destruct (secrets_read _ _ _ _ _ Hg Hp) as (cfg & Hm & Hread).
  destruct (Hread e He) as (section & api & entries & entry & config & key & H). split.
  - apply GenerateConfig_inv in Hg as (_ & _ & _ & _ & _ & _ & _ & _ & _ & Henv & _). by apply (secret_name_collected spec p e).
  - by exists cfg, section, api, entries, entry, config, key.
Qed.
End pipeline.

(** ** The default configuration in Praxis mode *)

Section praxis_default.
Context (yaml_base : string → result BaseConfig).
Context (yaml_map : string → result (option object)).
Context (yaml_marshal : object → result string).

(** C12. [GeneratePraxisDefaultConfig] keeps every section of the default
    configuration but three.  The server section gets the upstream-header
    policy and the spec's port and keeps its other keys.  The storage section, if
    there is one, is kept too, unless the configuration has a vector_io provider,
    the section declares no store of vector stores, has room for one and has a SQL
    backend: then it gains the store [stores.vector_stores], a table in the SQL
    backend that is preferred ([sql_default], else the least name), and all other
    keys and stores are kept.  And when [PraxisAPIsFiltered] is reported, neither a
    disabled nor a Praxis-served API is served, while otherwise the [apis] section
    is untouched.  (A comment of the source says that only the policy and the APIs
    are replaced; the code also sets the port and completes the storage.) *)
Theorem GeneratePraxisDefaultConfig_spec {MR : MapRange} spec data g :
  GeneratePraxisDefaultConfig yaml_base yaml_map yaml_marshal spec data = Ok g →
  ∃ raw cfg oldServer server,
    yaml_map data = Ok raw ∧ yaml_marshal cfg = Ok (Gen_ConfigYAML g) ∧
    (∀ k, k ∉ ["server"; "storage"; "apis"] → cfg !! k = map_or_nil raw !! k) ∧
    serverSection (map_or_nil raw) = Ok oldServer ∧
    cfg !! "server" = Some (AMap server) ∧ server !! "auth" = Some praxisAuth ∧
    (∀ port, specPort spec = Some port → server !! "port" = Some (AInt32 port)) ∧
    (∀ k, k ≠ "auth" → (k = "port" → specPort spec = None) → server !! k = oldServer !! k) ∧
    match map_or_nil raw !! "storage" with
    | Some (AMap storage) =>
        ∃ storage', cfg !! "storage" = Some (AMap storage') ∧
          (lacksVectorStores storage (hasVectorIOProvider (map_or_nil raw)) → completed storage storage') ∧
          (¬ lacksVectorStores storage (hasVectorIOProvider (map_or_nil raw)) → storage' = storage)
    | other => cfg !! "storage" = other
    end ∧
    (Gen_PraxisAPIsFiltered g = true →
       ∀ api, api ∈ Spec_DisabledAPIs spec ∨ api ∈ praxisServedAPIs → servesAPI cfg api = false) ∧
    (Gen_PraxisAPIsFiltered g = false → cfg !! "apis" = map_or_nil raw !! "apis").
Proof.
  unfold GeneratePraxisDefaultConfig. intros H.
  apply bind_Ok in H as (base & _ & H). apply bind_Ok in H as (raw & Hraw & H).
  apply bind_Ok in H as (oldServer & Hold & H). apply wrap_Ok in Hraw.
  set (cfg0 := map_or_nil raw) in *.
  set (server := applyPraxisAuth oldServer |> set_some "port" AInt32 (specPort spec)) in *.
  set (cfg1 := <["server" := AMap server]> cfg0) in *.
  set (cfg2 := applyVectorStoreMetadataTo cfg1 (hasVectorIOProvider cfg1)) in *.
  pose proof (filterAPIList_facts cfg2 (effectiveDisabledAPIs (Spec_DisabledAPIs spec) true)) as Hf.
  destruct (filterAPIList cfg2 _) as [cfg filtered]. destruct Hf as (Hfk & Hft & Hff).
  apply bind_Ok in H as (yaml & Hyaml%wrap_Ok & H).
  destruct (parseConfigVersion _) as [v parsed]. injection H as <-. cbn.
  exists raw, cfg, oldServer, server.
  assert (H2 : ∀ k, k ≠ "server" → k ≠ "storage" → cfg2 !! k = cfg0 !! k).
  { intros k Hk1 Hk2. unfold cfg2. rewrite applyVectorStoreMetadataTo_ne by done.
    by apply lookup_insert_ne. }
  split_and!; try done.
  - intros k Hk. rewrite Hfk, H2; [done|set_solver..].
  - rewrite Hfk by done. unfold cfg2. rewrite applyVectorStoreMetadataTo_ne by done.
    apply lookup_insert_eq.
  - unfold server. destruct (specPort spec); cbn [set_some];
      rewrite ?lookup_insert_ne by done; apply lookup_insert_eq.
  - intros port Hp. unfold server. rewrite Hp. apply lookup_insert_eq.
  - intros k Hk1 Hk2. unfold server. destruct (specPort spec); cbn [set_some].
    + rewrite lookup_insert_ne by (intros <-; by discriminate Hk2). by apply lookup_insert_ne.
    + by apply lookup_insert_ne.
  - rewrite Hfk by done. unfold cfg2, applyVectorStoreMetadataTo.
    rewrite (storageSection_ext cfg1 cfg0) by (by apply lookup_insert_ne).
    rewrite (hasVectorIOProvider_ext cfg1 cfg0) by (by apply lookup_insert_ne).
    assert (Hst : cfg1 !! "storage" = cfg0 !! "storage") by (by apply lookup_insert_ne).
    fold cfg0. unfold storageSection, index. destruct (cfg0 !! "storage") as [sv|]; [|exact Hst].
    destruct sv; try exact Hst. cbn [default as_object]. eexists. split; [apply lookup_insert_eq|].
    apply applyPraxisVectorStoreMetadata_completes.
  - intros Hfil api Hapi. apply (Hft Hfil). apply effectiveDisabledAPIs_elem. tauto.
  - intros Hfil. rewrite (Hff Hfil). by apply H2.
Qed.
End praxis_default.

(** ** Determinism

    The hash of the configuration names its ConfigMap, so a configuration that
    depended on the iteration order of a map would roll the Deployment at
    random. *)

Section determinism.
Context (MR1 MR2 : MapRange).

Lemma MergeProviders_order base user :
  @MergeProviders MR1 base user = @MergeProviders MR2 base user.
Proof. destruct user, base; cbn; by rewrite ?copyInto_union. Qed.

Lemma buildServerSection_order base spec praxis :
  @buildServerSection MR1 base spec praxis = @buildServerSection MR2 base spec praxis.
Proof. unfold buildServerSection. by rewrite !copyInto_union. Qed.

Lemma serializeProviders_order ps : @serializeProviders MR1 ps = @serializeProviders MR2 ps.
Proof. apply map_eq. intros k. by rewrite !serializeProviders_lookup. Qed.

Lemma applyVectorStoreMetadataTo_order cfg h :
  @applyVectorStoreMetadataTo MR1 cfg h = @applyVectorStoreMetadataTo MR2 cfg h.
Proof.
  unfold applyVectorStoreMetadataTo, applyPraxisVectorStoreMetadata.
  destruct (storageSection cfg); [|done]. by rewrite (sqlBackendName_order MR1 MR2).
Qed.

Lemma buildFinalConfig_order base ps models storage apis spec praxis :
  @buildFinalConfig MR1 base ps models storage apis spec praxis =
  @buildFinalConfig MR2 base ps models storage apis spec praxis.
Proof.
  unfold buildFinalConfig. unfold set_map.
  rewrite serializeProviders_order, buildServerSection_order.
  destruct praxis; [apply applyVectorStoreMetadataTo_order|done].
Qed.

(** [GenerateConfig] is deterministic: two runs that range over maps in
    different orders both fail or produce the same configuration. *)
Theorem GenerateConfig_deterministic yaml_base yaml_marshal json_object spec data praxis :
  same_outcome (@GenerateConfig MR1 yaml_base yaml_marshal json_object spec data praxis)
               (@GenerateConfig MR2 yaml_base yaml_marshal json_object spec data praxis).
Proof.
  unfold GenerateConfig. apply same_outcome_bind; [done|]. intros base.
  apply same_outcome_bind; [apply same_outcome_wrap, ExpandProviders_order|]. intros ups.
  rewrite MergeProviders_order. apply same_outcome_bind; [done|]. intros models.
  rewrite buildFinalConfig_order. apply same_outcome_bind; [done|]. intros yaml.
  destruct (parseConfigVersion _). by rewrite (countProviders_order MR1 MR2), (CollectSecretRefs_order MR1 MR2).
Qed.

(** So is [GeneratePraxisDefaultConfig], errors included. *)
Theorem GeneratePraxisDefaultConfig_deterministic yaml_base yaml_map yaml_marshal spec data :
  @GeneratePraxisDefaultConfig MR1 yaml_base yaml_map yaml_marshal spec data =
  @GeneratePraxisDefaultConfig MR2 yaml_base yaml_map yaml_marshal spec data.
Proof.
  unfold GeneratePraxisDefaultConfig.
  rewrite (CollectSecretRefs_order MR1 MR2).
  destruct (wrap _ _ (ParseBaseConfig _ _)) as [base|]; [|done]. cbn [mbind result_bind]. rewrite (countProviders_order MR1 MR2).
  destruct (wrap _ _ (yaml_map data)) as [raw|]; [|done]. cbn [mbind result_bind].
  destruct (serverSection _) as [server|]; [|done]. cbn [mbind result_bind].
  by rewrite applyVectorStoreMetadataTo_order.
Qed.
End determinism.
