(* ===== verification/Base64.v ===== *)
(** * Base64 text of the Go standard library

    [encoding/base64.StdEncoding]: the decoder that the config resolver uses,
    and the encoder, which the labels are written with, as its reference. *)

From Stdlib Require Import Ascii ZArith Lia.
From S2P Require Import Prelude.

#[local] Open Scope Z_scope.

Definition byteZ (c : ascii) : Z := Z.of_N (N_of_ascii c).
Definition byteOf (z : Z) : ascii := ascii_of_N (Z.to_N (z mod 256)).

Definition alphabet : list ascii :=
  chars "ABCDEFGHIJKLMNOPQRSTUVWXYZabcdefghijklmnopqrstuvwxyz0123456789+/".

Fixpoint indexOf (c : ascii) (l : list ascii) (i : Z) : option Z :=
  match l with
  | [] => None
  | x :: l => if bool_decide (c = x) then Some i else indexOf c l (i + 1)
  end.

(** [decodeMap]: the six bits of a character. *)
Definition decodeMap (c : ascii) : option Z := indexOf c alphabet 0.

Definition isNewline (c : ascii) : bool :=
  bool_decide (c = "010"%char) || bool_decide (c = "013"%char).

Definition padChar : ascii := "="%char.

(** The bytes of a quantum of three or four characters; the bits that do not
    fill a byte are ignored, as the encoding is not strict. *)
Definition quantum4 (a b c d : Z) : list ascii :=
  let n := ((a * 64 + b) * 64 + c) * 64 + d in
  [byteOf (n / 65536); byteOf (n / 256); byteOf n].

(** Decodes newline-free text.  A quantum ends at the padding, after which
    nothing may follow; missing padding is an error. *)
Fixpoint decodeQuanta (l : list ascii) : option (list ascii) :=
  match l with
  | [] => Some []
  | a :: b :: c :: d :: l' =>
      a' ← decodeMap a;
      b' ← decodeMap b;
      match decodeMap c, decodeMap d with
      | Some c', Some d' => rest ← decodeQuanta l'; Some (quantum4 a' b' c' d' ++ rest)
      | Some c', None =>
          if bool_decide (d = padChar) && bool_decide (l' = [])
          then Some (take 2 (quantum4 a' b' c' 0)) else None
      | None, _ =>
          if bool_decide (c = padChar) && bool_decide (d = padChar) && bool_decide (l' = [])
          then Some (take 1 (quantum4 a' b' 0 0)) else None
      end
  | _ => None
  end.

(** [DecodeString]; the offset in the error is not modelled. *)
Definition DecodeString (s : string) : result string :=
  match decodeQuanta (filter (λ c, isNewline c = false) (chars s)) with
  | Some data => Ok (of_chars data)
  | None => Err (New "illegal base64 data")
  end.

(** ** The encoder *)

Definition encodeChar (i : Z) : ascii := nth (Z.to_nat i) alphabet "A"%char.

Definition encode3 (x y z : Z) : Z * Z * Z * Z :=
  let n := (x * 256 + y) * 256 + z in (n / 262144, n / 4096 mod 64, n / 64 mod 64, n mod 64).

Fixpoint encodeQuanta (l : list ascii) : list ascii :=
  match l with
  | [] => []
  | [x] =>
      let '(a, b, _, _) := encode3 (byteZ x) 0 0 in
      [encodeChar a; encodeChar b; padChar; padChar]
  | [x; y] =>
      let '(a, b, c, _) := encode3 (byteZ x) (byteZ y) 0 in
      [encodeChar a; encodeChar b; encodeChar c; padChar]
  | x :: y :: z :: l' =>
      let '(a, b, c, d) := encode3 (byteZ x) (byteZ y) (byteZ z) in
      encodeChar a :: encodeChar b :: encodeChar c :: encodeChar d :: encodeQuanta l'
  end.

Definition EncodeBase64 (s : string) : string := of_chars (encodeQuanta (chars s)).

(** ** Decoding is the inverse of encoding *)

Lemma decodeMap_encodeChar i : 0 ≤ i < 64 → decodeMap (encodeChar i) = Some i.
Proof.
  intros Hi. unfold encodeChar.
  assert (H : forallb (λ k, bool_decide (decodeMap (nth k alphabet "A"%char) = Some (Z.of_nat k)))
                (seq 0 64) = true) by (vm_compute; reflexivity).
  rewrite forallb_forall in H. specialize (H (Z.to_nat i)). rewrite bool_decide_eq_true in H.
  rewrite H by (apply in_seq; lia). f_equal. lia.
Qed.

Lemma encodeChar_not_newline i : 0 ≤ i < 64 → isNewline (encodeChar i) = false.
Proof.
  intros Hi. unfold encodeChar.
  assert (H : forallb (λ k, negb (isNewline (nth k alphabet "A"%char))) (seq 0 64) = true)
    by (vm_compute; reflexivity).
  rewrite forallb_forall in H. specialize (H (Z.to_nat i)).
  rewrite negb_true_iff in H. apply H, in_seq. lia.
Qed.

Lemma decodeMap_pad : decodeMap padChar = None.
Proof. reflexivity. Qed.

Lemma byteZ_range c : 0 ≤ byteZ c < 256.
Proof. unfold byteZ. pose proof (N_ascii_bounded c). lia. Qed.

Lemma byteOf_byteZ c : byteOf (byteZ c) = c.
Proof.
  unfold byteOf. pose proof (byteZ_range c). rewrite Z.mod_small by done.
  unfold byteZ. by rewrite N2Z.id, ascii_N_embedding.
Qed.

Lemma byteOf_eq n c : n mod 256 = byteZ c → byteOf n = c.
Proof.
  intros H. rewrite <- (byteOf_byteZ c). unfold byteOf. rewrite H.
  pose proof (byteZ_range c). by rewrite Z.mod_small.
Qed.

Lemma encode3_range x y z a b c d :
  0 ≤ x < 256 → 0 ≤ y < 256 → 0 ≤ z < 256 → encode3 x y z = (a, b, c, d) →
  0 ≤ a < 64 ∧ 0 ≤ b < 64 ∧ 0 ≤ c < 64 ∧ 0 ≤ d < 64.
Proof.
  intros Hx Hy Hz. unfold encode3. intros [= <- <- <- <-].
  repeat split; Z.to_euclidean_division_equations; lia.
Qed.

Lemma quantum4_encode3 x y z a b c d :
  encode3 (byteZ x) (byteZ y) (byteZ z) = (a, b, c, d) → quantum4 a b c d = [x; y; z].
Proof.
  pose proof (byteZ_range x). pose proof (byteZ_range y). pose proof (byteZ_range z).
  unfold encode3, quantum4. set (n := (byteZ x * 256 + byteZ y) * 256 + byteZ z).
  intros [= <- <- <- <-].
  assert (E : ((n / 262144 * 64 + n / 4096 mod 64) * 64 + n / 64 mod 64) * 64 + n mod 64 = n)
    by (Z.to_euclidean_division_equations; lia).
  rewrite E. subst n.
  f_equal; [|f_equal; [|f_equal]]; apply byteOf_eq; Z.to_euclidean_division_equations; lia.
Qed.

(** The three shapes of a quantum. *)
Lemma decodeQuanta_full x y z l l' :
  decodeQuanta l' = Some l →
  decodeQuanta (encodeQuanta (x :: y :: z :: []) ++ l') = Some (x :: y :: z :: l).
Proof.
  intros Hl. cbn [encodeQuanta].
  destruct (encode3 (byteZ x) (byteZ y) (byteZ z)) as [[[a b] c] d] eqn:E.
  destruct (encode3_range _ _ _ _ _ _ _ (byteZ_range x) (byteZ_range y) (byteZ_range z) E)
    as (Ha & Hb & Hc & Hd).
  cbn [app decodeQuanta]. rewrite !decodeMap_encodeChar by done. cbn [mbind option_bind].
  rewrite Hl. cbn [mbind option_bind]. by rewrite (quantum4_encode3 _ _ _ _ _ _ _ E).
Qed.

(** Encoding a short tail is encoding it padded with zero bytes. *)
Lemma decodeQuanta_two x y : decodeQuanta (encodeQuanta [x; y]) = Some [x; y].
Proof.
  cbn [encodeQuanta]. change 0 with (byteZ "000"%char).
  destruct (encode3 (byteZ x) (byteZ y) (byteZ "000")) as [[[a b] c] d] eqn:E.
  destruct (encode3_range _ _ _ _ _ _ _ (byteZ_range x) (byteZ_range y) (byteZ_range "000") E)
    as (Ha & Hb & Hc & Hd).
  assert (d = 0) as ->.
  { unfold encode3 in E. injection E as _ _ _ <-. change (byteZ "000") with 0.
    Z.to_euclidean_division_equations; lia. }
  cbn [app decodeQuanta]. rewrite !decodeMap_encodeChar, decodeMap_pad by done.
  cbn [mbind option_bind]. by rewrite (quantum4_encode3 _ _ _ _ _ _ _ E).
Qed.

Lemma decodeQuanta_one x : decodeQuanta (encodeQuanta [x]) = Some [x].
Proof.
  cbn [encodeQuanta]. change 0 with (byteZ "000"%char).
  destruct (encode3 (byteZ x) (byteZ "000") (byteZ "000")) as [[[a b] c] d] eqn:E.
  destruct (encode3_range _ _ _ _ _ _ _ (byteZ_range x) (byteZ_range "000") (byteZ_range "000") E)
    as (Ha & Hb & Hc & Hd).
  assert (c = 0 ∧ d = 0) as [-> ->].
  { unfold encode3 in E. injection E as _ _ <- <-. change (byteZ "000") with 0.
    split; Z.to_euclidean_division_equations; lia. }
  cbn [app decodeQuanta]. rewrite !decodeMap_encodeChar, decodeMap_pad by done.
  cbn [mbind option_bind]. by rewrite (quantum4_encode3 _ _ _ _ _ _ _ E).
Qed.

Lemma encodeQuanta_step x y z l :
  encodeQuanta (x :: y :: z :: l) = encodeQuanta [x; y; z] ++ encodeQuanta l.
Proof. cbn [encodeQuanta]. by destruct (encode3 _ _ _) as [[[a b] c] d]. Qed.

(** Induction on a list by threes. *)
Lemma threes_ind (P : list ascii → Prop) :
  P [] → (∀ x, P [x]) → (∀ x y, P [x; y]) → (∀ x y z l, P l → P (x :: y :: z :: l)) → ∀ l, P l.
Proof.
  intros H0 H1 H2 H3 l. remember (length l) as n eqn:Hn. revert l Hn.
  induction (lt_wf n) as [n _ IH]. intros [|x [|y [|z l]]] ->; auto.
  apply H3. eapply IH; [|reflexivity]. cbn. lia.
Qed.

Lemma decodeQuanta_encodeQuanta l : decodeQuanta (encodeQuanta l) = Some l.
Proof.
  induction l using threes_ind; [done|apply decodeQuanta_one|apply decodeQuanta_two|].
  rewrite encodeQuanta_step. by apply decodeQuanta_full.
Qed.

Lemma encodeQuanta_no_newline l : Forall (λ c, isNewline c = false) (encodeQuanta l).
Proof.
  induction l as [|x|x y|x y z l IH] using threes_ind.
  4: rewrite encodeQuanta_step; apply Forall_app; split; [|done].
  all: cbn [encodeQuanta]; try destruct (encode3 _ _ _) as [[[a b] c] d] eqn:E;
    repeat constructor; try reflexivity; apply encodeChar_not_newline;
    apply encode3_range in E; try apply byteZ_range; (tauto || lia).
Qed.

Lemma DecodeString_EncodeBase64 s : DecodeString (EncodeBase64 s) = Ok s.
Proof.
  unfold DecodeString, EncodeBase64. rewrite chars_of_chars.
  assert (E : filter (λ c, isNewline c = false) (encodeQuanta (chars s)) = encodeQuanta (chars s)).
  { pose proof (encodeQuanta_no_newline (chars s)) as H. induction H as [|c l Hc _ IH]; [done|].
    by rewrite filter_cons_True, IH by done. }
  by rewrite E, decodeQuanta_encodeQuanta, of_chars_chars.
Qed.

Lemma EncodeBase64_nonempty s : s ≠ "" → EncodeBase64 s ≠ "".
Proof.
  intros Hs E. apply Hs. pose proof (DecodeString_EncodeBase64 s) as H. rewrite E in H. by injection H.
Qed.
