(* ===== verification/Resolver.v ===== *)
(** * Resolving the base configuration

    The package file [pkg/config/resolver.go]: the base configuration comes
    from labels of the distribution image, with an LRU cache for images that
    are pinned by digest.  The cache is modelled with its pointers: a
    [*list.Element] is an address of the heap, [items] and [order] share the
    elements, and a value of [None] is a Go panic.  The label fetcher, which
    talks to a registry, is a parameter of [Resolve]. *)

From Stdlib Require Import Ascii.
From S2P Require Import Prelude Base64.

Definition OCIConfigListLabel : string := "com.ogx.distribution.configs".
Definition OCIDefaultConfigLabel : string := "com.ogx.distribution.default-config".
Definition OCIConfigLabelPrefix : string := "com.ogx.config.".

(** ** The cache *)

Definition maxOCICacheEntries : nat := 64.

Record ociCacheEntry := { entry_key : string; entry_data : string }.

(** [container/list.List] as the sequence of its element addresses, front
    first; [next] is the next fresh address. *)
Record ociConfigCache := {
  heap : gmap nat ociCacheEntry;
  items : gmap string nat;
  order : list nat;
  next : nat;
}.

Definition newOCIConfigCache : ociConfigCache :=
  {| heap := ∅; items := ∅; order := []; next := 0 |}.

(** [order.Remove(elem)]: an element of another list is left alone. *)
Definition Remove (elem : nat) (l : list nat) : list nat := filter (λ e, e ≠ elem) l.

Definition MoveToFront (elem : nat) (l : list nat) : list nat :=
  if bool_decide (elem ∈ l) then elem :: Remove elem l else l.

(** [cacheEntry(elem)]: the entry of an element; a dangling one panics. *)
Definition cacheEntry (c : ociConfigCache) (elem : nat) : option ociCacheEntry := heap c !! elem.

Definition get (c : ociConfigCache) (key : string) : option (option string * ociConfigCache) :=
  match items c !! key with
  | None => Some (None, c)
  | Some elem =>
      let c := {| heap := heap c; items := items c;
                  order := MoveToFront elem (order c); next := next c |} in
      entry ← cacheEntry c elem;
      Some (Some (entry_data entry), c)
  end.

(** The eviction of [set], when the cache is full. *)
Definition evict (c : ociConfigCache) : option ociConfigCache :=
  if (maxOCICacheEntries <=? size (items c))%nat then
    oldest ← last (order c);
    oldestEntry ← cacheEntry c oldest;
    Some {| heap := heap c; items := delete (entry_key oldestEntry) (items c);
            order := Remove oldest (order c); next := next c |}
  else Some c.

Definition set (c : ociConfigCache) (key data : string) : option ociConfigCache :=
  match items c !! key with
  | Some elem =>
      let c := {| heap := heap c; items := items c;
                  order := MoveToFront elem (order c); next := next c |} in
      entry ← cacheEntry c elem;
      Some {| heap := <[elem := {| entry_key := entry_key entry; entry_data := data |}]> (heap c);
              items := items c; order := order c; next := next c |}
  | None =>
      c ← evict c;
      let elem := next c in
      Some {| heap := <[elem := {| entry_key := key; entry_data := data |}]> (heap c);
              items := <[key := elem]> (items c); order := elem :: order c; next := S elem |}
  end.

(** ** The resolver *)

(** [strings.Contains] *)
Fixpoint Contains (s substr : string) : bool :=
  String.prefix substr s ||
  match s with EmptyString => false | String _ s' => Contains s' substr end.

Definition shouldCacheOCIConfig (imageRef : string) : bool := Contains imageRef "@sha256:".

(** The configuration that a set of labels carries. *)
Definition configFromLabels (imageRef : string) (labels : gmap string string) : result string :=
  let defaultConfigName := default "" (labels !! OCIDefaultConfigLabel) in
  if bool_decide (defaultConfigName = "") then
    Err (Errorf "failed to find OCI label %q on image %q" [OCIDefaultConfigLabel; imageRef])
  else
    let configLabel := (OCIConfigLabelPrefix +:+ defaultConfigName)%string in
    let labelValue := default "" (labels !! configLabel) in
    if bool_decide (labelValue = "") then
      Err (Errorf "failed to find OCI label %q on image %q (available configs: %q)"
             [configLabel; imageRef; default "" (labels !! OCIConfigListLabel)])
    else
      wrap "failed to decode base64 config from OCI label %q on %q: %w" [configLabel; imageRef]
        (DecodeString labelValue).

Definition labelFetcher : Type := string → result (gmap string string).

(** The cache is consulted, a registry is asked, and the answer is kept: the
    mutex is held within [get] and within [set] only, so these are the three
    atomic pieces of a resolution. *)
Definition lookupCached (c : ociConfigCache) (imageRef : string)
    : option (option string * ociConfigCache) :=
  if shouldCacheOCIConfig imageRef then get c imageRef else Some (None, c).

Definition fetchConfig (fetch : labelFetcher) (imageRef : string) : result string :=
  labels ← wrap "failed to fetch OCI labels for %q: %w" [imageRef] (fetch imageRef);
  configFromLabels imageRef labels.

Definition storeFetched (c : ociConfigCache) (imageRef : string) (fetched : result string)
    : option ociConfigCache :=
  match fetched with
  | Err _ => Some c
  | Ok data => if shouldCacheOCIConfig imageRef then set c imageRef data else Some c
  end.

Definition resolveFromOCI (fetch : labelFetcher) (c : ociConfigCache) (imageRef : string)
    : option (result string * ociConfigCache) :=
  lookup ← lookupCached c imageRef;
  let '(hit, c) := (lookup : option string * ociConfigCache) in
  match hit with
  | Some data => Some (Ok data, c)
  | None =>
      let fetched := fetchConfig fetch imageRef in
      c ← storeFetched c imageRef fetched; Some (fetched, c)
  end.

(** A resolution in progress: where a goroutine stands between two of the
    atomic pieces. *)
Inductive thread : Type :=
| Asked (imageRef : string)
| Missed (imageRef : string)
| Fetched (imageRef : string) (fetched : result string)
| Answered (imageRef : string) (r : result string).

(** The next atomic piece of a resolution; [None] is a panic. *)
Definition resume (fetch : labelFetcher) (c : ociConfigCache) (t : thread)
    : option (thread * ociConfigCache) :=
  match t with
  | Asked ref =>
      '(hit, c) ← lookupCached c ref;
      Some (match hit with Some data => Answered ref (Ok data) | None => Missed ref end, c)
  | Missed ref => Some (Fetched ref (fetchConfig fetch ref), c)
  | Fetched ref fetched => c ← storeFetched c ref fetched; Some (Answered ref fetched, c)
  | Answered ref r => Some (Answered ref r, c)
  end.

(** [None] is a nil fetcher. *)
Definition Resolve (fetch : option labelFetcher) (c : ociConfigCache) (imageRef : string)
    : option (result string * ociConfigCache) :=
  if bool_decide (imageRef = "") then
    Some (Err (New "failed to resolve base config from OCI labels: distribution image reference is empty"), c)
  else
    match fetch with
    | None => Some (Err (Errorf "failed to resolve base config from OCI labels for %q: OCI label fetcher is not configured" [imageRef]), c)
    | Some fetch => resolveFromOCI fetch c imageRef
    end.

(** ** The specification: a bounded list of entries, most recent first *)

Definition lru : Type := list (string * string).

Definition dropKey (key : string) (l : lru) : lru := filter (λ kv, kv.1 ≠ key) l.

Fixpoint find (key : string) (l : lru) : option string :=
  match l with
  | [] => None
  | (k, v) :: l => if bool_decide (k = key) then Some v else find key l
  end.

Definition lru_get (l : lru) (key : string) : option string * lru :=
  match find key l with
  | None => (None, l)
  | Some v => (Some v, (key, v) :: dropKey key l)
  end.

Definition dropLast (l : lru) : lru := take (length l - 1) l.

Definition lru_set (l : lru) (key data : string) : lru :=
  match find key l with
  | Some _ => (key, data) :: dropKey key l
  | None => (key, data) :: (if (maxOCICacheEntries <=? length l)%nat then dropLast l else l)
  end.

(** ** The representation *)

Definition entryAt (c : ociConfigCache) (e : nat) : string * string :=
  match heap c !! e with Some entry => (entry_key entry, entry_data entry) | None => ("", "") end.

(** The entries of a cache, most recent first. *)
Definition entries (c : ociConfigCache) : lru := entryAt c <$> order c.

(** The invariant that ties the map to the list. *)
Record wf (c : ociConfigCache) : Prop := {
  wf_order : NoDup (order c);
  wf_fresh : ∀ e, e ∈ order c → (e < next c)%nat;
  wf_items : ∀ key e, items c !! key = Some e ↔
               e ∈ order c ∧ ∃ data, heap c !! e = Some {| entry_key := key; entry_data := data |};
  wf_live : ∀ e, e ∈ order c → is_Some (heap c !! e);
  wf_size : size (items c) = length (order c);
  wf_bound : (length (order c) <= maxOCICacheEntries)%nat;
}.
