(* ===== verification/ResolverFacts.v ===== *)
(** * The cache is an LRU cache

    The pointer structure of [Resolver.v] refines a bounded list of entries,
    and what it returns is what the labels of the image said. *)

From Stdlib Require Import Lia.
From S2P Require Import Prelude Base64 Resolver.

(** ** Lists of entries *)

Lemma find_Some k v l : NoDup (l.*1) → find k l = Some v ↔ (k, v) ∈ l.
Proof.
  induction l as [|[k' v'] l IH]; cbn; intros Hnd.
  { split; [done|]. intros H. by apply not_elem_of_nil in H. }
  apply NoDup_cons in Hnd as [Hk Hnd]. rewrite elem_of_cons. case_bool_decide as E.
  - subst k'. split; [intros [= ->]; by left|]. intros [[= ->]|Hin]; [done|].
    destruct Hk. by apply (list_elem_of_fmap_2 fst) in Hin.
  - rewrite IH by done. split; [by right|]. intros [[= -> ->]|Hin]; done.
Qed.

Lemma filter_fmap_ext {A B} (P : B → Prop) (Q : A → Prop) `{∀ x, Decision (P x), ∀ x, Decision (Q x)}
    (f : A → B) (l : list A) :
  (∀ x, x ∈ l → P (f x) ↔ Q x) → filter P (f <$> l) = f <$> filter Q l.
Proof.
  induction l as [|x l IH]; intros Hl; [done|]. cbn [fmap list_fmap].
  assert (Hx : P (f x) ↔ Q x) by (apply Hl; left).
  destruct (decide (Q x)) as [Hq|Hq].
  - rewrite !filter_cons_True by tauto. cbn. by rewrite IH by (intros y Hy; apply Hl; by right).
  - rewrite !filter_cons_False by tauto. by rewrite IH by (intros y Hy; apply Hl; by right).
Qed.

Lemma Remove_Permutation e l : NoDup l → e ∈ l → e :: Remove e l ≡ₚ l.
Proof.
  intros Hnd Hin. apply NoDup_Permutation.
  - apply NoDup_cons. unfold Remove. split; [|by apply NoDup_filter].
    rewrite list_elem_of_filter. tauto.
  - done.
  - intros x. rewrite elem_of_cons. unfold Remove. rewrite list_elem_of_filter.
    destruct (decide (x = e)) as [->|]; tauto.
Qed.

Lemma Remove_id (e : nat) (l : list nat) : e ∉ l → filter (λ x, x ≠ e) l = l.
Proof.
  induction l as [|x l IH]; [done|]. intros [Hx Hl]%not_elem_of_cons.
  by rewrite filter_cons_True, IH by done.
Qed.

Lemma MoveToFront_in e l : e ∈ l → MoveToFront e l = e :: Remove e l.
Proof. intros He. unfold MoveToFront. by rewrite bool_decide_true. Qed.

(** ** What the invariant gives *)

Section invariant.
#[local] Set Default Proof Using "Type*".
Context (c : ociConfigCache) (Hwf : wf c).

Lemma item_live key e :
  items c !! key = Some e →
  e ∈ order c ∧ ∃ data, heap c !! e = Some {| entry_key := key; entry_data := data |}.
Proof. apply (wf_items c Hwf). Qed.

(** The element of an entry is the one its key maps to. *)
Lemma live_item e :
  e ∈ order c → ∃ data, entryAt c e = ((entryAt c e).1, data) ∧
    heap c !! e = Some {| entry_key := (entryAt c e).1; entry_data := data |} ∧
    items c !! (entryAt c e).1 = Some e.
Proof.
  intros He. destruct (wf_live c Hwf e He) as [[k d] Hh]. unfold entryAt. rewrite Hh. cbn.
  exists d. split_and!; try done. apply (wf_items c Hwf). eauto.
Qed.

Lemma entries_NoDup : NoDup ((entries c).*1).
Proof.
  unfold entries. rewrite <- list_fmap_compose. apply NoDup_fmap_2_strong; [|apply Hwf].
  intros e1 e2 H1 H2 E. cbn in E.
  destruct (live_item e1 H1) as (_ & _ & _ & I1), (live_item e2 H2) as (_ & _ & _ & I2).
  rewrite E in I1. congruence.
Qed.

Lemma elem_of_entries key data :
  (key, data) ∈ entries c ↔
  ∃ e, items c !! key = Some e ∧ heap c !! e = Some {| entry_key := key; entry_data := data |}.
Proof.
  unfold entries. rewrite list_elem_of_fmap. split.
  - intros (e & E & He). destruct (live_item e He) as (d & E' & Hh & Hi).
    rewrite <- E in *. cbn in *. exists e. split; [done|]. congruence.
  - intros (e & Hi & Hh). destruct (item_live key e Hi) as [He _].
    exists e. split; [|done]. unfold entryAt. by rewrite Hh.
Qed.

Lemma find_entries key :
  find key (entries c) = e ← items c !! key; entry_data <$> heap c !! e.
Proof.
  destruct (items c !! key) as [e|] eqn:Hi; cbn.
  - destruct (item_live key e Hi) as (_ & data & Hh). rewrite Hh. cbn.
    apply find_Some; [apply entries_NoDup|]. apply elem_of_entries. eauto.
  - destruct (find key (entries c)) as [v|] eqn:Hf; [|done].
    apply find_Some in Hf; [|apply entries_NoDup].
    apply elem_of_entries in Hf as (e & Hi' & _). congruence.
Qed.

(** Dropping a key from the entries is removing its element from the list. *)
Lemma dropKey_entries key e :
  items c !! key = Some e → dropKey key (entries c) = entryAt c <$> Remove e (order c).
Proof.
  intros Hi. unfold dropKey, entries, Remove. apply filter_fmap_ext. intros e' He'.
  destruct (live_item e' He') as (_ & _ & _ & Hi').
  split; [intros Hne ->|intros Hne Hk].
  - apply Hne. destruct (item_live key e Hi) as (_ & d & Hh). unfold entryAt. by rewrite Hh.
  - rewrite Hk in Hi'. congruence.
Qed.

(** The invariant only depends on the elements of the list, not on their order. *)
Lemma wf_reorder l :
  l ≡ₚ order c →
  wf {| heap := heap c; items := items c; order := l; next := next c |}.
Proof.
  intros Hp. destruct Hwf. split; cbn; setoid_rewrite Hp; auto.
Qed.

Lemma wf_touch key e :
  items c !! key = Some e →
  wf {| heap := heap c; items := items c; order := MoveToFront e (order c); next := next c |}.
Proof.
  intros Hi. destruct (item_live key e Hi) as [He _]. apply wf_reorder.
  rewrite MoveToFront_in by done. apply Remove_Permutation; [apply Hwf|done].
Qed.
End invariant.

(** ** The operations refine the list *)

Lemma wf_new : wf newOCIConfigCache.
Proof.
  split; cbn.
  - by apply NoDup_nil.
  - intros e He. by apply not_elem_of_nil in He.
  - intros key e. rewrite lookup_empty. split; [done|]. intros [He _]. by apply not_elem_of_nil in He.
  - intros e He. by apply not_elem_of_nil in He.
  - apply map_size_empty.
  - lia.
Qed.

Lemma get_refines c key :
  wf c → ∃ c', get c key = Some (find key (entries c), c') ∧ wf c' ∧
                entries c' = (lru_get (entries c) key).2.
Proof.
  intros Hwf. unfold get, lru_get. rewrite (find_entries c Hwf).
  destruct (items c !! key) as [e|] eqn:Hi; cbn; [|by exists c].
  destruct (item_live c Hwf key e Hi) as [He (data & Hh)]. unfold cacheEntry. cbn.
  rewrite Hh. cbn. eexists. split; [reflexivity|]. split; [by eapply wf_touch|].
  unfold entries at 1. cbn [order]. rewrite MoveToFront_in by done.
  cbn [fmap list_fmap snd]. rewrite (dropKey_entries c Hwf key e Hi).
  f_equal. unfold entryAt. cbn. by rewrite Hh.
Qed.

Lemma entryAt_insert c e k d items' l n e' :
  entryAt {| heap := <[e := {| entry_key := k; entry_data := d |}]> (heap c);
             items := items'; order := l; next := n |} e' =
  if bool_decide (e' = e) then (k, d) else entryAt c e'.
Proof.
  unfold entryAt. cbn. case_bool_decide as E.
  - subst. by rewrite lookup_insert_eq.
  - by rewrite lookup_insert_ne.
Qed.

Lemma map_entryAt_insert c e k d items' l n (l' : list nat) :
  e ∉ l' →
  entryAt {| heap := <[e := {| entry_key := k; entry_data := d |}]> (heap c);
             items := items'; order := l; next := n |} <$> l' = entryAt c <$> l'.
Proof.
  intros He. apply list_fmap_ext. intros i e' Hi. rewrite entryAt_insert.
  rewrite bool_decide_false; [done|]. intros ->. apply He. by eapply list_elem_of_lookup_2.
Qed.

(** Overwriting the data of an existing entry. *)
Lemma wf_overwrite c key e old data :
  wf c → items c !! key = Some e → heap c !! e = Some {| entry_key := key; entry_data := old |} →
  wf {| heap := <[e := {| entry_key := key; entry_data := data |}]> (heap c);
        items := items c; order := order c; next := next c |}.
Proof.
  intros Hwf Hi Hh. destruct Hwf as [H1 H2 H3 H4 H5 H6]. split; cbn; try done.
  - intros k e'. rewrite H3. split; intros [He' [d Hd]]; (split; [done|]).
    + destruct (decide (e' = e)) as [->|Hne]; [|exists d; by rewrite lookup_insert_ne].
      exists data. rewrite lookup_insert_eq. congruence.
    + destruct (decide (e' = e)) as [->|Hne]; [|exists d; by rewrite lookup_insert_ne in Hd].
      rewrite lookup_insert_eq in Hd. injection Hd as -> ->. by exists old.
  - intros e' He'. destruct (decide (e' = e)) as [->|Hne].
    + by rewrite lookup_insert_eq.
    + rewrite lookup_insert_ne by done. auto.
Qed.

Lemma set_hit_refines c key data e :
  wf c → items c !! key = Some e →
  ∃ c', set c key data = Some c' ∧ wf c' ∧ entries c' = (key, data) :: dropKey key (entries c).
Proof.
  intros Hwf Hi. destruct (item_live c Hwf key e Hi) as [He (old & Hh)].
  unfold set. rewrite Hi. unfold cacheEntry. cbn. rewrite Hh. cbn.
  eexists. split; [reflexivity|]. split.
  - apply (wf_overwrite _ key e old data (wf_touch c Hwf key e Hi)); done.
  - unfold entries at 1. cbn [order]. rewrite MoveToFront_in by done. cbn [fmap list_fmap].
    rewrite entryAt_insert, bool_decide_true by done. f_equal.
    rewrite (dropKey_entries c Hwf key e Hi). apply (map_entryAt_insert c).
    unfold Remove. rewrite list_elem_of_filter. tauto.
Qed.

(** A full cache gives up its last entry, a partial one nothing. *)
Lemma evict_refines c :
  wf c →
  ∃ c', evict c = Some c' ∧ wf c' ∧ (length (order c') < maxOCICacheEntries)%nat ∧
    next c' = next c ∧ heap c' = heap c ∧
    (∀ key, items c !! key = None → items c' !! key = None) ∧
    entries c' = (if (maxOCICacheEntries <=? length (entries c))%nat then dropLast (entries c)
                  else entries c).
Proof.
  intros Hwf. unfold evict. rewrite (wf_size c Hwf). unfold entries at 2 3. rewrite length_fmap.
  destruct (Nat.leb_spec maxOCICacheEntries (length (order c))) as [Hfull|Hpart].
  2: { exists c. split_and!; done. }
  destruct (order c) as [|oldest l _] eqn:Ho using rev_ind; [cbn in Hfull; unfold maxOCICacheEntries in *; lia|].
  rewrite last_snoc. cbn [mbind option_bind].
  assert (Hin : oldest ∈ order c) by (rewrite Ho; set_solver).
  destruct (live_item c Hwf oldest Hin) as (d & Hent & Hh & Hitem).
  unfold cacheEntry. rewrite Hh. cbn [mbind option_bind entry_key].
  set (k := (entryAt c oldest).1) in *.
  pose proof (wf_order c Hwf) as Hnd. rewrite Ho in Hnd. apply NoDup_app in Hnd as (Hndl & Hdis & _).
  assert (Hnin : oldest ∉ l) by (intros Hl; apply (Hdis _ Hl); left).
  assert (Hrem : Remove oldest (l ++ [oldest]) = l).
  { unfold Remove. rewrite filter_app, filter_cons_False, filter_nil, app_nil_r by tauto.
    by apply Remove_id. }
  rewrite Hrem. eexists. split; [reflexivity|].
  pose proof (wf_bound c Hwf) as Hb. rewrite Ho, length_app in Hb. cbn in Hb.
  split_and!; cbn; try done; [|lia| |].
  - split; cbn; [done| | | | |lia].
    + intros e He. apply (wf_fresh c Hwf). rewrite Ho. set_solver.
    + intros key e. rewrite lookup_delete_Some, (wf_items c Hwf), Ho. split.
      * intros (Hne & Hel & dd & Hd). split; [|by exists dd].
        apply elem_of_app in Hel as [?|Hel]; [done|]. apply list_elem_of_singleton in Hel as ->.
        rewrite Hh in Hd. congruence.
      * intros (Hel & dd & Hd). split_and!; [|set_solver|by exists dd]. intros Heq.
        assert (items c !! key = Some e) as Hk.
        { apply (wf_items c Hwf). split; [rewrite Ho; set_solver|by exists dd]. }
        rewrite <- Heq, Hitem in Hk. injection Hk as ->. done.
    + intros e He. apply (wf_live c Hwf). rewrite Ho. set_solver.
    + rewrite map_size_delete, Hitem, (wf_size c Hwf), Ho, length_app. cbn. lia.
  - intros key Hk. rewrite lookup_delete_None. by right.
  - unfold entries. cbn [order]. unfold dropLast. rewrite fmap_app, length_app, !length_fmap. cbn.
    rewrite Nat.add_sub, take_app_le by (by rewrite length_fmap). rewrite take_ge by (by rewrite length_fmap).
    done.
Qed.

Lemma set_miss_refines c key data :
  wf c → items c !! key = None →
  ∃ c', set c key data = Some c' ∧ wf c' ∧
    entries c' = (key, data) :: (if (maxOCICacheEntries <=? length (entries c))%nat
                                 then dropLast (entries c) else entries c).
Proof.
  intros Hwf Hi. destruct (evict_refines c Hwf) as (c1 & He & Hwf1 & Hlen & _ & _ & Hnone & Hent).
  specialize (Hnone key Hi). unfold set. rewrite Hi, He. cbn [mbind option_bind].
  assert (Hfresh : next c1 ∉ order c1) by (intros Hx; pose proof (wf_fresh c1 Hwf1 _ Hx); lia).
  eexists. split; [reflexivity|]. split.
  - destruct Hwf1 as [H1 H2 H3 H4 H5 H6]. split; cbn.
    + by apply NoDup_cons.
    + intros e [->|Hel]%elem_of_cons; [lia|]. pose proof (H2 e Hel). lia.
    + intros k e. rewrite elem_of_cons. destruct (decide (k = key)) as [->|Hk].
      * rewrite lookup_insert_eq. split.
        -- intros [= <-]. split; [by left|]. exists data. by rewrite lookup_insert_eq.
        -- intros [[->|Hel] [d Hd]]; [done|]. exfalso.
           rewrite lookup_insert_ne in Hd by (by intros <-).
           assert (items c1 !! key = Some e) by (apply H3; eauto). congruence.
      * rewrite lookup_insert_ne, H3 by done. split.
        -- intros (Hel & d & Hd). split; [by right|]. exists d.
           rewrite lookup_insert_ne; [done|by intros <-].
        -- intros [[->|Hel] [d Hd]].
           ++ rewrite lookup_insert_eq in Hd. congruence.
           ++ split; [done|]. exists d. by rewrite lookup_insert_ne in Hd by (by intros <-).
    + intros e [->|Hel]%elem_of_cons; [by rewrite lookup_insert_eq|].
      rewrite lookup_insert_ne by (by intros <-). auto.
    + rewrite map_size_insert, Hnone, H5. done.
    + lia.
  - unfold entries at 1. cbn [order fmap list_fmap]. rewrite entryAt_insert, bool_decide_true by done.
    f_equal. rewrite (map_entryAt_insert c1) by done. exact Hent.
Qed.

(** The abstract operation behind [set], on both branches. *)
Lemma set_refines c key data :
  wf c → ∃ c', set c key data = Some c' ∧ wf c' ∧ entries c' = lru_set (entries c) key data.
Proof.
  intros Hwf. unfold lru_set. rewrite (find_entries c Hwf).
  destruct (items c !! key) as [e|] eqn:Hi; cbn.
  - destruct (item_live c Hwf key e Hi) as [_ (d & Hh)]. rewrite Hh. cbn.
    by eapply set_hit_refines.
  - by apply set_miss_refines.
Qed.

(** The pointer structure refines the LRU list: on a well-formed cache, [get]
    and [set] do not panic, keep the cache well formed, return what the list
    returns and leave the entries of the list operation.  A well-formed cache
    holds at most 64 entries, with distinct keys. *)
Theorem cache_refines_lru c key data :
  wf c →
  (∃ c', get c key = Some ((lru_get (entries c) key).1, c') ∧ wf c' ∧
         entries c' = (lru_get (entries c) key).2) ∧
  (∃ c', set c key data = Some c' ∧ wf c' ∧ entries c' = lru_set (entries c) key data) ∧
  NoDup ((entries c).*1) ∧ (length (entries c) <= maxOCICacheEntries)%nat.
Proof.
  intros Hwf. split_and!; [|by apply set_refines|by apply entries_NoDup|].
  - destruct (get_refines c key Hwf) as (c' & Hg & Hwf' & He). exists c'.
    split_and!; [|done|done]. rewrite Hg. unfold lru_get. by destruct (find key (entries c)).
  - unfold entries. rewrite length_fmap. apply Hwf.
Qed.

(** A configuration written to the labels in base64 under the default name is
    read back. *)
Theorem configFromLabels_roundtrip imageRef name config others :
  name ≠ "" → config ≠ "" → (OCIConfigLabelPrefix +:+ name)%string ≠ OCIDefaultConfigLabel →
  configFromLabels imageRef
    (<[(OCIConfigLabelPrefix +:+ name)%string := EncodeBase64 config]>
     (<[OCIDefaultConfigLabel := name]> others)) = Ok config.
Proof.
  intros Hn Hc Hl. unfold configFromLabels.
  rewrite lookup_insert_ne, lookup_insert_eq by done. cbn [from_option id].
  rewrite bool_decide_false by done. rewrite lookup_insert_eq. cbn [from_option id].
  rewrite bool_decide_false by by apply EncodeBase64_nonempty.
  by rewrite DecodeString_EncodeBase64.
Qed.

(** ** Runs of the resolver

    Any number of resolutions run at once.  Each is a thread that executes the
    pieces of [resolveFromOCI] one after the other; a thread is called at any
    time, the threads are scheduled in any order, and every piece may meet a
    registry that answers differently from the one before. *)

Section runs.
(** [published ref labels]: the registry may answer [labels] for [ref]. *)
Context (published : string → gmap string string → Prop).

Definition truthful (fetch : labelFetcher) : Prop :=
  ∀ ref labels, fetch ref = Ok labels → published ref labels.

Inductive step : ociConfigCache * list thread → ociConfigCache * list thread → Prop :=
| step_call c ts ref : step (c, ts) (c, Asked ref :: ts)
| step_resume fetch c c' ts i t t' :
    truthful fetch → ts !! i = Some t → resume fetch c t = Some (t', c') →
    step (c, ts) (c', <[i := t']> ts).

Definition reaches (c : ociConfigCache) (ts : list thread) : Prop :=
  rtc step (newOCIConfigCache, []) (c, ts).

Definition reachable (c : ociConfigCache) : Prop := ∃ ts, reaches c ts.

(** Where a configuration comes from. *)
Definition genuine (key data : string) : Prop :=
  ∃ labels, published key labels ∧ configFromLabels key labels = Ok data.

(** What a thread holds is genuine. *)
Definition honest (t : thread) : Prop :=
  match t with
  | Fetched ref (Ok data) | Answered ref (Ok data) => genuine ref data
  | _ => True
  end.

Definition sound (c : ociConfigCache) : Prop :=
  wf c ∧ ∀ key data, (key, data) ∈ entries c → shouldCacheOCIConfig key = true ∧ genuine key data.

Lemma elem_of_lru_get l key kv : NoDup (l.*1) → kv ∈ (lru_get l key).2 → kv ∈ l.
Proof.
  intros Hnd. unfold lru_get. destruct (find key l) as [v|] eqn:Hf; [|done]. cbn.
  intros [->|Hin]%elem_of_cons; [by apply find_Some|]. by apply list_elem_of_filter in Hin as [_ ?].
Qed.

Lemma elem_of_lru_set l key data kv : kv ∈ lru_set l key data → kv = (key, data) ∨ kv ∈ l.
Proof.
  unfold lru_set. destruct (find key l) as [v|]; intros [->|Hin]%elem_of_cons; auto; right.
  - by apply list_elem_of_filter in Hin as [_ ?].
  - case_match; [|done]. unfold dropLast in Hin. by apply elem_of_take in Hin as (i & Hi%list_elem_of_lookup_2 & _).
Qed.

Lemma fetchConfig_genuine fetch ref data :
  truthful fetch → fetchConfig fetch ref = Ok data → genuine ref data.
Proof. intros Hf E. unfold fetchConfig in E. res_inv. eexists. eauto. Qed.

Lemma lookupCached_sound c ref :
  sound c → ∃ hit c', lookupCached c ref = Some (hit, c') ∧ sound c' ∧
    (shouldCacheOCIConfig ref = false → hit = None ∧ c' = c) ∧
    ∀ data, hit = Some data → genuine ref data.
Proof.
  intros [Hwf Hin]. unfold lookupCached. destruct (shouldCacheOCIConfig ref) eqn:Hc; [|by exists None, c].
  destruct (get_refines c ref Hwf) as (c' & Hg & Hwf' & He). exists (find ref (entries c)), c'.
  split_and!; [done| |done|].
  - split; [done|]. intros k d Hkd. apply Hin. rewrite He in Hkd.
    eapply elem_of_lru_get; [by apply entries_NoDup|exact Hkd].
  - intros data Hf%find_Some; [by apply Hin|by apply entries_NoDup].
Qed.

Lemma storeFetched_sound c ref fetched :
  sound c → (∀ data, fetched = Ok data → genuine ref data) →
  ∃ c', storeFetched c ref fetched = Some c' ∧ sound c' ∧
    (shouldCacheOCIConfig ref = false → c' = c).
Proof.
  intros [Hwf Hin] Hf. destruct fetched as [data|e]; cbn; [|by exists c].
  destruct (shouldCacheOCIConfig ref) eqn:Hc; [|by exists c].
  destruct (set_refines c ref data Hwf) as (c' & Hs & Hwf' & He). exists c'.
  split_and!; [done| |done]. split; [done|]. intros k d Hkd. rewrite He in Hkd.
  apply elem_of_lru_set in Hkd as [[= -> ->]|Hkd]; auto.
Qed.

(** Every piece of a resolution runs to its end and keeps the cache sound. *)
Lemma resume_sound fetch c t :
  truthful fetch → sound c → honest t →
  ∃ t' c', resume fetch c t = Some (t', c') ∧ sound c' ∧ honest t'.
Proof.
  intros Hf Hs Ht. destruct t as [ref|ref|ref fetched|ref r]; cbn.
  - destruct (lookupCached_sound c ref Hs) as (hit & c' & -> & Hs' & _ & Hg). cbn.
    do 2 eexists. split_and!; [done..|]. destruct hit as [data|]; cbn; auto.
  - do 2 eexists. split_and!; [done..|]. cbn. destruct (fetchConfig fetch ref) eqn:E; [|done].
    by eapply fetchConfig_genuine.
  - destruct (storeFetched_sound c ref fetched Hs) as (c' & -> & Hs' & _); [by intros data ->|].
    cbn. do 2 eexists. by split_and!.
  - do 2 eexists. by split_and!.
Qed.

Lemma step_sound s s' :
  step s s' → sound s.1 ∧ Forall honest s.2 → sound s'.1 ∧ Forall honest s'.2.
Proof.
  intros Hst [Hs Hts]. destruct Hst as [c ts ref|fetch c c' ts i t t' Hf Hi Hr]; cbn in *.
  - split; [done|]. by constructor.
  - pose proof (proj1 (Forall_lookup _ _) Hts i t Hi) as Ht.
    destruct (resume_sound fetch c t Hf Hs Ht) as (t1 & c1 & E & Hs1 & Ht1).
    rewrite Hr in E. injection E as <- <-. split; [done|]. by apply Forall_insert.
Qed.

Lemma reaches_sound c ts : reaches c ts → sound c ∧ Forall honest ts.
Proof.
  unfold reaches. intros Hr. change (sound (c, ts).1 ∧ Forall honest (c, ts).2).
  revert Hr. generalize (c, ts). apply rtc_ind_r; [|intros; by eapply step_sound].
  split; [|constructor]. split; [apply wf_new|]. intros k d H. by apply not_elem_of_nil in H.
Qed.

Lemma reachable_sound c : reachable c → sound c.
Proof. intros [ts Hr]. by apply (reaches_sound c ts). Qed.

Lemma reaches_call c ts ref : reaches c ts → reaches c (Asked ref :: ts).
Proof. intros Hr. eapply rtc_r; [exact Hr|constructor]. Qed.

Lemma reaches_resume fetch c c' t t' ts :
  truthful fetch → reaches c (t :: ts) → resume fetch c t = Some (t', c') → reaches c' (t' :: ts).
Proof. intros Hf Hr E. eapply rtc_r; [exact Hr|]. by apply (step_resume fetch c c' (t :: ts) 0 t t'). Qed.

(** The pieces of one thread that nothing interrupts are [resolveFromOCI]. *)
Lemma resolveFromOCI_reaches fetch c ts ref :
  truthful fetch → reaches c ts →
  ∃ r c', resolveFromOCI fetch c ref = Some (r, c') ∧ reaches c' (Answered ref r :: ts) ∧
    (shouldCacheOCIConfig ref = false → c' = c ∧ r = fetchConfig fetch ref).
Proof.
  intros Hf Hr. destruct (reaches_sound c ts Hr) as [Hs _]. apply (reaches_call c ts ref) in Hr.
  unfold resolveFromOCI.
  destruct (lookupCached_sound c ref Hs) as (hit & c1 & E1 & Hs1 & Hn & _). rewrite E1. cbn [mbind option_bind].
  destruct hit as [data|].
  { do 2 eexists. split; [done|]. split; [|by intros [? _]%Hn].
    eapply reaches_resume; [done|exact Hr|]. cbn. by rewrite E1. }
  assert (Hr1 : reaches c1 (Missed ref :: ts)).
  { eapply reaches_resume; [done|exact Hr|]. cbn. by rewrite E1. }
  eapply reaches_resume in Hr1; [|done|reflexivity].
  destruct (storeFetched_sound c1 ref (fetchConfig fetch ref) Hs1) as (c2 & E2 & _ & Hn2).
  { intros data. by apply fetchConfig_genuine. }
  rewrite E2. cbn [mbind option_bind]. do 2 eexists. split; [done|]. split.
  - eapply reaches_resume; [done|exact Hr1|]. cbn. by rewrite E2.
  - intros Hc. rewrite Hn2 by done. by destruct (Hn Hc) as [_ ->].
Qed.

(** C39. Any number of resolutions run at once, their pieces interleaved in any
    order, and the registry may answer each fetch differently.  Whatever has
    happened: at most 64 images are cached, only images pinned by digest are,
    and each with a configuration that labels published for that image carry;
    an answer that a resolution has given is such a configuration of the image
    it was asked for; the next piece of every resolution runs without a panic;
    and a resolution that nothing interrupts is [resolveFromOCI], which answers
    and leads to a state of the same kind. *)
Theorem reachable_cache c ts :
  reaches c ts →
  (length (entries c) <= maxOCICacheEntries)%nat ∧
  (∀ key data, (key, data) ∈ entries c → Contains key "@sha256:" = true ∧ genuine key data) ∧
  (∀ ref data, Answered ref (Ok data) ∈ ts → genuine ref data) ∧
  (∀ fetch t, truthful fetch → t ∈ ts → is_Some (resume fetch c t)) ∧
  ∀ fetch ref, truthful fetch →
    ∃ r c', resolveFromOCI fetch c ref = Some (r, c') ∧ reaches c' (Answered ref r :: ts).
Proof.
  intros Hr. destruct (reaches_sound c ts Hr) as [Hs Hts]. pose proof (proj1 (Forall_forall _ _) Hts) as Ht.
  split_and!.
  - unfold entries. rewrite length_fmap. apply Hs.
  - apply Hs.
  - intros ref data Hin. apply (Ht _ Hin).
  - intros fetch t Hf Hin. destruct (resume_sound fetch c t Hf Hs (Ht t Hin)) as (? & ? & -> & _). done.
  - intros fetch ref Hf.
    destruct (resolveFromOCI_reaches fetch c ts ref Hf Hr) as (r & c' & ? & ? & _). by exists r, c'.
Qed.

Lemma resolveFromOCI_cases (fetch : labelFetcher) c ref :
  truthful fetch → reachable c →
  ∃ r c', resolveFromOCI fetch c ref = Some (r, c') ∧ reachable c' ∧
    (∀ data, r = Ok data → genuine ref data) ∧
    (shouldCacheOCIConfig ref = false → c' = c ∧ r = fetchConfig fetch ref).
Proof.
  intros Hf [ts Hr]. destruct (resolveFromOCI_reaches fetch c ts ref Hf Hr) as (r & c' & E & Hr' & Hn).
  exists r, c'. split_and!; [done|by eexists| |done]. intros data ->.
  destruct (reaches_sound c' _ Hr') as [_ Hts]. by apply Forall_cons in Hts as [? _].
Qed.

(** [Resolve] never panics in a reachable state and leaves a reachable
    state.  What it returns for an image is a configuration that labels
    published for that image carry; for an image that is not pinned by digest
    it is the one of the labels fetched by this very call. *)
Theorem Resolve_genuine (fetch : labelFetcher) c ref :
  truthful fetch → reachable c →
  ∃ r c', Resolve (Some fetch) c ref = Some (r, c') ∧ reachable c' ∧
    (∀ data, r = Ok data → ref ≠ "" ∧ genuine ref data) ∧
    (Contains ref "@sha256:" = false → ref ≠ "" →
       c' = c ∧ r = fetchConfig fetch ref).
Proof.
  intros Hpub Hr. unfold Resolve. case_bool_decide as He.
  - do 2 eexists. split; [reflexivity|]. by split_and!.
  - destruct (resolveFromOCI_cases fetch c ref Hpub Hr) as (r & c' & H1 & H2 & H3 & H4).
    exists r, c'. split_and!; auto.
Qed.

(** When the labels of a pinned image cannot change, the cache is invisible:
    whenever the registry answers, [Resolve] returns exactly what an uncached
    resolution would, errors included. *)
Theorem Resolve_transparent (fetch : labelFetcher) c ref labels :
  (∀ l1 l2, published ref l1 → published ref l2 → l1 = l2) →
  truthful fetch → fetch ref = Ok labels → reachable c → ref ≠ "" →
  ∃ c', Resolve (Some fetch) c ref = Some (configFromLabels ref labels, c').
Proof.
  intros Huniq Hf Hfetch Hr He. pose proof (Hf _ _ Hfetch) as Hpub.
  destruct (resolveFromOCI_cases fetch c ref Hf Hr) as (r & c' & H1 & _ & H3 & _).
  unfold Resolve. rewrite bool_decide_false by done. exists c'. rewrite H1.
  destruct r as [data|e].
  - destruct (H3 data eq_refl) as (l & Hl & Hcfg). by rewrite <- (Huniq _ _ Hl Hpub), Hcfg.
  - f_equal. f_equal. revert H1. unfold resolveFromOCI, fetchConfig. rewrite Hfetch. cbn.
    destruct (lookupCached c ref) as [[[d|] c1]|]; cbn; [done| |done].
    destruct (configFromLabels ref labels) as [data|e'] eqn:E; cbn; [|congruence].
    by destruct (if shouldCacheOCIConfig ref then _ else _).
Qed.
End runs.
