(* ===== verification/Webhook.v ===== *)
(** * The validating webhook

    The file [api/v1beta1/ogxserver_webhook.go].  A [field.Error] is a record
    of its type, path and detail; an aggregate of errors is the list of them,
    so a validation accepts when the list is empty.  Kubernetes' semantic
    [DeepEqual] is a parameter, at the two types it is used at. *)

From Stdlib Require Import Ascii.
From stdpp Require Import pretty.
From S2P Require Import Prelude Value ApiProviders ApiServer.

(** ** Field errors *)

Inductive ErrorType := ErrorTypeInvalid | ErrorTypeForbidden | ErrorTypeRequired.

Record fieldError := {
  FE_Type : ErrorType;
  FE_Field : string;
  FE_BadValue : string;
  FE_Detail : string;
  FE_DetailArgs : list string;
}.

Definition Invalid (path value detail : string) (args : list string) : fieldError :=
  {| FE_Type := ErrorTypeInvalid; FE_Field := path; FE_BadValue := value; FE_Detail := detail;
     FE_DetailArgs := args |}.

Definition Forbidden (path detail : string) (args : list string) : fieldError :=
  {| FE_Type := ErrorTypeForbidden; FE_Field := path; FE_BadValue := ""; FE_Detail := detail;
     FE_DetailArgs := args |}.

Definition Required (path detail : string) : fieldError :=
  {| FE_Type := ErrorTypeRequired; FE_Field := path; FE_BadValue := ""; FE_Detail := detail;
     FE_DetailArgs := [] |}.

(** [path.Index(i)] *)
Definition Index (path : string) (i : nat) : string := (path +:+ "[" +:+ pretty i +:+ "]")%string.

(** ** Reading a spec *)

Definition overridesOf (r : OGXServer) : option WorkloadOverrides :=
  Spec_Workload (Server_Spec r) ≫= WL_Overrides.

Definition overrideVolumes (r : OGXServer) : list Volume :=
  match overridesOf r with Some o => WO_Volumes o | None => [] end.

Definition externalAccessOf (r : OGXServer) : option ExternalAccessConfig :=
  Spec_Network (Server_Spec r) ≫= Net_ExternalAccess.

(** The webhook's [isPraxisModeEnabled]: only an explicit true counts. *)
Definition isPraxisModeEnabled (r : OGXServer) : bool :=
  match Spec_PraxisMode (Server_Spec r) with
  | Some pm => match Praxis_Enabled pm with Some b => b | None => false end
  | None => false
  end.

Definition isMigrationRequested (r : OGXServer) : bool :=
  isPraxisModeEnabled r &&
  match Spec_PraxisMode (Server_Spec r) ≫= Praxis_MigrationJob with
  | None => false
  | Some mj => match MJ_Enabled mj with None => true | Some b => b end
  end.

Definition isExternalAccessRequested (r : OGXServer) : bool :=
  match externalAccessOf r with Some ea => EA_Enabled ea | None => false end.

Definition isNetworkPolicyDisabled (r : OGXServer) : bool :=
  match Spec_Network (Server_Spec r) ≫= Net_Policy with
  | Some p => match NP_Enabled p with Some b => negb b | None => false end
  | None => false
  end.

(** ** Warnings *)

Definition praxisWarning : string :=
  "Praxis mode is enabled (spec.praxisMode.enabled: true). The Responses API served by Praxis is Tech Preview.".
Definition externalAccessWarning : string :=
  "spec.network.externalAccess.enabled is not honored: OGX is internal-only (Praxis-fronted, spec.praxisMode.enabled: true) and the operator does not create external exposure. This value is treated as false.".
Definition networkPolicyWarning : string :=
  "spec.network.policy.enabled: false disables the operator-managed NetworkPolicy entirely, removing the mandatory Praxis-fronted ingress lock-down (OGX is internal-only, spec.praxisMode.enabled: true). OGX may then be reachable directly by co-located workloads, bypassing Praxis. Prefer additive spec.network.policy.ingress rules instead.".
Definition rollbackWarning : string :=
  "disabling Praxis migration is a soft rollback only: it restores the pre-enablement OGX Responses/Conversations serving posture. Writes made through Praxis after cutover do not flow back to OGX, ABAC flattening is not restored, and data loss is possible.".

Definition collectValidationWarnings (r : OGXServer) : list string :=
  if negb (IsPraxisModeEnabled (Server_Spec r)) then []
  else
    [praxisWarning] ++
    (if isExternalAccessRequested r then [externalAccessWarning] else []) ++
    (if isNetworkPolicyDisabled r then [networkPolicyWarning] else []).

Definition DeprecatedDistributions : gmap string string := {["rh-dev" := "rh"]}.

(** [fmt.Sprintf("spec.distribution.name %q is deprecated, ...")], with [%q] of
    names that need no escape. *)
Definition deprecationWarning (name replacement : string) : string :=
  let quote := String (Ascii.ascii_of_nat 34) EmptyString in
  let quoted s := (quote +:+ s +:+ quote)%string in
  ("spec.distribution.name " +:+ quoted name +:+ " is deprecated, use " +:+ quoted replacement +:+
   " instead")%string.

(** ** Checks *)

Definition validateDistributionName (name : string) (knownNames : list string) : list fieldError :=
  match knownNames with
  | [] => []
  | _ =>
      if existsb (λ n, bool_decide (n = name)) knownNames then []
      else [Invalid "spec.distribution.name" name
              "unknown distribution %q; available distributions: %s" (name :: sort_strings knownNames)]
  end.

Definition providerIDStep (acc : gmap string bool * list fieldError) (id : string)
    : gmap string bool * list fieldError :=
  let '(seen, errs) := acc in
  (<[id := true]> seen,
   if default false (seen !! id)
   then errs ++ [Invalid "spec.providers" id "duplicate provider ID %q" [id]] else errs).

Definition collectAllProviderIDs (spec : option ProvidersSpec) : gmap string bool * list fieldError :=
  match spec with
  | None => (∅, [])
  | Some _ => foldl providerIDStep (∅, []) (ProvidersSpec_IDs spec)
  end.

Definition validateProviderIDs (spec : option ProvidersSpec) : list fieldError :=
  (collectAllProviderIDs spec).2.

Definition sortedMapKeys {MR : MapRange} (m : gmap string bool) : list string :=
  sort_strings (range m).*1.

Definition validateProviderReferences {MR : MapRange} (resources : ResourcesSpec)
    (providers : option ProvidersSpec) : list fieldError :=
  let providerIDs := (collectAllProviderIDs providers).1 in
  concat (imap (λ i mc,
    if negb (bool_decide (Model_Provider mc = "")) &&
       negb (default false (providerIDs !! Model_Provider mc))
    then [Invalid (Index "spec.resources.models" i +:+ ".provider")%string (Model_Provider mc)
            "references unknown provider ID; available: %v" (sortedMapKeys providerIDs)]
    else []) (Resources_Models resources)).

Definition validateAdoptionAnnotations (r : OGXServer) : list fieldError :=
  flat_map (λ key,
    match Meta_Annotations (Server_Meta r) !! key with
    | Some val =>
        if bool_decide (val = Server_Name r) then
          [Invalid ("metadata.annotations[" +:+ key +:+ "]")%string val
             "adoption annotation value must not equal the CR name; same-name adoption causes resource conflicts" []]
        else []
    | None => []
    end) [AdoptStorageAnnotation; AdoptNetworkingAnnotation].

Definition isAllowedVolumeType (vol : Volume) : bool :=
  let vs := Vol_Source vol in
  bool_decide (is_Some (Vol_ConfigMap vs)) || bool_decide (is_Some (Vol_Secret vs)) ||
  bool_decide (is_Some (Vol_EmptyDir vs)) || bool_decide (is_Some (Vol_PersistentVolumeClaim vs)) ||
  bool_decide (is_Some (Vol_Projected vs)) || bool_decide (is_Some (Vol_DownwardAPI vs)).

(** [None] is the nil old object of a creation. *)
Definition overrideVolumesByName (r : option OGXServer) : gmap string Volume :=
  match r with
  | None => ∅
  | Some r => foldl (λ vols vol, <[Vol_Name vol := vol]> vols) ∅ (overrideVolumes r)
  end.

Definition validateExternalAccess (r : OGXServer) : list fieldError :=
  match externalAccessOf r with
  | None => []
  | Some ea =>
      if negb (EA_Enabled ea) then []
      else
        (if bool_decide (EA_Hostname ea = "") then
           [Required "spec.network.externalAccess.hostname"
              "hostname is required when external access is enabled for TLS SNI routing"]
         else []) ++
        (if match EA_TLS ea with None => true | Some tls => bool_decide (TLS_SecretName tls = "") end
         then [Required "spec.network.externalAccess.tls.secretName"
                 "TLS secretName is required when external access is enabled to prevent plain-HTTP exposure"]
         else [])
  end.

Section webhook.
Context {MR : MapRange}.
Context (DeepEqualVolume : Volume → Volume → bool).
Context (DeepEqualExternalAccess :
  option ExternalAccessConfig → option ExternalAccessConfig → bool).

Definition validateChangedVolumeTypes (old : option OGXServer) (r : OGXServer) : list fieldError :=
  let unchanged := overrideVolumesByName old in
  concat (imap (λ i vol,
    if match unchanged !! Vol_Name vol with Some prev => DeepEqualVolume prev vol | None => false end
    then []
    else if negb (isAllowedVolumeType vol) then
      [Forbidden (Index "spec.workload.overrides.volumes" i)
         "volume %q uses a disallowed volume source type; allowed types: configMap, secret, emptyDir, persistentVolumeClaim, projected, downwardAPI"
         [Vol_Name vol]]
    else []) (overrideVolumes r)).

Definition validateVolumeTypes (r : OGXServer) : list fieldError := validateChangedVolumeTypes None r.

(** [OGXServerValidator] carries the known distribution names. *)
Context (KnownDistributionNames : list string).

Definition collectErrors (old : option OGXServer) (r : OGXServer) : list fieldError :=
  let s := Server_Spec r in
  (if negb (bool_decide (Dist_Name (Spec_Distribution s) = ""))
   then validateDistributionName (Dist_Name (Spec_Distribution s)) KnownDistributionNames else []) ++
  (match Spec_Providers s with Some _ => validateProviderIDs (Spec_Providers s) | None => [] end) ++
  (match Spec_Resources s, Spec_Providers s with
   | Some resources, Some _ => validateProviderReferences resources (Spec_Providers s)
   | _, _ => []
   end) ++
  validateAdoptionAnnotations r ++
  validateChangedVolumeTypes old r ++
  (if match old with
      | None => true
      | Some old => negb (DeepEqualExternalAccess (externalAccessOf old) (externalAccessOf r))
      end
   then validateExternalAccess r else []).

Definition collectValidationErrors (r : OGXServer) : list fieldError := collectErrors None r.

(** Warnings, and the aggregated errors: none is admission. *)
Definition validateAgainst (old : option OGXServer) (r : OGXServer) : list string * list fieldError :=
  let warnings := collectValidationWarnings r in
  match collectErrors old r with
  | [] =>
      (match DeprecatedDistributions !! Dist_Name (Spec_Distribution (Server_Spec r)) with
       | Some replacement =>
           warnings ++ [deprecationWarning (Dist_Name (Spec_Distribution (Server_Spec r))) replacement]
       | None => warnings
       end, [])
  | allErrs => (warnings, allErrs)
  end.

Definition validate (r : OGXServer) : list string * list fieldError := validateAgainst None r.

Definition ValidateCreate (r : OGXServer) : list string * list fieldError := validate r.

Definition ValidateUpdate (oldObj newObj : OGXServer) : list string * list fieldError :=
  let '(warnings, err) := validateAgainst (Some oldObj) newObj in
  (if isMigrationRequested oldObj && negb (isMigrationRequested newObj)
   then warnings ++ [rollbackWarning] else warnings, err).

Definition ValidateDelete (_ : OGXServer) : list string * list fieldError := ([], []).

End webhook.
