(* ===== verification/WebhookFacts.v ===== *)
(** * What admission guarantees

    Theorems about [Webhook.v]: which objects are admitted, and what an admitted
    object guarantees of the configuration generated from it. *)

From S2P Require Import Prelude Value ApiProviders ApiServer Secret Provider ProviderFacts Merge GeneratorFacts Webhook.

(** ** Provider IDs *)

Lemma providerIDs_fold l seen errs :
  let '(seen', errs') := foldl providerIDStep (seen, errs) l in
  (∀ id, default false (seen' !! id) = bool_decide (id ∈ l) || default false (seen !! id)) ∧
  (errs' = [] ↔ errs = [] ∧ NoDup l ∧ ∀ id, id ∈ l → default false (seen !! id) = false).
Proof.
  revert seen errs. induction l as [|x l IH]; intros seen errs; cbn [foldl].
  { split; [intros id; by rewrite bool_decide_false by apply not_elem_of_nil|].
    split; [intros ->; split_and!; [done|by apply NoDup_nil|]|by intros (-> & _)].
    intros id Hid. by apply not_elem_of_nil in Hid. }
  unfold providerIDStep at 2. specialize (IH (<[x := true]> seen)
    (if default false (seen !! x)
     then errs ++ [Invalid "spec.providers" x "duplicate provider ID %q" [x]] else errs)).
  destruct (foldl providerIDStep _ l) as [seen' errs']. destruct IH as [IH1 IH2]. split.
  - intros id. rewrite IH1. rewrite (bool_decide_ext (id ∈ x :: l) (id = x ∨ id ∈ l)) by apply elem_of_cons.
    rewrite bool_decide_or. destruct (decide (id = x)) as [->|Hne].
    + rewrite lookup_insert_eq, (bool_decide_true (x = x)) by done. cbn. by rewrite orb_true_r.
    + rewrite lookup_insert_ne by done. by rewrite (bool_decide_false (id = x)) by done.
  - rewrite IH2, NoDup_cons. destruct (default false (seen !! x)) eqn:Hx.
    + split; [intros [E _]; by destruct errs|]. intros (_ & _ & H). specialize (H x). rewrite Hx in H.
      discriminate H. left.
    + split.
      * intros (-> & Hnd & H). split_and!; [done| |done|].
        -- intros Hin. specialize (H x Hin). by rewrite lookup_insert_eq in H.
        -- intros id [->|Hid]%elem_of_cons; [done|]. specialize (H id Hid).
           destruct (decide (x = id)) as [->|Hne]; [by rewrite lookup_insert_eq in H|].
           by rewrite lookup_insert_ne in H.
      * intros (-> & [Hn Hnd] & H). split_and!; [done..|]. intros id Hid.
        rewrite lookup_insert_ne by (by intros <-). apply H. by right.
Qed.

Lemma collectAllProviderIDs_lookup ps id :
  default false ((collectAllProviderIDs ps).1 !! id) = bool_decide (id ∈ ProvidersSpec_IDs ps).
Proof.
  unfold collectAllProviderIDs. destruct ps as [p|].
  - pose proof (providerIDs_fold (ProvidersSpec_IDs (Some p)) ∅ []) as H.
    destruct (foldl _ _ _). destruct H as [H _]. cbn [fst]. rewrite H, lookup_empty. apply orb_false_r.
  - cbn. by rewrite lookup_empty.
Qed.

Lemma validateProviderIDs_nil ps : validateProviderIDs ps = [] ↔ NoDup (ProvidersSpec_IDs ps).
Proof.
  unfold validateProviderIDs, collectAllProviderIDs. destruct ps as [p|].
  - pose proof (providerIDs_fold (ProvidersSpec_IDs (Some p)) ∅ []) as H.
    destruct (foldl _ _ _). destruct H as [_ H]. cbn [snd]. rewrite H.
    split; [by intros (_ & ? & _)|]. intros Hnd. split_and!; [done..|].
    intros id _. by rewrite lookup_empty.
  - cbn. split; [|done]. intros _. apply NoDup_nil_2.
Qed.

(** ** The other checks *)

Lemma concat_imap_nil {A B} (f : nat → A → list B) l :
  concat (imap f l) = [] ↔ ∀ i x, l !! i = Some x → f i x = [].
Proof.
  revert f. induction l as [|x l IH]; intros f; cbn; [done|].
  rewrite app_nil, IH. split.
  - intros [H1 H2] [|i] y; cbn; [by intros [= <-]|apply H2].
  - intros H. split; [apply (H 0); done|]. intros i y Hy. by apply (H (S i)).
Qed.

Lemma validateProviderReferences_nil {MR : MapRange} resources ps :
  validateProviderReferences resources ps = [] ↔
  ∀ m, m ∈ Resources_Models resources → Model_Provider m ≠ "" →
       Model_Provider m ∈ ProvidersSpec_IDs ps.
Proof.
  unfold validateProviderReferences. rewrite concat_imap_nil.
  setoid_rewrite collectAllProviderIDs_lookup. split.
  - intros H m [i Hi]%list_elem_of_lookup Hne. specialize (H i m Hi). cbn in H.
    rewrite (bool_decide_false (Model_Provider m = "")) in H by done. cbn in H.
    by case_bool_decide.
  - intros H i m Hi%list_elem_of_lookup_2. case_bool_decide as He; [done|].
    by rewrite bool_decide_true by by apply H.
Qed.

Lemma validateAdoptionAnnotations_nil r :
  validateAdoptionAnnotations r = [] ↔
  Meta_Annotations (Server_Meta r) !! AdoptStorageAnnotation ≠ Some (Server_Name r) ∧
  Meta_Annotations (Server_Meta r) !! AdoptNetworkingAnnotation ≠ Some (Server_Name r).
Proof.
  unfold validateAdoptionAnnotations. cbn [flat_map]. rewrite app_nil_r, app_nil.
  assert (H : ∀ key, match Meta_Annotations (Server_Meta r) !! key with
    | Some val => if bool_decide (val = Server_Name r) then
        [Invalid ("metadata.annotations[" +:+ key +:+ "]")%string val
           "adoption annotation value must not equal the CR name; same-name adoption causes resource conflicts" []]
        else []
    | None => []
    end = [] ↔ Meta_Annotations (Server_Meta r) !! key ≠ Some (Server_Name r)).
  { intros key. destruct (_ !! key) as [v|]; [|done]. case_bool_decide; split; congruence. }
  by rewrite !H.
Qed.

Lemma validateDistributionName_nil name known :
  validateDistributionName name known = [] ↔ known = [] ∨ name ∈ known.
Proof.
  unfold validateDistributionName. destruct known as [|k known]; [naive_solver|].
  destruct (existsb _ _) eqn:E.
  - apply existsb_exists in E as (n & Hn%list_elem_of_In & ->%bool_decide_eq_true). naive_solver.
  - split; [done|]. intros [|Hin]; [done|]. apply not_true_iff_false in E. destruct E.
    apply existsb_exists. exists name. split; [by apply list_elem_of_In|by rewrite bool_decide_eq_true].
Qed.

(** External access, when enabled, names a host and a TLS Secret. *)
Definition externalAccessOk (r : OGXServer) : Prop :=
  ∀ ea, externalAccessOf r = Some ea → EA_Enabled ea = true →
    EA_Hostname ea ≠ "" ∧ ∃ tls, EA_TLS ea = Some tls ∧ TLS_SecretName tls ≠ "".

Lemma validateExternalAccess_nil r : validateExternalAccess r = [] ↔ externalAccessOk r.
Proof.
  unfold validateExternalAccess, externalAccessOk. destruct (externalAccessOf r) as [ea|]; [|done].
  destruct (EA_Enabled ea) eqn:He; cbn [negb]; [|split; [|done]; intros _ ea' [= <-] H; congruence].
  rewrite app_nil. split.
  - intros [H1 H2] ea' [= <-] _. case_bool_decide as Hh; [done|]. split; [done|].
    destruct (EA_TLS ea) as [tls|]; [|done]. case_bool_decide; [done|]. eauto.
  - intros H. destruct (H ea eq_refl He) as (Hh & tls & Ht & Hs).
    rewrite bool_decide_false, Ht, bool_decide_false by done. done.
Qed.

(** A volume of an allowed kind. *)
Definition allowedVolume (v : Volume) : Prop :=
  let vs := Vol_Source v in
  is_Some (Vol_ConfigMap vs) ∨ is_Some (Vol_Secret vs) ∨ is_Some (Vol_EmptyDir vs) ∨
  is_Some (Vol_PersistentVolumeClaim vs) ∨ is_Some (Vol_Projected vs) ∨ is_Some (Vol_DownwardAPI vs).

Lemma isAllowedVolumeType_true v : isAllowedVolumeType v = true ↔ allowedVolume v.
Proof.
  unfold isAllowedVolumeType, allowedVolume. rewrite !orb_true_iff, !bool_decide_eq_true. tauto.
Qed.

(** The map of the old volumes keeps the last volume of each name. *)
Lemma overrideVolumesByName_lookup r n :
  overrideVolumesByName (Some r) !! n = last (filter (λ v, Vol_Name v = n) (overrideVolumes r)).
Proof.
  cbn. induction (overrideVolumes r) as [|v l IH] using rev_ind; [done|].
  rewrite foldl_app, filter_app. cbn [foldl]. destruct (decide (Vol_Name v = n)) as [Hn|Hn].
  - rewrite filter_cons_True, filter_nil, last_snoc by done. subst. apply lookup_insert_eq.
  - rewrite filter_cons_False, filter_nil, app_nil_r by done. by rewrite lookup_insert_ne.
Qed.

(** The last volume of a name is the one with that name, when names are unique. *)
Lemma last_named (l : list Volume) v :
  NoDup (Vol_Name <$> l) → v ∈ l → last (filter (λ u, Vol_Name u = Vol_Name v) l) = Some v.
Proof.
  intros Hnd Hin.
  assert (Hf : ∀ u, u ∈ filter (λ u, Vol_Name u = Vol_Name v) l → u = v).
  { intros u [Hu Hul]%list_elem_of_filter. by eapply NoDup_key_inj. }
  destruct (last _) as [u|] eqn:E.
  - f_equal. apply Hf. by apply last_Some_elem_of.
  - apply last_None in E. assert (H : v ∈ filter (λ u, Vol_Name u = Vol_Name v) l)
      by by apply list_elem_of_filter.
    rewrite E in H. by apply not_elem_of_nil in H.
Qed.

(** The other warnings are not the one about a rollback. *)
Lemma no_rollback {MR : MapRange} DV DE known old r :
  rollbackWarning ∉ (validateAgainst DV DE known old r).1.
Proof.
  assert (H : rollbackWarning ∉ collectValidationWarnings r).
  { unfold collectValidationWarnings.
    destruct (IsPraxisModeEnabled _), (isExternalAccessRequested r), (isNetworkPolicyDisabled r);
      apply (bool_decide_unpack _); vm_compute; exact I. }
  unfold validateAgainst. destruct (collectErrors _ _ _ _ _); [|done]. cbn [fst].
  destruct (DeprecatedDistributions !! _) as [replacement|]; [|done].
  intros [Hin|Hin]%elem_of_app; [done|]. apply list_elem_of_singleton in Hin.
  discriminate Hin.
Qed.

Section admission.
Context {MR : MapRange}.
Context (DeepEqualVolume : Volume → Volume → bool).
Context (DeepEqualExternalAccess :
  option ExternalAccessConfig → option ExternalAccessConfig → bool).
Context (known : list string).

(** [v] is unchanged since the old object. *)
Definition unchangedVolume (old : option OGXServer) (v : Volume) : Prop :=
  ∃ o prev, old = Some o ∧
    last (filter (λ u, Vol_Name u = Vol_Name v) (overrideVolumes o)) = Some prev ∧
    DeepEqualVolume prev v = true.

Lemma validateChangedVolumeTypes_nil old r :
  validateChangedVolumeTypes DeepEqualVolume old r = [] ↔
  ∀ v, v ∈ overrideVolumes r → allowedVolume v ∨ unchangedVolume old v.
Proof.
  unfold validateChangedVolumeTypes. rewrite concat_imap_nil.
  assert (H : ∀ v, match overrideVolumesByName old !! Vol_Name v with
                   | Some prev => DeepEqualVolume prev v | None => false end = true ↔
                   unchangedVolume old v).
  { intros v. unfold unchangedVolume. destruct old as [o|].
    - rewrite overrideVolumesByName_lookup. split.
      + intros Hd. exists o. destruct (last _) as [prev|] eqn:E; [by exists prev|done].
      + by intros (? & ? & [= <-] & -> & ?).
    - cbn. rewrite lookup_empty. split; [done|]. by intros (? & ? & ? & _). }
  split.
  - intros Hall v [i Hi]%list_elem_of_lookup. specialize (Hall i v Hi). cbn in Hall.
    destruct (match _ !! _ with Some _ => _ | None => _ end) eqn:E; [right; by apply H|].
    destruct (isAllowedVolumeType v) eqn:Ha; [left; by apply isAllowedVolumeType_true|done].
  - intros Hall i v Hi. destruct (Hall v) as [Ha|Hu]; [by eapply list_elem_of_lookup_2| |].
    + apply isAllowedVolumeType_true in Ha. rewrite Ha. by case_match.
    + apply H in Hu. by rewrite Hu.
Qed.

(** What admission requires of every object, whatever it replaces. *)
Definition baseChecks (r : OGXServer) : Prop :=
  let s := Server_Spec r in
  let name := Dist_Name (Spec_Distribution s) in
  (name = "" ∨ known = [] ∨ name ∈ known) ∧
  (∀ p, Spec_Providers s = Some p → NoDup (ProvidersSpec_IDs (Some p))) ∧
  (∀ p resources m, Spec_Providers s = Some p → Spec_Resources s = Some resources →
     m ∈ Resources_Models resources → Model_Provider m ≠ "" →
     Model_Provider m ∈ ProvidersSpec_IDs (Some p)) ∧
  (∀ key, key ∈ [AdoptStorageAnnotation; AdoptNetworkingAnnotation] →
     Meta_Annotations (Server_Meta r) !! key ≠ Some (Server_Name r)).

Lemma collectErrors_nil old r :
  collectErrors DeepEqualVolume DeepEqualExternalAccess known old r = [] ↔
  baseChecks r ∧
  (∀ v, v ∈ overrideVolumes r → allowedVolume v ∨ unchangedVolume old v) ∧
  (externalAccessOk r ∨ ∃ o, old = Some o ∧
     DeepEqualExternalAccess (externalAccessOf o) (externalAccessOf r) = true).
Proof.
  unfold collectErrors, baseChecks. cbv zeta. rewrite !app_nil.
  rewrite validateAdoptionAnnotations_nil, validateChangedVolumeTypes_nil.
  assert (H1 : (if negb (bool_decide (Dist_Name (Spec_Distribution (Server_Spec r)) = ""))
      then validateDistributionName (Dist_Name (Spec_Distribution (Server_Spec r))) known else []) = []
      ↔ Dist_Name (Spec_Distribution (Server_Spec r)) = "" ∨ known = [] ∨
        Dist_Name (Spec_Distribution (Server_Spec r)) ∈ known).
  { case_bool_decide; cbn [negb]; [by split; [left|]|]. rewrite validateDistributionName_nil. tauto. }
  assert (H2 : (if match old with None => true | Some o =>
        negb (DeepEqualExternalAccess (externalAccessOf o) (externalAccessOf r)) end
      then validateExternalAccess r else []) = [] ↔
      externalAccessOk r ∨ ∃ o, old = Some o ∧
        DeepEqualExternalAccess (externalAccessOf o) (externalAccessOf r) = true).
  { destruct old as [o|].
    - destruct (DeepEqualExternalAccess _ _) eqn:E; cbn [negb].
      + split; [|done]. intros _. right. by exists o.
      + rewrite validateExternalAccess_nil. split; [by left|]. intros [?|(o' & [= <-] & ?)]; [done|congruence].
    - rewrite validateExternalAccess_nil. split; [by left|]. by intros [?|(o' & ? & _)]. }
  assert (H3 : (∀ key, key ∈ [AdoptStorageAnnotation; AdoptNetworkingAnnotation] →
      Meta_Annotations (Server_Meta r) !! key ≠ Some (Server_Name r)) ↔
      Meta_Annotations (Server_Meta r) !! AdoptStorageAnnotation ≠ Some (Server_Name r) ∧
      Meta_Annotations (Server_Meta r) !! AdoptNetworkingAnnotation ≠ Some (Server_Name r)).
  { split; [intros H; split; apply H; repeat constructor|].
    intros [? ?] key [->|[->|Hk]%elem_of_cons]%elem_of_cons; [done..|by apply not_elem_of_nil in Hk]. }
  rewrite H1, H2, H3.
  destruct (Spec_Providers (Server_Spec r)) as [p|].
  - rewrite validateProviderIDs_nil. destruct (Spec_Resources (Server_Spec r)) as [resources|].
    + rewrite validateProviderReferences_nil. split.
      * intros (? & ? & ? & ? & ? & ?). split_and!; try tauto; [by intros ? [= <-]|].
        intros ? ? m [= <-] [= <-]. auto.
      * intros [(? & Hids & Hm & ?) [? ?]]. split_and!; try tauto; [by apply Hids|].
        intros m Hin Hne. by eapply Hm.
    + split; [|intros [(? & Hids & ? & ?) [? ?]]; split_and!; try tauto; by apply Hids].
      intros (? & ? & _ & ? & ? & ?). split_and!; try tauto; [by intros ? [= <-]|done].
  - destruct (Spec_Resources (Server_Spec r));
      (split; [intros (? & _ & _ & ? & ? & ?)|intros [(? & _ & _ & ?) [? ?]]]); split_and!; try tauto; done.
Qed.

(** C37. Admission of an update, and of a creation ([old = None]): the errors are
    empty exactly when the distribution is known, the provider IDs are unique,
    the models refer to them, no adoption annotation names the object itself,
    and each override volume and the external access are either valid or
    unchanged since the old object. *)
Theorem admission_spec old r :
  collectErrors DeepEqualVolume DeepEqualExternalAccess known old r = [] ↔
  (let name := Dist_Name (Spec_Distribution (Server_Spec r)) in
   name = "" ∨ known = [] ∨ name ∈ known) ∧
  (∀ p, Spec_Providers (Server_Spec r) = Some p → NoDup (ProvidersSpec_IDs (Some p))) ∧
  (∀ p resources m, Spec_Providers (Server_Spec r) = Some p →
     Spec_Resources (Server_Spec r) = Some resources →
     m ∈ Resources_Models resources → Model_Provider m ≠ "" →
     Model_Provider m ∈ ProvidersSpec_IDs (Some p)) ∧
  (∀ key, key ∈ [AdoptStorageAnnotation; AdoptNetworkingAnnotation] →
     Meta_Annotations (Server_Meta r) !! key ≠ Some (Server_Name r)) ∧
  (∀ v, v ∈ overrideVolumes r → allowedVolume v ∨ unchangedVolume old v) ∧
  (externalAccessOk r ∨ ∃ o, old = Some o ∧
     DeepEqualExternalAccess (externalAccessOf o) (externalAccessOf r) = true).
Proof. rewrite collectErrors_nil. unfold baseChecks. cbv zeta. tauto. Qed.

(** An object that was admitted before a check existed stays editable: an
    update that keeps the override volumes (with distinct names) and the
    external access is judged by the other checks alone. *)
Theorem update_ratchets old r :
  (∀ v, DeepEqualVolume v v = true) → (∀ ea, DeepEqualExternalAccess ea ea = true) →
  NoDup (Vol_Name <$> overrideVolumes r) →
  overrideVolumes r = overrideVolumes old → externalAccessOf r = externalAccessOf old →
  (ValidateUpdate DeepEqualVolume DeepEqualExternalAccess known old r).2 = [] ↔ baseChecks r.
Proof.
  intros Hv Hea Hnd Hvol Hacc.
  assert (E : (ValidateUpdate DeepEqualVolume DeepEqualExternalAccess known old r).2 =
              collectErrors DeepEqualVolume DeepEqualExternalAccess known (Some old) r).
  { unfold ValidateUpdate, validateAgainst. by destruct (collectErrors _ _ _ _ _). }
  rewrite E, collectErrors_nil. split; [tauto|]. intros Hb. split_and!; [done| |].
  - intros v Hin. right. exists old, v. split_and!; [done| |done]. rewrite <- Hvol.
    by apply last_named.
  - right. exists old. by rewrite Hacc.
Qed.

(** Warnings never reject: the errors of the three entry points are those of
    [collectErrors], none for a deletion.  The warning about a rollback is
    given exactly when an update ends a requested migration. *)
Theorem validation_entry_points old r :
  let create := ValidateCreate DeepEqualVolume DeepEqualExternalAccess known r in
  let update := ValidateUpdate DeepEqualVolume DeepEqualExternalAccess known old r in
  create.2 = collectErrors DeepEqualVolume DeepEqualExternalAccess known None r ∧
  update.2 = collectErrors DeepEqualVolume DeepEqualExternalAccess known (Some old) r ∧
  ValidateDelete r = ([], []) ∧
  (rollbackWarning ∈ update.1 ↔ isMigrationRequested old = true ∧ isMigrationRequested r = false) ∧
  (rollbackWarning ∉ create.1).
Proof.
  cbv zeta. unfold ValidateCreate, validate, ValidateUpdate.
  pose proof (no_rollback DeepEqualVolume DeepEqualExternalAccess known None r) as Hc. pose proof (no_rollback DeepEqualVolume DeepEqualExternalAccess known (Some old) r) as Hu.
  unfold validateAgainst in *.
  split; [by destruct (collectErrors _ _ _ None r)|].
  split; [by destruct (collectErrors _ _ _ (Some old) r)|]. split; [done|]. split; [|exact Hc].
  destruct (collectErrors _ _ _ (Some old) r) as [|e es]; cbn [fst] in *;
    destruct (isMigrationRequested old), (isMigrationRequested r); cbn [andb negb];
    try (split; [intros H; by apply Hu in H|by intros []]);
    (split; [done|intros _; apply elem_of_app; right; left]).
Qed.

(** The warnings: none outside Praxis mode; in it, the support level is always
    announced, and the two settings that weaken the lock-down are reported
    exactly when they are set. *)
Theorem collectValidationWarnings_spec r :
  (praxisWarning ∈ collectValidationWarnings r ↔ IsPraxisModeEnabled (Server_Spec r) = true) ∧
  (externalAccessWarning ∈ collectValidationWarnings r ↔
     IsPraxisModeEnabled (Server_Spec r) = true ∧ isExternalAccessRequested r = true) ∧
  (networkPolicyWarning ∈ collectValidationWarnings r ↔
     IsPraxisModeEnabled (Server_Spec r) = true ∧ isNetworkPolicyDisabled r = true) ∧
  (IsPraxisModeEnabled (Server_Spec r) = false → collectValidationWarnings r = []).
Proof.
  unfold collectValidationWarnings.
  destruct (IsPraxisModeEnabled _), (isExternalAccessRequested r), (isNetworkPolicyDisabled r);
    (refine (conj _ (conj _ (conj _ _)));
     apply (bool_decide_unpack _); vm_compute; exact I).
Qed.

(** C11. What admission guarantees of the generated configuration: when an admitted
    spec expands, the user's providers have pairwise distinct IDs, and every
    model of the spec is assigned a provider that the merged configuration
    declares. *)
Theorem admitted_config_consistent json_object r p res base resources models :
  (ValidateCreate DeepEqualVolume DeepEqualExternalAccess known r).2 = [] →
  Spec_Providers (Server_Spec r) = Some p → Spec_Resources (Server_Spec r) = Some resources →
  ExpandProviders json_object (Some p) = Ok (Some res) →
  ExpandResources (Some resources) (MergeProviders (Base_Providers base) (Some res)) = Ok models →
  NoDup (flat_map (λ api, ProviderID <$> providersOf res api) apiTypes) ∧
  ∀ cm, cm ∈ models → ∃ api cp,
    cp ∈ providersFor (MergeProviders (Base_Providers base) (Some res)) api ∧
    ProviderID cp = CM_ProviderID cm.
Proof.
  intros Hok Hp Hr Hexp Hmodels.
  assert (Hc : collectErrors DeepEqualVolume DeepEqualExternalAccess known None r = []).
  { unfold ValidateCreate, validate, validateAgainst in Hok. by destruct (collectErrors _ _ _ _ _). }
  apply collectErrors_nil in Hc as [(_ & Hids & Hrefs & _) _].
  pose proof (expanded_provider_ids json_object p res Hexp) as Hflat.
  split; [rewrite Hflat; by apply Hids|]. intros cm Hcm. cbn in Hmodels.
  apply mapM_result_Forall2 in Hmodels.
  apply list_elem_of_lookup in Hcm as [i Hi].
  destruct (Forall2_lookup_r _ _ _ i cm Hmodels Hi) as (m & Hm%list_elem_of_lookup_2 & He).
  unfold expandModel in He. apply bind_Ok in He as (id & Hid & He). injection He as <-. cbn.
  apply assignProvider_spec in Hid as [[Hne ->]|[_ [(cp & Hcp & <-) _]]]; [|by exists "inference", cp].
  pose proof (Hrefs p resources m Hp Hr Hm Hne) as Hin. rewrite <- Hflat in Hin.
  apply list_elem_of_In, in_flat_map in Hin as (api & _ & Hin%list_elem_of_In).
  apply list_elem_of_fmap in Hin as (cp & -> & Hcp). exists api, cp. split; [|done].
  by apply elem_of_block.
Qed.
End admission.
