(* ===== verification/Fmt.v ===== *)
(** * Formatting

    [fmt.Sprintf] of the Go standard library for the verbs that the source
    uses, [%s %v %d %q %w %%], with arguments that are already text, and the
    text of an error. *)

From Stdlib Require Import Ascii ZArith.
From stdpp Require Import pretty.
From S2P Require Import Prelude Hash.

(** ** [strconv.Quote]

    Bytes outside ASCII are kept: the source only quotes names of Kubernetes
    objects, which are ASCII. *)

Definition escapeLetter (n : nat) : option ascii :=
  match n with
  | 7 => Some "a"%char | 8 => Some "b"%char | 9 => Some "t"%char | 10 => Some "n"%char
  | 11 => Some "v"%char | 12 => Some "f"%char | 13 => Some "r"%char
  | _ => None
  end%nat.

Definition quoteMark : ascii := ascii_of_nat 34.
Definition backslash : ascii := ascii_of_nat 92.

Definition quoteChar (c : ascii) : list ascii :=
  let n := nat_of_ascii c in
  if Ascii.eqb c quoteMark || Ascii.eqb c backslash then [backslash; c]
  else
    match escapeLetter n with
    | Some l => [backslash; l]
    | None =>
        if (n <? 32)%nat || (n =? 127)%nat
        then [backslash; "x"%char; hexDigit (Z.of_nat n / 16); hexDigit (Z.of_nat n mod 16)]
        else [c]
    end.

Definition Quote (s : string) : string :=
  of_chars (quoteMark :: flat_map quoteChar (chars s) ++ [quoteMark]).

(** ** [fmt.Sprintf] *)

Definition missing (verb : ascii) : list ascii := chars "%!" ++ verb :: chars "(MISSING)".

(** One verb applied to its argument. *)
Definition applyVerb (verb : ascii) (arg : string) : list ascii :=
  if Ascii.eqb verb "q" then chars (Quote arg) else chars arg.

(** The second equation is a [%] that ends the format. *)
Fixpoint sprintf (format : list ascii) (args : list string) : list ascii :=
  match format with
  | [] => []
  | "%"%char :: [] => chars "%!(NOVERB)"
  | "%"%char :: verb :: format =>
      if Ascii.eqb verb "%" then "%"%char :: sprintf format args
      else
        match args with
        | [] => missing verb ++ sprintf format []
        | arg :: args => applyVerb verb arg ++ sprintf format args
        end
  | c :: format => c :: sprintf format args
  end.

Definition Sprintf (format : string) (args : list string) : string :=
  of_chars (sprintf (chars format) args).
#[global] Arguments Sprintf _ _ : simpl never.

(** [strings.Join]; with a space, also [%v] of a list of strings. *)
Fixpoint joinWith (sep : string) (l : list string) : string :=
  match l with [] => "" | [x] => x | x :: l => (x +:+ sep +:+ joinWith sep l)%string end.

(** [time.Duration.String] for a whole, non-negative number of seconds. *)
Definition durationText (n : Z) : string :=
  let seconds := (pretty (n mod 60)%Z +:+ "s")%string in
  let minutes := (pretty (n / 60 mod 60)%Z +:+ "m" +:+ seconds)%string in
  if (n <? 60)%Z then seconds
  else if (n <? 3600)%Z then minutes
  else (pretty (n / 3600)%Z +:+ "h" +:+ minutes)%string.

(** [err.Error()]: a wrapped error is the last argument of its format. *)
Fixpoint Error (e : error) : string :=
  match e with
  | Errorf format [] => format
  | Errorf format args => Sprintf format args
  | Wrapf format args cause => Sprintf format (args ++ [Error cause])
  | requeueError after => Sprintf "requeue after %s" [durationText after]
  | terminalError message => message
  end.

(** [errors.As] for the two error types of the controllers: the first error of
    the chain that has the type. *)
Fixpoint asRequeueError (e : error) : option Z :=
  match e with
  | requeueError after => Some after
  | Wrapf _ _ cause => asRequeueError cause
  | _ => None
  end.

Fixpoint asTerminalError (e : error) : option string :=
  match e with
  | terminalError message => Some message
  | Wrapf _ _ cause => asTerminalError cause
  | _ => None
  end.

Example Sprintf_example :
  Sprintf "%d pod(s) in %q, 100%%: %v" ["2"; "ns"; "ok"] =
  of_chars (chars "2 pod(s) in " ++ quoteMark :: chars "ns" ++ quoteMark :: chars ", 100%: ok").
Proof. reflexivity. Qed.

Example Error_example :
  Error (Wrapf "failed to get %s: %w" ["Ingress"] (New "100%")) = "failed to get Ingress: 100%".
Proof. reflexivity. Qed.

(** ** [time.Format(time.RFC3339)] of a UTC time, in seconds since 1970

    The day number is turned into a date of the proleptic Gregorian calendar,
    counting years from March so that the leap day is the last of its year. *)

Definition civil (days : Z) : Z * Z * Z :=
  let z := (days + 719468)%Z in
  let era := (z / 146097)%Z in
  let doe := (z mod 146097)%Z in
  let yoe := ((doe - doe / 1460 + doe / 36524 - doe / 146096) / 365)%Z in
  let doy := (doe - (365 * yoe + yoe / 4 - yoe / 100))%Z in
  let mp := ((5 * doy + 2) / 153)%Z in
  let day := (doy - (153 * mp + 2) / 5 + 1)%Z in
  let month := (if mp <? 10 then mp + 3 else mp - 9)%Z in
  let year := (yoe + era * 400 + (if month <=? 2 then 1 else 0))%Z in
  (year, month, day).

(** A number with at least [width] digits. *)
Definition padded (width : nat) (n : Z) : string :=
  let s := pretty n in
  (of_chars (repeat "0"%char (width - String.length s)) +:+ s)%string.

Definition formatRFC3339 (secs : Z) : string :=
  let '(year, month, day) := civil (secs / 86400) in
  let rest := (secs mod 86400)%Z in
  (padded 4 year +:+ "-" +:+ padded 2 month +:+ "-" +:+ padded 2 day +:+ "T" +:+
   padded 2 (rest / 3600) +:+ ":" +:+ padded 2 (rest / 60 mod 60) +:+ ":" +:+
   padded 2 (rest mod 60) +:+ "Z")%string.

#[global] Arguments formatRFC3339 _ : simpl never.

Example formatRFC3339_examples :
  formatRFC3339 0 = "1970-01-01T00:00:00Z" ∧
  formatRFC3339 951825599 = "2000-02-29T11:59:59Z" ∧
  formatRFC3339 1700000000 = "2023-11-14T22:13:20Z" ∧
  durationText 5 = "5s" ∧ durationText 3725 = "1h2m5s".
Proof. split_and!; vm_compute; reflexivity. Qed.
