(* ===== verification/OCI.v ===== *)
(** * Labels of an image from its registry

    The file [pkg/config/oci_fetcher.go], which is the label fetcher of
    [Resolver]: the manifest of the image names the digest of its configuration,
    whose labels are read.  HTTP, the parsing of references and the decoding of
    JSON are parameters. *)

From Stdlib Require Import ZArith.
From stdpp Require Import pretty.
From S2P Require Import Prelude Fmt Resolver.

#[local] Open Scope Z_scope.

Definition configBlobLimit : Z := Z.shiftl 1 20.

(** A reference, with its registry, repository and tag or digest. *)
Record imageReference := { RegistryStr : string; RepositoryStr : string; Identifier : string }.

(** A body is what arrives, and the error that ends it, if it does not end well. *)
Record httpBody := { Body_Bytes : string; Body_Error : option error }.
Record httpResponse := { StatusCode : Z; Body : httpBody }.

Definition StatusOK : Z := 200.
Definition manifestAccept : string :=
  "application/vnd.oci.image.manifest.v1+json, application/vnd.docker.distribution.manifest.v2+json".

(** [io.ReadAll(io.LimitReader(body, limit))] *)
Definition readLimited (limit : Z) (b : httpBody) : result string :=
  if limit <=? Z.of_nat (String.length (Body_Bytes b)) then Ok (String.substring 0 (Z.to_nat limit) (Body_Bytes b))
  else match Body_Error b with Some e => Err e | None => Ok (Body_Bytes b) end.

Section registry.
Context (ParseReference : string → result imageReference).
(** [http.NewRequestWithContext] and [ociHTTPClient.Do]: a URL and the header Accept. *)
Context (NewRequest : string → result unit) (Do : string → option string → result httpResponse).
(** The digest in a manifest, decoded from the stream, and the labels of a
    configuration: [None] are nil labels. *)
Context (json_digest : httpBody → result string) (json_labels : string → result (option (gmap string string))).

Fixpoint probe (registry : string) (schemes : list string) : result string :=
  match schemes with
  | [] => Err (New "failed to connect on https or http")
  | scheme :: schemes =>
      let base := (scheme +:+ "://" +:+ registry)%string in
      match NewRequest (base +:+ "/v2/") with
      | Err _ => probe registry schemes
      | Ok _ => match Do (base +:+ "/v2/") None with Err _ => probe registry schemes | Ok _ => Ok base end
      end
  end.

Definition detectRegistryScheme (registry : string) : result string := probe registry ["https"; "http"].

Definition fetchManifestConfigDigest (base repo identifier imageRef : string) : result string :=
  let manifestURL := (base +:+ "/v2/" +:+ repo +:+ "/manifests/" +:+ identifier)%string in
  _ ← wrap "failed to build manifest request: %w" [] (NewRequest manifestURL);
  resp ← wrap "failed to fetch manifest for %q: %w" [imageRef] (Do manifestURL (Some manifestAccept));
  if negb (StatusCode resp =? StatusOK) then
    Err (Errorf "failed to fetch manifest for %q: HTTP %d" [imageRef; pretty (StatusCode resp)])
  else wrap "failed to decode manifest for %q: %w" [imageRef] (json_digest (Body resp)).

Definition fetchConfigLabels (base repo digest imageRef : string) : result (gmap string string) :=
  let blobURL := (base +:+ "/v2/" +:+ repo +:+ "/blobs/" +:+ digest)%string in
  _ ← wrap "failed to build config blob request: %w" [] (NewRequest blobURL);
  resp ← wrap "failed to fetch config blob for %q: %w" [imageRef] (Do blobURL None);
  if negb (StatusCode resp =? StatusOK) then
    Err (Errorf "failed to fetch config blob for %q: HTTP %d" [imageRef; pretty (StatusCode resp)])
  else
    body ← wrap "failed to read config blob for %q: %w" [imageRef] (readLimited configBlobLimit (Body resp));
    labels ← wrap "failed to decode config for %q: %w" [imageRef] (json_labels body);
    Ok (default ∅ labels).

Definition fetchOCILabels (imageRef : string) : result (gmap string string) :=
  ref ← wrap "failed to parse image reference %q: %w" [imageRef] (ParseReference imageRef);
  base ← wrap "failed to reach registry %q: %w" [RegistryStr ref] (detectRegistryScheme (RegistryStr ref));
  configDigest ← fetchManifestConfigDigest base (RepositoryStr ref) (Identifier ref) imageRef;
  if bool_decide (configDigest = "") then Ok ∅
  else fetchConfigLabels base (RepositoryStr ref) configDigest imageRef.

Definition NewOCILabelFetcher : labelFetcher := fetchOCILabels.

(** ** Where the labels come from *)

(** The registry answers at this URL. *)
Definition reachable (url : string) : Prop := NewRequest url = Ok tt ∧ is_ok (Do url None) = true.

(** HTTPS is used whenever it answers, and HTTP only when it does not. *)
Lemma detectRegistryScheme_spec registry base :
  detectRegistryScheme registry = Ok base ↔
  base = ("https://" +:+ registry)%string ∧ reachable ("https://" +:+ registry +:+ "/v2/") ∨
  base = ("http://" +:+ registry)%string ∧ ¬ reachable ("https://" +:+ registry +:+ "/v2/") ∧
    reachable ("http://" +:+ registry +:+ "/v2/").
Proof.
  clear ParseReference json_digest json_labels. unfold detectRegistryScheme, reachable. cbn [probe].
  change (("https" +:+ "://" +:+ registry) +:+ "/v2/")%string with ("https://" +:+ registry +:+ "/v2/")%string.
  change (("http" +:+ "://" +:+ registry) +:+ "/v2/")%string with ("http://" +:+ registry +:+ "/v2/")%string.
  change ("https" +:+ "://" +:+ registry)%string with ("https://" +:+ registry)%string.
  change ("http" +:+ "://" +:+ registry)%string with ("http://" +:+ registry)%string.
  set (s := ("https://" +:+ registry +:+ "/v2/")%string). set (p := ("http://" +:+ registry +:+ "/v2/")%string).
  destruct (NewRequest s) as [[]|e1], (NewRequest p) as [[]|e2]; try destruct (Do s None) as [r1|e3];
    try destruct (Do p None) as [r2|e4]; cbn [is_ok]; naive_solver.
Qed.

(** Where the labels of an image come from.  A fetch that succeeds read the
    manifest that the reference identifies and the blob that the manifest names,
    both with status 200, from the same address: HTTPS whenever the registry
    answers there.  The labels are those of at most the first megabyte of the
    blob; an image without a configuration, or without labels, has none. *)
Theorem fetched_labels imageRef labels :
  fetchOCILabels imageRef = Ok labels ↔
  ∃ ref base digest manifest,
    ParseReference imageRef = Ok ref ∧ detectRegistryScheme (RegistryStr ref) = Ok base ∧
    let manifestURL := (base +:+ "/v2/" +:+ RepositoryStr ref +:+ "/manifests/" +:+ Identifier ref)%string in
    NewRequest manifestURL = Ok tt ∧ Do manifestURL (Some manifestAccept) = Ok manifest ∧ StatusCode manifest = StatusOK ∧
    json_digest (Body manifest) = Ok digest ∧
    (digest = "" ∧ labels = ∅ ∨
     digest ≠ "" ∧ ∃ blob body found,
       let blobURL := (base +:+ "/v2/" +:+ RepositoryStr ref +:+ "/blobs/" +:+ digest)%string in
       NewRequest blobURL = Ok tt ∧ Do blobURL None = Ok blob ∧ StatusCode blob = StatusOK ∧
       readLimited configBlobLimit (Body blob) = Ok body ∧ json_labels body = Ok found ∧ labels = default ∅ found).
Proof.
  unfold fetchOCILabels, fetchManifestConfigDigest, fetchConfigLabels. split.
  - intros (ref & Hr%wrap_Ok & H)%bind_Ok. apply bind_Ok in H as (base & Hb%wrap_Ok & H).
    apply bind_Ok in H as (digest & Hd & H). apply bind_Ok in Hd as ([] & Hn%wrap_Ok & Hd).
    apply bind_Ok in Hd as (m & Hm%wrap_Ok & Hd). destruct (StatusCode m =? StatusOK) eqn:Es; [|done].
    cbn [negb] in Hd. apply Z.eqb_eq in Es. apply wrap_Ok in Hd. exists ref, base, digest, m. split_and!; [done..|].
    case_bool_decide as Ed; [left; by injection H as <-|right; split; [done|]].
    apply bind_Ok in H as ([] & Hn'%wrap_Ok & H). apply bind_Ok in H as (blob & Hblob%wrap_Ok & H).
    destruct (StatusCode blob =? StatusOK) eqn:Es'; [|done]. cbn [negb] in H. apply Z.eqb_eq in Es'.
    apply bind_Ok in H as (body & Hbody%wrap_Ok & H). apply bind_Ok in H as (found & Hf%wrap_Ok & [= <-]).
    exists blob, body, found. by split_and!.
  - intros (ref & base & digest & m & Hr & Hb & Hn & Hm & Hs & Hd & H). cbv zeta in *.
    rewrite Hr. cbn [wrap mbind result_bind]. rewrite Hb. cbn [wrap mbind result_bind]. rewrite Hn. cbn [wrap mbind result_bind].
    rewrite Hm. cbn [wrap mbind result_bind]. rewrite Hs. cbn [negb Z.eqb StatusOK Pos.eqb]. rewrite Hd. cbn [wrap mbind result_bind].
    destruct H as [[-> ->]|(Hne & blob & body & found & Hn' & Hblob & Hs' & Hbody & Hf & ->)]; [done|].
    rewrite bool_decide_eq_false_2 by done. rewrite Hn'. cbn [wrap mbind result_bind]. rewrite Hblob. cbn [wrap mbind result_bind].
    rewrite Hs'. cbn [negb Z.eqb StatusOK Pos.eqb]. rewrite Hbody. cbn [wrap mbind result_bind]. by rewrite Hf.
Qed.
End registry.

(** The contents of the blob are never compared with the digest that names it:
    whatever a registry answers there gives the labels. *)
Lemma blob_unverified NewRequest Do json_labels base repo digest imageRef bytes found :
  (∀ url, NewRequest url = Ok tt) →
  Do (base +:+ "/v2/" +:+ repo +:+ "/blobs/" +:+ digest)%string None =
    Ok {| StatusCode := StatusOK; Body := {| Body_Bytes := bytes; Body_Error := None |} |} →
  Z.of_nat (String.length bytes) < configBlobLimit → json_labels bytes = Ok found →
  fetchConfigLabels NewRequest Do json_labels base repo digest imageRef = Ok (default ∅ found).
Proof.
  intros Hn Hd Hl Hj. unfold fetchConfigLabels. rewrite Hn, Hd. cbn [wrap mbind result_bind negb].
  unfold readLimited. cbn [Body Body_Bytes Body_Error StatusCode].
  destruct (configBlobLimit <=? Z.of_nat (String.length bytes)) eqn:E; [apply Z.leb_le in E; lia|]. cbn. by rewrite Hj.
Qed.
