(* ===== verification/TLS.v ===== *)
(** * TLS from the profile of the cluster

    The file [pkg/tls/tls.go]: the TLS profile and the adherence policy of
    OpenShift's [APIServer] become options of the servers, with a fallback when
    they cannot be read.

    [crypto/tls] is Go's; [NewTLSConfigFromProfile] and [TLSProfiles] are of
    OpenShift, and are parameters.  A nil slice is an empty one: the slices that
    the file builds are nil when they are empty. *)

From Stdlib Require Import ZArith.
From stdpp Require Import pretty.
From S2P Require Import Prelude Fmt Resolver.

#[local] Open Scope Z_scope.
#[local] Set Warnings "-register-all".

(** ** [crypto/tls] *)

Definition VersionTLS10 : Z := 0x0301.
Definition VersionTLS11 : Z := 0x0302.
Definition VersionTLS12 : Z := 0x0303.
Definition VersionTLS13 : Z := 0x0304.

Record CipherSuite := { Suite_ID : Z; Suite_Name : string; SupportedVersions : list Z }.

Definition upToTLS12 : list Z := [VersionTLS10; VersionTLS11; VersionTLS12].
Definition onlyTLS12 : list Z := [VersionTLS12].
Definition onlyTLS13 : list Z := [VersionTLS13].

Definition suite (id : Z) (name : string) (versions : list Z) : CipherSuite :=
  {| Suite_ID := id; Suite_Name := name; SupportedVersions := versions |}.

(** The two tables together; the source never uses one without the other. *)
Definition CipherSuites : list CipherSuite := [
  suite 0x1301 "TLS_AES_128_GCM_SHA256" onlyTLS13;
  suite 0x1302 "TLS_AES_256_GCM_SHA384" onlyTLS13;
  suite 0x1303 "TLS_CHACHA20_POLY1305_SHA256" onlyTLS13;
  suite 0xc009 "TLS_ECDHE_ECDSA_WITH_AES_128_CBC_SHA" upToTLS12;
  suite 0xc00a "TLS_ECDHE_ECDSA_WITH_AES_256_CBC_SHA" upToTLS12;
  suite 0xc013 "TLS_ECDHE_RSA_WITH_AES_128_CBC_SHA" upToTLS12;
  suite 0xc014 "TLS_ECDHE_RSA_WITH_AES_256_CBC_SHA" upToTLS12;
  suite 0xc02b "TLS_ECDHE_ECDSA_WITH_AES_128_GCM_SHA256" onlyTLS12;
  suite 0xc02c "TLS_ECDHE_ECDSA_WITH_AES_256_GCM_SHA384" onlyTLS12;
  suite 0xc02f "TLS_ECDHE_RSA_WITH_AES_128_GCM_SHA256" onlyTLS12;
  suite 0xc030 "TLS_ECDHE_RSA_WITH_AES_256_GCM_SHA384" onlyTLS12;
  suite 0xcca8 "TLS_ECDHE_RSA_WITH_CHACHA20_POLY1305_SHA256" onlyTLS12;
  suite 0xcca9 "TLS_ECDHE_ECDSA_WITH_CHACHA20_POLY1305_SHA256" onlyTLS12].

Definition InsecureCipherSuites : list CipherSuite := [
  suite 0x0005 "TLS_RSA_WITH_RC4_128_SHA" upToTLS12;
  suite 0x000a "TLS_RSA_WITH_3DES_EDE_CBC_SHA" upToTLS12;
  suite 0x002f "TLS_RSA_WITH_AES_128_CBC_SHA" upToTLS12;
  suite 0x0035 "TLS_RSA_WITH_AES_256_CBC_SHA" upToTLS12;
  suite 0x003c "TLS_RSA_WITH_AES_128_CBC_SHA256" onlyTLS12;
  suite 0x009c "TLS_RSA_WITH_AES_128_GCM_SHA256" onlyTLS12;
  suite 0x009d "TLS_RSA_WITH_AES_256_GCM_SHA384" onlyTLS12;
  suite 0xc007 "TLS_ECDHE_ECDSA_WITH_RC4_128_SHA" upToTLS12;
  suite 0xc011 "TLS_ECDHE_RSA_WITH_RC4_128_SHA" upToTLS12;
  suite 0xc012 "TLS_ECDHE_RSA_WITH_3DES_EDE_CBC_SHA" upToTLS12;
  suite 0xc023 "TLS_ECDHE_ECDSA_WITH_AES_128_CBC_SHA256" onlyTLS12;
  suite 0xc027 "TLS_ECDHE_RSA_WITH_AES_128_CBC_SHA256" onlyTLS12].

Definition allSuites : list CipherSuite := CipherSuites ++ InsecureCipherSuites.

(** The fields of [tls.Config] that are set. *)
Record TLSConfig := {
  TLS_MinVersion : Z;
  TLS_CipherSuites : list Z;
  TLS_CurvePreferences : list Z;
  TLS_NextProtos : list string;
}.

Definition noConfig : TLSConfig :=
  {| TLS_MinVersion := 0; TLS_CipherSuites := []; TLS_CurvePreferences := []; TLS_NextProtos := [] |}.

Definition setMinVersion (v : Z) (c : TLSConfig) : TLSConfig :=
  {| TLS_MinVersion := v; TLS_CipherSuites := TLS_CipherSuites c; TLS_CurvePreferences := TLS_CurvePreferences c;
     TLS_NextProtos := TLS_NextProtos c |}.
Definition setCipherSuites (l : list Z) (c : TLSConfig) : TLSConfig :=
  {| TLS_MinVersion := TLS_MinVersion c; TLS_CipherSuites := l; TLS_CurvePreferences := TLS_CurvePreferences c;
     TLS_NextProtos := TLS_NextProtos c |}.
Definition setCurvePreferences (l : list Z) (c : TLSConfig) : TLSConfig :=
  {| TLS_MinVersion := TLS_MinVersion c; TLS_CipherSuites := TLS_CipherSuites c; TLS_CurvePreferences := l;
     TLS_NextProtos := TLS_NextProtos c |}.
Definition setNextProtos (l : list string) (c : TLSConfig) : TLSConfig :=
  {| TLS_MinVersion := TLS_MinVersion c; TLS_CipherSuites := TLS_CipherSuites c;
     TLS_CurvePreferences := TLS_CurvePreferences c; TLS_NextProtos := l |}.

Definition option_fn : Type := TLSConfig → TLSConfig.

(** What a server makes of its options. *)
Definition serve (opts : list option_fn) : TLSConfig := foldl (λ c f, f c) noConfig opts.

(** ** The profile *)

Inductive TLSProtocolVersion := NoVersion | ProtoTLS10 | ProtoTLS11 | ProtoTLS12 | ProtoTLS13 | OtherVersion (s : string).
#[export] Instance TLSProtocolVersion_eq_dec : EqDecision TLSProtocolVersion.
Proof. solve_decision. Defined.

Inductive TLSGroup :=
| GroupSecP256r1 | GroupSecP384r1 | GroupSecP521r1 | GroupX25519
| GroupX25519MLKEM768 | GroupSecP256r1MLKEM768 | GroupSecP384r1MLKEM1024 | OtherGroup (s : string).

Inductive TLSAdherencePolicy := NoOpinion | LegacyAdheringComponentsOnly | StrictAllComponents | OtherPolicy (s : string).
#[export] Instance TLSAdherencePolicy_eq_dec : EqDecision TLSAdherencePolicy.
Proof. solve_decision. Defined.

Record TLSProfileSpec := { Ciphers : list string; MinTLSVersion : TLSProtocolVersion; Groups : list TLSGroup }.

Definition versionText (v : TLSProtocolVersion) : string :=
  match v with
  | NoVersion => "" | ProtoTLS10 => "VersionTLS10" | ProtoTLS11 => "VersionTLS11" | ProtoTLS12 => "VersionTLS12"
  | ProtoTLS13 => "VersionTLS13" | OtherVersion s => s
  end.

(** [strict] of both files: a policy that is not one of the two lenient ones. *)
Definition strictPolicy (adherence : TLSAdherencePolicy) : bool :=
  negb (bool_decide (adherence = NoOpinion)) && negb (bool_decide (adherence = LegacyAdheringComponentsOnly)).

(** ** A read that failed

    What the predicates of [apierrors], [apimeta] and [errors] say of an error,
    and the errors that [errors.As] finds in it as failures of resources and of
    groups. *)

Record errorFlags := {
  EF_Forbidden : bool; EF_Unauthorized : bool; EF_NoMatch : bool; EF_NotFound : bool; EF_ServiceUnavailable : bool;
  EF_InternalError : bool; EF_Timeout : bool; EF_ServerTimeout : bool; EF_TooManyRequests : bool;
  EF_DeadlineExceeded : bool;
  EF_NetError : option bool;     (* a [net.Error], and its [Timeout()] *)
}.

Inductive readError := ReadError (cause : error) (flags : errorFlags) (resources groups : option (list readError)).

Definition causeOf (e : readError) : error := let '(ReadError c _ _ _) := e in c.
Definition flagsOf (e : readError) : errorFlags := let '(ReadError _ f _ _) := e in f.
Definition resourcesOf (e : readError) : option (list readError) := let '(ReadError _ _ r _) := e in r.
Definition groupsOf (e : readError) : option (list readError) := let '(ReadError _ _ _ g) := e in g.

(** ** The operator *)

Definition isTransientReadError (e : readError) : bool :=
  let f := flagsOf e in
  EF_DeadlineExceeded f || EF_ServiceUnavailable f || EF_Timeout f || EF_ServerTimeout f || EF_TooManyRequests f ||
  match EF_NetError f with Some timeout => timeout | None => false end.

Record Result := {
  TLSOpts : list option_fn;
  Profile : TLSProfileSpec;
  AdherencePolicy : TLSAdherencePolicy;
  HasOpenShiftConfigAPI : bool;
}.

Definition minTLSVersion (version : TLSProtocolVersion) : result Z :=
  match version with
  | NoVersion => Ok VersionTLS12
  | ProtoTLS10 => Ok VersionTLS10
  | ProtoTLS11 => Ok VersionTLS11
  | ProtoTLS12 => Ok VersionTLS12
  | ProtoTLS13 => Ok VersionTLS13
  | OtherVersion _ => Err (Errorf "failed to resolve minimum TLS version %q: unsupported" [versionText version])
  end.

(** A suite for TLS 1.2 and below that Go implements. *)
Definition usableSuite (id : Z) : bool :=
  negb ((0x1300 <=? id) && (id <=? 0x13ff)) && existsb (λ s, Suite_ID s =? id) allSuites.

Definition usableCipherSuites (mapped : list Z) : list Z := List.filter usableSuite mapped.

Definition curveSecP256r1MLKEM768 : Z := 0x11EB.
Definition curveSecP384r1MLKEM1024 : Z := 0x11ED.

Definition tlsGroupToCurveID (group : TLSGroup) : option Z :=
  match group with
  | GroupSecP256r1 => Some 23
  | GroupSecP384r1 => Some 24
  | GroupSecP521r1 => Some 25
  | GroupX25519 => Some 29
  | GroupX25519MLKEM768 => Some 4588
  | GroupSecP256r1MLKEM768 => Some curveSecP256r1MLKEM768
  | GroupSecP384r1MLKEM1024 => Some curveSecP384r1MLKEM1024
  | OtherGroup _ => None
  end.

Definition usableCurvePreferences (groups : list TLSGroup) : list Z := omap tlsGroupToCurveID groups.

Section profile.
(** The option of a profile, with the names of the ciphers that it leaves out; and
    the Intermediate profile. *)
Context (NewTLSConfigFromProfile : TLSProfileSpec → option_fn * list string) (Intermediate : TLSProfileSpec).

Definition buildProfileTLSOpts (profile : TLSProfileSpec) : result (list option_fn) :=
  minVersion ← minTLSVersion (MinTLSVersion profile);
  let tlsConfigFn := (NewTLSConfigFromProfile profile).1 in
  let curvePreferences := usableCurvePreferences (Groups profile) in
  match Groups profile, curvePreferences with
  | _ :: _, [] => Err (New "TLS profile has no usable groups")
  | _, _ =>
      let opts := tlsConfigFn :: match curvePreferences with [] => [] | _ => [setCurvePreferences curvePreferences] end in
      if VersionTLS13 <=? minVersion then Ok opts
      else
        let probe := tlsConfigFn (setMinVersion VersionTLS12 noConfig) in
        let usable := usableCipherSuites (TLS_CipherSuites probe) in
        match Ciphers profile, usable with
        | _ :: _, [] =>
            Err (Errorf "failed to find usable cipher suites for TLS <= 1.2: all %d ciphers in TLS profile are TLS 1.3-only or unimplemented by Go"
                   [pretty (Z.of_nat (length (Ciphers profile)))])
        | _, _ => Ok (opts ++ [setCipherSuites usable])
        end
  end.

Definition buildProfileTLSOptsWithAdherence (profile : TLSProfileSpec) (adherence : TLSAdherencePolicy) : result (list option_fn) :=
  opts ← buildProfileTLSOpts profile;
  if strictPolicy adherence && negb (bool_decide (MinTLSVersion profile = ProtoTLS13)) && bool_decide (Ciphers profile = [])
  then Err (New "failed to find usable cipher suites for TLS <= 1.2: strict adherence requires a non-empty cipher list")
  else Ok (opts : list option_fn).

(** What [FetchAPIServerTLSAdherencePolicy] gives is the argument. *)
Definition fetchAdherence (fetched : readError + TLSAdherencePolicy) : result TLSAdherencePolicy :=
  match fetched with
  | inr adherence => Ok adherence
  | inl e =>
      if EF_NoMatch (flagsOf e) || EF_NotFound (flagsOf e) || isTransientReadError e then Ok NoOpinion
      else Err (Wrapf "failed to read TLS adherence policy: %w" [] (causeOf e))
  end.

Definition nextProtos : option_fn := setNextProtos ["h2"; "http/1.1"].

(** The scheme, the client, and what the two reads give: the policy is read later
    than the profile, and may come from another state of the cluster. *)
Definition Resolve (scheme newClient : result unit) (fetched : readError + TLSProfileSpec)
    (adherence : readError + TLSAdherencePolicy) : result Result :=
  _ ← wrap "failed to register OpenShift config API scheme: %w" [] scheme;
  _ ← wrap "failed to create bootstrap client for TLS profile: %w" [] newClient;
  match fetched with
  | inl e =>
      let fallback hasAPI :=
        Ok {| TLSOpts := [(NewTLSConfigFromProfile Intermediate).1; nextProtos]; Profile := Intermediate;
              AdherencePolicy := NoOpinion; HasOpenShiftConfigAPI := hasAPI |} in
      if EF_NoMatch (flagsOf e) || EF_NotFound (flagsOf e) then fallback false
      else if isTransientReadError e then fallback true
      else Err (Wrapf "failed to read APIServer TLS profile: %w" [] (causeOf e))
  | inr profile =>
      adherence ← fetchAdherence adherence;
      opts ← wrap "failed to configure TLS: %w" [] (buildProfileTLSOptsWithAdherence profile adherence);
      Ok {| TLSOpts := opts ++ [nextProtos]; Profile := profile; AdherencePolicy := adherence;
            HasOpenShiftConfigAPI := true |}
  end.

(** [None] is no watcher; the argument is how the registration of one ends. *)
Definition SetupWatcher (registered : result unit) (r : option Result) : option (result unit) :=
  match r with
  | None => None
  | Some r =>
      if HasOpenShiftConfigAPI r then Some (wrap "failed to register TLS security profile watcher: %w" [] registered)
      else None
  end.
End profile.

(** ** What a server serves *)

(** The option of a profile sets the minimum version, and the suites by their
    names unless TLS 1.3 is the minimum; it sets nothing else. *)
Class ProfileOption (NewTLSConfigFromProfile : TLSProfileSpec → option_fn * list string) : Prop := {
  option_version : ∀ p c v, minTLSVersion (MinTLSVersion p) = Ok v → TLS_MinVersion ((NewTLSConfigFromProfile p).1 c) = v;
  option_suites : ∀ p c c' v, minTLSVersion (MinTLSVersion p) = Ok v → v < VersionTLS13 →
    TLS_CipherSuites ((NewTLSConfigFromProfile p).1 c) = TLS_CipherSuites ((NewTLSConfigFromProfile p).1 c');
  option_curves : ∀ p c, TLS_CurvePreferences ((NewTLSConfigFromProfile p).1 c) = TLS_CurvePreferences c;
}.

(** The suites that a server negotiates up to TLS 1.2. *)
Definition negotiable (id : Z) : Prop :=
  ∃ s, s ∈ allSuites ∧ Suite_ID s = id ∧ ∃ v, v ∈ SupportedVersions s ∧ v ≤ VersionTLS12.

Lemma table_usable : Forall (λ s, usableSuite (Suite_ID s) = existsb (λ v, v <=? VersionTLS12) (SupportedVersions s)) allSuites.
Proof. repeat constructor. Qed.

Lemma usableSuite_negotiable id : usableSuite id = true → negotiable id.
Proof.
  intros H. pose proof H as [_ (s & Hs & Hid%Z.eqb_eq)%existsb_exists]%andb_true_iff. apply list_elem_of_In in Hs.
  exists s. split_and!; [done..|]. pose proof table_usable as Ht. rewrite Forall_forall in Ht. specialize (Ht s Hs).
  rewrite Hid, H in Ht. symmetry in Ht. apply existsb_exists in Ht as (v & Hv & Hle%Z.leb_le). exists v.
  by rewrite list_elem_of_In.
Qed.

(** A server with this configuration follows the profile. *)
Definition follows (p : TLSProfileSpec) (adherence : TLSAdherencePolicy) (c : TLSConfig) : Prop :=
  minTLSVersion (MinTLSVersion p) = Ok (TLS_MinVersion c) ∧
  TLS_NextProtos c = ["h2"; "http/1.1"] ∧
  (TLS_MinVersion c < VersionTLS13 →
    Forall negotiable (TLS_CipherSuites c) ∧
    (Ciphers p ≠ [] ∨ strictPolicy adherence = true → TLS_CipherSuites c ≠ [])) ∧
  TLS_CurvePreferences c = usableCurvePreferences (Groups p) ∧ (Groups p ≠ [] → TLS_CurvePreferences c ≠ []).

Section follows.
Context (NewTLSConfigFromProfile : TLSProfileSpec → option_fn * list string) `{!ProfileOption NewTLSConfigFromProfile}.
Context (Intermediate : TLSProfileSpec).
#[local] Set Default Proof Using "Type*".

Lemma strict_minimum p v : minTLSVersion (MinTLSVersion p) = Ok v → v < VersionTLS13 → MinTLSVersion p ≠ ProtoTLS13.
Proof. intros H Hv E. rewrite E in H. injection H as <-. unfold VersionTLS13 in Hv. lia. Qed.

(** The options of a profile that is accepted: its own, the curves if it names any,
    and the suites below TLS 1.3. *)
Definition curveOption (l : list Z) : list option_fn := match l with [] => [] | _ => [setCurvePreferences l] end.

Lemma buildProfile_Ok p opts :
  buildProfileTLSOpts NewTLSConfigFromProfile p = Ok opts →
  ∃ v, minTLSVersion (MinTLSVersion p) = Ok v ∧ (Groups p ≠ [] → usableCurvePreferences (Groups p) ≠ []) ∧
    let usable := usableCipherSuites (TLS_CipherSuites ((NewTLSConfigFromProfile p).1 (setMinVersion VersionTLS12 noConfig))) in
    opts = (NewTLSConfigFromProfile p).1 :: curveOption (usableCurvePreferences (Groups p)) ++
             (if VersionTLS13 <=? v then [] else [setCipherSuites usable]) ∧
    (v < VersionTLS13 → Ciphers p ≠ [] → usable ≠ []).
Proof using Type.
  intros (v & Hv & H)%bind_Ok. exists v. split; [done|]. cbv zeta in H.
  set (usable := usableCipherSuites _) in *. set (curves := usableCurvePreferences _) in *.
  assert (Hg : Groups p ≠ [] → curves ≠ []).
  { intros Hg Hc. destruct (Groups p); [done|]. by rewrite Hc in H. }
  split; [exact Hg|]. assert (H' : (if VersionTLS13 <=? v then Ok ((NewTLSConfigFromProfile p).1 :: curveOption curves)
      else match Ciphers p, usable with
           | _ :: _, [] => Err (Errorf "failed to find usable cipher suites for TLS <= 1.2: all %d ciphers in TLS profile are TLS 1.3-only or unimplemented by Go"
                   [pretty (Z.of_nat (length (Ciphers p)))])
           | _, _ => Ok (((NewTLSConfigFromProfile p).1 :: curveOption curves) ++ [setCipherSuites usable])
           end) = Ok opts).
  { destruct (Groups p); [exact H|]. destruct curves; [done|exact H]. }
  clear H. destruct (VersionTLS13 <=? v) eqn:E.
  - injection H' as <-. rewrite app_nil_r. split; [done|]. apply Z.leb_le in E. lia.
  - destruct (Ciphers p), usable; try discriminate H'; injection H' as <-; done.
Qed.

Lemma serve_app l f : serve (l ++ [f]) = f (serve l).
Proof using Type. unfold serve. by rewrite foldl_app. Qed.

Lemma usable_negotiable l : Forall negotiable (usableCipherSuites l).
Proof using Type.
  apply Forall_forall. intros id H. apply usableSuite_negotiable. apply list_elem_of_In in H. by apply filter_In in H as [_ ?].
Qed.

(** What is served under the options of an accepted profile. *)
Lemma buildProfile_served p adherence opts :
  buildProfileTLSOptsWithAdherence NewTLSConfigFromProfile p adherence = Ok opts →
  let c := serve (opts ++ [nextProtos]) in
  let usable := usableCipherSuites (TLS_CipherSuites ((NewTLSConfigFromProfile p).1 (setMinVersion VersionTLS12 noConfig))) in
  minTLSVersion (MinTLSVersion p) = Ok (TLS_MinVersion c) ∧ TLS_NextProtos c = ["h2"; "http/1.1"] ∧
  TLS_CurvePreferences c = usableCurvePreferences (Groups p) ∧ (Groups p ≠ [] → usableCurvePreferences (Groups p) ≠ []) ∧
  (TLS_MinVersion c < VersionTLS13 →
    TLS_CipherSuites c = usable ∧ (Ciphers p ≠ [] ∨ strictPolicy adherence = true → usable ≠ [])).
Proof.
  intros (opts' & (v & Hv & Hg & -> & Hs)%buildProfile_Ok & Hstrict)%bind_Ok. cbv zeta in *.
  set (usable := usableCipherSuites _) in *. set (f := (NewTLSConfigFromProfile p).1) in *.
  assert (Hne : v < VersionTLS13 → Ciphers p ≠ [] ∨ strictPolicy adherence = true → usable ≠ []).
  { intros Hlt [Hc|Hc]; [by apply Hs|]. apply Hs; [done|]. intros E. rewrite Hc, E in Hstrict.
    rewrite (bool_decide_eq_false_2 (MinTLSVersion p = ProtoTLS13)) in Hstrict; [done|]. by apply (strict_minimum p v). }
  destruct (_ && _) in Hstrict; [done|]. injection Hstrict as <-.
  set (c1 := serve (f :: curveOption (usableCurvePreferences (Groups p)))).
  assert (Hc1 : TLS_MinVersion c1 = v ∧ TLS_CurvePreferences c1 = usableCurvePreferences (Groups p)).
  { unfold c1, serve. destruct (usableCurvePreferences (Groups p)) as [|x xs] eqn:E; cbn; unfold f;
      (split; [by apply option_version|]); [by rewrite option_curves|done]. }
  assert (Hserve : serve ((f :: curveOption (usableCurvePreferences (Groups p)) ++ (if VersionTLS13 <=? v then [] else [setCipherSuites usable])) ++ [nextProtos]) =
    nextProtos (if VersionTLS13 <=? v then c1 else setCipherSuites usable c1)).
  { rewrite serve_app, app_comm_cons. f_equal. destruct (VersionTLS13 <=? v); [by rewrite app_nil_r|by rewrite serve_app]. }
  clearbody c1. rewrite Hserve. destruct Hc1 as [Hm Hcu].
  destruct (VersionTLS13 <=? v) eqn:E; cbn; rewrite Hm, Hcu; split_and!; try done; intros Hlt.
  - apply Z.leb_le in E. lia.
  - split; [done|by apply Hne].
Qed.

Lemma buildProfile_follows p adherence opts :
  buildProfileTLSOptsWithAdherence NewTLSConfigFromProfile p adherence = Ok opts →
  follows p adherence (serve (opts ++ [nextProtos])).
Proof.
  intros (Hv & Hn & Hc & Hg & Hs)%buildProfile_served. cbv zeta in *. unfold follows.
  split_and!; [done|done| |done|by rewrite Hc]. intros [-> Hne]%Hs. split; [apply usable_negotiable|done].
Qed.

(** ** What was resolved *)

(** C25. What the operator resolves to.  With a profile that could be read, each
    server follows it: its minimum version, below TLS 1.3 only suites that can be
    negotiated there, and one at least unless the profile names none and the policy
    is lenient, and a known curve if it names any.  A policy that could not be read
    is taken for lenient only when there is none, or when the failure is a passing
    one.  The Intermediate profile is used only when the profile does not exist or
    the failure is a passing one, after which it is watched; any other failure ends
    the start. *)
Theorem tls_follows_profile scheme newClient fetched adherence r :
  Resolve NewTLSConfigFromProfile Intermediate scheme newClient fetched adherence = Ok r →
  match fetched with
  | inr p => Profile r = p ∧ HasOpenShiftConfigAPI r = true ∧ follows p (AdherencePolicy r) (serve (TLSOpts r)) ∧
      match adherence with
      | inr a => AdherencePolicy r = a
      | inl e => AdherencePolicy r = NoOpinion ∧ EF_NoMatch (flagsOf e) || EF_NotFound (flagsOf e) || isTransientReadError e = true
      end
  | inl e => Profile r = Intermediate ∧ AdherencePolicy r = NoOpinion ∧
      EF_NoMatch (flagsOf e) || EF_NotFound (flagsOf e) || isTransientReadError e = true ∧
      (HasOpenShiftConfigAPI r = true ↔ EF_NoMatch (flagsOf e) || EF_NotFound (flagsOf e) = false) ∧
      ∀ v, minTLSVersion (MinTLSVersion Intermediate) = Ok v → TLS_MinVersion (serve (TLSOpts r)) = v
  end.
Proof.
  unfold Resolve. intros (? & _ & H)%bind_Ok. apply bind_Ok in H as (? & _ & H). destruct fetched as [e|p].
  - assert (Hv : ∀ v, minTLSVersion (MinTLSVersion Intermediate) = Ok v →
      TLS_MinVersion (serve [(NewTLSConfigFromProfile Intermediate).1; nextProtos]) = v) by (intros v; apply option_version).
    destruct (_ || _); [injection H as <-; by split_and!|].
    destruct (isTransientReadError e); [injection H as <-; by split_and!|done].
  - apply bind_Ok in H as (a & Ha & H). apply bind_Ok in H as (opts & Hb%wrap_Ok & [= <-]).
    split_and!; [done|done|by apply buildProfile_follows|]. unfold fetchAdherence in Ha. cbn.
    destruct adherence as [e|a']; [|by injection Ha as <-]. destruct (_ || _); [by injection Ha as <-|done].
Qed.
End follows.
