(* ===== verification/ModuleTLS.v ===== *)
(** * TLS of the module operator

    The file [ogx-module/pkg/tls/tls.go]: the same task as that of [TLS], done
    with one read of the [APIServer], with errors that are looked into, and with a
    watcher also when the API could not be discovered. *)

From Stdlib Require Import ZArith.
From S2P Require Import Prelude Fmt Resolver TLS.

#[local] Open Scope Z_scope.

Definition recoverable (f : errorFlags) : bool :=
  EF_NoMatch f || EF_NotFound f || EF_ServiceUnavailable f || EF_InternalError f || EF_Timeout f || EF_ServerTimeout f ||
  EF_TooManyRequests f || EF_DeadlineExceeded f || match EF_NetError f with Some _ => true | None => false end.

Definition denied (f : errorFlags) : bool := EF_Forbidden f || EF_Unauthorized f.

Fixpoint canFallbackTLS (e : readError) : bool :=
  let '(ReadError _ f resources groups) := e in
  if denied f then false
  else
    match resources with
    | Some [] => false
    | Some l => forallb canFallbackTLS l
    | None =>
        match groups with
        | Some [] => false
        | Some l => forallb canFallbackTLS l
        | None => recoverable f
        end
    end.

Record Result := {
  TLSOpts : list option_fn;
  Profile : TLSProfileSpec;
  AdherencePolicy : TLSAdherencePolicy;
  HasOpenShiftConfigAPI : bool;
  retryTLSConfig : bool;
}.

(** A suite of the table [runtimeSuites]. *)
Definition runtimeSuite (id : Z) : bool :=
  existsb (λ s, (Suite_ID s =? id) && negb (Contains (Suite_Name s) "RC4") &&
                existsb (λ v, v <=? VersionTLS12) (SupportedVersions s)) allSuites.

Section profile.
Context (NewTLSConfigFromProfile : TLSProfileSpec → option_fn * list string) (Intermediate : TLSProfileSpec).

Definition OptionsFromProfile (profile : TLSProfileSpec) (adherence : TLSAdherencePolicy) : result (list option_fn) :=
  match MinTLSVersion profile with
  | NoVersion | OtherVersion _ =>
      Err (Errorf "failed to configure TLS: invalid minimum TLS version %q" [versionText (MinTLSVersion profile)])
  | _ =>
      let resolved := (NewTLSConfigFromProfile profile).1 noConfig in
      let strict := strictPolicy adherence in
      let option suites : list option_fn :=
        [λ c, setNextProtos ["h2"; "http/1.1"] (setCipherSuites suites (setMinVersion (TLS_MinVersion resolved) c))] in
      if TLS_MinVersion resolved <? VersionTLS13 then
        let usable := List.filter runtimeSuite (TLS_CipherSuites resolved) in
        if bool_decide (usable = []) && (negb (bool_decide (Ciphers profile = [])) || strict)
        then Err (New "failed to configure TLS: profile has no usable TLS <= 1.2 cipher suites")
        else Ok (option usable)
      else Ok (option (TLS_CipherSuites resolved))
  end.

(** The one read of the [APIServer]: its policy, and its profile as it resolves. *)
Definition readTLSConfig (read : readError + (TLSAdherencePolicy * result TLSProfileSpec)) : result Result :=
  let finish profile adherence hasAPI retry :=
    opts ← OptionsFromProfile profile adherence;
    Ok {| TLSOpts := opts; Profile := profile; AdherencePolicy := adherence; HasOpenShiftConfigAPI := hasAPI;
          retryTLSConfig := retry |} in
  match read with
  | inl e =>
      if negb (canFallbackTLS e) then Err (Wrapf "failed to read APIServer TLS configuration: %w" [] (causeOf e))
      else
        let hasAPI := EF_NotFound (flagsOf e) in
        finish Intermediate NoOpinion hasAPI
          (negb hasAPI && (bool_decide (is_Some (resourcesOf e)) || negb (EF_NoMatch (flagsOf e))))
  | inr (adherence, resolved) =>
      profile ← wrap "failed to resolve APIServer TLS profile: %w" [] resolved;
      finish profile adherence true false
  end.

Definition Resolve (scheme newClient : result unit) (read : readError + (TLSAdherencePolicy * result TLSProfileSpec)) : result Result :=
  _ ← wrap "failed to register OpenShift config API scheme: %w" [] scheme;
  _ ← wrap "failed to create TLS bootstrap client: %w" [] newClient;
  readTLSConfig read.

(** Which watcher is registered: that of the manager, which needs the API, or the
    one that reads again every 30 seconds. *)
Inductive watcher := NoWatcher | ProfileWatcher | FallbackWatcher.

Definition watcherOf (r : Result) : watcher :=
  if HasOpenShiftConfigAPI r then ProfileWatcher else if retryTLSConfig r then FallbackWatcher else NoWatcher.

Definition SetupWatcher (registered added : result unit) (r : Result) : result unit :=
  match watcherOf r with
  | ProfileWatcher => wrap "failed to register TLS security profile watcher: %w" [] registered
  | FallbackWatcher => wrap "failed to register TLS fallback watcher: %w" [] added
  | NoWatcher => Ok tt
  end.

(** A round of the fallback watcher: what the read says, and whether the context
    is done after it, or while it waits. *)
Record round := { RD_Error : option readError; RD_Done : bool; RD_DoneWaiting : bool }.

(** [None] is a watcher that still runs after these rounds. *)
Fixpoint Start (rounds : list round) : option (result unit) :=
  match rounds with
  | [] => None
  | r :: rounds =>
      if RD_Done r then Some (Ok tt)
      else
        match RD_Error r with
        | Some e =>
            if negb (canFallbackTLS e)
            then Some (Err (Wrapf "failed to watch TLS configuration after startup fallback: %w" [] (causeOf e)))
            else if RD_DoneWaiting r then Some (Ok tt) else Start rounds
        | None => if RD_DoneWaiting r then Some (Ok tt) else Start rounds
        end
  end.
End profile.

(** ** When a fallback is allowed *)

(** The failures that an error is looked into for. *)
Definition nestedOf (e : readError) : option (list readError) :=
  match resourcesOf e with Some l => Some l | None => groupsOf e end.

Lemma canFallbackTLS_eq e : canFallbackTLS e =
  negb (denied (flagsOf e)) &&
  match nestedOf e with Some [] => false | Some l => forallb canFallbackTLS l | None => recoverable (flagsOf e) end.
Proof.
  destruct e as [c f [r|] g]; cbn; by destruct (denied f).
Qed.

(** An error and what is found in it, at any depth. *)
Inductive below : readError → readError → Prop :=
| Below_here e : below e e
| Below_nested e l e1 e2 : nestedOf e = Some l → e1 ∈ l → below e1 e2 → below e e2.

(** Induction through the nested failures. *)
Section induction.
Context (P : readError → Prop) (HP : ∀ e, (∀ l, nestedOf e = Some l → Forall P l) → P e).

Fixpoint readError_nested (e : readError) : P e :=
  let go := fix go (l : list readError) : Forall P l :=
    match l with [] => Forall_nil_2 P | e :: l => Forall_cons_2 P e l (readError_nested e) (go l) end in
  match e as e return P e with
  | ReadError c f r g =>
      HP (ReadError c f r g)
        match r as r return ∀ l, nestedOf (ReadError c f r g) = Some l → Forall P l with
        | Some r => λ l E, match E in _ = o return match o with Some l => Forall P l | None => True end with eq_refl => go r end
        | None =>
            match g as g return ∀ l, nestedOf (ReadError c f None g) = Some l → Forall P l with
            | Some g => λ l E, match E in _ = o return match o with Some l => Forall P l | None => True end with eq_refl => go g end
            | None => λ l E, match E in _ = o return match o with Some l => Forall P l | None => True end with eq_refl => I end
            end
        end
  end.
End induction.

(** Nothing denied, at any depth; nothing empty; and every leaf is recoverable. *)
Definition excusable (e : readError) : Prop :=
  ∀ e', below e e' → denied (flagsOf e') = false ∧
    match nestedOf e' with Some l => l ≠ [] | None => recoverable (flagsOf e') = true end.

Lemma canFallbackTLS_excusable e : canFallbackTLS e = true ↔ excusable e.
Proof.
  split.
  - intros H e' Hb. induction Hb as [e|e l e1 e2 Hl Hin _ IH]; rewrite canFallbackTLS_eq in H;
      apply andb_true_iff in H as [Hd%negb_true_iff H].
    + split; [done|]. destruct (nestedOf e) as [[|? ?]|]; done.
    + apply IH. rewrite Hl in H. destruct l as [|x l]; [done|]. rewrite forallb_forall in H. apply H. by apply list_elem_of_In.
  - induction e as [e IH] using readError_nested. intros H. rewrite canFallbackTLS_eq.
    destruct (H e (Below_here e)) as [-> Hn]. cbn [negb andb]. destruct (nestedOf e) as [l|] eqn:E; [|done].
    specialize (IH l eq_refl). assert (Hall : forallb canFallbackTLS l = true).
    { apply forallb_forall. intros x Hx. rewrite Forall_forall in IH. apply list_elem_of_In in Hx. apply IH; [done|].
      intros e' He'. apply H. by apply (Below_nested e l x). }
    by destruct l.
Qed.

(** ** The suites *)

Lemma existsb_same {A} (f g : A → bool) l : (∀ x, f x = g x) → existsb f l = existsb g l.
Proof. intros H. induction l as [|x l IH]; cbn; [done|]. by rewrite H, IH. Qed.

Lemma filter_twice {A} (f g : A → bool) l : List.filter f (List.filter g l) = List.filter (λ x, g x && f x) l.
Proof. induction l as [|x l IH]; cbn; [done|]. destruct (g x); cbn; by rewrite IH. Qed.


Definition isRC4 (id : Z) : bool := existsb (λ s, (Suite_ID s =? id) && Contains (Suite_Name s) "RC4") allSuites.

(** The table of this operator is that of the other one, without RC4. *)
Lemma runtimeSuite_usable id : runtimeSuite id = usableSuite id && negb (isRC4 id).
Proof.
  destruct (decide (id ∈ Suite_ID <$> allSuites)) as [Hin|Hout].
  - assert (H : Forall (λ id, runtimeSuite id = usableSuite id && negb (isRC4 id)) (Suite_ID <$> allSuites)) by repeat constructor.
    rewrite Forall_forall in H. by apply H.
  - assert (Hno : ∀ p, existsb (λ s, (Suite_ID s =? id) && p s) allSuites = false).
    { intros p. apply not_true_iff_false. intros (s & Hs & [Hid%Z.eqb_eq _]%andb_true_iff)%existsb_exists.
      apply Hout. rewrite <- Hid. apply list_elem_of_fmap_2. by apply list_elem_of_In. }
    assert (H1 : existsb (λ s, Suite_ID s =? id) allSuites = false).
    { rewrite <- (Hno (λ _, true)). apply existsb_same. intros s. by rewrite andb_true_r. }
    unfold runtimeSuite, usableSuite. rewrite H1, andb_false_r. cbn [andb].
    etransitivity; [|apply (Hno (λ s, negb (Contains (Suite_Name s) "RC4") && existsb (λ v, v <=? VersionTLS12) (SupportedVersions s)))].
    apply existsb_same. intros s. by rewrite andb_assoc.
Qed.

Section facts.
Context (NewTLSConfigFromProfile : TLSProfileSpec → option_fn * list string) `{!ProfileOption NewTLSConfigFromProfile}.
Context (Intermediate : TLSProfileSpec).
#[local] Set Default Proof Using "Type*".

(** The two operators read the same profile in the same way: where both accept
    it, they serve the same minimum version and protocols, and below TLS 1.3 the
    module's suites are those of the operator without RC4; the module leaves the
    curves to Go. *)
Theorem tls_operators_agree p adherence opts opts' :
  buildProfileTLSOptsWithAdherence NewTLSConfigFromProfile p adherence = Ok opts →
  OptionsFromProfile NewTLSConfigFromProfile p adherence = Ok opts' →
  let c := serve (opts ++ [nextProtos]) in let c' := serve opts' in
  TLS_MinVersion c' = TLS_MinVersion c ∧ TLS_NextProtos c' = TLS_NextProtos c ∧ TLS_CurvePreferences c' = [] ∧
  (TLS_MinVersion c < VersionTLS13 → TLS_CipherSuites c' = List.filter (λ id, negb (isRC4 id)) (TLS_CipherSuites c)).
Proof.
  intros Hb. pose proof (buildProfile_served NewTLSConfigFromProfile p adherence opts Hb) as (Hv & Hn & _ & _ & Hs). clear Hb. cbv zeta in *. set (c := serve (opts ++ _)) in *. clearbody c.
  pose proof (option_version p noConfig _ Hv) as Hmin. unfold OptionsFromProfile.
  intros H. destruct (MinTLSVersion p) eqn:Ev; try discriminate H; cbv zeta in H; rewrite Hmin in H.
  all: destruct (TLS_MinVersion c <? VersionTLS13) eqn:E; [destruct (_ && _) in H; [done|]|]; injection H as <-; unfold serve; cbn.
  all: split_and!; try done; intros Hlt; try (apply Z.ltb_ge in E; lia).
  all: destruct (Hs Hlt) as [-> _]; unfold usableCipherSuites.
  all: rewrite (option_suites p noConfig (setMinVersion VersionTLS12 noConfig) (TLS_MinVersion c)) by (by rewrite ?Ev).
  all: rewrite filter_twice; apply filter_ext; intros id; apply runtimeSuite_usable.
Qed.
(** What an accepted profile serves here. *)
Lemma OptionsFromProfile_served p adherence opts :
  OptionsFromProfile NewTLSConfigFromProfile p adherence = Ok opts →
  let c := serve opts in
  minTLSVersion (MinTLSVersion p) = Ok (TLS_MinVersion c) ∧
  (TLS_MinVersion c < VersionTLS13 →
    Forall (λ id, negotiable id ∧ isRC4 id = false) (TLS_CipherSuites c) ∧
    (Ciphers p ≠ [] ∨ strictPolicy adherence = true → TLS_CipherSuites c ≠ [])).
Proof.
  intros H. cbv zeta. assert (Hv : ∃ v, minTLSVersion (MinTLSVersion p) = Ok v).
  { unfold OptionsFromProfile in H. destruct (MinTLSVersion p); try discriminate H; by eexists. }
  destruct Hv as [v Hv]. pose proof (option_version p noConfig v Hv) as Hmin.
  assert (H' : (if v <? VersionTLS13
     then if bool_decide (List.filter runtimeSuite (TLS_CipherSuites ((NewTLSConfigFromProfile p).1 noConfig)) = []) &&
            (negb (bool_decide (Ciphers p = [])) || strictPolicy adherence)
          then None else Some (List.filter runtimeSuite (TLS_CipherSuites ((NewTLSConfigFromProfile p).1 noConfig)))
     else Some (TLS_CipherSuites ((NewTLSConfigFromProfile p).1 noConfig))) = Some (TLS_CipherSuites (serve opts)) ∧
     TLS_MinVersion (serve opts) = v).
  { unfold OptionsFromProfile in H. rewrite Hmin in H. destruct (MinTLSVersion p); try discriminate H;
      cbv zeta in H; destruct (v <? VersionTLS13).
    all: try (destruct (_ && _) in H |- *; [done|]). all: by injection H as <-. }
  clear H. destruct H' as [H' ->]. split; [done|]. intros Hlt%Z.ltb_lt. rewrite Hlt in H'.
  destruct (_ && _) eqn:E in H'; [done|]. injection H' as <-. split.
  - apply Forall_forall. intros id Hid%list_elem_of_In. apply filter_In in Hid as [_ Hr]. rewrite runtimeSuite_usable in Hr.
    apply andb_true_iff in Hr as [Hu Hr%negb_true_iff]. split; [by apply usableSuite_negotiable|done].
  - intros Hne Hnil. rewrite Hnil in E. rewrite bool_decide_eq_true_2 in E by done. cbn [andb] in E.
    apply orb_false_iff in E as [Hc%negb_false_iff%bool_decide_eq_true Hs]. destruct Hne as [Hne|Hne]; congruence.
Qed.

(** C26. What the module operator resolves to.  It falls back to the Intermediate
    profile only if nothing in the error, at any depth, is denied, empty or beyond
    recovery; and then it watches for the real profile unless the API does not
    exist at all.  A profile that could be read is followed and watched.  In both
    cases each server has the minimum version of the profile, no RC4, and below TLS
    1.3 a suite whenever the profile names one or the policy is strict. *)
Theorem module_tls_resolved read r :
  readTLSConfig NewTLSConfigFromProfile Intermediate read = Ok r →
  (match read with
   | inl e => excusable e ∧ Profile r = Intermediate ∧ AdherencePolicy r = NoOpinion ∧
       (watcherOf r = NoWatcher ↔ EF_NoMatch (flagsOf e) = true ∧ EF_NotFound (flagsOf e) = false ∧ resourcesOf e = None)
   | inr (adherence, resolved) => resolved = Ok (Profile r) ∧ AdherencePolicy r = adherence ∧ watcherOf r = ProfileWatcher
   end) ∧
  let c := serve (TLSOpts r) in
  minTLSVersion (MinTLSVersion (Profile r)) = Ok (TLS_MinVersion c) ∧
  (TLS_MinVersion c < VersionTLS13 →
    Forall (λ id, negotiable id ∧ isRC4 id = false) (TLS_CipherSuites c) ∧
    (Ciphers (Profile r) ≠ [] ∨ strictPolicy (AdherencePolicy r) = true → TLS_CipherSuites c ≠ [])).
Proof.
  unfold readTLSConfig. intros H. destruct read as [e|[adherence resolved]].
  - destruct (canFallbackTLS e) eqn:Ef; [|done]. apply bind_Ok in H as (opts & Ho & [= <-]).
    split; [|by apply (OptionsFromProfile_served Intermediate NoOpinion)]. rewrite <- canFallbackTLS_excusable.
    split_and!; [done..|]. unfold watcherOf. cbn.
    destruct (EF_NotFound (flagsOf e)), (EF_NoMatch (flagsOf e)), (resourcesOf e); cbn; rewrite ?andb_false_r;
      by split; [|intros (? & ? & ?)].
  - apply bind_Ok in H as (p & Hp%wrap_Ok & H). apply bind_Ok in H as (opts & Ho & [= <-]).
    split; [by split_and!|]. by apply (OptionsFromProfile_served p adherence).
Qed.

(** The fallback watcher ends with an error only for one that is beyond excuse. *)
Lemma Start_error rounds e :
  Start rounds = Some (Err e) → ∃ r e', r ∈ rounds ∧ RD_Error r = Some e' ∧ ¬ excusable e'.
Proof using Type.
  induction rounds as [|r rounds IH]; [done|]. cbn [Start]. destruct (RD_Done r); [done|].
  assert (Hlater : Start rounds = Some (Err e) → ∃ r0 e', r0 ∈ r :: rounds ∧ RD_Error r0 = Some e' ∧ ¬ excusable e').
  { intros (r0 & e' & Hr & H)%IH. exists r0, e'. split; [by right|done]. }
  destruct (RD_Error r) as [e'|] eqn:E; [|destruct (RD_DoneWaiting r); [done|exact Hlater]].
  destruct (canFallbackTLS e') eqn:Ef; cbn [negb]; [destruct (RD_DoneWaiting r); [done|exact Hlater]|].
  intros _. exists r, e'. split; [by left|split; [done|]]. rewrite <- canFallbackTLS_excusable. by rewrite Ef.
Qed.
End facts.

(** ** The operator looks into nothing *)

Definition noFlags : errorFlags :=
  {| EF_Forbidden := false; EF_Unauthorized := false; EF_NoMatch := false; EF_NotFound := false; EF_ServiceUnavailable := false;
     EF_InternalError := false; EF_Timeout := false; EF_ServerTimeout := false; EF_TooManyRequests := false;
     EF_DeadlineExceeded := false; EF_NetError := None |}.

Definition flagForbidden : errorFlags :=
  {| EF_Forbidden := true; EF_Unauthorized := false; EF_NoMatch := false; EF_NotFound := false; EF_ServiceUnavailable := false;
     EF_InternalError := false; EF_Timeout := false; EF_ServerTimeout := false; EF_TooManyRequests := false;
     EF_DeadlineExceeded := false; EF_NetError := None |}.

Definition flagNoMatch : errorFlags :=
  {| EF_Forbidden := false; EF_Unauthorized := false; EF_NoMatch := true; EF_NotFound := false; EF_ServiceUnavailable := false;
     EF_InternalError := false; EF_Timeout := false; EF_ServerTimeout := false; EF_TooManyRequests := false;
     EF_DeadlineExceeded := false; EF_NetError := None |}.

(** A discovery that was partly denied, and of which a kind is missing for that. *)
Definition deniedDiscovery : readError :=
  ReadError (New "discovery") flagNoMatch (Some [ReadError (New "forbidden") flagForbidden None None]) None.

(** The module stops; the operator starts with the fallback and without a watcher. *)
Lemma denied_discovery New Intermediate adherence :
  canFallbackTLS deniedDiscovery = false ∧
  ∃ r, TLS.Resolve New Intermediate (Ok tt) (Ok tt) (inl deniedDiscovery) adherence = Ok r ∧
    TLS.HasOpenShiftConfigAPI r = false.
Proof. split; [done|]. by eexists. Qed.
