(* ===== verification/Common.v ===== *)
(** * What the controllers share

    Names and labels of [controllers/ogxserver_controller.go] and
    [resource_helper.go], the reference to the runtime configuration, and the
    choice of the image. *)

From S2P Require Import Prelude Value ApiProviders ApiServer Fmt.

(** ** Names *)

Definition managedByLabelKey : string := "app.kubernetes.io/managed-by".
Definition managedByLabelVal : string := "ogx-operator".
Definition ogxConfigPath : string := "/etc/ogx/config.yaml".
Definition CABundleVolumeName : string := "ca-bundle".
Definition ManagedCABundleConfigMapSuffix : string := "-ca-bundle".
Definition ManagedCABundleKey : string := "ca-bundle.crt".
Definition ManagedCABundleMountPath : string := "/etc/ssl/certs/ca-bundle".
Definition ManagedCABundleFilePath : string := "/etc/ssl/certs/ca-bundle/ca-bundle.crt".
Definition odhTrustedCABundleConfigMap : string := "odh-trusted-ca-bundle".
Definition WatchLabelKey : string := "ogx.io/watch".
Definition WatchLabelValue : string := "true".
Definition instanceLabelKey : string := "app.kubernetes.io/instance".
Definition operatorConfigData : string := "ogx-operator-config".

Definition getManagedCABundleConfigMapName (instance : OGXServer) : string :=
  (Server_Name instance +:+ ManagedCABundleConfigMapSuffix)%string.

Definition hasCACertificates (instance : OGXServer) : bool :=
  match Spec_TLS (Server_Spec instance) ≫= TLSClient_Trust with
  | Some trust => negb (length (Trust_CACertificates trust) =? 0)%nat
  | None => false
  end.

(** The references that [hasCACertificates] looks at. *)
Definition caCertificates (instance : OGXServer) : list ConfigMapKeyRef :=
  match Spec_TLS (Server_Spec instance) ≫= TLSClient_Trust with
  | Some trust => Trust_CACertificates trust
  | None => []
  end.

Lemma hasCACertificates_none instance : hasCACertificates instance = false → caCertificates instance = [].
Proof.
  unfold hasCACertificates, caCertificates. destruct (_ ≫= _) as [trust|]; [|done].
  by destruct (Trust_CACertificates trust).
Qed.

(** ** The runtime configuration *)

(** [runtimeConfigRef] of [resource_helper.go] *)
Record runtimeConfigRef := {
  RC_ConfigMapName : string;
  RC_ConfigMapKey : string;
  RC_Generated : bool;
}.

Definition generatedConfigKeyName : string := "config.yaml".

(** The override configuration wins over a generated one; [""] is no pending
    ConfigMap. *)
Definition resolveRuntimeConfigRef (instance : OGXServer) (pendingGeneratedConfigMapName : string)
    : option runtimeConfigRef :=
  let generated :=
    if negb (bool_decide (pendingGeneratedConfigMapName = "")) then
      Some {| RC_ConfigMapName := pendingGeneratedConfigMapName; RC_ConfigMapKey := generatedConfigKeyName;
              RC_Generated := true |}
    else None in
  match Spec_OverrideConfig (Server_Spec instance) with
  | Some ref =>
      if negb (bool_decide (CKR_Name ref = "")) && negb (bool_decide (CKR_Key ref = "")) then
        Some {| RC_ConfigMapName := CKR_Name ref; RC_ConfigMapKey := CKR_Key ref; RC_Generated := false |}
      else generated
  | None => generated
  end.

(** ** The image *)

Section images.
Context (DistributionImages ImageMappingOverrides : gmap string string).

(** A reconciler without cluster information is not modelled: the constructor
    always sets it. *)
Definition validateDistribution (instance : OGXServer) : result unit :=
  let name := Dist_Name (Spec_Distribution (Server_Spec instance)) in
  if negb (bool_decide (name = "")) then
    match DistributionImages !! name with
    | None => Err (Errorf "failed to validate distribution: %s. Distribution name not supported" [name])
    | Some _ => Ok tt
    end
  else Ok tt.

Definition resolveImage (distribution : DistributionSpec) : result string :=
  if negb (bool_decide (Dist_Name distribution = "")) then
    match DistributionImages !! Dist_Name distribution with
    | None => Err (Errorf "failed to validate distribution name: %s" [Dist_Name distribution])
    | Some image => Ok (default image (ImageMappingOverrides !! Dist_Name distribution))
    end
  else if negb (bool_decide (Dist_Image distribution = "")) then Ok (Dist_Image distribution)
  else Err (New "failed to validate distribution: either distribution.name or distribution.image must be set").
End images.

(** ** Parts of a pod *)

Definition volumeMount (name path : string) : any :=
  AMap (<["name" := AString name]> (<["mountPath" := AString path]> {["readOnly" := ABool true]})).

(** The JSON of a ConfigMap volume source with one item. *)
Definition configMapSource (name key path : string) : VolumeSource :=
  {| Vol_ConfigMap := Some
       (Sprintf "{%q:%q,%q:[{%q:%q,%q:%q}]}" ["name"; name; "items"; "key"; key; "path"; path]);
     Vol_Secret := None; Vol_EmptyDir := None; Vol_PersistentVolumeClaim := None;
     Vol_Projected := None; Vol_DownwardAPI := None; Vol_Other := None |}.

Definition createCABundleVolume (managedConfigMapName : string) : Volume :=
  {| Vol_Name := CABundleVolumeName;
     Vol_Source := configMapSource managedConfigMapName ManagedCABundleKey ManagedCABundleKey |}.

Definition plainEnv (name value : string) : EnvVar :=
  {| Env_Name := name; Env_Value := value; Env_ValueFrom := None |}.
