(* ===== verification/Status.v ===== *)
(** * Status and conditions

    The status types of [api/v1beta1/ogxserver_types.go] and the condition
    helpers of [controllers/status.go].  The clock is an argument [now]; a
    [metav1.Time] is a number of seconds. *)

From Stdlib Require Import ZArith.
From S2P Require Import Prelude Value ApiProviders.

(** ** Data *)

(** [metav1.Condition] *)
Record Condition := {
  Cond_Type : string;
  Cond_Status : string;
  Cond_Reason : string;
  Cond_Message : string;
  Cond_LastTransitionTime : Z;
}.

#[export] Instance Condition_eq_dec : EqDecision Condition.
Proof. solve_decision. Defined.

Definition ConditionTrue : string := "True".
Definition ConditionFalse : string := "False".

(** [...Unset] is the empty string. *)
Inductive OGXServerPhase :=
| OGXServerPhaseUnset
| OGXServerPhasePending
| OGXServerPhaseInitializing
| OGXServerPhaseReady
| OGXServerPhaseFailed
| OGXServerPhaseTerminating.

Record ProviderHealthStatus := { PH_Status : string; PH_Message : string }.

Record ProviderInfo := {
  PI_API : string;
  PI_ProviderID : string;
  PI_ProviderType : string;
  PI_Config : JSON;
  PI_Health : ProviderHealthStatus;
}.

Record DistributionConfig := {
  DC_ActiveDistribution : string;
  DC_Providers : list ProviderInfo;
  DC_AvailableDistributions : gmap string string;
}.

Record VersionInfo := {
  VI_OperatorVersion : string;
  VI_ServerVersion : string;
  VI_LastUpdated : Z;
}.

Record ResolvedDistributionStatus := {
  RD_Image : string;
  RD_ConfigSource : string;
  RD_ConfigHash : string;
}.

Record ConfigGenerationStatus := {
  CG_ObservedGeneration : Z;
  CG_ConfigMapName : string;
  CG_GeneratedAt : Z;
  CG_ProviderCount : Z;
  CG_ResourceCount : Z;
  CG_ConfigVersion : Z;
}.

Inductive MigrationPhase :=
| MigrationPhaseUnset
| MigrationPhasePending
| MigrationPhasePreflightFailed
| MigrationPhaseRunning
| MigrationPhaseFailed
| MigrationPhaseValidated.

Record MigrationStatus := {
  MS_Phase : MigrationPhase;
  MS_ObservedGeneration : Z;
  MS_AttemptKey : string;
  MS_JobName : string;
  MS_Message : string;
  MS_SoftRollbackWarning : string;
}.

Record OGXServerStatus := {
  Status_Phase : OGXServerPhase;
  Status_Version : VersionInfo;
  Status_DistributionConfig : DistributionConfig;
  Status_ResolvedDistribution : option ResolvedDistributionStatus;
  Status_ConfigGeneration : option ConfigGenerationStatus;
  Status_Migration : option MigrationStatus;
  Status_Conditions : list Condition;
  Status_AvailableReplicas : Z;
  Status_ServiceURL : string;
  Status_ExternalURL : option string;
}.

Definition withConditions (s : OGXServerStatus) (l : list Condition) : OGXServerStatus :=
  {| Status_Phase := Status_Phase s; Status_Version := Status_Version s;
     Status_DistributionConfig := Status_DistributionConfig s;
     Status_ResolvedDistribution := Status_ResolvedDistribution s;
     Status_ConfigGeneration := Status_ConfigGeneration s;
     Status_Migration := Status_Migration s; Status_Conditions := l;
     Status_AvailableReplicas := Status_AvailableReplicas s;
     Status_ServiceURL := Status_ServiceURL s; Status_ExternalURL := Status_ExternalURL s |}.

(** ** Setting and reading a condition *)

(** The value written over an existing condition of the same type: unchanged
    when nothing but the time differs, and keeping the transition time when
    the status does not change. *)
Definition updateCondition (existing condition : Condition) : Condition :=
  if bool_decide (Cond_Status existing = Cond_Status condition) &&
     bool_decide (Cond_Reason existing = Cond_Reason condition) &&
     bool_decide (Cond_Message existing = Cond_Message condition)
  then existing
  else if bool_decide (Cond_Status existing = Cond_Status condition)
  then {| Cond_Type := Cond_Type condition; Cond_Status := Cond_Status condition;
          Cond_Reason := Cond_Reason condition; Cond_Message := Cond_Message condition;
          Cond_LastTransitionTime := Cond_LastTransitionTime existing |}
  else condition.

(** The loop stops at the first condition of the type. *)
Fixpoint setInList (l : list Condition) (condition : Condition) : list Condition :=
  match l with
  | [] => [condition]
  | existing :: l =>
      if bool_decide (Cond_Type existing = Cond_Type condition)
      then updateCondition existing condition :: l
      else existing :: setInList l condition
  end.

Definition SetCondition (status : OGXServerStatus) (condition : Condition) : OGXServerStatus :=
  withConditions status (setInList (Status_Conditions status) condition).

(** [None] is the nil status, and the nil result. *)
Definition GetCondition (status : option OGXServerStatus) (conditionType : string) : option Condition :=
  match status with
  | None => None
  | Some s => List.find (λ c, bool_decide (Cond_Type c = conditionType)) (Status_Conditions s)
  end.

Definition IsConditionTrue (status : option OGXServerStatus) (conditionType : string) : bool :=
  match GetCondition status conditionType with
  | Some c => bool_decide (Cond_Status c = ConditionTrue)
  | None => false
  end.

Definition IsConditionFalse (status : option OGXServerStatus) (conditionType : string) : bool :=
  match GetCondition status conditionType with
  | Some c => bool_decide (Cond_Status c = ConditionFalse)
  | None => false
  end.

(** ** The setters *)

Definition ConditionTypeDeploymentReady : string := "DeploymentReady".
Definition ConditionTypeHealthCheck : string := "HealthCheck".
Definition ConditionTypeStorageReady : string := "StorageReady".
Definition ConditionTypeServiceReady : string := "ServiceReady".
Definition ConditionTypeConfigGenerated : string := "ConfigGenerated".
Definition ConditionTypePraxisReachable : string := "PraxisReachable".
Definition ConditionTypeTLSConfigured : string := "TLSConfigured".
Definition ConditionTypeMigrationPreflightReady : string := "MigrationPreflightReady".
Definition ConditionTypeMigrationJobSucceeded : string := "MigrationJobSucceeded".
Definition ConditionTypeMigrationValidated : string := "MigrationValidated".
Definition ConditionTypePraxisCutoverReady : string := "PraxisCutoverReady".
Definition ConditionTypeSoftRollbackAvailable : string := "SoftRollbackAvailable".

Definition ReasonDeploymentReady : string := "DeploymentReady".
Definition ReasonDeploymentFailed : string := "DeploymentFailed".
Definition ReasonHealthCheckPassed : string := "HealthCheckPassed".
Definition ReasonHealthCheckFailed : string := "HealthCheckFailed".
Definition ReasonStorageReady : string := "StorageReady".
Definition ReasonStorageFailed : string := "StorageFailed".
Definition ReasonServiceReady : string := "ServiceReady".
Definition ReasonServiceFailed : string := "ServiceFailed".
Definition ReasonPraxisReachable : string := "PraxisPodsReady".
Definition ReasonPraxisUnreachable : string := "NoReadyPraxisPods".
Definition ReasonPraxisSelectorInvalid : string := "PraxisSelectorInvalid".
Definition ReasonTLSConfigured : string := "TLSSecretFound".
Definition ReasonTLSSecretMissing : string := "TLSSecretMissing".
Definition ReasonTLSNotConfigured : string := "TLSSecretNotSet".
Definition MessageDeploymentReady : string := "Deployment is ready".
Definition MessageHealthCheckPassed : string := "Health check passed".
Definition MessageStorageReady : string := "Storage is ready".
Definition MessageServiceReady : string := "Service is ready".

Section setters.
Context (now : Z).

(** A condition whose status is the flag and whose reason and message are given. *)
Definition flagCondition (type : string) (flag : bool) (reason message : string) : Condition :=
  {| Cond_Type := type; Cond_Status := if flag then ConditionTrue else ConditionFalse;
     Cond_Reason := reason; Cond_Message := message; Cond_LastTransitionTime := now |}.

(** A condition with a fixed reason and message when true. *)
Definition readyCondition (type : string) (ready : bool) (okReason okMessage failReason message : string)
    : Condition :=
  if ready then flagCondition type true okReason okMessage
  else flagCondition type false failReason message.

Definition SetDeploymentReadyCondition status (ready : bool) (message : string) :=
  SetCondition status (readyCondition ConditionTypeDeploymentReady ready ReasonDeploymentReady
    MessageDeploymentReady ReasonDeploymentFailed message).

Definition SetHealthCheckCondition status (healthy : bool) (message : string) :=
  SetCondition status (readyCondition ConditionTypeHealthCheck healthy ReasonHealthCheckPassed
    MessageHealthCheckPassed ReasonHealthCheckFailed message).

Definition SetStorageReadyCondition status (ready : bool) (message : string) :=
  SetCondition status (readyCondition ConditionTypeStorageReady ready ReasonStorageReady
    MessageStorageReady ReasonStorageFailed message).

Definition SetServiceReadyCondition status (ready : bool) (message : string) :=
  SetCondition status (readyCondition ConditionTypeServiceReady ready ReasonServiceReady
    MessageServiceReady ReasonServiceFailed message).

Definition SetPraxisReachableCondition status (reachable : bool) (reason message : string) :=
  SetCondition status (flagCondition ConditionTypePraxisReachable reachable reason message).

Definition SetTLSConfiguredCondition status (configured : bool) (reason message : string) :=
  SetCondition status (flagCondition ConditionTypeTLSConfigured configured reason message).

Definition SetMigrationPreflightReadyCondition status (ready : bool) (reason message : string) :=
  SetCondition status (flagCondition ConditionTypeMigrationPreflightReady ready reason message).

Definition SetMigrationJobSucceededCondition status (succeeded : bool) (reason message : string) :=
  SetCondition status (flagCondition ConditionTypeMigrationJobSucceeded succeeded reason message).

Definition SetMigrationValidatedCondition status (validated : bool) (reason message : string) :=
  SetCondition status (flagCondition ConditionTypeMigrationValidated validated reason message).

Definition SetPraxisCutoverReadyCondition status (ready : bool) (reason message : string) :=
  SetCondition status (flagCondition ConditionTypePraxisCutoverReady ready reason message).

Definition SetSoftRollbackAvailableCondition status (available : bool) (reason message : string) :=
  SetCondition status (flagCondition ConditionTypeSoftRollbackAvailable available reason message).

Definition setConfigGeneratedCondition status (success : bool) (reason message : string) :=
  SetCondition status (flagCondition ConditionTypeConfigGenerated success reason message).
End setters.

(** ** Lemmas *)

Abbreviation findType l t := (List.find (λ c, bool_decide (Cond_Type c = t)) l) (only parsing).

Lemma updateCondition_type e c : Cond_Type e = Cond_Type c → Cond_Type (updateCondition e c) = Cond_Type c.
Proof. intros H. unfold updateCondition. by repeat case_match. Qed.

Lemma setInList_find_ne l c t :
  t ≠ Cond_Type c → findType (setInList l c) t = findType l t.
Proof.
  intros Hne. induction l as [|e l IH]; cbn.
  - by rewrite bool_decide_false.
  - case_bool_decide as He; cbn.
    + by rewrite !bool_decide_false by (rewrite ?updateCondition_type; congruence).
    + by rewrite IH.
Qed.

Lemma setInList_find_eq l c :
  findType (setInList l c) (Cond_Type c) =
  Some match findType l (Cond_Type c) with Some e => updateCondition e c | None => c end.
Proof.
  induction l as [|e l IH]; cbn.
  - by rewrite bool_decide_true.
  - case_bool_decide as He; cbn.
    + by rewrite bool_decide_true by by apply updateCondition_type.
    + by rewrite bool_decide_false.
Qed.

Lemma setInList_types l c :
  Cond_Type <$> setInList l c =
  if bool_decide (Cond_Type c ∈ Cond_Type <$> l) then Cond_Type <$> l
  else (Cond_Type <$> l) ++ [Cond_Type c].
Proof.
  induction l as [|e l IH]; cbn.
  - by rewrite bool_decide_false by apply not_elem_of_nil.
  - destruct (decide (Cond_Type e = Cond_Type c)) as [He|He].
    + rewrite !bool_decide_true by (rewrite ?He; done || by left). cbn.
      by rewrite updateCondition_type, He.
    + rewrite (bool_decide_false (Cond_Type e = Cond_Type c)) by done. cbn. rewrite IH.
      rewrite (bool_decide_ext (Cond_Type c ∈ Cond_Type e :: (Cond_Type <$> l)) (Cond_Type c ∈ Cond_Type <$> l)).
      * by case_bool_decide.
      * rewrite elem_of_cons. split; [|by right]. by intros [?|?].
Qed.

Lemma GetCondition_SetCondition_ne status c t :
  t ≠ Cond_Type c → GetCondition (Some (SetCondition status c)) t = GetCondition (Some status) t.
Proof. apply setInList_find_ne. Qed.

Lemma IsConditionTrue_SetCondition_ne status c t :
  t ≠ Cond_Type c → IsConditionTrue (Some (SetCondition status c)) t = IsConditionTrue (Some status) t.
Proof. intros Ht. unfold IsConditionTrue. by rewrite GetCondition_SetCondition_ne. Qed.

Lemma updateCondition_status e c : Cond_Status (updateCondition e c) = Cond_Status c.
Proof. unfold updateCondition. by repeat case_bool_decide. Qed.

Lemma IsConditionTrue_flag now status type flag reason message :
  IsConditionTrue (Some (SetCondition status (flagCondition now type flag reason message))) type = flag.
Proof.
  unfold IsConditionTrue, GetCondition, SetCondition. cbn [Status_Conditions withConditions].
  set (c := flagCondition _ _ _ _ _). change type with (Cond_Type c). rewrite setInList_find_eq.
  replace (Cond_Status _) with (Cond_Status c); [by destruct flag|].
  destruct (List.find _ _); [by rewrite updateCondition_status|done].
Qed.

Lemma withConditions_SetCondition status c l : withConditions (SetCondition status c) l = withConditions status l.
Proof. done. Qed.

Lemma withConditions_id status : withConditions status (Status_Conditions status) = status.
Proof. by destruct status. Qed.

(** Only conditions of the types [ts] may differ, and nothing else of the status. *)
Definition sameButConditions (ts : list string) (st st' : OGXServerStatus) : Prop :=
  (∀ t, t ∉ ts → GetCondition (Some st') t = GetCondition (Some st) t) ∧
  withConditions st' [] = withConditions st [].

Lemma setFlag_same now t flag reason message st :
  sameButConditions [t] st (SetCondition st (flagCondition now t flag reason message)).
Proof.
  split; [|done]. intros t' Ht. apply GetCondition_SetCondition_ne. cbn. set_solver.
Qed.

Lemma sameButConditions_refl ts st : sameButConditions ts st st.
Proof. done. Qed.

Lemma sameButConditions_trans ts ts' st1 st2 st3 :
  sameButConditions ts st1 st2 → sameButConditions ts' st2 st3 → sameButConditions (ts ++ ts') st1 st3.
Proof.
  intros [H1 E1] [H2 E2]. split; [|congruence]. intros t Ht. rewrite H2, H1; set_solver.
Qed.

(** ** Properties *)

(** [SetCondition] keeps one condition per type: the condition of its type gets
    the new status, reason and message, its transition time moves only when the
    status changes, every other type and the rest of the status are untouched,
    and a type that was there stays at its place. *)
Theorem SetCondition_spec status c :
  let status' := SetCondition status c in
  (∃ c', GetCondition (Some status') (Cond_Type c) = Some c' ∧
     Cond_Status c' = Cond_Status c ∧ Cond_Reason c' = Cond_Reason c ∧ Cond_Message c' = Cond_Message c ∧
     Cond_LastTransitionTime c' =
       match GetCondition (Some status) (Cond_Type c) with
       | Some e => if bool_decide (Cond_Status e = Cond_Status c)
                   then Cond_LastTransitionTime e else Cond_LastTransitionTime c
       | None => Cond_LastTransitionTime c
       end) ∧
  (∀ t, t ≠ Cond_Type c → GetCondition (Some status') t = GetCondition (Some status) t) ∧
  (NoDup (Cond_Type <$> Status_Conditions status) → NoDup (Cond_Type <$> Status_Conditions status')) ∧
  Cond_Type <$> Status_Conditions status' =
    (if bool_decide (Cond_Type c ∈ Cond_Type <$> Status_Conditions status)
     then Cond_Type <$> Status_Conditions status
     else (Cond_Type <$> Status_Conditions status) ++ [Cond_Type c]) ∧
  withConditions status' (Status_Conditions status) = status.
Proof.
  cbv zeta. unfold GetCondition, SetCondition. cbn [Status_Conditions withConditions].
  split; [|split; [|split; [|split]]].
  - rewrite setInList_find_eq. eexists. split; [reflexivity|].
    destruct (List.find _ _) as [e|]; [|done]. unfold updateCondition.
    repeat case_bool_decide; cbn; done.
  - intros t Ht. by apply setInList_find_ne.
  - intros Hnd. rewrite setInList_types. case_bool_decide as Hin; [done|].
    apply NoDup_app. split_and!; [done| |apply NoDup_singleton].
    intros x Hx ->%list_elem_of_singleton. done.
  - apply setInList_types.
  - by destruct status.
Qed.

(** Setting the same condition again, at any later time, changes nothing: a
    reconciler that observes the same state does not rewrite the status. *)
Theorem SetCondition_idempotent status c now :
  let again := {| Cond_Type := Cond_Type c; Cond_Status := Cond_Status c; Cond_Reason := Cond_Reason c;
                  Cond_Message := Cond_Message c; Cond_LastTransitionTime := now |} in
  SetCondition (SetCondition status c) again = SetCondition status c.
Proof.
  cbv zeta. unfold SetCondition. cbn [Status_Conditions withConditions]. f_equal.
  induction (Status_Conditions status) as [|e l IH]; cbn.
  - rewrite bool_decide_true by done. unfold updateCondition. cbn. by rewrite !bool_decide_true.
  - case_bool_decide as He; cbn.
    + rewrite bool_decide_true by by apply updateCondition_type. f_equal.
      unfold updateCondition at 1.
      assert (H : Cond_Status (updateCondition e c) = Cond_Status c ∧
                  Cond_Reason (updateCondition e c) = Cond_Reason c ∧
                  Cond_Message (updateCondition e c) = Cond_Message c).
      { unfold updateCondition. repeat case_bool_decide; cbn; done. }
      destruct H as (H1 & H2 & H3). cbn. by rewrite H1, H2, H3, !bool_decide_true.
    + rewrite bool_decide_false by done. by rewrite IH.
Qed.
