(* ===== verification/Client.v ===== *)
(** * The API server as the controllers see it

    The client of controller-runtime is not part of the repository.  This file
    is the interface to it: the operations, and what the controllers rely on.
    [W] is the state of the cluster and [O] a kind of objects. *)

From S2P Require Import Prelude.

(** A namespace and a name. *)
Abbreviation NamespacedName := (string * string)%type.

(** A failed call, by the reason that the controllers distinguish. *)
Inductive apiError :=
| NotFound (e : error)
| AlreadyExists (e : error)
| Conflict (e : error)
| NoMatch (e : error)      (* the kind is not served *)
| OtherError (e : error).

Definition IsNotFound (e : apiError) : bool := match e with NotFound _ => true | _ => false end.

Definition IsAlreadyExists (e : apiError) : bool := match e with AlreadyExists _ => true | _ => false end.

Definition IsConflict (e : apiError) : bool := match e with Conflict _ => true | _ => false end.

Definition IsNoMatchError (e : apiError) : bool := match e with NoMatch _ => true | _ => false end.

Definition apiErr (e : apiError) : error :=
  match e with NotFound e | AlreadyExists e | Conflict e | NoMatch e | OtherError e => e end.

(** [objectKey] is the identity of an object, and [persists o o'] says that
    [o'] carries everything the client wrote in [o]; the server owns the rest
    (the resource version, the status).  [deleting] says that the deletion
    timestamp is set. *)
Class APIObject (O : Type) := {
  objectKey : O → NamespacedName;
  persists : O → O → Prop;
  deleting : O → bool;
}.

Class Client (W O : Type) := {
  stored : W → NamespacedName → option O;
  Get : W → NamespacedName → apiError + O;
  Create : W → O → W * option apiError;
  Update : W → O → W * option apiError;
  Delete : W → NamespacedName → W * option apiError;
}.

(** What the controllers rely on when they write: a write that fails changes
    nothing, and one that succeeds changes only its object.  A deleted object may
    stay, marked, until its finalizers have run. *)
Class WriteLaws (W O : Type) `{APIObject O, Client W O} : Prop := {
  stored_key : ∀ w k o, stored w k = Some o → objectKey o = k;
  Create_spec : ∀ w o,
    let '(w', e) := Create w o in
    (∀ k, k ≠ objectKey o ∨ e ≠ None → stored w' k = stored w k) ∧
    (e = None → stored w (objectKey o) = None ∧
                ∃ o', stored w' (objectKey o) = Some o' ∧ persists o o');
  Update_spec : ∀ w o,
    let '(w', e) := Update w o in
    (∀ k, k ≠ objectKey o ∨ e ≠ None → stored w' k = stored w k) ∧
    (e = None → ∃ o', stored w' (objectKey o) = Some o' ∧ persists o o');
  Delete_spec : ∀ w k,
    let '(w', e) := Delete w k in
    (∀ k', k' ≠ k ∨ e ≠ None → stored w' k' = stored w k') ∧
    (e = None → ∀ o', stored w' k = Some o' →
       deleting o' = true ∧ ∃ o, stored w k = Some o ∧ persists o o') ∧
    (∀ e', e = Some (NotFound e') → stored w k = None);
}.

(** A client that sees everything: a read returns the stored object, or says that
    there is none, or fails. *)
Class ClientLaws (W O : Type) `{APIObject O, Client W O} : Prop := {
  client_writes :: WriteLaws W O;
  Get_spec : ∀ w k,
    match Get w k with
    | inr o => stored w k = Some o
    | inl (NotFound _) => stored w k = None
    | inl _ => True
    end;
}.

(** A client that reads from a cache, which holds only the objects that a label
    selects.  It writes like any other, but an object that the cache does not
    hold is not found. *)
Class ReadCache (W O : Type) := held : O → bool.

Arguments held W {O _} o.

Section cache.
Context {W O : Type} `{Client W O, ReadCache W O}.

(** What a read can return. *)
Definition seen (w : W) (k : NamespacedName) : option O :=
  match stored w k with Some o => if held W o then Some o else None | None => None end.

Lemma seen_Some w k o : seen w k = Some o ↔ stored w k = Some o ∧ held W o = true.
Proof.
  unfold seen. destruct (stored w k) as [o'|]; [|by split; [|intros [? _]]].
  destruct (held W o') eqn:E; split; [by intros [= <-]|by intros [[= <-] _]|done|intros [[= <-] ?]; congruence].
Qed.

Lemma seen_None w k : seen w k = None ↔ ∀ o, stored w k = Some o → held W o = false.
Proof.
  unfold seen. destruct (stored w k) as [o'|]; [|done].
  destruct (held W o') eqn:E; split; [done|intros H1; by rewrite (H1 o' eq_refl) in E|by intros _ o [= <-]|done].
Qed.

Lemma seen_same w w' k : stored w' k = stored w k → seen w' k = seen w k.
Proof. unfold seen. by intros ->. Qed.
End cache.

Class CachedLaws (W O : Type) `{APIObject O, Client W O, ReadCache W O} : Prop := {
  cached_writes :: WriteLaws W O;
  Get_cached : ∀ w k,
    match Get w k with
    | inr o => seen w k = Some o
    | inl (NotFound _) => seen w k = None
    | inl _ => True
    end;
}.

(** A cache in front of a client that sees everything. *)
Section cached.
Context {W O : Type} `{APIObject O} (C : Client W O) `{ReadCache W O}.

Definition cached_client : Client W O := {|
  stored := stored;
  Get w k :=
    match Get w k with
    | inr o => if held W o then inr o else inl (NotFound (New "not found"))
    | inl e => inl e
    end;
  Create := Create;
  Update := Update;
  Delete := Delete;
|}.

Lemma cached_client_laws : ClientLaws W O → @CachedLaws W O _ cached_client _.
Proof.
  intros HW. split; [by destruct HW as [[]]|]. intros w k. pose proof (Get_spec w k) as Hg.
  unfold seen. cbn [Get stored cached_client].
  destruct (Get w k) as [[e|e|e|e|e]|o]; [by rewrite Hg|done..|]. destruct (held W o) eqn:Eh; by rewrite Hg, Eh.
Qed.
End cached.

(** A cache that holds everything. *)
Lemma full_cache_laws {W O : Type} `{APIObject O, !Client W O, !ReadCache W O} :
  ClientLaws W O → (∀ o, held W o = true) → CachedLaws W O.
Proof.
  intros HW Hh. split; [apply _|]. intros w k. pose proof (Get_spec w k) as Hg. unfold seen.
  destruct (Get w k) as [[e|e|e|e|e]|o]; rewrite ?Hg, ?Hh; done.
Qed.

(** ** Typed access

    One store may be read and written as different Go types: the client converts
    the objects of the store to the type that is asked for, and back. *)

Class Conversion (O T : Type) `{APIObject O, APIObject T} := {
  encode : T → O;
  decode : O → T;
  encode_key : ∀ t, objectKey (encode t) = objectKey t;
  decode_key : ∀ o, objectKey (decode o) = objectKey o;
  decode_persists : ∀ t o, persists (encode t) o → persists t (decode o);
  decode_mono : ∀ o o', persists o o' → persists (decode o) (decode o');
  decode_deleting : ∀ o, deleting (decode o) = deleting o;
}.

Section typed.
Context {W O T : Type} `{Client W O, V : Conversion O T}.

Definition typed_client : Client W T := {|
  stored w k := decode <$> stored w k;
  Get w k := match Get w k with inl e => inl e | inr o => inr (decode o) end;
  Create w t := Create w (encode t);
  Update w t := Update w (encode t);
  Delete w k := Delete w k;
|}.

#[local] Existing Instance typed_client.

Lemma typed_writes : WriteLaws W O → WriteLaws W T.
Proof.
  intros HW. split; cbn [stored Create Update Delete typed_client].
  - intros w k t (o & Ho & ->)%fmap_Some. rewrite decode_key. by apply stored_key in Ho.
  - intros w t. pose proof (Create_spec w (encode t)) as Hc. cbn. rewrite encode_key in Hc.
    destruct (Create w (encode t)) as [w' e]. destruct Hc as [Hf Hs]. split; [intros k Hk; by rewrite Hf|].
    intros He. destruct (Hs He) as (Hn & o' & Ho' & Hp). split; [by rewrite Hn|].
    exists (decode o'). split; [by rewrite Ho'|by apply decode_persists].
  - intros w t. pose proof (Update_spec w (encode t)) as Hc. cbn. rewrite encode_key in Hc.
    destruct (Update w (encode t)) as [w' e]. destruct Hc as [Hf Hs]. split; [intros k Hk; by rewrite Hf|].
    intros He. destruct (Hs He) as (o' & Ho' & Hp). exists (decode o'). split; [by rewrite Ho'|by apply decode_persists].
  - intros w k. pose proof (Delete_spec w k) as Hd. cbn. destruct (Delete w k) as [w' e]. destruct Hd as (Hf & Hs & Hn).
    split_and!; [intros k' Hk; by rewrite Hf| |intros e' He; by rewrite (Hn e' He)].
    intros He t' (o' & Ho' & ->)%fmap_Some. destruct (Hs He o' Ho') as (Hdel & o & Ho & Hp).
    rewrite decode_deleting, Ho. split; [done|]. exists (decode o). split; [done|by apply decode_mono].
Qed.

(** The typed client reads from the same cache. *)
Lemma typed_seen `{!ReadCache W O, !ReadCache W T} : (∀ o, held W (decode (T := T) o) = held W o) →
  ∀ w k, seen w k = decode <$> (seen w k : option O).
Proof.
  intros Hh w k. unfold seen. cbn. destruct (stored w k) as [o|]; [|done]. cbn. rewrite Hh. by destruct (held W o).
Qed.

Lemma typed_cached_laws `{!ReadCache W O, !ReadCache W T} : (∀ o, held W (decode (T := T) o) = held W o) →
  CachedLaws W O → CachedLaws W T.
Proof.
  intros Hh HW. split; [apply typed_writes, _|]. intros w k. pose proof (Get_cached w k) as Hg. cbn.
  destruct (Get w k) as [[]|o]; rewrite ?(typed_seen Hh), ?Hg; done.
Qed.

Lemma typed_laws : ClientLaws W O → ClientLaws W T.
Proof.
  intros HW. split; [apply typed_writes, _|]. intros w k. pose proof (Get_spec w k) as Hg. cbn.
  destruct (Get w k) as [[]|o]; rewrite ?Hg; done.
Qed.
End typed.

(** ** A concrete client

    A map of objects, in which the calls of one kind on one object may fail. *)

Inductive verb := VGet | VCreate | VUpdate | VDelete | VPatch | VList.

Section map_client.
Context {O : Type} {AO : APIObject O} (fault : verb → NamespacedName → option error).

Implicit Types w : gmap NamespacedName O.

Definition failing {A} (v : verb) (k : NamespacedName) (w : A) (run : A * option apiError) : A * option apiError :=
  match fault v k with Some e => (w, Some (OtherError e)) | None => run end.

Definition mapGet w k : apiError + O :=
  match fault VGet k with
  | Some e => inl (OtherError e)
  | None => match w !! k with Some o => inr o | None => inl (NotFound (New "not found")) end
  end.

Definition mapCreate w o :=
  failing VCreate (objectKey o) w
    match w !! objectKey o with Some _ => (w, Some (AlreadyExists (New "already exists"))) | None => (<[objectKey o := o]> w, None) end.

Definition mapUpdate w o :=
  failing VUpdate (objectKey o) w
    match w !! objectKey o with Some _ => (<[objectKey o := o]> w, None) | None => (w, Some (NotFound (New "not found"))) end.

Definition mapDelete w k :=
  failing VDelete k w
    match w !! k with Some _ => (delete k w, None) | None => (w, Some (NotFound (New "not found"))) end.

(** Every object is filed under its key. *)
Definition filed w : Prop := map_Forall (λ k o, objectKey o = k) w.

#[local] Instance filed_dec w : Decision (filed w).
Proof. unfold filed. apply _. Defined.

(** The reachable states of the map client. *)
Definition mapState : Type := { w : gmap NamespacedName O | bool_decide (filed w) }.

Definition lift (w : mapState) (run : gmap NamespacedName O * option apiError) : mapState * option apiError :=
  match decide (bool_decide (filed run.1)) with
  | left H => (run.1 ↾ H, run.2)
  | right _ => (w, Some (OtherError (New "unreachable")))
  end.

#[export] Instance map_client : Client mapState O := {
  stored := λ s k, `s !! k;
  Get := λ s k, mapGet (`s) k;
  Create := λ s o, lift s (mapCreate (`s) o);
  Update := λ s o, lift s (mapUpdate (`s) o);
  Delete := λ s k, lift s (mapDelete (`s) k);
}.

Definition file w (H : filed w) : mapState := w ↾ bool_decide_pack _ H.

(** The cluster that holds the objects of a list. *)
Definition listMap (l : list O) : gmap NamespacedName O := list_to_map ((λ o, (objectKey o, o)) <$> l).

Lemma listMap_filed l : filed (listMap l).
Proof.
  intros k o Hk. apply elem_of_list_to_map_2, list_elem_of_fmap in Hk as (o' & [= -> ->] & _). done.
Qed.

Definition fileAll (l : list O) : mapState := file _ (listMap_filed l).

Lemma fileAll_in l k o : proj1_sig (fileAll l) !! k = Some o → o ∈ l.
Proof. intros H%elem_of_list_to_map_2. apply list_elem_of_fmap in H as (o' & [= _ ->] & H). done. Qed.

Lemma filed_insert w o : filed w → filed (<[objectKey o := o]> w).
Proof. intros H. by apply map_Forall_insert_2. Qed.

Lemma filed_delete w k : filed w → filed (delete k w).
Proof. apply map_Forall_delete. Qed.

Lemma lift_filed (w : mapState) run :
  filed run.1 → ∃ w' : mapState, lift w run = (w', run.2) ∧ `w' = run.1.
Proof.
  intros H. unfold lift. destruct (decide _) as [Hd|Hn]; [by eexists|].
  destruct Hn. by apply bool_decide_pack.
Qed.

#[export] Instance map_client_laws : (∀ o : O, persists o o) → ClientLaws mapState O.
Proof.
  intros Hp. split; [split|intros s k; cbn; unfold mapGet; destruct (fault VGet k); [done|]; by destruct (_ !! k)].
  - intros [s Hw] k o. exact (bool_decide_unpack _ Hw k o).
  - intros s o. cbn. pose proof (bool_decide_unpack _ (proj2_sig s)) as Hw.
    destruct (lift_filed s (mapCreate (`s) o)) as (w' & -> & Hw').
    { unfold mapCreate, failing. repeat case_match; cbn; auto using filed_insert. }
    unfold stored. cbn. rewrite Hw'. unfold mapCreate, failing. destruct (fault VCreate _); cbn; [done|].
    destruct (_ !! objectKey o); cbn; [done|].
    split; [intros k [?|?]; [by rewrite lookup_insert_ne|done]|].
    split; [done|]. exists o. by rewrite lookup_insert_eq.
  - intros s o. cbn. pose proof (bool_decide_unpack _ (proj2_sig s)) as Hw.
    destruct (lift_filed s (mapUpdate (`s) o)) as (w' & -> & Hw').
    { unfold mapUpdate, failing. repeat case_match; cbn; auto using filed_insert. }
    unfold stored. cbn. rewrite Hw'. unfold mapUpdate, failing. destruct (fault VUpdate _); cbn; [done|].
    destruct (_ !! objectKey o); cbn; [|done].
    split; [intros k [?|?]; [by rewrite lookup_insert_ne|done]|].
    intros _. exists o. by rewrite lookup_insert_eq.
  - intros s k. cbn. pose proof (bool_decide_unpack _ (proj2_sig s)) as Hw.
    destruct (lift_filed s (mapDelete (`s) k)) as (w' & -> & Hw').
    { unfold mapDelete, failing. repeat case_match; cbn; auto using filed_delete. }
    unfold stored. cbn. rewrite Hw'. unfold mapDelete, failing. destruct (fault VDelete _); cbn; [done|].
    destruct (`s !! k) eqn:E; cbn; [|done].
    split; [intros k' [?|?]; [by rewrite lookup_delete_ne|done]|].
    split; [by rewrite lookup_delete_eq|done].
Qed.
End map_client.
