(* ===== verification/Action.v ===== *)
(** * Stateful computations that may fail

    A controller function reads and writes the cluster and the status of the
    instance and returns a result; what it wrote before it failed stays
    written.  This file holds that monad, its notation (stdpp's), and the two
    ways in which the components reason about it: what every run preserves, and
    what a successful run has done. *)

From S2P Require Import Prelude Client.

Definition M (S A : Type) : Type := S → S * result A.

#[global] Instance M_ret {S} : MRet (M S) := λ A a s, (s, Ok a).
#[global] Instance M_bind {S} : MBind (M S) := λ A B f m s,
  match m s with (s', Ok a) => f a s' | (s', Err e) => (s', Err e) end.

(** [return err] *)
Definition raise {S A} (e : error) : M S A := λ s, (s, Err e).

(** [if err != nil { return fmt.Errorf("... %w", args, err) }] *)
Definition wrapM {S A} (format : string) (args : list string) (m : M S A) : M S A :=
  λ s, let '(s', r) := m s in (s', wrap format args r).

Definition gets {S A} (f : S → A) : M S A := λ s, (s, Ok (f s)).

Definition modify {S} (f : S → S) : M S unit := λ s, (f s, Ok tt).

(** A computation that cannot fail is a value. *)
Definition pureM {S A} (r : result A) : M S A := λ s, (s, r).

(** Runs a computation on a part of the state. *)
Definition zoom {S T A} (view : S → T) (set : T → S → S) (m : M T A) : M S A :=
  λ s, let '(t, r) := m (view s) in (set t s, r).

(** The error of a write. *)
Definition writing {S} (format : string) (args : list string) (run : S → S * option apiError) : M S unit :=
  λ s, let '(s', e) := run s in
       (s', match e with Some e => Err (Wrapf format args (apiErr e)) | None => Ok tt end).

(** ** What every run preserves *)

(** [m] relates the state before and after, whether it fails or not. *)
Definition keeps {S A} (R : relation S) (m : M S A) : Prop := ∀ s, R s (m s).1.

Create HintDb keeps.

Section keeps.
Context {S : Type} (R : relation S) `{!PreOrder R}.
#[local] Set Default Proof Using "Type*".

Lemma keeps_ret {A} (a : A) : keeps R (mret a).
Proof. intros s. cbn. reflexivity. Qed.

Lemma keeps_raise {A} e : keeps R (raise (A := A) e).
Proof. intros s. cbn. reflexivity. Qed.

Lemma keeps_gets {A} (f : S → A) : keeps R (gets f).
Proof. intros s. cbn. reflexivity. Qed.

Lemma keeps_pure {A} (r : result A) : keeps R (pureM r).
Proof. intros s. cbn. reflexivity. Qed.

Lemma keeps_bind {A B} (m : M S A) (f : A → M S B) :
  keeps R m → (∀ a, keeps R (f a)) → keeps R (m ≫= f).
Proof.
  intros Hm Hf s. unfold mbind, M_bind. specialize (Hm s). destruct (m s) as [s' [a|e]]; [|done].
  cbn in *. etransitivity; [done|apply Hf].
Qed.

Lemma keeps_wrap {A} fmt args (m : M S A) : keeps R m → keeps R (wrapM fmt args m).
Proof. intros Hm s. unfold wrapM. specialize (Hm s). by destruct (m s). Qed.

Lemma keeps_if {A} (b : bool) (m1 m2 : M S A) : keeps R m1 → keeps R m2 → keeps R (if b then m1 else m2).
Proof. by destruct b. Qed.
End keeps.

#[export] Hint Resolve keeps_ret keeps_raise keeps_gets keeps_pure keeps_bind keeps_wrap keeps_if : keeps.

Lemma keeps_zoom {S T A} (R : relation S) (Q : relation T) view set (m : M T A) :
  keeps Q m → (∀ s t, Q (view s) t → R s (set t s)) → keeps R (zoom view set m).
Proof.
  intros Hm HR s. unfold zoom. specialize (Hm (view s)). destruct (m (view s)) as [t r]. by apply HR.
Qed.

Lemma keeps_weaken {S A} (R Q : relation S) (m : M S A) :
  keeps R m → (∀ s s', R s s' → Q s s') → keeps Q m.
Proof. intros Hm HR s. apply HR, Hm. Qed.

(** ** What a successful run has done *)

Definition ends {S A} (m : M S A) (s : S) (Q : A → S → Prop) : Prop :=
  ∀ s' a, m s = (s', Ok a) → Q a s'.

Lemma ends_bind {S A B} (m : M S A) (f : A → M S B) s (Q : A → S → Prop) (P : B → S → Prop) :
  ends m s Q → (∀ a s', Q a s' → ends (f a) s' P) → ends (m ≫= f) s P.
Proof.
  intros Hm Hf s' b. unfold mbind, M_bind. destruct (m s) as [s1 [a|e]] eqn:E; [|done].
  intros Hb. exact (Hf a s1 (Hm _ _ E) s' b Hb).
Qed.

Lemma ends_weaken {S A} (m : M S A) s (Q P : A → S → Prop) :
  ends m s Q → (∀ a s', Q a s' → P a s') → ends m s P.
Proof. intros Hm H s' a E. apply H. by apply Hm. Qed.

Lemma wrapM_Ok {S A} fmt args (m : M S A) s s' a : wrapM fmt args m s = (s', Ok a) ↔ m s = (s', Ok a).
Proof. unfold wrapM. destruct (m s) as [s1 [b|e]]; split; intros [= <- <-] || intros [=]; done. Qed.

Lemma bindM_Ok {S A B} (m : M S A) (f : A → M S B) s s' b :
  (m ≫= f) s = (s', Ok b) ↔ ∃ s1 a, m s = (s1, Ok a) ∧ f a s1 = (s', Ok b).
Proof.
  unfold mbind, M_bind. destruct (m s) as [s1 [a|e]]; split.
  - intros H. eauto.
  - by intros (s2 & a2 & [= -> ->] & H).
  - done.
  - by intros (s2 & a2 & [=] & H).
Qed.

(** A run is its first step and the rest. *)
Lemma bindM_step {S A B} (m : M S A) (f : A → M S B) s s1 r :
  m s = (s1, r) → (m ≫= f) s = match r with Ok a => f a s1 | Err e => (s1, Err e) end.
Proof. intros E. unfold mbind, M_bind. rewrite E. by destruct r. Qed.

Lemma bindM_run {S A B} (m : M S A) (f : A → M S B) s :
  (m ≫= f) s = match (m s).2 with Ok a => f a (m s).1 | Err e => ((m s).1, Err e) end.
Proof. unfold mbind, M_bind. by destruct (m s) as [s1 [a|e]]. Qed.

Lemma zoom_run {S T A} (view : S → T) set (m : M T A) s :
  zoom view set m s = (set (m (view s)).1 s, (m (view s)).2).
Proof. unfold zoom. by destruct (m (view s)). Qed.

Lemma wrapM_run {S A} fmt args (m : M S A) s :
  wrapM fmt args m s = ((m s).1, wrap fmt args (m s).2).
Proof. unfold wrapM. by destruct (m s). Qed.
