(* ===== verification/Objects.v ===== *)
(** * Kubernetes objects with owners

    The metadata by which the controllers decide whom an object belongs to, and
    the operations of the client that only some of them use: listing by label
    and merge patches. *)

From Stdlib Require Import ZArith.
From S2P Require Import Prelude ApiProviders ApiServer Client Action.

(** ** Metadata *)

(** [metav1.OwnerReference] *)
Record OwnerReference := {
  Owner_APIVersion : string;
  Owner_Kind : string;
  Owner_Name : string;
  Owner_UID : string;
  Owner_Controller : option bool;
}.

#[export] Instance OwnerReference_eq_dec : EqDecision OwnerReference.
Proof. solve_decision. Defined.

(** The metadata of a child object; nil labels and annotations are the empty map. *)
Record Metadata := {
  Obj_Namespace : string;
  Obj_Name : string;
  Obj_Labels : gmap string string;
  Obj_Annotations : gmap string string;
  Obj_OwnerReferences : list OwnerReference;
  Obj_Deleting : bool;
}.

(** An object of a kind, with the part of it outside the metadata. *)
Record Object (Spec : Type) := { Obj_Meta : Metadata; Obj_Spec : Spec }.
Arguments Obj_Meta {_} _.
Arguments Obj_Spec {_} _.
Arguments Build_Object {_} _ _.

#[export] Instance Object_object {Spec} : APIObject (Object Spec) := {
  objectKey := λ o, (Obj_Namespace (Obj_Meta o), Obj_Name (Obj_Meta o));
  persists := λ o o',
    Obj_Labels (Obj_Meta o') = Obj_Labels (Obj_Meta o) ∧
    Obj_Annotations (Obj_Meta o') = Obj_Annotations (Obj_Meta o) ∧
    Obj_OwnerReferences (Obj_Meta o') = Obj_OwnerReferences (Obj_Meta o) ∧
    Obj_Spec o' = Obj_Spec o;
  deleting := λ o, Obj_Deleting (Obj_Meta o);
}.

Lemma persists_refl {Spec} (o : Object Spec) : persists o o.
Proof. done. Qed.

Definition withMeta {Spec} (f : Metadata → Metadata) (o : Object Spec) : Object Spec :=
  {| Obj_Meta := f (Obj_Meta o); Obj_Spec := Obj_Spec o |}.

Definition withSpec {Spec} (spec : Spec) (o : Object Spec) : Object Spec :=
  {| Obj_Meta := Obj_Meta o; Obj_Spec := spec |}.

Definition SetLabels (l : gmap string string) (m : Metadata) : Metadata :=
  {| Obj_Namespace := Obj_Namespace m; Obj_Name := Obj_Name m; Obj_Labels := l;
     Obj_Annotations := Obj_Annotations m; Obj_OwnerReferences := Obj_OwnerReferences m;
     Obj_Deleting := Obj_Deleting m |}.

Definition SetAnnotations (a : gmap string string) (m : Metadata) : Metadata :=
  {| Obj_Namespace := Obj_Namespace m; Obj_Name := Obj_Name m; Obj_Labels := Obj_Labels m;
     Obj_Annotations := a; Obj_OwnerReferences := Obj_OwnerReferences m; Obj_Deleting := Obj_Deleting m |}.

Definition SetOwnerReferences (l : list OwnerReference) (m : Metadata) : Metadata :=
  {| Obj_Namespace := Obj_Namespace m; Obj_Name := Obj_Name m; Obj_Labels := Obj_Labels m;
     Obj_Annotations := Obj_Annotations m; Obj_OwnerReferences := l; Obj_Deleting := Obj_Deleting m |}.

(** ** Controllers *)

Definition isController (r : OwnerReference) : bool := bool_decide (Owner_Controller r = Some true).

(** [metav1.GetControllerOf]: the owner marked as the controller. *)
Definition GetControllerOf (m : Metadata) : option OwnerReference :=
  List.find isController (Obj_OwnerReferences m).

(** [metav1.IsControlledBy] *)
Definition IsControlledBy (m : Metadata) (instance : OGXServer) : bool :=
  match GetControllerOf m with
  | Some r => bool_decide (Owner_UID r = Meta_UID (Server_Meta instance))
  | None => false
  end.

(** [ctrl.SetControllerReference]: it may refuse; when it does not, it changes
    only the owners, the instance becomes the controller, and no other owner is
    added. *)
Definition setsController (SetControllerReference : OGXServer → Metadata → result Metadata) : Prop :=
  ∀ instance m m', SetControllerReference instance m = Ok m' →
    m' = SetOwnerReferences (Obj_OwnerReferences m') m ∧
    IsControlledBy m' instance = true ∧
    ∀ r, r ∈ Obj_OwnerReferences m' → r ∈ Obj_OwnerReferences m ∨
         Owner_UID r = Meta_UID (Server_Meta instance).

(** One that satisfies it: the reference is appended, unless there is a
    controller already. *)
Definition appendController (instance : OGXServer) (m : Metadata) : result Metadata :=
  match GetControllerOf m with
  | Some r =>
      if bool_decide (Owner_UID r = Meta_UID (Server_Meta instance)) then Ok m
      else Err (New "already owned by another controller")
  | None =>
      Ok (SetOwnerReferences (Obj_OwnerReferences m ++
            [{| Owner_APIVersion := "ogx.io/v1beta1"; Owner_Kind := "OGXServer";
                Owner_Name := Server_Name instance; Owner_UID := Meta_UID (Server_Meta instance);
                Owner_Controller := Some true |}]) m)
  end.

Lemma find_app {A} (f : A → bool) l k :
  List.find f (l ++ k) = match List.find f l with Some x => Some x | None => List.find f k end.
Proof. induction l as [|x l IH]; cbn; [done|]. by destruct (f x). Qed.

Lemma appendController_sets : setsController appendController.
Proof.
  intros instance m m'. unfold appendController. destruct (GetControllerOf m) as [r|] eqn:E.
  - case_bool_decide as Hu; intros [= <-]. split; [by destruct m|].
    split; [|auto]. unfold IsControlledBy. rewrite E. by apply bool_decide_eq_true.
  - intros [= <-]. split; [done|]. split.
    + unfold IsControlledBy, GetControllerOf in *. cbn. rewrite find_app, E. cbn. by apply bool_decide_eq_true.
    + intros r [Hr|Hr]%elem_of_app; [by left|]. apply list_elem_of_singleton in Hr. subst. by right.
Qed.

(** Dropping the references marked as controller. *)
Definition withoutController (l : list OwnerReference) : list OwnerReference :=
  List.filter (λ r, negb (isController r)) l.

Lemma withoutController_none l : List.find isController (withoutController l) = None.
Proof.
  induction l as [|r l IH]; cbn; [done|]. destruct (isController r) eqn:E; cbn; [done|]. by rewrite E.
Qed.

Lemma elem_of_withoutController r l : r ∈ withoutController l ↔ r ∈ l ∧ isController r = false.
Proof.
  unfold withoutController. by rewrite !list_elem_of_In, filter_In, negb_true_iff.
Qed.

(** ** Lists and patches *)

(** [client.List] in one namespace with a label selector. *)
Class Lister (W O : Type) := {
  List : W → string → (O → bool) → apiError + list O;
}.

Class ListerLaws (W O : Type) `{APIObject O, Client W O, Lister W O} : Prop := {
  List_spec : ∀ w ns p,
    match List w ns p with
    | inr l => NoDup l ∧
        ∀ o, o ∈ l ↔ (objectKey o).1 = ns ∧ p o = true ∧ stored w (objectKey o) = Some o
    | inl _ => True
    end;
}.

(** A list from a cache has the objects that the cache holds. *)
Class CachedListerLaws (W O : Type) `{APIObject O, Client W O, ReadCache W O, Lister W O} : Prop := {
  List_cached : ∀ w ns p,
    match List w ns p with
    | inr l => NoDup l ∧
        ∀ o, o ∈ l ↔ (objectKey o).1 = ns ∧ p o = true ∧ seen w (objectKey o) = Some o
    | inl _ => True
    end;
}.

Section cached.
Context {W O : Type} `{APIObject O} (C : Client W O) (L : Lister W O) `{ReadCache W O}.

Definition cached_lister : Lister W O := {| List w ns p := List w ns (λ o, p o && held W o) |}.

Lemma cached_lister_laws : ListerLaws W O → @CachedListerLaws W O _ (cached_client C) _ cached_lister.
Proof.
  intros HL. split. intros w ns p. cbn. pose proof (List_spec w ns (λ o, p o && held W o)) as Hl.
  destruct (List w ns _) as [e|l]; [done|]. destruct Hl as [Hnd Hl]. split; [done|]. intros o.
  rewrite Hl, andb_true_iff, (@seen_Some W O (cached_client C)). cbn. tauto.
Qed.
End cached.

(** [client.Patch] with [client.MergeFrom]: writes the difference between the
    object that was read and the one wanted. *)
Class Patcher (W O : Type) := {
  Patch : W → O → O → W * option apiError;
}.

Class PatcherLaws (W O : Type) `{APIObject O, Client W O, Patcher W O} : Prop := {
  Patch_spec : ∀ w o o', objectKey o = objectKey o' →
    let '(w', e) := Patch w o o' in
    (∀ k, k ≠ objectKey o ∨ e ≠ None → stored w' k = stored w k) ∧
    (e = None → stored w (objectKey o) = Some o →
     ∃ o'', stored w' (objectKey o) = Some o'' ∧ persists o' o'');
}.

Section map_client.
Context {O : Type} {AO : APIObject O} (fault : verb → NamespacedName → option error).

Definition mapList (s : mapState (O := O)) (ns : string) (p : O → bool) : apiError + list O :=
  match fault VList (ns, "") with
  | Some e => inl (OtherError e)
  | None => inr (filter (λ o, (objectKey o).1 = ns ∧ p o = true) (map_to_list (`s)).*2)
  end.

#[export] Instance map_lister : Lister mapState O := {| List := mapList |}.

Definition mapPatch (s : mapState (O := O)) (o o' : O) : mapState * option apiError :=
  lift s (failing fault VPatch (objectKey o) (`s)
    match `s !! objectKey o with
    | Some _ => (<[objectKey o' := o']> (`s), None)
    | None => (`s, Some (NotFound (New "not found")))
    end).

#[export] Instance map_patcher : Patcher mapState O := {| Patch := mapPatch |}.

Lemma mapState_key (s : mapState (O := O)) k o : `s !! k = Some o → objectKey o = k.
Proof. destruct s as [s Hs]. intros H. exact (bool_decide_unpack _ Hs k o H). Qed.

#[export] Instance map_lister_laws : @ListerLaws mapState O AO (map_client fault) map_lister.
Proof.
  split. intros s ns p. unfold List, map_lister, mapList. destruct (fault VList _); [done|].
  assert (Hv : ∀ o, o ∈ (map_to_list (`s)).*2 ↔ `s !! objectKey o = Some o).
  { intros o. rewrite list_elem_of_fmap. split.
    - intros ([k o'] & -> & Hin). apply elem_of_map_to_list in Hin. cbn.
      by rewrite (mapState_key s k o' Hin).
    - intros H. exists (objectKey o, o). split; [done|]. by apply elem_of_map_to_list. }
  split.
  - apply NoDup_filter. apply NoDup_fmap_2_strong; [|apply NoDup_map_to_list].
    intros [k1 o1] [k2 o2] H1%elem_of_map_to_list H2%elem_of_map_to_list. cbn. intros ->.
    by rewrite <- (mapState_key s k1 o2 H1), (mapState_key s k2 o2 H2).
  - intros o. rewrite list_elem_of_filter, Hv. unfold stored. cbn. tauto.
Qed.

#[export] Instance map_patcher_laws :
  (∀ o : O, persists o o) → @PatcherLaws mapState O AO (map_client fault) map_patcher.
Proof.
  intros Hp. split. intros s o o' Hk. unfold Patch, map_patcher, mapPatch.
  pose proof (bool_decide_unpack _ (proj2_sig s)) as Hw.
  set (run := failing fault VPatch (objectKey o) (`s) _).
  destruct (lift_filed s run) as (w' & -> & Hw').
  { subst run. unfold failing. repeat case_match; cbn; auto using filed_insert. }
  unfold stored. cbn. rewrite Hw'. subst run. unfold failing. destruct (fault VPatch _); cbn; [done|].
  destruct (`s !! objectKey o) eqn:E; cbn; [|done]. rewrite Hk.
  split; [intros k [?|?]; [by rewrite lookup_insert_ne|done]|].
  intros _ _. exists o'. by rewrite lookup_insert_eq.
Qed.
End map_client.

(** ** An API server that answers

    No call fails, unless the object is missing. *)

Class Reliable (W O : Type) `{APIObject O, Client W O} : Prop := {
  Get_reliable : ∀ w k e, Get w k = inl e → IsNotFound e = true;
  Update_reliable : ∀ w o, stored w (objectKey o) ≠ None → (Update w o).2 = None;
}.

Class ReliableLister (W O : Type) `{Lister W O} : Prop :=
  List_reliable : ∀ w ns p, ∃ l, List w ns p = inr l.

Class ReliablePatcher (W O : Type) `{APIObject O, Client W O, Patcher W O} : Prop :=
  Patch_reliable : ∀ w o o', stored w (objectKey o) ≠ None → objectKey o = objectKey o' → (Patch w o o').2 = None.

Definition noFault (v : verb) (k : NamespacedName) : option error := None.

Section reliable_map.
Context {O : Type} {AO : APIObject O}.

Lemma lift_filed_2 (w : mapState (O := O)) run : filed run.1 → (lift w run).2 = run.2.
Proof. intros H. by destruct (lift_filed w run H) as (w' & -> & _). Qed.

#[export] Instance map_reliable : @Reliable mapState O AO (map_client noFault).
Proof.
  split.
  - intros s k e. cbn. unfold mapGet. cbn. destruct (_ !! k); [done|]. by intros [= <-].
  - intros s o Hs. cbn in *. destruct (`s !! objectKey o) as [o0|] eqn:E; [|done].
    unfold mapUpdate, failing. cbn. rewrite ?E, lift_filed_2; [done|].
    apply filed_insert, (bool_decide_unpack _ (proj2_sig s)).
Qed.

#[export] Instance map_reliable_lister : @ReliableLister mapState O (map_lister noFault).
Proof. intros s ns p. cbn. unfold mapList. cbn. eauto. Qed.

#[export] Instance map_reliable_patcher : @ReliablePatcher mapState O AO (map_client noFault) (map_patcher noFault).
Proof.
  intros s o o' Hs Hk. cbn in *. destruct (`s !! objectKey o) as [o0|] eqn:E; [|done].
  unfold mapPatch, failing. cbn. rewrite ?E, lift_filed_2; [done|].
  apply filed_insert, (bool_decide_unpack _ (proj2_sig s)).
Qed.
End reliable_map.

(** A cache in front of a client changes only what is read. *)
Section cached_client.
Context {W O : Type} `{APIObject O} (C : Client W O) `{ReadCache W O}.

Lemma cached_reliable : Reliable W O → @Reliable W O _ (cached_client C).
Proof.
  intros HR. split; [|by destruct HR]. intros w k e. cbn. destruct (Get w k) as [e0|o] eqn:E.
  - intros [= <-]. by apply (Get_reliable w k).
  - destruct (held W o); [done|]. by intros [= <-].
Qed.

Lemma cached_patcher_laws (P : Patcher W O) : PatcherLaws W O → @PatcherLaws W O _ (cached_client C) P.
Proof. intros [HP]. by split. Qed.

Lemma cached_reliable_patcher (P : Patcher W O) : ReliablePatcher W O → @ReliablePatcher W O _ (cached_client C) P.
Proof. intros HP. exact HP. Qed.
End cached_client.

(** ** Reading and writing in the monad *)

(** The loop of a [Get] that tolerates a missing object. *)
Definition getIfExists {W O} `{Client W O} (format : string) (args : list string) (key : NamespacedName)
    : M W (option O) :=
  λ w, (w, match Get w key with
           | inr o => Ok (Some o)
           | inl e => if IsNotFound e then Ok None else Err (Wrapf format args (apiErr e))
           end).

Section laws.
Context {W O : Type} `{ClientLaws W O}.
#[local] Set Default Proof Using "Type*".

Lemma getIfExists_spec format args key w :
  ∃ r, getIfExists format args key w = (w, r) ∧
       match r with Ok o => stored w key = o | Err _ => True end.
Proof.
  unfold getIfExists. eexists. split; [reflexivity|].
  pose proof (Get_spec w key) as Hg. destruct (Get w key) as [[e|e|e|e|e]|o]; cbn; try done.
Qed.

(** [w'] is [w], except that the object at [k] may have been rewritten as [R] says. *)
Definition rewrote (k : NamespacedName) (R : O → O → Prop) (w w' : W) : Prop :=
  (∀ k', k' ≠ k → stored w' k' = stored w k') ∧
  (stored w' k = stored w k ∨ ∃ o o', stored w k = Some o ∧ stored w' k = Some o' ∧ R o o').

Lemma rewrote_refl k R w : rewrote k R w w.
Proof using Type. split; auto. Qed.

Lemma getIfExists_reliable `{!Reliable W O} format args key w :
  getIfExists format args key w = (w, Ok (stored w key)).
Proof.
  unfold getIfExists. pose proof (Get_spec w key) as Hg. pose proof (Get_reliable w key) as Hr.
  destruct (Get w key) as [e|o]; [|by rewrite Hg].
  specialize (Hr e eq_refl). destruct e as [e|e|e|e|e]; try done. by rewrite Hg.
Qed.
End laws.

(** The same for a client that reads from a cache. *)
Section cached_laws.
Context {W O : Type} `{CachedLaws W O}.
#[local] Set Default Proof Using "Type*".

Lemma getIfExists_cached format args key w :
  ∃ r, getIfExists format args key w = (w, r) ∧
       match r with Ok o => seen w key = o | Err _ => True end.
Proof.
  unfold getIfExists. eexists. split; [reflexivity|].
  pose proof (Get_cached w key) as Hg. destruct (Get w key) as [[e|e|e|e|e]|o]; cbn; try done.
Qed.

Lemma getIfExists_cached_reliable `{!Reliable W O} format args key w :
  getIfExists format args key w = (w, Ok (seen w key)).
Proof.
  unfold getIfExists. pose proof (Get_cached w key) as Hg. pose proof (Get_reliable w key) as Hr.
  destruct (Get w key) as [e|o]; [|by rewrite Hg].
  specialize (Hr e eq_refl). destruct e as [e|e|e|e|e]; try done. by rewrite Hg.
Qed.
End cached_laws.
