(* ===== verification/ConfigMaps.v ===== *)
(** * ConfigMaps as the controller reads and writes them

    The object, and the checks of the ConfigMaps that a spec refers to
    ([controllers/ogxserver_controller.go], [configmap_reconciler.go]). *)

From Stdlib Require Import ZArith.
From S2P Require Import Prelude ApiProviders ApiServer Common Client Action Objects.

(** ** The object *)

(** [Time] is the creation timestamp, in seconds; [metav1.Time.Before] of a
    pair of timestamps compares them. *)
Record ConfigMapObject := {
  CM_Meta : Metadata;
  CM_Data : gmap string string;
  CM_Immutable : option bool;
  CM_ResourceVersion : string;
  CM_CreationTimestamp : Z;
}.

(** The resource version and the creation time are the server's. *)
#[export] Instance ConfigMap_object : APIObject ConfigMapObject := {
  objectKey := λ c, (Obj_Namespace (CM_Meta c), Obj_Name (CM_Meta c));
  persists := λ c c',
    Obj_Labels (CM_Meta c') = Obj_Labels (CM_Meta c) ∧
    Obj_Annotations (CM_Meta c') = Obj_Annotations (CM_Meta c) ∧
    Obj_OwnerReferences (CM_Meta c') = Obj_OwnerReferences (CM_Meta c) ∧
    CM_Data c' = CM_Data c ∧ CM_Immutable c' = CM_Immutable c;
  deleting := λ c, Obj_Deleting (CM_Meta c);
}.

Lemma ConfigMap_persists_refl (c : ConfigMapObject) : persists c c.
Proof. done. Qed.

Definition withCMMeta (meta : Metadata) (c : ConfigMapObject) : ConfigMapObject :=
  {| CM_Meta := meta; CM_Data := CM_Data c; CM_Immutable := CM_Immutable c;
     CM_ResourceVersion := CM_ResourceVersion c; CM_CreationTimestamp := CM_CreationTimestamp c |}.

Definition withCMData (data : gmap string string) (c : ConfigMapObject) : ConfigMapObject :=
  {| CM_Meta := CM_Meta c; CM_Data := data; CM_Immutable := CM_Immutable c;
     CM_ResourceVersion := CM_ResourceVersion c; CM_CreationTimestamp := CM_CreationTimestamp c |}.

(** What is hashed into the pod template: it changes with every write. *)
Definition versionHash (c : ConfigMapObject) : string :=
  (CM_ResourceVersion c +:+ "-" +:+ Obj_Name (CM_Meta c))%string.

(** ** References *)

Section references.
Context {W : Type} `{!Client W ConfigMapObject}.

Implicit Types (instance : OGXServer).

Definition getConfigMap (key : NamespacedName) : M W (apiError + ConfigMapObject) := λ w, (w, Ok (Get w key)).

(** A failed read of a key: the API call, or a ConfigMap without the key. *)
Inductive referenceError := ReadError (e : apiError) | KeyNotFound (e : error).

Definition referenceErr (e : referenceError) : error :=
  match e with ReadError e => apiErr e | KeyNotFound e => e end.

Definition errReferencedConfigMapKeyNotFound : error := New "failed to find referenced ConfigMap key".

Definition readReferencedConfigMapKey (namespace : string) (ref : ConfigMapKeyRef)
    : M W (referenceError + string) :=
  found ← getConfigMap (namespace, CKR_Name ref);
  mret match found with
       | inl e => inl (ReadError e)
       | inr cm =>
           match CM_Data cm !! CKR_Key ref with
           | None => inl (KeyNotFound (Wrapf "failed to find referenced ConfigMap key %q: %w" [CKR_Key ref]
                                         errReferencedConfigMapKeyNotFound))
           | Some data => inr data
           end
       end.

Definition reconcileBaseConfigMap instance : M W unit :=
  match Spec_BaseConfig (Server_Spec instance) with
  | None => mret tt
  | Some ref =>
      let namespace := Meta_Namespace (Server_Meta instance) in
      found ← readReferencedConfigMapKey namespace ref;
      match found with
      | inr _ => mret tt
      | inl (ReadError e) =>
          if IsNotFound e then
            raise (Errorf "failed to find referenced base ConfigMap %s/%s" [namespace; CKR_Name ref])
          else raise (Wrapf "failed to fetch base ConfigMap %s/%s: %w" [namespace; CKR_Name ref] (apiErr e))
      | inl (KeyNotFound _) =>
          raise (Errorf "failed to find base ConfigMap key '%s' in ConfigMap %s/%s"
                   [CKR_Key ref; namespace; CKR_Name ref])
      end
  end.

Definition reconcileOverrideConfigMap instance : M W unit :=
  match HasOverrideConfig instance, Spec_OverrideConfig (Server_Spec instance) with
  | true, Some ref =>
      let namespace := Meta_Namespace (Server_Meta instance) in
      found ← getConfigMap (namespace, CKR_Name ref);
      match found with
      | inl e =>
          if IsNotFound e then raise (Errorf "failed to find referenced ConfigMap %s/%s" [namespace; CKR_Name ref])
          else raise (Wrapf "failed to fetch ConfigMap %s/%s: %w" [namespace; CKR_Name ref] (apiErr e))
      | inr cm =>
          match CM_Data cm !! CKR_Key ref with
          | Some _ => mret tt
          | None => raise (Errorf "failed to find override ConfigMap key '%s' in ConfigMap %s/%s"
                             [CKR_Key ref; namespace; CKR_Name ref])
          end
      end
  | _, _ => mret tt
  end.

(** The loop of [reconcileCABundleConfigMap]. *)
Fixpoint checkCACertificates (namespace : string) (refs : list ConfigMapKeyRef) : M W unit :=
  match refs with
  | [] => mret tt
  | ref :: refs =>
      found ← getConfigMap (namespace, CKR_Name ref);
      _ ← match found with
          | inl e =>
              if IsNotFound e then
                raise (Errorf "failed to find referenced CA certificate ConfigMap %s/%s" [namespace; CKR_Name ref])
              else raise (Wrapf "failed to fetch CA certificate ConfigMap %s/%s: %w" [namespace; CKR_Name ref]
                            (apiErr e))
          | inr cm =>
              match CM_Data cm !! CKR_Key ref with
              | Some _ => mret tt
              | None => raise (Errorf "failed to find CA certificate key '%s' in ConfigMap %s/%s"
                                 [CKR_Key ref; namespace; CKR_Name ref])
              end
          end;
      checkCACertificates namespace refs
  end.

Definition reconcileCABundleConfigMap instance : M W unit :=
  if negb (hasCACertificates instance) then mret tt
  else checkCACertificates (Meta_Namespace (Server_Meta instance)) (caCertificates instance).

Definition reconcileOverrideAndCABundleConfigMaps instance : M W unit :=
  _ ← (if bool_decide (is_Some (Spec_BaseConfig (Server_Spec instance)))
       then wrapM "failed to reconcile base ConfigMap: %w" [] (reconcileBaseConfigMap instance) else mret tt);
  _ ← (if HasOverrideConfig instance
       then wrapM "failed to reconcile override ConfigMap: %w" [] (reconcileOverrideConfigMap instance) else mret tt);
  if hasCACertificates instance
  then wrapM "failed to reconcile CA bundle ConfigMap: %w" [] (reconcileCABundleConfigMap instance) else mret tt.

Definition getConfigMapHash instance : M W string :=
  match HasOverrideConfig instance, Spec_OverrideConfig (Server_Spec instance) with
  | true, Some ref =>
      found ← getConfigMap (Meta_Namespace (Server_Meta instance), CKR_Name ref);
      match found with inl e => raise (apiErr e) | inr cm => mret (versionHash cm) end
  | _, _ => mret ""
  end.

Definition getGeneratedConfigMapHashByName (namespace name : string) : M W string :=
  found ← getConfigMap (namespace, name);
  match found with inl e => raise (apiErr e) | inr cm => mret (versionHash cm) end.

Definition resolveConfigMapHash instance (runtimeConfig : option runtimeConfigRef) : M W string :=
  match runtimeConfig with
  | None => mret ""
  | Some rc =>
      if negb (RC_Generated rc) then getConfigMapHash instance
      else getGeneratedConfigMapHashByName (Meta_Namespace (Server_Meta instance)) (RC_ConfigMapName rc)
  end.

(** ** When the checks pass *)

(** The references of the spec that a reconciliation needs. *)
Definition references instance : list ConfigMapKeyRef :=
  option_list (Spec_BaseConfig (Server_Spec instance)) ++
  (if HasOverrideConfig instance then option_list (Spec_OverrideConfig (Server_Spec instance)) else []) ++
  caCertificates instance.

Definition readable (w : W) (namespace : string) (ref : ConfigMapKeyRef) : Prop :=
  ∃ cm, Get w (namespace, CKR_Name ref) = inr cm ∧ is_Some (CM_Data cm !! CKR_Key ref).

(** [m] reads only, and succeeds when [P] holds. *)
Definition checks {A} (m : M W A) (w : W) (P : Prop) : Prop :=
  (m w).1 = w ∧ (is_ok (m w).2 = true ↔ P).

Lemma checks_iff {A} (m : M W A) w P Q : checks m w P → (P ↔ Q) → checks m w Q.
Proof. unfold checks. intros [H1 H2] H. split; [done|]. by rewrite H2. Qed.

Lemma checks_wrap {A} fmt args (m : M W A) w P : checks m w P → checks (wrapM fmt args m) w P.
Proof. unfold checks. rewrite wrapM_run. cbn. by rewrite wrap_is_ok. Qed.

Lemma checks_bind {A B} (m : M W A) (f : A → M W B) w P Q :
  checks m w P → (∀ a, checks (f a) w Q) → checks (m ≫= f) w (P ∧ Q).
Proof.
  unfold checks. intros [Hw Hm] Hf. rewrite bindM_run, Hw. destruct (m w).2 as [a|e]; cbn in *.
  - destruct (Hf a) as [-> Hq]. split; [done|]. rewrite Hq. tauto.
  - split; [done|]. split; [done|]. intros [?%Hm _]. done.
Qed.

(** A check that is skipped when the spec has no such reference. *)
Lemma checks_when fmt args (b : bool) (m : M W unit) w P :
  checks m w P → checks (if b then wrapM fmt args m else mret tt) w (b = true → P).
Proof.
  intros H. destruct b; [|by split]. eapply checks_iff; [by apply checks_wrap|]. naive_solver.
Qed.

Lemma checks_ret w : checks (mret tt) w True.
Proof. done. Qed.

Lemma checks_raise {A} e w : checks (raise (A := A) e) w False.
Proof. done. Qed.

(** What is done with the answer of one read. *)
Lemma checks_read {B} (f : apiError + ConfigMapObject → M W B) key w P :
  checks (f (Get w key)) w P → checks (getConfigMap key ≫= f) w P.
Proof. done. Qed.

Lemma checks_key {B} (f : referenceError + string → M W B) namespace ref w P :
  checks (f match Get w (namespace, CKR_Name ref) with
            | inl e => inl (ReadError e)
            | inr cm =>
                match CM_Data cm !! CKR_Key ref with
                | None => inl (KeyNotFound (Wrapf "failed to find referenced ConfigMap key %q: %w" [CKR_Key ref]
                                              errReferencedConfigMapKeyNotFound))
                | Some data => inr data
                end
            end) w P →
  checks (readReferencedConfigMapKey namespace ref ≫= f) w P.
Proof. done. Qed.

(** Decides a check of the answer of one read. *)
Ltac check_answer w key :=
  unfold readable; destruct (Get w key) as [e|cm]; [destruct e|destruct (CM_Data cm !! _) eqn:?]; cbn;
  (eapply checks_iff; [apply checks_raise || apply checks_ret|]); split; try done;
  (by intros (? & [= <-] & [? ?]); congruence) || eauto.

Lemma checkCACertificates_checks namespace refs w :
  checks (checkCACertificates namespace refs) w (Forall (readable w namespace) refs).
Proof.
  induction refs as [|ref refs IH]; cbn [checkCACertificates]; [by split|].
  apply checks_read. eapply checks_iff; [apply checks_bind; [|by intros _]|by rewrite Forall_cons].
  check_answer w (namespace, CKR_Name ref).
Qed.

Lemma reconcileBaseConfigMap_checks instance w :
  checks (reconcileBaseConfigMap instance) w
    (Forall (readable w (Meta_Namespace (Server_Meta instance))) (option_list (Spec_BaseConfig (Server_Spec instance)))).
Proof.
  unfold reconcileBaseConfigMap. destruct (Spec_BaseConfig _) as [ref|]; [|by split].
  eapply checks_iff; [|cbn; by rewrite Forall_singleton].
  apply checks_key. check_answer w (Meta_Namespace (Server_Meta instance), CKR_Name ref).
Qed.

Lemma reconcileOverrideConfigMap_checks instance w :
  checks (reconcileOverrideConfigMap instance) w
    (Forall (readable w (Meta_Namespace (Server_Meta instance)))
       (if HasOverrideConfig instance then option_list (Spec_OverrideConfig (Server_Spec instance)) else [])).
Proof.
  unfold reconcileOverrideConfigMap. destruct (HasOverrideConfig instance); [|by split].
  destruct (Spec_OverrideConfig _) as [ref|]; [|by split].
  eapply checks_iff; [|cbn; by rewrite Forall_singleton]. apply checks_read.
  check_answer w (Meta_Namespace (Server_Meta instance), CKR_Name ref).
Qed.

(** The reference checks only read, and they pass exactly when every
    ConfigMap key that the spec refers to can be read: the base configuration,
    a complete override reference, and every CA certificate. *)
Theorem references_spec instance w :
  (reconcileOverrideAndCABundleConfigMaps instance w).1 = w ∧
  (is_ok (reconcileOverrideAndCABundleConfigMaps instance w).2 = true ↔
   ∀ ref, ref ∈ references instance → readable w (Meta_Namespace (Server_Meta instance)) ref).
Proof.
  rewrite <- Forall_forall. unfold references. rewrite !Forall_app.
  unfold reconcileOverrideAndCABundleConfigMaps, reconcileCABundleConfigMap.
  eapply checks_iff; [apply checks_bind; [apply checks_when, reconcileBaseConfigMap_checks|intros _;
    apply checks_bind; [apply checks_when, reconcileOverrideConfigMap_checks|intros _; apply checks_when]]|].
  - instantiate (1 := Forall (readable w (Meta_Namespace (Server_Meta instance))) (caCertificates instance)).
    destruct (hasCACertificates instance) eqn:Ec; [apply checkCACertificates_checks|].
    by rewrite hasCACertificates_none.
  - rewrite bool_decide_eq_true.
    assert (H1 : (is_Some (Spec_BaseConfig (Server_Spec instance)) →
                  Forall (readable w (Meta_Namespace (Server_Meta instance))) (option_list (Spec_BaseConfig (Server_Spec instance)))) ↔
                 Forall (readable w (Meta_Namespace (Server_Meta instance))) (option_list (Spec_BaseConfig (Server_Spec instance)))).
    { destruct (Spec_BaseConfig _); cbn; [naive_solver|]. split; [done|]. by intros _ [? ?]. }
    rewrite H1. destruct (HasOverrideConfig instance); destruct (hasCACertificates instance) eqn:Ec;
      rewrite ?(hasCACertificates_none instance Ec), ?Forall_nil; naive_solver.
Qed.
End references.
