(* ===== verification/CABundle.v ===== *)
(** * The managed CA bundle

    The part of [controllers/ogxserver_controller.go] that gathers CA
    certificates from the ConfigMaps of the spec and from the cluster's trusted
    bundle into one ConfigMap.  [pem.Decode], [pem.EncodeToMemory] and
    [x509.ParseCertificate] are parameters, as is [SetControllerReference]. *)

From Stdlib Require Import Ascii ZArith.
From S2P Require Import Prelude ApiProviders ApiServer Common Client Action Objects ConfigMaps.

#[local] Open Scope Z_scope.

Definition MaxCABundleSize : Z := 10 * 1024 * 1024.
Definition MaxCABundleCertificates : Z := 1000.

(** ** [len(bytes.TrimSpace(data)) == 0]

    The bytes are white space of Unicode in UTF-8. *)

Definition byteIs (n : nat) (c : ascii) : bool := (nat_of_ascii c =? n)%nat.

Definition byteIn (lo hi : nat) (c : ascii) : bool := (lo <=? nat_of_ascii c)%nat && (nat_of_ascii c <=? hi)%nat.

(** [U+0009]-[U+000D] and [U+0020]. *)
Definition isSpace1 (c : ascii) : bool := byteIn 9 13 c || byteIs 32 c.

(** [U+0085] and [U+00A0]. *)
Definition isSpace2 (c1 c2 : ascii) : bool := byteIs 194 c1 && (byteIs 133 c2 || byteIs 160 c2).

(** [U+1680], [U+2000]-[U+200A], [U+2028], [U+2029], [U+202F], [U+205F], [U+3000]. *)
Definition isSpace3 (c1 c2 c3 : ascii) : bool :=
  byteIs 225 c1 && byteIs 154 c2 && byteIs 128 c3 ||
  byteIs 226 c1 && byteIs 128 c2 && (byteIn 128 138 c3 || byteIs 168 c3 || byteIs 169 c3 || byteIs 175 c3) ||
  byteIs 226 c1 && byteIs 129 c2 && byteIs 159 c3 ||
  byteIs 227 c1 && byteIs 128 c2 && byteIs 128 c3.

Fixpoint blank (l : list ascii) : bool :=
  match l with
  | [] => true
  | c1 :: l1 =>
      isSpace1 c1 && blank l1 ||
      match l1 with
      | c2 :: l2 =>
          isSpace2 c1 c2 && blank l2 ||
          match l2 with c3 :: l3 => isSpace3 c1 c2 c3 && blank l3 | [] => false end
      | [] => false
      end
  end.

Section bundle.

(** [pem.Block]: the headers are kept as text. *)
Record Block := { Block_Type : string; Block_Headers : string; Block_Bytes : string }.

Context (Decode : string → option (Block * string)).
Context (EncodeToMemory : Block → option string).
Context (ParseCertificate : string → result unit).

Definition extracted : Type := list string * Z * Z.

(** The loop of [extractValidCertificates]; [fuel] bounds the number of blocks. *)
Fixpoint extractLoop (fuel : nat) (keyName remaining : string) (certificates : list string) (totalSize : Z)
    : option (result (list string * Z)) :=
  match fuel with
  | O => None
  | S fuel =>
      match Decode remaining with
      | None => Some (Ok (certificates, totalSize))
      | Some (block, rest) =>
          if negb (bool_decide (Block_Type block = "CERTIFICATE")) then
            extractLoop fuel keyName rest certificates totalSize
          else
            match ParseCertificate (Block_Bytes block) with
            | Err e => Some (Err (Wrapf "failed to parse X.509 certificate from key '%s': %w" [keyName] e))
            | Ok _ =>
                match EncodeToMemory block with
                | None => Some (Err (Errorf "failed to encode certificate from key '%s'" [keyName]))
                | Some certPEM =>
                    extractLoop fuel keyName rest (certificates ++ [certPEM])
                      (totalSize + Z.of_nat (String.length certPEM))
                end
            end
      end
  end.

(** A block takes at least one byte, so the length of the data is enough fuel;
    [None] is unreachable. *)
Definition extractValidCertificates (data keyName : string) : option (result extracted) :=
  if blank (chars data) then Some (Ok ([], 0, 0))
  else
    match extractLoop (S (String.length data)) keyName data [] 0 with
    | None => None
    | Some (Err e) => Some (Err e)
    | Some (Ok (certificates, totalSize)) =>
        if (length certificates =? 0)%nat then
          Some (Err (Errorf "failed to find valid certificates in CA bundle key '%s'" [keyName]))
        else Some (Ok (certificates, totalSize, Z.of_nat (length certificates)))
    end.

(** ** The collector *)

Record certificateCollector := {
  certificates : list string;
  totalSize : Z;
  certificateCount : Z;
}.

Definition emptyCollector : certificateCollector :=
  {| certificates := []; totalSize := 0; certificateCount := 0 |}.

(** A collector whose [add] failed is not used again. *)
Definition add (c : certificateCollector) (certs : list string) (size count : Z) : result certificateCollector :=
  let totalSize := totalSize c + size in
  let certificateCount := certificateCount c + count in
  if MaxCABundleSize <? totalSize then
    Err (Errorf "failed to process CA bundle: total size exceeds maximum allowed size of %d bytes" ["10485760"])
  else if MaxCABundleCertificates <? certificateCount then
    Err (Errorf "failed to process CA bundle: contains more than %d certificates (maximum allowed)" ["1000"])
  else Ok {| certificates := certificates c ++ certs; totalSize := totalSize;
             certificateCount := certificateCount |}.

Fixpoint joinLines (l : list string) : string :=
  match l with
  | [] => ""
  | [x] => x
  | x :: l => (x +:+ String (ascii_of_nat 10) (joinLines l))%string
  end.

Definition concatenate (c : certificateCollector) : result string :=
  if (length (certificates c) =? 0)%nat then Err (New "failed to find valid certificates in CA bundle ConfigMaps")
  else Ok (joinLines (certificates c)).

Definition outOfFuel : error := New "unreachable".

Fixpoint processConfigMapKeys (cm : ConfigMapObject) (keys : list string) (namespace name : string)
    (c : certificateCollector) : result certificateCollector :=
  match keys with
  | [] => Ok c
  | key :: keys =>
      match CM_Data cm !! key with
      | None => Err (Errorf "failed to find CA bundle key '%s' in ConfigMap %s/%s" [key; namespace; name])
      | Some data =>
          match extractValidCertificates data key with
          | None => Err outOfFuel
          | Some (Err e) =>
              Err (Wrapf "failed to process CA bundle key '%s' from ConfigMap %s/%s: %w" [key; namespace; name] e)
          | Some (Ok (certs, size, count)) =>
              c ← add c certs size count;
              processConfigMapKeys cm keys namespace name c
          end
      end
  end.

(** A key that cannot be read is skipped. *)
Fixpoint processODHConfigMapKeys (cm : ConfigMapObject) (keys : list string) (c : certificateCollector)
    : result certificateCollector :=
  match keys with
  | [] => Ok c
  | key :: keys =>
      match CM_Data cm !! key with
      | None => processODHConfigMapKeys cm keys c
      | Some data =>
          match extractValidCertificates data key with
          | None => Err outOfFuel
          | Some (Err _) => processODHConfigMapKeys cm keys c
          | Some (Ok (certs, size, count)) =>
              c ← add c certs size count;
              processODHConfigMapKeys cm keys c
          end
      end
  end.

(** ** The reconciler *)

Section reconcile.
Context {W : Type} `{!Client W ConfigMapObject, !Patcher W ConfigMapObject} {MR : MapRange}.
Context (SetControllerReference : OGXServer → Metadata → result Metadata).

Implicit Types (instance : OGXServer).

(** [None] is the nil ConfigMap. *)
Definition detectODHTrustedCABundle instance : M W (result (option ConfigMapObject * list string)) :=
  let namespace := Meta_Namespace (Server_Meta instance) in
  found ← getConfigMap (namespace, odhTrustedCABundleConfigMap);
  mret match found with
       | inl e =>
           if IsNotFound e then Ok (None, [])
           else Err (Wrapf "failed to check for ODH trusted CA bundle ConfigMap %s/%s: %w"
                       [namespace; odhTrustedCABundleConfigMap] (apiErr e))
       | inr cm => Ok (Some cm, (range (CM_Data cm)).*1)
       end.

Definition hasODHTrustedCABundle instance : M W bool :=
  found ← detectODHTrustedCABundle instance;
  mret match found with Ok (_, keys) => (0 <? length keys)%nat | Err _ => false end.

Fixpoint gatherExplicit (namespace : string) (refs : list ConfigMapKeyRef) (c : certificateCollector)
    : M W certificateCollector :=
  match refs with
  | [] => mret c
  | ref :: refs =>
      found ← getConfigMap (namespace, CKR_Name ref);
      match found with
      | inl e => raise (Wrapf "failed to get CA certificate ConfigMap %s/%s: %w" [namespace; CKR_Name ref] (apiErr e))
      | inr cm =>
          c ← pureM (processConfigMapKeys cm [CKR_Key ref] namespace (CKR_Name ref) c);
          gatherExplicit namespace refs c
      end
  end.

Definition gatherExplicitCABundle instance (c : certificateCollector) : M W certificateCollector :=
  if negb (hasCACertificates instance) then mret c
  else gatherExplicit (Meta_Namespace (Server_Meta instance)) (caCertificates instance) c.

Definition gatherODHCABundle instance (c : certificateCollector) : M W certificateCollector :=
  found ← detectODHTrustedCABundle instance;
  match found with
  | Err _ => mret c
  | Ok (None, _) => mret c
  | Ok (Some cm, keys) =>
      if (length keys =? 0)%nat then mret c else pureM (processODHConfigMapKeys cm keys c)
  end.

Definition gatherCABundleData instance : M W string :=
  c ← gatherExplicitCABundle instance emptyCollector;
  c ← gatherODHCABundle instance c;
  pureM (concatenate c).

Definition desiredCABundle instance (caBundleData : string) : ConfigMapObject :=
  {| CM_Meta :=
       {| Obj_Namespace := Meta_Namespace (Server_Meta instance);
          Obj_Name := getManagedCABundleConfigMapName instance;
          Obj_Labels := <[managedByLabelKey := managedByLabelVal]>
                       (<["app.kubernetes.io/instance" := Server_Name instance]>
                       (<["app.kubernetes.io/component" := "ca-bundle"]>
                       {[WatchLabelKey := WatchLabelValue]}));
          Obj_Annotations := ∅; Obj_OwnerReferences := []; Obj_Deleting := false |};
     CM_Data := {[ManagedCABundleKey := caBundleData]};
     CM_Immutable := None; CM_ResourceVersion := ""; CM_CreationTimestamp := 0 |}.

(** A conflict is retried by the controller, as any error is. *)
Definition patching (existing patched : ConfigMapObject) : M W unit := λ w,
  let '(w', e) := Patch w existing patched in
  (w', match e with
       | Some e =>
           if IsConflict e then
             Err (Wrapf "failed to patch managed CA bundle ConfigMap (conflict): %w" [] (apiErr e))
           else Err (Wrapf "failed to patch managed CA bundle ConfigMap: %w" [] (apiErr e))
       | None => Ok tt
       end).

Definition reconcileManagedCABundleConfigMap instance : M W unit :=
  caBundleData ← wrapM "failed to gather CA bundle data: %w" [] (gatherCABundleData instance);
  let name := getManagedCABundleConfigMapName instance in
  found ← getIfExists "failed to get managed CA bundle ConfigMap: %w" []
            (Meta_Namespace (Server_Meta instance), name);
  let desired := desiredCABundle instance caBundleData in
  meta ← wrapM "failed to set controller reference on managed CA bundle ConfigMap: %w" []
           (pureM (SetControllerReference instance (CM_Meta desired)));
  let desired := withCMMeta meta desired in
  match found with
  | None => writing "failed to create managed CA bundle ConfigMap: %w" [] (λ w, Create w desired)
  | Some existing =>
      if negb (bool_decide (default "" (CM_Data existing !! ManagedCABundleKey) = caBundleData)) then
        let patched := withCMMeta (SetLabels (Obj_Labels (CM_Meta desired)) (CM_Meta existing))
                         (withCMData (CM_Data desired) existing) in
        patching existing patched
      else mret tt
  end.

Definition reconcileManagedCABundle instance : M W unit :=
  let name := getManagedCABundleConfigMapName instance in
  odh ← (if hasCACertificates instance then mret true else hasODHTrustedCABundle instance);
  if negb odh then
    found ← getConfigMap (Meta_Namespace (Server_Meta instance), name);
    match found with
    | inr existing =>
        λ w, let '(w', e) := Delete w (objectKey existing) in
             (w', match e with
                  | Some e =>
                      if IsNotFound e then Ok tt
                      else Err (Wrapf "failed to delete unused managed CA bundle ConfigMap: %w" [] (apiErr e))
                  | None => Ok tt
                  end)
    | inl e =>
        if IsNotFound e then mret tt
        else raise (Wrapf "failed to check for managed CA bundle ConfigMap: %w" [] (apiErr e))
    end
  else wrapM "failed to reconcile managed CA bundle ConfigMap: %w" [] (reconcileManagedCABundleConfigMap instance).

Definition getCABundleConfigMapHash instance : M W string :=
  any ← (if hasCACertificates instance then mret true else hasODHTrustedCABundle instance);
  if negb any then mret ""
  else
    found ← getConfigMap (Meta_Namespace (Server_Meta instance), getManagedCABundleConfigMapName instance);
    match found with
    | inl e => if IsNotFound e then mret "" else raise (apiErr e)
    | inr cm => mret (versionHash cm)
    end.

Definition resolveCABundleHash instance : M W string :=
  if hasCACertificates instance then getCABundleConfigMapHash instance else mret "".
End reconcile.
End bundle.
