(* ===== verification/CABundleFacts.v ===== *)
(** * What the managed CA bundle contains

    The extraction of certificates against a reference definition on the list
    of blocks, the bounds of the bundle, and the reconciliation of its
    ConfigMap. *)

From Stdlib Require Import Ascii ZArith.
From S2P Require Import Prelude ApiProviders ApiServer Common Client Action Objects ConfigMaps CABundle.

#[local] Open Scope Z_scope.

Section bundle.
Context (Decode : string → option (Block * string)).
Context (EncodeToMemory : Block → option string).
Context (ParseCertificate : string → result unit).

(** [pem.Decode] consumes the block that it returns. *)
Definition consumes : Prop :=
  ∀ s block rest, Decode s = Some (block, rest) → (String.length rest < String.length s)%nat.

(** The blocks of a text, in order. *)
Inductive decoded : string → list Block → Prop :=
| decoded_nil s : Decode s = None → decoded s []
| decoded_cons s block rest blocks :
    Decode s = Some (block, rest) → decoded rest blocks → decoded s (block :: blocks).

Lemma decoded_unique s b1 b2 : decoded s b1 → decoded s b2 → b1 = b2.
Proof.
  intros H1. revert b2. induction H1 as [s Hd|s block rest blocks Hd _ IH]; intros b2 H2; inversion H2; subst; try congruence.
  rewrite Hd in *. simplify_eq. f_equal. by apply IH.
Qed.

Lemma decoded_exists s : consumes → ∃ blocks, decoded s blocks.
Proof.
  intros Hc. remember (String.length s) as n eqn:Hn. revert s Hn.
  induction (lt_wf n) as [n _ IH]. intros s ->. destruct (Decode s) as [[block rest]|] eqn:E.
  - destruct (IH _ (Hc _ _ _ E) rest eq_refl) as [blocks Hb]. exists (block :: blocks). by econstructor.
  - exists []. by constructor.
Qed.

Definition isCertificate (b : Block) : bool := bool_decide (Block_Type b = "CERTIFICATE").

(** The reference: every certificate block must parse, and is encoded again. *)
Definition certificateOf (keyName : string) (b : Block) : result string :=
  _ ← wrap "failed to parse X.509 certificate from key '%s': %w" [keyName] (ParseCertificate (Block_Bytes b));
  match EncodeToMemory b with
  | None => Err (Errorf "failed to encode certificate from key '%s'" [keyName])
  | Some c => Ok c
  end.

Lemma certificateOf_run keyName b :
  certificateOf keyName b =
  match ParseCertificate (Block_Bytes b) with
  | Err e => Err (Wrapf "failed to parse X.509 certificate from key '%s': %w" [keyName] e)
  | Ok _ => match EncodeToMemory b with
            | None => Err (Errorf "failed to encode certificate from key '%s'" [keyName])
            | Some c => Ok c
            end
  end.
Proof. unfold certificateOf. by destruct (ParseCertificate _). Qed.

Definition certificatesOf (keyName : string) (blocks : list Block) : result (list string) :=
  mapM_result (certificateOf keyName) (List.filter isCertificate blocks).

Fixpoint sizeOf (certs : list string) : Z :=
  match certs with [] => 0 | c :: certs => Z.of_nat (String.length c) + sizeOf certs end.

Lemma sizeOf_app l k : sizeOf (l ++ k) = sizeOf l + sizeOf k.
Proof. induction l as [|c l IH]; cbn; [done|]. rewrite IH. lia. Qed.

Lemma sizeOf_nonneg l : 0 <= sizeOf l.
Proof. induction l as [|c l IH]; cbn; lia. Qed.

Lemma extractLoop_spec keyName s blocks : decoded s blocks →
  ∀ fuel acc size, consumes → (String.length s < fuel)%nat →
  extractLoop Decode EncodeToMemory ParseCertificate fuel keyName s acc size =
  Some (certs ← certificatesOf keyName blocks; Ok (acc ++ certs, size + sizeOf certs)).
Proof.
  induction 1 as [s Hd|s block rest blocks Hd _ IH]; intros fuel acc size Hc Hf;
    (destruct fuel as [|fuel]; [lia|]); cbn [extractLoop]; rewrite Hd.
  - cbn. by rewrite app_nil_r, Z.add_0_r.
  - pose proof (Hc _ _ _ Hd) as Hlen. unfold certificatesOf. cbn [List.filter].
    change (isCertificate block) with (bool_decide (Block_Type block = "CERTIFICATE")).
    destruct (bool_decide _); cbn [negb]; [|apply IH; [done|lia]].
    cbn [mapM_result]. rewrite certificateOf_run.
    destruct (ParseCertificate (Block_Bytes block)) as [[]|e]; [|done].
    destruct (EncodeToMemory block) as [c|]; [|done]. cbn [mbind result_bind].
    rewrite IH by (done || lia). unfold certificatesOf.
    destruct (mapM_result _ _) as [certs|e]; [|done]. cbn. rewrite <- app_assoc. cbn. by rewrite Z.add_assoc.
Qed.

(** C29. Extraction of the certificates of one key equals its reference on the
    list of PEM blocks: text of white space only yields none, every block of
    another type is dropped, a certificate block that does not parse fails the
    key, and so does a text without certificates; the reported size and count
    are those of the list.  It always terminates. *)
Theorem extractValidCertificates_spec data keyName blocks :
  consumes → decoded data blocks →
  extractValidCertificates Decode EncodeToMemory ParseCertificate data keyName =
  Some (if blank (chars data) then Ok ([], 0, 0)
        else certs ← certificatesOf keyName blocks;
             if (length certs =? 0)%nat
             then Err (Errorf "failed to find valid certificates in CA bundle key '%s'" [keyName])
             else Ok (certs, sizeOf certs, Z.of_nat (length certs))).
Proof.
  intros Hc Hd. unfold extractValidCertificates. destruct (blank (chars data)); [done|].
  rewrite (extractLoop_spec keyName data blocks Hd) by (done || lia).
  destruct (certificatesOf keyName blocks) as [certs|e]; [|done]. cbn. by destruct (length certs =? 0)%nat.
Qed.

Abbreviation extract := (extractValidCertificates Decode EncodeToMemory ParseCertificate).

(** ** What a certificate of the bundle is *)

(** [c] is the encoding of a certificate block of [data], and it parses. *)
Definition certificateIn (data c : string) : Prop :=
  ∃ blocks b, decoded data blocks ∧ b ∈ blocks ∧ Block_Type b = "CERTIFICATE" ∧
    ParseCertificate (Block_Bytes b) = Ok tt ∧ EncodeToMemory b = Some c.

Lemma certificatesOf_in keyName blocks certs c :
  certificatesOf keyName blocks = Ok certs → c ∈ certs →
  ∃ b, b ∈ blocks ∧ Block_Type b = "CERTIFICATE" ∧ ParseCertificate (Block_Bytes b) = Ok tt ∧ EncodeToMemory b = Some c.
Proof.
  intros H Hc. apply mapM_result_Forall2 in H.
  apply list_elem_of_lookup in Hc as [i Hi]. destruct (Forall2_lookup_r _ _ _ _ _ H Hi) as (b & Hb & Hok).
  apply list_elem_of_lookup_2 in Hb. rewrite list_elem_of_In, filter_In, <- list_elem_of_In in Hb.
  destruct Hb as [Hb Ht%bool_decide_eq_true]. exists b. rewrite certificateOf_run in Hok.
  destruct (ParseCertificate (Block_Bytes b)) as [[]|]; [|done].
  destruct (EncodeToMemory b); [|done]. by injection Hok as ->.
Qed.

Lemma extract_in data keyName certs size count :
  consumes → extract data keyName = Some (Ok (certs, size, count)) →
  size = sizeOf certs ∧ count = Z.of_nat (length certs) ∧ ∀ c, c ∈ certs → certificateIn data c.
Proof.
  intros Hc H. destruct (decoded_exists data Hc) as [blocks Hd].
  rewrite (extractValidCertificates_spec data keyName blocks Hc Hd) in H.
  destruct (blank (chars data)).
  { injection H as <- <- <-. split_and!; [done..|]. intros c Hin. by apply not_elem_of_nil in Hin. }
  destruct (certificatesOf keyName blocks) as [l|e] eqn:E; [|done]. cbn in H.
  destruct (length l =? 0)%nat; [done|]. injection H as <- <- <-. split_and!; [done..|].
  intros c Hin. destruct (certificatesOf_in _ _ _ _ E Hin) as (b & Hb & Ht & Hp & He). exists blocks, b. auto.
Qed.

Lemma extract_total data keyName : consumes → extract data keyName ≠ None.
Proof.
  intros Hc. destruct (decoded_exists data Hc) as [blocks Hd].
  by rewrite (extractValidCertificates_spec data keyName blocks Hc Hd).
Qed.

(** ** The collector *)

(** The invariant of a collector: its counters are those of its list, within
    the limits, and every certificate comes from one of the [sources]. *)
Definition collected (sources : string → Prop) (c : certificateCollector) : Prop :=
  totalSize c = sizeOf (certificates c) ∧ certificateCount c = Z.of_nat (length (certificates c)) ∧
  totalSize c <= MaxCABundleSize ∧ certificateCount c <= MaxCABundleCertificates ∧
  ∀ x, x ∈ certificates c → ∃ data, sources data ∧ certificateIn data x.

Lemma empty_collected sources : collected sources emptyCollector.
Proof. split_and!; try done. intros x Hx. by apply not_elem_of_nil in Hx. Qed.

Lemma add_collected (sources : string → Prop) c c' data keyName certs size count :
  consumes → sources data → collected sources c →
  extract data keyName = Some (Ok (certs, size, count)) → add c certs size count = Ok c' →
  collected sources c'.
Proof.
  intros Hc Hsrc (Hs & Hn & _ & _ & Hin) He Ha. destruct (extract_in _ _ _ _ _ Hc He) as (-> & -> & Hx).
  unfold add in Ha. destruct (Z.ltb_spec MaxCABundleSize (totalSize c + sizeOf certs)); [done|].
  destruct (Z.ltb_spec MaxCABundleCertificates (certificateCount c + Z.of_nat (length certs))); [done|].
  injection Ha as <-. split_and!; cbn; try done.
  - rewrite sizeOf_app. lia.
  - rewrite length_app. lia.
  - intros x [H1|H2]%elem_of_app; [by apply Hin|]. exists data. auto.
Qed.

Lemma processConfigMapKeys_collected (sources : string → Prop) cm keys ns name c c' :
  consumes → (∀ key data, key ∈ keys → CM_Data cm !! key = Some data → sources data) →
  collected sources c →
  processConfigMapKeys Decode EncodeToMemory ParseCertificate cm keys ns name c = Ok c' → collected sources c'.
Proof.
  intros Hc. revert c. induction keys as [|key keys IH]; cbn; intros c Hsrc Hcol H; [by injection H as <-|].
  destruct (CM_Data cm !! key) as [data|] eqn:Ed; [|done].
  destruct (extract data key) as [[[[certs size] count]|]|] eqn:Ee; try done.
  apply bind_Ok in H as (c1 & Ha & H). apply (IH c1); [intros k d Hk; apply Hsrc; by right| |done].
  apply (add_collected sources c c1 data key certs size count); auto. apply (Hsrc key); [left|done].
Qed.

Lemma processODHConfigMapKeys_collected (sources : string → Prop) cm keys c c' :
  consumes → (∀ key data, key ∈ keys → CM_Data cm !! key = Some data → sources data) →
  collected sources c →
  processODHConfigMapKeys Decode EncodeToMemory ParseCertificate cm keys c = Ok c' → collected sources c'.
Proof.
  intros Hc. revert c. induction keys as [|key keys IH]; cbn; intros c Hsrc Hcol H; [by injection H as <-|].
  assert (Hsrc' : ∀ k d, k ∈ keys → CM_Data cm !! k = Some d → sources d) by (intros k d Hk; apply Hsrc; by right).
  destruct (CM_Data cm !! key) as [data|] eqn:Ed; [|by apply (IH c)].
  destruct (extract data key) as [[[[certs size] count]|]|] eqn:Ee; try done; [|by apply (IH c)].
  apply bind_Ok in H as (c1 & Ha & H). apply (IH c1); [done| |done].
  apply (add_collected sources c c1 data key certs size count); auto. apply (Hsrc key); [left|done].
Qed.

Lemma joinLines_length l : l ≠ [] → Z.of_nat (String.length (joinLines l)) = sizeOf l + Z.of_nat (length l) - 1.
Proof.
  intros Hl. induction l as [|x [|y l] IH]; [done|cbn; lia|].
  change (joinLines (x :: y :: l)) with (x +:+ String (ascii_of_nat 10) (joinLines (y :: l)))%string.
  rewrite string_length_app. cbn [String.length]. specialize (IH ltac:(done)). cbn [sizeOf length] in *. lia.
Qed.

(** ** Gathering *)

Section reconcile.
Context {W : Type} `{!Client W ConfigMapObject, !ClientLaws W ConfigMapObject,
                     !Patcher W ConfigMapObject, !PatcherLaws W ConfigMapObject} {MR : MapRange}.
Context (SetControllerReference : OGXServer → Metadata → result Metadata).
Context (HC : consumes).
#[local] Set Default Proof Using "Type*".

Implicit Types (instance : OGXServer) (w : W).

Abbreviation gather := (gatherCABundleData Decode EncodeToMemory ParseCertificate).
Abbreviation namespaceOf instance := (Meta_Namespace (Server_Meta instance)).

(** The texts the bundle may be made of: the keys that the spec refers to, and
    every key of the cluster's trusted bundle. *)
Definition sourceOf instance w (data : string) : Prop :=
  (∃ ref cm, ref ∈ caCertificates instance ∧ stored w (namespaceOf instance, CKR_Name ref) = Some cm ∧
             CM_Data cm !! CKR_Key ref = Some data) ∨
  (∃ cm key, stored w (namespaceOf instance, odhTrustedCABundleConfigMap) = Some cm ∧ CM_Data cm !! key = Some data).

Lemma get_run key w :
  ∃ r, getConfigMap key w = (w, Ok r) ∧
       match r with inr cm => stored w key = Some cm | inl (NotFound _) => stored w key = None | inl _ => True end.
Proof.
  eexists. split; [reflexivity|]. apply Get_spec.
Qed.

Lemma detectODH_run instance w :
  ∃ r, detectODHTrustedCABundle instance w = (w, Ok r) ∧
       match r with
       | Ok (None, keys) => stored w (namespaceOf instance, odhTrustedCABundleConfigMap) = None ∧ keys = []
       | Ok (Some cm, keys) => stored w (namespaceOf instance, odhTrustedCABundleConfigMap) = Some cm ∧
                               keys = (range (CM_Data cm)).*1
       | Err _ => True
       end.
Proof.
  unfold detectODHTrustedCABundle.
  destruct (get_run (namespaceOf instance, odhTrustedCABundleConfigMap) w) as (r & E & Hr).
  rewrite (bindM_step _ _ _ _ _ E). eexists. split; [reflexivity|].
  destruct r as [e|cm]; [|done]. by destruct e.
Qed.

Lemma gatherExplicit_run instance refs c w :
  (∀ ref, ref ∈ refs → ref ∈ caCertificates instance) → collected (sourceOf instance w) c →
  ∃ r, gatherExplicit Decode EncodeToMemory ParseCertificate (namespaceOf instance) refs c w = (w, r) ∧
       match r with Ok c' => collected (sourceOf instance w) c' | Err _ => True end.
Proof.
  revert c. induction refs as [|ref refs IH]; intros c Hrefs Hc; cbn [gatherExplicit]; [eauto|].
  destruct (get_run (namespaceOf instance, CKR_Name ref) w) as (r & E & Hr).
  rewrite (bindM_step _ _ _ _ _ E). destruct r as [e|cm]; [eexists; by split|].
  rewrite bindM_run. cbn [pureM fst snd].
  destruct (processConfigMapKeys _ _ _ cm _ _ _ c) as [c'|e] eqn:Ep; [|eexists; by split].
  apply IH; [intros ref' H; apply Hrefs; by right|].
  apply (processConfigMapKeys_collected (sourceOf instance w) cm [CKR_Key ref] (namespaceOf instance) (CKR_Name ref) c c');
    [done| |done|done].
  intros key data ->%list_elem_of_singleton Hd. left. exists ref, cm. split; [apply Hrefs; by left|done].
Qed.

(** Reading leaves the cluster as it is, and what is gathered comes from the
    sources, within the limits. *)
Lemma gather_run instance w :
  ∃ r, gather instance w = (w, r) ∧
       match r with
       | Ok data => ∃ c, collected (sourceOf instance w) c ∧ certificates c ≠ [] ∧ data = joinLines (certificates c)
       | Err _ => True
       end.
Proof.
  unfold gatherCABundleData.
  assert (H1 : ∃ r, gatherExplicitCABundle Decode EncodeToMemory ParseCertificate instance emptyCollector w = (w, r) ∧
            match r with Ok c => collected (sourceOf instance w) c | Err _ => True end).
  { unfold gatherExplicitCABundle. destruct (hasCACertificates instance); cbn [negb].
    - apply gatherExplicit_run; [done|apply empty_collected].
    - eexists. split; [reflexivity|]. apply empty_collected. }
  destruct H1 as (r1 & E1 & Hr1). rewrite (bindM_step _ _ _ _ _ E1). destruct r1 as [c1|e]; [|eexists; by split].
  assert (H2 : ∃ r, gatherODHCABundle Decode EncodeToMemory ParseCertificate instance c1 w = (w, r) ∧
            match r with Ok c => collected (sourceOf instance w) c | Err _ => True end).
  { unfold gatherODHCABundle. destruct (detectODH_run instance w) as (r & E & Hr). rewrite (bindM_step _ _ _ _ _ E).
    destruct r as [[[cm|] keys]|e]; [|eexists; by split..].
    destruct (length keys =? 0)%nat; [eexists; by split|]. eexists. split; [reflexivity|].
    destruct (processODHConfigMapKeys _ _ _ cm keys c1) as [c2|e] eqn:Ep; [|done].
    apply (processODHConfigMapKeys_collected (sourceOf instance w) cm keys c1 c2); [done| |done|done].
    intros key data _ Hd. right. exists cm, key. split; [apply Hr|done]. }
  destruct H2 as (r2 & E2 & Hr2). rewrite (bindM_step _ _ _ _ _ E2). destruct r2 as [c2|e]; [|eexists; by split].
  eexists. split; [reflexivity|]. unfold concatenate.
  destruct (certificates c2) as [|x l] eqn:El; cbn; [done|]. exists c2. by rewrite El.
Qed.

(** C30. Bounds and provenance of the bundle: whatever the source ConfigMaps
    hold, a bundle that is gathered consists of at least one and at most 1000
    certificates of at most 10 MiB in total, one per line break; each is the
    encoding of a CERTIFICATE block of one of the sources that X.509 parsing
    accepted, so no private key and no other text gets through. *)
Theorem ca_bundle_bounds instance w w' data :
  gather instance w = (w', Ok data) →
  w' = w ∧
  ∃ certs, data = joinLines certs ∧ (1 <= length certs)%nat ∧ Z.of_nat (length certs) <= 1000 ∧
    Z.of_nat (String.length data) <= 10 * 1024 * 1024 + 999 ∧
    ∀ c, c ∈ certs → ∃ source, sourceOf instance w source ∧ certificateIn source c.
Proof.
  intros E. destruct (gather_run instance w) as (r & E' & Hr). rewrite E in E'. injection E' as <- <-.
  destruct Hr as (c & (Hs & Hn & Hsl & Hnl & Hin) & Hne & ->). split; [done|].
  exists (certificates c). pose proof (joinLines_length (certificates c) Hne) as Hlen.
  unfold MaxCABundleSize, MaxCABundleCertificates in *. destruct (certificates c) as [|x l]; [done|].
  split_and!; [done|cbn; lia|lia|lia|done].
Qed.

(** ** The managed ConfigMap *)

(** An encoding is never empty: it has a header line. *)
Context (HE : ∀ b c, EncodeToMemory b = Some c → c ≠ "").

Lemma gather_nonempty instance w w' : gather instance w ≠ (w', Ok "").
Proof.
  intros E. destruct (gather_run instance w) as (r & E' & Hr). rewrite E in E'. injection E' as <- <-.
  destruct Hr as (c & (_ & _ & _ & _ & Hin) & Hne & Hj). destruct (certificates c) as [|x l]; [done|].
  destruct (Hin x ltac:(left)) as (data & _ & blocks & b & _ & _ & _ & _ & Hx). apply HE in Hx.
  destruct x; [done|]. by destruct l.
Qed.

Definition managedKey instance : NamespacedName := (namespaceOf instance, getManagedCABundleConfigMapName instance).

(** The trusted bundle as the reconciler sees it: a ConfigMap with a key.  A
    read that fails counts as no bundle. *)
Definition odhSeen instance w : bool :=
  match Get w (namespaceOf instance, odhTrustedCABundleConfigMap) with
  | inr cm => bool_decide (CM_Data cm ≠ ∅)
  | inl _ => false
  end.

Lemma range_keys_length (m : gmap string string) : (0 <? length (range m).*1)%nat = bool_decide (m ≠ ∅).
Proof using Type.
  rewrite length_fmap, (range_Permutation _ m), length_map_to_list.
  destruct (decide (m = ∅)) as [->|Hne].
  - by rewrite bool_decide_false by auto.
  - rewrite bool_decide_true by done. apply Nat.ltb_lt. destruct (size m) eqn:E; [|lia].
    by apply map_size_empty_inv in E.
Qed.

Lemma hasODH_run instance w : hasODHTrustedCABundle instance w = (w, Ok (odhSeen instance w)).
Proof using Type.
  unfold hasODHTrustedCABundle, detectODHTrustedCABundle, odhSeen.
  rewrite bindM_run, bindM_run. cbn [getConfigMap fst snd].
  destruct (Get w _) as [e|cm]; cbn [mret M_ret fst snd].
  - by destruct (IsNotFound e).
  - by rewrite range_keys_length.
Qed.

Abbreviation reconcileBundle :=
  (reconcileManagedCABundle Decode EncodeToMemory ParseCertificate SetControllerReference).

(** A write to the managed ConfigMap: on failure nothing changes. *)
Definition wrote instance w w' (r : result unit) (Q : ConfigMapObject → Prop) : Prop :=
  (∀ k, k ≠ managedKey instance ∨ is_ok r = false → stored w' k = stored w k) ∧
  (r = Ok tt → ∃ cm, stored w' (managedKey instance) = Some cm ∧ Q cm).

Lemma reconcileManagedCABundleConfigMap_run instance w :
  setsController SetControllerReference →
  let '(w', r) := reconcileManagedCABundleConfigMap Decode EncodeToMemory ParseCertificate SetControllerReference
                    instance w in
  wrote instance w w' r (λ cm, ∃ data, gather instance w = (w, Ok data) ∧ CM_Data cm !! ManagedCABundleKey = Some data ∧
    (stored w (managedKey instance) = None → IsControlledBy (CM_Meta cm) instance = true)).
Proof.
  intros HS. unfold reconcileManagedCABundleConfigMap.
  destruct (gather_run instance w) as (r & Eg & Hr).
  rewrite bindM_run, wrapM_run, Eg. cbn [fst snd]. destruct r as [data|e]; [|by split; [auto|done]]. cbn [wrap].
  fold (managedKey instance).
  destruct (getIfExists_spec "failed to get managed CA bundle ConfigMap: %w" [] (managedKey instance) w)
    as (f & Ef & Hf). rewrite (bindM_step _ _ _ _ _ Ef). destruct f as [found|e]; [|by split; [auto|done]].
  rewrite bindM_run, wrapM_run. cbn [pureM fst snd].
  destruct (SetControllerReference instance _) as [meta|e] eqn:Em; cbn [wrap]; [|by split; [auto|done]].
  destruct (HS _ _ _ Em) as (Hmeta & Hctl & _).
  set (desired := withCMMeta meta (desiredCABundle instance data)).
  assert (Hkey : objectKey desired = managedKey instance) by by (cbn; rewrite Hmeta).
  assert (Hdata : CM_Data desired !! ManagedCABundleKey = Some data) by apply lookup_singleton_eq.
  destruct found as [existing|].
  - pose proof (stored_key _ _ _ Hf) as Hek. case_bool_decide as Heq; cbn [negb].
    + split; [auto|]. intros _. exists existing. split; [done|]. exists data. split; [done|]. split; [|by rewrite Hf].
      destruct (CM_Data existing !! ManagedCABundleKey) as [d|] eqn:Ed; cbn in Heq; [by rewrite Heq|].
      subst data. by destruct (gather_nonempty instance w w).
    + unfold patching. set (patched := withCMMeta _ _).
      pose proof (Patch_spec w existing patched eq_refl) as Hp. destruct (Patch w existing patched) as [w' e].
      rewrite Hek in Hp. destruct Hp as [Hfr Hok]. split.
      * intros k [Hk|Hk]; apply Hfr; [by left|right]. destruct e; done.
      * destruct e as [e|]; [by destruct (IsConflict e)|]. intros _. destruct (Hok eq_refl Hf) as (cm & Hcm & Hper).
        exists cm. split; [done|]. exists data. split; [done|]. split; [|by rewrite Hf].
        destruct Hper as (_ & _ & _ & Hd & _). by rewrite Hd.
  - unfold writing. pose proof (Create_spec w desired) as Hc. destruct (Create w desired) as [w' e].
    rewrite Hkey in Hc. destruct Hc as [Hfr Hok]. split.
    + intros k [Hk|Hk]; apply Hfr; [by left|right]. destruct e; done.
    + destruct e as [e|]; [done|]. intros _. destruct (Hok eq_refl) as (_ & cm & Hcm & Hper).
      exists cm. split; [done|]. exists data. split; [done|]. destruct Hper as (_ & _ & Ho & Hd & _).
      split; [by rewrite Hd|]. intros _. unfold IsControlledBy, GetControllerOf in *. by rewrite Ho.
Qed.

(** Whether the instance has a CA bundle, as the reconciler sees it. *)
Definition bundleWanted instance w : bool := hasCACertificates instance || odhSeen instance w.

Lemma reconcileManagedCABundle_run instance w :
  setsController SetControllerReference →
  let '(w', r) := reconcileBundle instance w in
  (∀ k, k ≠ managedKey instance ∨ is_ok r = false → stored w' k = stored w k) ∧
  (r = Ok tt →
   if bundleWanted instance w then
     ∃ cm data, stored w' (managedKey instance) = Some cm ∧ gather instance w = (w, Ok data) ∧
       CM_Data cm !! ManagedCABundleKey = Some data ∧
       (stored w (managedKey instance) = None → IsControlledBy (CM_Meta cm) instance = true)
   else ∀ cm, stored w' (managedKey instance) = Some cm → Obj_Deleting (CM_Meta cm) = true).
Proof.
  intros HS. unfold reconcileManagedCABundle, bundleWanted.
  rewrite (bindM_step _ _ w w (Ok (hasCACertificates instance || odhSeen instance w)));
    [|destruct (hasCACertificates instance); [done|apply hasODH_run]].
  destruct (hasCACertificates instance || odhSeen instance w); cbn [negb].
  - rewrite wrapM_run. pose proof (reconcileManagedCABundleConfigMap_run instance w HS) as H.
    destruct (reconcileManagedCABundleConfigMap _ _ _ _ instance w) as [w' r]. cbn [fst snd]. destruct H as [Hf Hok].
    split; [intros k; rewrite wrap_is_ok; apply Hf|]. intros [= Hr]%wrap_Ok.
    destruct (Hok Hr) as (cm & Hcm & data & ?). exists cm, data. naive_solver.
  - fold (managedKey instance). destruct (get_run (managedKey instance) w) as (r & E & Hr).
    rewrite (bindM_step _ _ _ _ _ E). destruct r as [e|existing].
    + destruct e as [e|e|e|e|e]; cbn; (split; [auto|done]) || (split; [auto|]). intros _ cm Hcm. congruence.
    + rewrite (stored_key _ _ _ Hr). pose proof (Delete_spec w (managedKey instance)) as Hd.
      destruct (Delete w (managedKey instance)) as [w' e]. destruct Hd as (Hf & Hok & Hnf). split.
      * intros k [Hk|Hk]; apply Hf; [by left|right]. destruct e; done.
      * destruct e as [e|]; [|intros _ cm Hcm; by apply (Hok eq_refl)].
        destruct e as [e|e|e|e|e]; cbn; try done. intros _ cm Hcm. rewrite Hf in Hcm by (by right).
        by rewrite (Hnf e eq_refl) in Hcm.
Qed.

(** Reconciling the managed bundle touches no other ConfigMap, and changes
    nothing when it fails; when it succeeds, the ConfigMap holds exactly what
    the sources give, and belongs to the instance if it was created, or, when
    there is no source, it is gone. *)
Theorem managed_bundle_spec instance w w' r :
  setsController SetControllerReference →
  reconcileBundle instance w = (w', r) →
  (∀ k, k ≠ managedKey instance ∨ is_ok r = false → stored w' k = stored w k) ∧
  (r = Ok tt →
   if bundleWanted instance w then
     ∃ cm data, stored w' (managedKey instance) = Some cm ∧ gather instance w = (w, Ok data) ∧
       CM_Data cm !! ManagedCABundleKey = Some data ∧
       (stored w (managedKey instance) = None → IsControlledBy (CM_Meta cm) instance = true)
   else ∀ cm, stored w' (managedKey instance) = Some cm → Obj_Deleting (CM_Meta cm) = true).
Proof.
  intros HS E. pose proof (reconcileManagedCABundle_run instance w HS) as H. by rewrite E in H.
Qed.

(** ** Where the bundle goes wrong *)

(** A failed read of the cluster's trusted bundle counts as its absence:
    an instance without certificates of its own then deletes the bundle that its
    pods mount, whoever owns it, and reports success. *)
Theorem transient_read_deletes_bundle instance w w' e r cm :
  setsController SetControllerReference →
  hasCACertificates instance = false →
  Get w (namespaceOf instance, odhTrustedCABundleConfigMap) = inl (OtherError e) →
  Get w (managedKey instance) = inr cm →
  (Delete w (managedKey instance)).2 = None →
  reconcileBundle instance w = (w', r) →
  r = Ok tt ∧ ∀ cm', stored w' (managedKey instance) = Some cm' → Obj_Deleting (CM_Meta cm') = true.
Proof.
  intros HS Hca Hodh Hget Hdel E. assert (Hr : r = Ok tt).
  { apply (f_equal snd) in E. cbn in E. rewrite <- E. unfold reconcileManagedCABundle. rewrite Hca.
    rewrite (bindM_step _ _ _ _ _ (hasODH_run instance w)). unfold odhSeen. rewrite Hodh. cbn [negb].
    unfold getConfigMap. rewrite bindM_run. cbn [fst snd]. fold (managedKey instance). rewrite Hget.
    pose proof (Get_spec w (managedKey instance)) as Hg. rewrite Hget in Hg. rewrite (stored_key _ _ _ Hg).
    destruct (Delete w (managedKey instance)) as [w1 d]. cbn in Hdel. by subst d. }
  split; [done|]. pose proof (reconcileManagedCABundle_run instance w HS) as H. rewrite E in H.
  destruct H as [_ H]. specialize (H Hr). unfold bundleWanted, odhSeen in H. by rewrite Hca, Hodh in H.
Qed.

(** A trusted bundle whose keys are all blank (the cluster has no custom CA)
    makes the reconciliation of an instance without certificates of its own
    fail, every time, although a blank key is accepted. *)
Theorem blank_bundle_fails instance w cm :
  setsController SetControllerReference →
  hasCACertificates instance = false →
  Get w (namespaceOf instance, odhTrustedCABundleConfigMap) = inr cm → CM_Data cm ≠ ∅ →
  (∀ key data, CM_Data cm !! key = Some data → blank (chars data) = true) →
  is_ok (reconcileBundle instance w).2 = false.
Proof.
  intros HS Hca Hget Hne Hblank. unfold reconcileManagedCABundle. rewrite Hca.
  rewrite (bindM_step _ _ _ _ _ (hasODH_run instance w)). unfold odhSeen. rewrite Hget, bool_decide_true by done.
  cbn [negb]. rewrite wrapM_run. cbn [snd]. rewrite wrap_is_ok.
  unfold reconcileManagedCABundleConfigMap. rewrite bindM_run, wrapM_run. cbn [fst snd].
  assert (Hg : is_ok (gather instance w).2 = false); [|by destruct (gather instance w) as [w1 [|]]].
  unfold gatherCABundleData, gatherExplicitCABundle. rewrite Hca. cbn [negb].
  rewrite (bindM_step _ _ w w (Ok emptyCollector) eq_refl), bindM_run.
  unfold gatherODHCABundle, detectODHTrustedCABundle. rewrite bindM_run, bindM_run. cbn [getConfigMap fst snd]. rewrite Hget.
  cbn [mret M_ret fst snd].
  assert (Hproc : ∀ keys, processODHConfigMapKeys Decode EncodeToMemory ParseCertificate cm keys emptyCollector = Ok emptyCollector).
  { induction keys as [|key keys IH]; cbn [processODHConfigMapKeys]; [done|].
    destruct (CM_Data cm !! key) as [data|] eqn:Ed; [|done].
    unfold extractValidCertificates. rewrite (Hblank key data Ed). cbn. exact IH. }
  rewrite Hproc. by destruct (length _ =? 0)%nat.
Qed.
End reconcile.

(** The bundle depends on the order in which Go ranges over the keys of the
    trusted bundle: when two orders give different texts, two successive
    reconciliations of an unchanged cluster rewrite the managed ConfigMap, and
    with it the version that is hashed into the pod template. *)
Theorem bundle_follows_order {W : Type} `{!Client W ConfigMapObject, !ClientLaws W ConfigMapObject,
    !Patcher W ConfigMapObject, !PatcherLaws W ConfigMapObject} (MR1 MR2 : MapRange)
    (SetControllerReference : OGXServer → Metadata → result Metadata) (instance : OGXServer) (w w1 w2 : W)
    (data1 data2 : string) :
  consumes → (∀ b c, EncodeToMemory b = Some c → c ≠ "") → setsController SetControllerReference →
  let reconcile MR := @reconcileManagedCABundle Decode EncodeToMemory ParseCertificate W _ _ MR SetControllerReference in
  let gather MR := @gatherCABundleData Decode EncodeToMemory ParseCertificate W _ MR in
  bundleWanted instance w = true → bundleWanted instance w1 = true →
  reconcile MR1 instance w = (w1, Ok tt) → reconcile MR2 instance w1 = (w2, Ok tt) →
  gather MR1 instance w = (w, Ok data1) → gather MR2 instance w1 = (w1, Ok data2) → data1 ≠ data2 →
  stored w2 (managedKey instance) ≠ stored w1 (managedKey instance).
Proof.
  cbv zeta. intros HC HE HS Hb1 Hb2 E1 E2 Eg1 Eg2 Hne Heq.
  pose proof (reconcileManagedCABundle_run (MR := MR1) _ HC HE instance w HS) as H1. rewrite E1 in H1. destruct H1 as [_ H1]. specialize (H1 eq_refl).
  pose proof (reconcileManagedCABundle_run (MR := MR2) _ HC HE instance w1 HS) as H2. rewrite E2 in H2. destruct H2 as [_ H2]. specialize (H2 eq_refl).
  rewrite Hb1 in H1. rewrite Hb2 in H2.
  destruct H1 as (cm1 & d1 & Hcm1 & Hg1 & Hd1 & _). destruct H2 as (cm2 & d2 & Hcm2 & Hg2 & Hd2 & _). congruence.
Qed.
End bundle.
