(* ===== verification/Workload.v ===== *)
(** * The pod of the server

    [controllers/resource_helper.go]: the container, its environment, mounts and
    resources, the pod with its volumes and scheduling, and the specs of the
    HorizontalPodAutoscaler and the PodDisruptionBudget.

    A quantity is the text it was parsed from, and [IsZero] is a parameter.  The
    cluster is only read, to find out whether there is a trusted CA bundle. *)

From Stdlib Require Import ZArith.
From stdpp Require Import pretty.
From S2P Require Import Prelude Value ApiProviders ApiServer Secret Fmt Common Client Action Objects ConfigMaps CABundle.

#[local] Open Scope Z_scope.

(** ** Data *)

Record ContainerPort := { Port_Name : string; Port_Number : Z }.

(** An HTTP probe of the startup of the container. *)
Record Probe := {
  Probe_Path : string;
  Probe_Port : Z;
  Probe_InitialDelaySeconds : Z;
  Probe_TimeoutSeconds : Z;
  Probe_FailureThreshold : Z;
  Probe_SuccessThreshold : Z;
}.

Record SecurityContext := {
  SC_RunAsNonRoot : bool;
  SC_AllowPrivilegeEscalation : option bool;  (* not a field of a pod *)
  SC_SeccompProfile : string;
  SC_DropCapabilities : list string;
}.

Record Container := {
  Ctn_Name : string;
  Ctn_Image : string;
  Ctn_Resources : ResourceRequirements;
  Ctn_Ports : list ContainerPort;
  Ctn_StartupProbe : Probe;
  Ctn_SecurityContext : SecurityContext;
  Ctn_Env : list EnvVar;
  Ctn_VolumeMounts : list any;
  Ctn_Command : list string;
  Ctn_Args : list string;
}.

Record TopologySpreadConstraint := {
  TSC_MaxSkew : Z;
  TSC_TopologyKey : string;
  TSC_WhenUnsatisfiable : string;
  TSC_LabelSelector : LabelSelector;
}.

(** The constraints of the spec, as JSON, or the defaults. *)
Inductive topologySpread := UserConstraints (l : list any) | DefaultConstraints (l : list TopologySpreadConstraint).

(** A preferred anti-affinity term: its weight, selector and topology key. *)
Record WeightedPodAffinityTerm := {
  Term_Weight : Z;
  Term_LabelSelector : LabelSelector;
  Term_TopologyKey : string;
}.

Record PodSpec := {
  PodS_ServiceAccountName : string;
  PodS_Containers : list Container;
  PodS_SecurityContext : SecurityContext;
  PodS_Volumes : list Volume;
  PodS_TopologySpreadConstraints : topologySpread;
  PodS_PodAntiAffinity : option (list WeightedPodAffinityTerm);
  PodS_ResourceClaims : list any;
}.

Definition withEnv (env : list EnvVar) (c : Container) : Container :=
  {| Ctn_Name := Ctn_Name c; Ctn_Image := Ctn_Image c; Ctn_Resources := Ctn_Resources c; Ctn_Ports := Ctn_Ports c;
     Ctn_StartupProbe := Ctn_StartupProbe c; Ctn_SecurityContext := Ctn_SecurityContext c; Ctn_Env := env;
     Ctn_VolumeMounts := Ctn_VolumeMounts c; Ctn_Command := Ctn_Command c; Ctn_Args := Ctn_Args c |}.

Definition appendMounts (mounts : list any) (c : Container) : Container :=
  {| Ctn_Name := Ctn_Name c; Ctn_Image := Ctn_Image c; Ctn_Resources := Ctn_Resources c; Ctn_Ports := Ctn_Ports c;
     Ctn_StartupProbe := Ctn_StartupProbe c; Ctn_SecurityContext := Ctn_SecurityContext c; Ctn_Env := Ctn_Env c;
     Ctn_VolumeMounts := Ctn_VolumeMounts c ++ mounts; Ctn_Command := Ctn_Command c; Ctn_Args := Ctn_Args c |}.

Definition withCommand (command args : list string) (c : Container) : Container :=
  {| Ctn_Name := Ctn_Name c; Ctn_Image := Ctn_Image c; Ctn_Resources := Ctn_Resources c; Ctn_Ports := Ctn_Ports c;
     Ctn_StartupProbe := Ctn_StartupProbe c; Ctn_SecurityContext := Ctn_SecurityContext c; Ctn_Env := Ctn_Env c;
     Ctn_VolumeMounts := Ctn_VolumeMounts c; Ctn_Command := command; Ctn_Args := args |}.

Definition appendVolumes (volumes : list Volume) (p : PodSpec) : PodSpec :=
  {| PodS_ServiceAccountName := PodS_ServiceAccountName p; PodS_Containers := PodS_Containers p;
     PodS_SecurityContext := PodS_SecurityContext p; PodS_Volumes := PodS_Volumes p ++ volumes;
     PodS_TopologySpreadConstraints := PodS_TopologySpreadConstraints p;
     PodS_PodAntiAffinity := PodS_PodAntiAffinity p; PodS_ResourceClaims := PodS_ResourceClaims p |}.

(** ** The parts of the spec *)

Definition workload (instance : OGXServer) : option WorkloadSpec := Spec_Workload (Server_Spec instance).

Definition overrides (instance : OGXServer) : option WorkloadOverrides := workload instance ≫= WL_Overrides.

Definition GetEffectiveReplicas (instance : OGXServer) : Z :=
  match workload instance with
  | Some w => match WL_Replicas w with Some n => n | None => 1 end
  | None => 1
  end.

Definition DefaultContainerName : string := "ogx".
Definition DefaultMountPath : string := "/.ogx".
Definition DefaultServerMemoryRequest : string := "1Gi".
Definition defaultMetricsPort : Z := 9464.
Definition defaultHPACPUUtilization : Z := 80.

Definition startupProbeInitialDelaySeconds : Z := 15.
Definition startupProbeTimeoutSeconds : Z := 30.
Definition startupProbeFailureThreshold : Z := 3.
Definition startupProbeSuccessThreshold : Z := 1.

Definition isMonitoringDisabled (instance : OGXServer) : bool :=
  match Spec_Monitoring (Server_Spec instance) with
  | Some m => match Mon_Enabled m with Some b => negb b | None => false end
  | None => false
  end.

Definition getMetricsPort (instance : OGXServer) : Z :=
  match Spec_Monitoring (Server_Spec instance) with
  | Some m => match Mon_MetricsPort m with Some p => p | None => defaultMetricsPort end
  | None => defaultMetricsPort
  end.

Definition getContainerPort (instance : OGXServer) : Z :=
  match Spec_Network (Server_Spec instance) with
  | Some n => if negb (Net_Port n =? 0) then Net_Port n else DefaultServerPort
  | None => DefaultServerPort
  end.

Definition getEffectiveWorkers (instance : OGXServer) : Z * bool :=
  match workload instance with
  | Some w =>
      match WL_Workers w with
      | Some n => if 0 <? n then (n, true) else (1, false)
      | None => (1, false)
      end
  | None => (1, false)
  end.

Definition getMountPath (instance : OGXServer) : string :=
  match workload instance ≫= WL_Storage with
  | Some s => if negb (bool_decide (PVC_MountPath s = "")) then PVC_MountPath s else DefaultMountPath
  | None => DefaultMountPath
  end.

Definition getStartupProbe (instance : OGXServer) : Probe :=
  {| Probe_Path := "/v1/health"; Probe_Port := getContainerPort instance;
     Probe_InitialDelaySeconds := startupProbeInitialDelaySeconds;
     Probe_TimeoutSeconds := startupProbeTimeoutSeconds;
     Probe_FailureThreshold := startupProbeFailureThreshold;
     Probe_SuccessThreshold := startupProbeSuccessThreshold |}.

(** ** Resources *)

Section resources.
Context (IsZero : string → bool).

(** [qty, ok := list[name]; !ok || qty.IsZero()] *)
Definition unset (list : gmap string string) (name : string) : bool :=
  match list !! name with Some q => IsZero q | None => true end.

(** [if qty, ok := list[name]; !ok || qty.IsZero() { list[name] = value }] *)
Definition setUnset (name value : string) (list : gmap string string) : gmap string string :=
  if unset list name then <[name := value]> list else list.

Definition ensureRequests (resources : ResourceRequirements) (workers : Z) : ResourceRequirements :=
  {| RR_Limits := RR_Limits resources;
     RR_Requests := RR_Requests resources |> setUnset "cpu" (pretty workers)
                                          |> setUnset "memory" DefaultServerMemoryRequest;
     RR_Claims := RR_Claims resources |}.

(** A missing entry of a [ResourceList] is the zero quantity. *)
Definition quantityOf (list : gmap string string) (name : string) : string := default "0" (list !! name).

Definition ensureLimitsMatchRequests (resources : ResourceRequirements) : ResourceRequirements :=
  let requests := RR_Requests resources in
  {| RR_Limits := RR_Limits resources |> setUnset "cpu" (quantityOf requests "cpu")
                                      |> setUnset "memory" (quantityOf requests "memory");
     RR_Requests := requests; RR_Claims := RR_Claims resources |}.

Definition noResources : ResourceRequirements := {| RR_Limits := ∅; RR_Requests := ∅; RR_Claims := [] |}.

Definition resolveContainerResources (instance : OGXServer) (workers : Z) (workersSet : bool) : ResourceRequirements :=
  let resources := default noResources (workload instance ≫= WL_Resources) in
  let resources := ensureRequests resources workers in
  if workersSet then ensureLimitsMatchRequests resources else resources.
End resources.

(** ** Environment, mounts and command *)

(** The last override of a name wins in the map, but only its name is used. *)
Definition applyEnvOverrides (instance : OGXServer) (container : Container) : Container :=
  match overrides instance with
  | None => container
  | Some o =>
      let names : gset string := list_to_set (Env_Name <$> WO_Env o) in
      let deduped := List.filter (λ e, negb (bool_decide (Env_Name e ∈ names))) (Ctn_Env container) in
      withEnv (deduped ++ WO_Env o) container
  end.

Definition storageMount (path : string) : any :=
  AMap (<["name" := AString "ogx-storage"]> {["mountPath" := AString path]}).

Definition addStorageVolumeMount (instance : OGXServer) (container : Container) : Container :=
  appendMounts [storageMount (getMountPath instance)] container.

Definition addRuntimeConfigVolumeMount (runtimeConfig : option runtimeConfigRef) (container : Container) : Container :=
  match runtimeConfig with
  | Some _ => appendMounts [volumeMount "user-config" "/etc/ogx/"] container
  | None => container
  end.

Definition configureContainerCommands (instance : OGXServer) (container : Container) : Container :=
  match overrides instance with
  | None => container
  | Some o =>
      let container :=
        if negb (length (WO_Command o) =? 0)%nat then withCommand (WO_Command o) (Ctn_Args container) container
        else container in
      if negb (length (WO_Args o) =? 0)%nat then withCommand (Ctn_Command container) (WO_Args o) container
      else container
  end.

(** ** The pod *)

Definition mapFirst (f : Container → Container) (l : list Container) : list Container :=
  match l with [] => [] | c :: l => f c :: l end.

Definition claimSource (name : string) : VolumeSource :=
  {| Vol_ConfigMap := None; Vol_Secret := None; Vol_EmptyDir := None;
     Vol_PersistentVolumeClaim := Some (Sprintf "{%q:%q}" ["claimName"; name]);
     Vol_Projected := None; Vol_DownwardAPI := None; Vol_Other := None |}.

Definition emptyDirSource : VolumeSource :=
  {| Vol_ConfigMap := None; Vol_Secret := None; Vol_EmptyDir := Some "{}"; Vol_PersistentVolumeClaim := None;
     Vol_Projected := None; Vol_DownwardAPI := None; Vol_Other := None |}.

Definition configurePersistentStorage (pvcName : string) (p : PodSpec) : PodSpec :=
  appendVolumes [{| Vol_Name := "ogx-storage"; Vol_Source := claimSource pvcName |}] p.

Definition configureEmptyDirStorage (p : PodSpec) : PodSpec :=
  appendVolumes [{| Vol_Name := "ogx-storage"; Vol_Source := emptyDirSource |}] p.

Definition configureStorage (instance : OGXServer) (effectivePVCName : string) (p : PodSpec) : PodSpec :=
  match workload instance ≫= WL_Storage with
  | Some _ => configurePersistentStorage effectivePVCName p
  | None => configureEmptyDirStorage p
  end.

Definition configureRuntimeConfigVolume (runtimeConfig : option runtimeConfigRef) (p : PodSpec) : PodSpec :=
  match runtimeConfig with
  | None => p
  | Some rc =>
      appendVolumes [{| Vol_Name := "user-config";
                        Vol_Source := configMapSource (RC_ConfigMapName rc) (RC_ConfigMapKey rc) "config.yaml" |}] p
  end.

Definition configurePodOverrides (instance : OGXServer) (p : PodSpec) : PodSpec :=
  let serviceAccount :=
    match overrides instance with
    | Some o => if negb (bool_decide (WO_ServiceAccountName o = "")) then WO_ServiceAccountName o
                else (Server_Name instance +:+ "-sa")%string
    | None => (Server_Name instance +:+ "-sa")%string
    end in
  let volumes := match overrides instance with Some o => WO_Volumes o | None => [] end in
  let mounts := match overrides instance with Some o => WO_VolumeMounts o | None => [] end in
  {| PodS_ServiceAccountName := serviceAccount; PodS_Containers := mapFirst (appendMounts mounts) (PodS_Containers p);
     PodS_SecurityContext := PodS_SecurityContext p; PodS_Volumes := PodS_Volumes p ++ volumes;
     PodS_TopologySpreadConstraints := PodS_TopologySpreadConstraints p;
     PodS_PodAntiAffinity := PodS_PodAntiAffinity p; PodS_ResourceClaims := PodS_ResourceClaims p |}.

Definition defaultInstanceLabelSelector (instance : OGXServer) : LabelSelector :=
  {| LS_MatchLabels := {[instanceLabelKey := Server_Name instance]}; LS_MatchExpressions := [] |}.

Definition newTopologySpreadConstraint (selector : LabelSelector) (topologyKey : string) : TopologySpreadConstraint :=
  {| TSC_MaxSkew := 1; TSC_TopologyKey := topologyKey; TSC_WhenUnsatisfiable := "ScheduleAnyway";
     TSC_LabelSelector := selector |}.

Definition defaultTopologySpreadConstraints (instance : OGXServer) : list TopologySpreadConstraint :=
  let labelSelector := defaultInstanceLabelSelector instance in
  [newTopologySpreadConstraint labelSelector "topology.kubernetes.io/region";
   newTopologySpreadConstraint labelSelector "topology.kubernetes.io/zone";
   newTopologySpreadConstraint labelSelector "kubernetes.io/hostname"].

Definition ensureDefaultPodAntiAffinity (instance : OGXServer) (affinity : option (list WeightedPodAffinityTerm))
    : option (list WeightedPodAffinityTerm) :=
  match affinity with
  | Some a => Some a
  | None =>
      Some [{| Term_Weight := 100; Term_LabelSelector := defaultInstanceLabelSelector instance;
               Term_TopologyKey := "kubernetes.io/hostname" |}]
  end.

Definition configurePodScheduling (instance : OGXServer) (p : PodSpec) : PodSpec :=
  let replicas := GetEffectiveReplicas instance in
  let user := match workload instance with Some w => WL_TopologySpreadConstraints w | None => [] end in
  let spread :=
    if negb (length user =? 0)%nat then UserConstraints user
    else if 1 <? replicas then DefaultConstraints (defaultTopologySpreadConstraints instance)
    else PodS_TopologySpreadConstraints p in
  let affinity :=
    if 1 <? replicas then ensureDefaultPodAntiAffinity instance (PodS_PodAntiAffinity p) else PodS_PodAntiAffinity p in
  {| PodS_ServiceAccountName := PodS_ServiceAccountName p; PodS_Containers := PodS_Containers p;
     PodS_SecurityContext := PodS_SecurityContext p; PodS_Volumes := PodS_Volumes p;
     PodS_TopologySpreadConstraints := spread; PodS_PodAntiAffinity := affinity;
     PodS_ResourceClaims := PodS_ResourceClaims p |}.

Definition configureResourceClaims (instance : OGXServer) (p : PodSpec) : PodSpec :=
  match workload instance with
  | Some w =>
      if (length (WL_ResourceClaims w) =? 0)%nat then p
      else
        {| PodS_ServiceAccountName := PodS_ServiceAccountName p; PodS_Containers := PodS_Containers p;
           PodS_SecurityContext := PodS_SecurityContext p; PodS_Volumes := PodS_Volumes p;
           PodS_TopologySpreadConstraints := PodS_TopologySpreadConstraints p;
           PodS_PodAntiAffinity := PodS_PodAntiAffinity p; PodS_ResourceClaims := WL_ResourceClaims w |}
  | None => p
  end.

(** ** With the cluster *)

Section pod.
Context (IsZero : string → bool).
Context {W : Type} `{!Client W ConfigMapObject} {MR : MapRange}.

Implicit Types (instance : OGXServer).

Definition hasAnyCABundle instance : M W bool :=
  if hasCACertificates instance then mret true
  else
    found ← detectODHTrustedCABundle instance;
    mret match found with Ok (_, keys) => (0 <? length keys)%nat | Err _ => false end.

Definition configureContainerEnvironment instance (runtimeConfig : option runtimeConfigRef)
    (secretEnvVars : list EnvVar) (container : Container) : M W Container :=
  let workers := (getEffectiveWorkers instance).1 in
  bundle ← hasAnyCABundle instance;
  let env :=
    Ctn_Env container ++
    [plainEnv "HF_HOME" (getMountPath instance)] ++
    (if bundle : bool then [plainEnv "SSL_CERT_FILE" ManagedCABundleFilePath] else []) ++
    [plainEnv "OGX_WORKERS" (pretty workers); plainEnv "OGX_PORT" (pretty (getContainerPort instance))] ++
    match runtimeConfig with
    | Some _ => [plainEnv "RUN_CONFIG_PATH" ogxConfigPath; plainEnv "OGX_CONFIG" ogxConfigPath]
    | None => []
    end ++
    match Spec_RegistryRefreshIntervalSeconds (Server_Spec instance) with
    | Some n => [plainEnv "OGX_REGISTRY_REFRESH_INTERVAL_SECONDS" (pretty n)]
    | None => []
    end ++
    (if negb (isMonitoringDisabled instance) then
       [plainEnv "OGX_METRICS_ENDPOINT_ENABLED" "1"; plainEnv "OGX_METRICS_HOST" "0.0.0.0";
        plainEnv "OGX_METRICS_PORT" (pretty (getMetricsPort instance))]
     else []) ++
    secretEnvVars in
  mret (applyEnvOverrides instance (withEnv env container)).

Definition addCABundleVolumeMount instance (container : Container) : M W Container :=
  bundle ← hasAnyCABundle instance;
  mret (if bundle : bool then appendMounts [volumeMount CABundleVolumeName ManagedCABundleMountPath] container
        else container).

Definition configureContainerMounts instance (runtimeConfig : option runtimeConfigRef) (container : Container)
    : M W Container :=
  let container := addStorageVolumeMount instance container in
  let container := addRuntimeConfigVolumeMount runtimeConfig container in
  addCABundleVolumeMount instance container.

(** The container before its environment and its mounts. *)
Definition baseContainer instance (image : string) : Container :=
  let '(workers, workersSet) := getEffectiveWorkers instance in
  let ports :=
    {| Port_Name := ""; Port_Number := getContainerPort instance |} ::
    (if negb (isMonitoringDisabled instance)
     then [{| Port_Name := "metrics"; Port_Number := getMetricsPort instance |}] else []) in
  {| Ctn_Name := DefaultContainerName; Ctn_Image := image;
     Ctn_Resources := resolveContainerResources IsZero instance workers workersSet; Ctn_Ports := ports;
     Ctn_StartupProbe := getStartupProbe instance;
     Ctn_SecurityContext :=
       {| SC_RunAsNonRoot := true; SC_AllowPrivilegeEscalation := Some false; SC_SeccompProfile := "RuntimeDefault";
          SC_DropCapabilities := ["ALL"] |};
     Ctn_Env := []; Ctn_VolumeMounts := []; Ctn_Command := []; Ctn_Args := [] |}.

Definition buildContainerSpec instance (image : string) (runtimeConfig : option runtimeConfigRef)
    (secretEnvVars : list EnvVar) : M W Container :=
  container ← configureContainerEnvironment instance runtimeConfig secretEnvVars (baseContainer instance image);
  container ← configureContainerMounts instance runtimeConfig container;
  mret (configureContainerCommands instance container).

Definition configureTLSCABundle instance (p : PodSpec) : M W PodSpec :=
  bundle ← hasAnyCABundle instance;
  mret (if bundle : bool then appendVolumes [createCABundleVolume (getManagedCABundleConfigMapName instance)] p
        else p).

Definition configurePodStorage instance (runtimeConfig : option runtimeConfigRef) (container : Container)
    (effectivePVCName : string) : M W PodSpec :=
  let p :=
    {| PodS_ServiceAccountName := ""; PodS_Containers := [container];
       PodS_SecurityContext :=
         {| SC_RunAsNonRoot := true; SC_AllowPrivilegeEscalation := None; SC_SeccompProfile := "RuntimeDefault";
            SC_DropCapabilities := [] |};
       PodS_Volumes := []; PodS_TopologySpreadConstraints := UserConstraints []; PodS_PodAntiAffinity := None;
       PodS_ResourceClaims := [] |} in
  let p := configureStorage instance effectivePVCName p in
  p ← configureTLSCABundle instance p;
  let p := configureRuntimeConfigVolume runtimeConfig p in
  let p := configurePodOverrides instance p in
  let p := configurePodScheduling instance p in
  mret (configureResourceClaims instance p).
End pod.

(** ** Disruption budget and autoscaler *)

Definition needsPodDisruptionBudget (instance : OGXServer) : bool :=
  match workload instance ≫= WL_PodDisruptionBudget with
  | Some _ => true
  | None => 1 <? GetEffectiveReplicas instance
  end.

Definition buildPodDisruptionBudgetSpec (instance : OGXServer) : option PodDisruptionBudgetSpec :=
  if negb (needsPodDisruptionBudget instance) then None
  else
    match workload instance ≫= WL_PodDisruptionBudget with
    | Some pdb => Some {| PDB_MinAvailable := PDB_MinAvailable pdb; PDB_MaxUnavailable := PDB_MaxUnavailable pdb |}
    | None => Some {| PDB_MinAvailable := None; PDB_MaxUnavailable := Some (AInt 1) |}
    end.

(** A metric: the resource and its average utilization. *)
Record HPASpec := {
  HPA_TargetName : string;
  HPA_MinReplicas : Z;
  HPA_MaxReplicas : Z;
  HPA_Metrics : list (string * Z);
}.

Definition resolveMinReplicas (value : option Z) (defaultVal : Z) : Z :=
  let resolved := 1 in
  let resolved := if resolved <? defaultVal then defaultVal else resolved in
  match value with
  | Some v => if resolved <? v then v else resolved
  | None => resolved
  end.

Definition buildHPAMetrics (auto : AutoscalingSpec) : list (string * Z) :=
  let metrics :=
    match AS_TargetCPUUtilizationPercentage auto with Some n => [("cpu", n)] | None => [] end ++
    match AS_TargetMemoryUtilizationPercentage auto with Some n => [("memory", n)] | None => [] end in
  if (length metrics =? 0)%nat then [("cpu", defaultHPACPUUtilization)] else metrics.

Definition buildHPASpec (instance : OGXServer) : option HPASpec :=
  match workload instance ≫= WL_Autoscaling with
  | None => None
  | Some auto =>
      if AS_MaxReplicas auto =? 0 then None
      else
        Some {| HPA_TargetName := Server_Name instance;
                HPA_MinReplicas := resolveMinReplicas (AS_MinReplicas auto) (GetEffectiveReplicas instance);
                HPA_MaxReplicas := AS_MaxReplicas auto; HPA_Metrics := buildHPAMetrics auto |}
  end.
