(* ===== verification/WorkloadFacts.v ===== *)
(** * What the pod of the server gets

    The environment as the kubelet resolves it, the volumes behind the mounts,
    the resources, and the autoscaler. *)

From Stdlib Require Import ZArith.
From stdpp Require Import pretty.
From S2P Require Import Prelude Value ApiProviders ApiServer Secret Fmt Common Client Action Objects ConfigMaps CABundle CABundleFacts Workload.

#[local] Open Scope Z_scope.

(** ** Reading the cluster *)

Section pod.
Context (IsZero : string → bool).
Context {W : Type} `{!Client W ConfigMapObject} {MR : MapRange}.

Implicit Types (instance : OGXServer) (w : W).

Lemma hasAnyCABundle_run instance w : hasAnyCABundle instance w = (w, Ok (bundleWanted instance w)).
Proof.
  unfold hasAnyCABundle, bundleWanted. destruct (hasCACertificates instance); [done|].
  change (hasODHTrustedCABundle instance w = (w, Ok (odhSeen instance w))). apply hasODH_run.
Qed.

(** ** The environment *)

Definition operatorEnv instance (bundle : bool) (runtimeConfig : option runtimeConfigRef) : list EnvVar :=
  [plainEnv "HF_HOME" (getMountPath instance)] ++
  (if bundle then [plainEnv "SSL_CERT_FILE" ManagedCABundleFilePath] else []) ++
  [plainEnv "OGX_WORKERS" (pretty (getEffectiveWorkers instance).1); plainEnv "OGX_PORT" (pretty (getContainerPort instance))] ++
  match runtimeConfig with
  | Some _ => [plainEnv "RUN_CONFIG_PATH" ogxConfigPath; plainEnv "OGX_CONFIG" ogxConfigPath]
  | None => []
  end ++
  match Spec_RegistryRefreshIntervalSeconds (Server_Spec instance) with
  | Some n => [plainEnv "OGX_REGISTRY_REFRESH_INTERVAL_SECONDS" (pretty n)]
  | None => []
  end ++
  (if negb (isMonitoringDisabled instance) then
     [plainEnv "OGX_METRICS_ENDPOINT_ENABLED" "1"; plainEnv "OGX_METRICS_HOST" "0.0.0.0";
      plainEnv "OGX_METRICS_PORT" (pretty (getMetricsPort instance))]
   else []).

Definition userEnv instance : list EnvVar := match overrides instance with Some o => WO_Env o | None => [] end.

(** The value of a variable in a container: the last entry of its name. *)
Definition effective (env : list EnvVar) (name : string) : option EnvVar :=
  last (List.filter (λ e, bool_decide (Env_Name e = name)) env).

Lemma effective_app l k name :
  effective (l ++ k) name = match effective k name with Some e => Some e | None => effective l name end.
Proof.
  unfold effective. rewrite List.filter_app. set (a := List.filter _ l). set (b := List.filter _ k).
  destruct b as [|x b] using rev_ind; [by rewrite app_nil_r|]. by rewrite app_assoc, !last_snoc.
Qed.

Lemma effective_None l name : effective l name = None ↔ name ∉ Env_Name <$> l.
Proof.
  unfold effective. rewrite last_None. split.
  - intros H (e & -> & He)%list_elem_of_fmap. apply (not_elem_of_nil e). rewrite <- H.
    apply list_elem_of_In, filter_In. split; [by apply list_elem_of_In|by apply bool_decide_eq_true].
  - intros H. destruct (List.filter _ l) as [|e k] eqn:E; [done|]. destruct H.
    assert (He : In e (List.filter (λ e, bool_decide (Env_Name e = name)) l)) by (rewrite E; by left).
    apply filter_In in He as [He Hn%bool_decide_eq_true]. apply list_elem_of_fmap. exists e.
    split; [done|by apply list_elem_of_In].
Qed.

Lemma effective_filter l (names : gset string) name :
  name ∉ names →
  effective (List.filter (λ e, negb (bool_decide (Env_Name e ∈ names))) l) name = effective l name.
Proof.
  intros Hn. unfold effective. f_equal. induction l as [|e l IH]; cbn; [done|].
  destruct (decide (Env_Name e = name)) as [He|He].
  - rewrite (bool_decide_eq_false_2 (Env_Name e ∈ names)) by by rewrite He. cbn.
    rewrite bool_decide_eq_true_2 by done. by f_equal.
  - rewrite (bool_decide_eq_false_2 (Env_Name e = name)) by done. case_bool_decide; cbn; [done|].
    by rewrite (bool_decide_eq_false_2 (Env_Name e = name)).
Qed.

Lemma configureContainerEnvironment_run instance runtimeConfig secretEnvVars c w :
  configureContainerEnvironment instance runtimeConfig secretEnvVars c w =
  (w, Ok (applyEnvOverrides instance
            (withEnv (Ctn_Env c ++ operatorEnv instance (bundleWanted instance w) runtimeConfig ++ secretEnvVars) c))).
Proof.
  unfold configureContainerEnvironment, operatorEnv. rewrite bindM_run, hasAnyCABundle_run. cbn [fst snd].
  do 5 f_equal. by rewrite <- !app_assoc.
Qed.

(** The variables after the user's: an override replaces every entry of its name. *)
Definition overridden instance (env : list EnvVar) : list EnvVar :=
  match overrides instance with
  | None => env
  | Some o =>
      List.filter (λ e, negb (bool_decide (Env_Name e ∈ (list_to_set (Env_Name <$> WO_Env o) : gset string)))) env ++ WO_Env o
  end.

Lemma applyEnvOverrides_env instance c : Ctn_Env (applyEnvOverrides instance c) = overridden instance (Ctn_Env c).
Proof. unfold applyEnvOverrides, overridden. by destruct (overrides instance). Qed.

Lemma effective_overridden instance env name :
  effective (overridden instance env) name =
  match effective (userEnv instance) name with Some e => Some e | None => effective env name end.
Proof.
  unfold overridden, userEnv. destruct (overrides instance) as [o|]; [|done].
  rewrite effective_app. destruct (effective (WO_Env o) name) eqn:E; [done|].
  apply effective_None in E. apply effective_filter. by rewrite elem_of_list_to_set.
Qed.

(** What a step of the container's construction keeps. *)
Lemma configureContainerCommands_keeps instance c :
  Ctn_Env (configureContainerCommands instance c) = Ctn_Env c ∧
  Ctn_VolumeMounts (configureContainerCommands instance c) = Ctn_VolumeMounts c ∧
  Ctn_Resources (configureContainerCommands instance c) = Ctn_Resources c ∧
  Ctn_Image (configureContainerCommands instance c) = Ctn_Image c.
Proof. unfold configureContainerCommands. destruct (overrides instance); [|done]. by repeat case_match. Qed.

Lemma applyEnvOverrides_keeps instance c :
  Ctn_VolumeMounts (applyEnvOverrides instance c) = Ctn_VolumeMounts c ∧
  Ctn_Resources (applyEnvOverrides instance c) = Ctn_Resources c ∧
  Ctn_Image (applyEnvOverrides instance c) = Ctn_Image c.
Proof. unfold applyEnvOverrides. by destruct (overrides instance). Qed.

Lemma configureContainerMounts_run instance runtimeConfig c w :
  ∃ c', configureContainerMounts instance runtimeConfig c w = (w, Ok c') ∧
    Ctn_Env c' = Ctn_Env c ∧ Ctn_Resources c' = Ctn_Resources c ∧ Ctn_Image c' = Ctn_Image c ∧
    Ctn_VolumeMounts c' =
      Ctn_VolumeMounts c ++ [storageMount (getMountPath instance)] ++
      match runtimeConfig with Some _ => [volumeMount "user-config" "/etc/ogx/"] | None => [] end ++
      (if bundleWanted instance w then [volumeMount CABundleVolumeName ManagedCABundleMountPath] else []).
Proof.
  unfold configureContainerMounts, addCABundleVolumeMount. rewrite bindM_run, hasAnyCABundle_run. cbn [fst snd].
  eexists. split; [reflexivity|].
  destruct runtimeConfig, (bundleWanted instance w); cbn -[volumeMount storageMount]; by rewrite <- ?app_assoc.
Qed.

Lemma buildContainerSpec_run instance image runtimeConfig secretEnvVars w :
  ∃ c, buildContainerSpec IsZero instance image runtimeConfig secretEnvVars w = (w, Ok c) ∧
    Ctn_Env c = overridden instance (operatorEnv instance (bundleWanted instance w) runtimeConfig ++ secretEnvVars) ∧
    Ctn_Resources c = resolveContainerResources IsZero instance (getEffectiveWorkers instance).1 (getEffectiveWorkers instance).2 ∧
    Ctn_Image c = image ∧
    Ctn_VolumeMounts c =
      [storageMount (getMountPath instance)] ++
      match runtimeConfig with Some _ => [volumeMount "user-config" "/etc/ogx/"] | None => [] end ++
      (if bundleWanted instance w then [volumeMount CABundleVolumeName ManagedCABundleMountPath] else []).
Proof.
  unfold buildContainerSpec, baseContainer. destruct (getEffectiveWorkers instance) as [workers workersSet].
  set (c0 := {| Ctn_Name := _ |}). rewrite bindM_run, configureContainerEnvironment_run. cbn [fst snd].
  set (c1 := applyEnvOverrides instance _). rewrite bindM_run.
  destruct (configureContainerMounts_run instance runtimeConfig c1 w) as (c2 & -> & He & Hr & Hi & Hm). cbn [fst snd].
  eexists. split; [reflexivity|]. destruct (configureContainerCommands_keeps instance c2) as (-> & -> & -> & ->).
  rewrite He, Hr, Hi, Hm. subst c1. rewrite applyEnvOverrides_env.
  destruct (applyEnvOverrides_keeps instance (withEnv (Ctn_Env c0 ++ operatorEnv instance (bundleWanted instance w) runtimeConfig ++ secretEnvVars) c0)) as (-> & -> & ->).
  done.
Qed.

(** The environment of the server container, as the kubelet resolves it: for
    every name, the user's last override wins, then the variables of the
    generated configuration's secrets, then the operator's own; reading the
    cluster changes nothing and cannot fail. *)
Theorem container_env_spec instance image runtimeConfig secretEnvVars w :
  ∃ c, buildContainerSpec IsZero instance image runtimeConfig secretEnvVars w = (w, Ok c) ∧
    ∀ name, effective (Ctn_Env c) name =
      match effective (userEnv instance) name with
      | Some e => Some e
      | None =>
          match effective secretEnvVars name with
          | Some e => Some e
          | None => effective (operatorEnv instance (bundleWanted instance w) runtimeConfig) name
          end
      end.
Proof.
  destruct (buildContainerSpec_run instance image runtimeConfig secretEnvVars w) as (c & E & Henv & _).
  exists c. split; [done|]. intros name. by rewrite Henv, effective_overridden, effective_app.
Qed.

(** ** Volumes *)

Lemma configureTLSCABundle_run instance p w :
  configureTLSCABundle instance p w =
  (w, Ok (if bundleWanted instance w then appendVolumes [createCABundleVolume (getManagedCABundleConfigMapName instance)] p
          else p)).
Proof. unfold configureTLSCABundle. by rewrite bindM_run, hasAnyCABundle_run. Qed.

Definition userVolumes instance : list Volume := match overrides instance with Some o => WO_Volumes o | None => [] end.
Definition userMounts instance : list any := match overrides instance with Some o => WO_VolumeMounts o | None => [] end.

(** The volume of the models and files. *)
Definition storageVolume instance (effectivePVCName : string) : Volume :=
  {| Vol_Name := "ogx-storage";
     Vol_Source := match workload instance ≫= WL_Storage with
                   | Some _ => claimSource effectivePVCName
                   | None => emptyDirSource
                   end |}.

Lemma configurePodStorage_run instance runtimeConfig c effectivePVCName w :
  ∃ p, configurePodStorage instance runtimeConfig c effectivePVCName w = (w, Ok p) ∧
    PodS_Containers p = [appendMounts (userMounts instance) c] ∧
    PodS_Volumes p =
      [storageVolume instance effectivePVCName] ++
      (if bundleWanted instance w then [createCABundleVolume (getManagedCABundleConfigMapName instance)] else []) ++
      match runtimeConfig with
      | Some rc => [{| Vol_Name := "user-config";
                       Vol_Source := configMapSource (RC_ConfigMapName rc) (RC_ConfigMapKey rc) "config.yaml" |}]
      | None => []
      end ++ userVolumes instance.
Proof.
  unfold configurePodStorage. cbv zeta. rewrite bindM_run, configureTLSCABundle_run. cbn [fst snd].
  eexists. split; [reflexivity|].
  assert (Hclaims : ∀ p, PodS_Containers (configureResourceClaims instance p) = PodS_Containers p ∧
                         PodS_Volumes (configureResourceClaims instance p) = PodS_Volumes p).
  { intros p. unfold configureResourceClaims. destruct (workload instance); [|done]. by case_match. }
  set (p := configurePodScheduling _ _). destruct (Hclaims p) as [-> ->]. subst p.
  unfold configurePodScheduling, configurePodOverrides, configureStorage, storageVolume, userVolumes, userMounts.
  cbn [PodS_Containers PodS_Volumes].
  destruct (workload instance ≫= WL_Storage), (bundleWanted instance w), runtimeConfig; cbn [appendVolumes configurePersistentStorage configureEmptyDirStorage configureRuntimeConfigVolume PodS_Volumes PodS_Containers mapFirst]; by rewrite ?app_nil_r.
Qed.

Definition mountName (m : any) : option string := as_object m ≫= λ o, o !! "name" ≫= as_string.

(** ** The pod that a reconciliation builds

    The cluster is read three times, for the environment, for the mounts and for
    the volumes, and may be another one each time; a read that fails is the absence
    of the cluster's trusted bundle. *)
Definition podThrough instance image runtimeConfig secretEnvVars effectivePVCName (w1 w2 w3 : W) : result PodSpec :=
  match (configureContainerEnvironment instance runtimeConfig secretEnvVars (baseContainer IsZero instance image) w1).2 with
  | Err e => Err e
  | Ok c =>
      match (configureContainerMounts instance runtimeConfig c w2).2 with
      | Err e => Err e
      | Ok c => (configurePodStorage instance runtimeConfig (configureContainerCommands instance c) effectivePVCName w3).2
      end
  end.

(** The code's composition, when the cluster stays as it is. *)
Lemma podThrough_same instance image runtimeConfig secretEnvVars effectivePVCName w :
  podThrough instance image runtimeConfig secretEnvVars effectivePVCName w w w =
  ((c ← buildContainerSpec IsZero instance image runtimeConfig secretEnvVars;
    configurePodStorage instance runtimeConfig c effectivePVCName) w).2.
Proof.
  unfold podThrough, buildContainerSpec. rewrite !bindM_run, configureContainerEnvironment_run. cbn [fst snd].
  rewrite bindM_run. set (c1 := applyEnvOverrides instance _).
  destruct (configureContainerMounts_run instance runtimeConfig c1 w) as (c2 & -> & _). done.
Qed.

Lemma podThrough_run instance image runtimeConfig secretEnvVars effectivePVCName w1 w2 w3 :
  ∃ p c, podThrough instance image runtimeConfig secretEnvVars effectivePVCName w1 w2 w3 = Ok p ∧
    PodS_Containers p = [c] ∧
    Ctn_Env c = overridden instance (operatorEnv instance (bundleWanted instance w1) runtimeConfig ++ secretEnvVars) ∧
    Ctn_VolumeMounts c =
      [storageMount (getMountPath instance)] ++
      match runtimeConfig with Some _ => [volumeMount "user-config" "/etc/ogx/"] | None => [] end ++
      (if bundleWanted instance w2 then [volumeMount CABundleVolumeName ManagedCABundleMountPath] else []) ++
      userMounts instance ∧
    PodS_Volumes p =
      [storageVolume instance effectivePVCName] ++
      (if bundleWanted instance w3 then [createCABundleVolume (getManagedCABundleConfigMapName instance)] else []) ++
      match runtimeConfig with
      | Some rc => [{| Vol_Name := "user-config";
                       Vol_Source := configMapSource (RC_ConfigMapName rc) (RC_ConfigMapKey rc) "config.yaml" |}]
      | None => []
      end ++ userVolumes instance.
Proof.
  unfold podThrough. rewrite configureContainerEnvironment_run. cbn [snd]. set (c0 := baseContainer IsZero instance image).
  assert (H0 : Ctn_Env c0 = [] ∧ Ctn_VolumeMounts c0 = []) by (subst c0; unfold baseContainer; by destruct (getEffectiveWorkers instance)).
  destruct H0 as [He0 Hm0]. set (c1 := applyEnvOverrides instance _).
  destruct (configureContainerMounts_run instance runtimeConfig c1 w2) as (c2 & -> & He & _ & _ & Hm). cbn [snd].
  destruct (configurePodStorage_run instance runtimeConfig (configureContainerCommands instance c2) effectivePVCName w3) as (p & -> & Hc & Hv).
  exists p, (appendMounts (userMounts instance) (configureContainerCommands instance c2)). cbn [appendMounts Ctn_Env Ctn_VolumeMounts snd].
  destruct (configureContainerCommands_keeps instance c2) as (-> & -> & _). split_and!; [done|done| | |done].
  - rewrite He. subst c1. rewrite applyEnvOverrides_env. cbn [Ctn_Env withEnv]. by rewrite He0.
  - rewrite Hm. subst c1. destruct (applyEnvOverrides_keeps instance
      (withEnv (Ctn_Env c0 ++ operatorEnv instance (bundleWanted instance w1) runtimeConfig ++ secretEnvVars) c0)) as (-> & _).
    cbn [Ctn_VolumeMounts withEnv]. rewrite Hm0. by rewrite <- !app_assoc.
Qed.

(** A mount that a volume of the pod stands behind. *)
Definition declared (p : PodSpec) (m : any) : Prop := ∃ v, v ∈ PodS_Volumes p ∧ mountName m = Some (Vol_Name v).

(** The mount of the managed CA bundle. *)
Definition bundleMount : any := volumeMount CABundleVolumeName ManagedCABundleMountPath.

End pod.

(** ** Resources *)

Section resources.
Context (IsZero : string → bool).

(** A positive whole number of cores, and the default amount of memory, are not zero. *)
Definition quantities : Prop :=
  (∀ n : Z, 0 < n → IsZero (pretty n) = false) ∧ IsZero DefaultServerMemoryRequest = false.

(** The quantity of [name] that the user gave, unless it is zero. *)
Definition given (list : gmap string string) (name : string) : option string :=
  if unset IsZero list name then None else list !! name.

Lemma setUnset_lookup name value list n :
  setUnset IsZero name value list !! n =
  if bool_decide (n = name) then Some (default value (given list name)) else list !! n.
Proof.
  unfold setUnset, given. case_bool_decide as Hn; [subst n|by case_match; [rewrite lookup_insert_ne|]].
  destruct (unset IsZero list name) eqn:E; [apply lookup_insert_eq|].
  unfold unset in E. by destruct (list !! name).
Qed.

Lemma given_setUnset name value list n : n ≠ name → given (setUnset IsZero name value list) n = given list n.
Proof. intros Hn. unfold given, unset. rewrite setUnset_lookup, bool_decide_eq_false_2 by done. done. Qed.

Lemma given_nonzero list name q : given list name = Some q → list !! name = Some q ∧ IsZero q = false.
Proof. unfold given, unset. destruct (list !! name) as [q'|]; [|done]. destruct (IsZero q') eqn:E; by intros [= <-]. Qed.

Lemma getEffectiveWorkers_pos instance : 0 < (getEffectiveWorkers instance).1.
Proof.
  unfold getEffectiveWorkers. destruct (workload instance) as [w|]; [|done].
  destruct (WL_Workers w) as [n|]; [|done]. destruct (Z.ltb_spec 0 n); cbn; lia.
Qed.

Definition userResources instance : ResourceRequirements := default noResources (workload instance ≫= WL_Resources).

Definition defaultRequest instance (name : string) : string :=
  if bool_decide (name = "cpu") then pretty (getEffectiveWorkers instance).1 else DefaultServerMemoryRequest.

Definition resolvedResources instance : ResourceRequirements :=
  resolveContainerResources IsZero instance (getEffectiveWorkers instance).1 (getEffectiveWorkers instance).2.

Lemma defaultRequest_nonzero instance name : quantities → IsZero (defaultRequest instance name) = false.
Proof. intros [Hn Hm]. unfold defaultRequest. case_bool_decide; [apply Hn, getEffectiveWorkers_pos|done]. Qed.

Lemma resolved_requests instance :
  RR_Requests (resolvedResources instance) = RR_Requests (ensureRequests IsZero (userResources instance) (getEffectiveWorkers instance).1).
Proof. unfold resolvedResources, resolveContainerResources. by destruct (getEffectiveWorkers instance).2. Qed.

Lemma resolved_request instance name : name = "cpu" ∨ name = "memory" →
  RR_Requests (resolvedResources instance) !! name =
  Some (default (defaultRequest instance name) (given (RR_Requests (userResources instance)) name)).
Proof.
  intros Hname. rewrite resolved_requests. unfold ensureRequests, defaultRequest. cbn [RR_Requests].
  destruct Hname as [-> | ->]; rewrite !setUnset_lookup, ?given_setUnset by done; done.
Qed.

(** The resources of the container: a CPU and a memory request are always
    there and never zero, the user's if given, else a core per worker and 1Gi; a
    positive number of workers also puts a limit on both, the user's if given,
    else the request; claims and every other resource are the user's. *)
Theorem resources_spec instance name :
  quantities → name = "cpu" ∨ name = "memory" →
  (∃ q, RR_Requests (resolvedResources instance) !! name = Some q ∧ IsZero q = false ∧
     (∀ u, given (RR_Requests (userResources instance)) name = Some u → q = u) ∧
     RR_Limits (resolvedResources instance) !! name =
       if (getEffectiveWorkers instance).2
       then Some (default q (given (RR_Limits (userResources instance)) name))
       else RR_Limits (userResources instance) !! name) ∧
  (∀ other, other ≠ "cpu" → other ≠ "memory" →
     RR_Requests (resolvedResources instance) !! other = RR_Requests (userResources instance) !! other ∧
     RR_Limits (resolvedResources instance) !! other = RR_Limits (userResources instance) !! other) ∧
  RR_Claims (resolvedResources instance) = RR_Claims (userResources instance).
Proof.
  intros HQ Hname. split_and!.
  - eexists. split; [by apply resolved_request|]. split_and!.
    + destruct (given _ name) as [q|] eqn:E; cbn; [by apply given_nonzero in E as [_ ?]|by apply defaultRequest_nonzero].
    + by intros u ->.
    + pose proof (resolved_request instance name Hname) as Hreq. rewrite resolved_requests in Hreq.
      unfold resolvedResources, resolveContainerResources. fold (userResources instance).
      destruct (getEffectiveWorkers instance).2; [|done]. unfold ensureLimitsMatchRequests, quantityOf.
      cbn [RR_Limits]. by destruct Hname as [-> | ->]; rewrite !setUnset_lookup, ?given_setUnset, Hreq by done.
  - intros other Hc Hm. rewrite resolved_requests. unfold resolvedResources, resolveContainerResources.
    fold (userResources instance). split; [|destruct (getEffectiveWorkers instance).2; [|done]];
      cbn; by rewrite !setUnset_lookup, !bool_decide_eq_false_2.
  - unfold resolvedResources, resolveContainerResources. by destruct (getEffectiveWorkers instance).2.
Qed.

(** A limit without a request: the request that is added may exceed it, although
    Kubernetes would have taken the limit for the request. *)
Lemma limit_below_request instance q :
  given (RR_Requests (userResources instance)) "cpu" = None →
  given (RR_Limits (userResources instance)) "cpu" = Some q →
  RR_Requests (resolvedResources instance) !! "cpu" = Some (pretty (getEffectiveWorkers instance).1) ∧
  RR_Limits (resolvedResources instance) !! "cpu" = Some q.
Proof.
  intros Hr Hl. split.
  - rewrite resolved_request by (by left). by rewrite Hr.
  - unfold resolvedResources, resolveContainerResources. fold (userResources instance).
    apply given_nonzero in Hl as Hq. destruct (getEffectiveWorkers instance).2; [|apply Hq].
    cbn. rewrite !setUnset_lookup. cbn. by rewrite Hl.
Qed.
End resources.

(** ** The autoscaler *)

(** What the API server checks of an autoscaling section. *)
Definition AutoscalingSpec_valid (auto : AutoscalingSpec) : Prop :=
  1 <= AS_MaxReplicas auto ∧ ∀ n, AS_MinReplicas auto = Some n → 1 <= n <= AS_MaxReplicas auto.

(** The HorizontalPodAutoscaler of an accepted autoscaling section exists, it
    never scales below one replica, the replicas of the spec or the requested
    minimum, and it has a metric; but its minimum exceeds its maximum, which
    Kubernetes refuses, exactly when the replicas of the spec do. *)
Theorem hpa_bounds instance auto :
  workload instance ≫= WL_Autoscaling = Some auto → AutoscalingSpec_valid auto →
  ∃ h, buildHPASpec instance = Some h ∧ HPA_MaxReplicas h = AS_MaxReplicas auto ∧
    1 <= HPA_MinReplicas h ∧ GetEffectiveReplicas instance <= HPA_MinReplicas h ∧
    (∀ n, AS_MinReplicas auto = Some n → n <= HPA_MinReplicas h) ∧
    HPA_Metrics h ≠ [] ∧
    (HPA_MaxReplicas h < HPA_MinReplicas h ↔ AS_MaxReplicas auto < GetEffectiveReplicas instance).
Proof.
  intros Ha [Hmax Hmin]. unfold buildHPASpec. rewrite Ha. destruct (Z.eqb_spec (AS_MaxReplicas auto) 0) as [?|_]; [lia|].
  eexists. split; [done|]. cbn. unfold resolveMinReplicas. cbv zeta.
  destruct (Z.ltb_spec 1 (GetEffectiveReplicas instance)), (AS_MinReplicas auto) as [n|];
    [destruct (Z.ltb_spec (GetEffectiveReplicas instance) n)| |destruct (Z.ltb_spec 1 n)|];
    try (specialize (Hmin n eq_refl)); split_and!; try (intros ? [= <-]); try lia.
  all: unfold buildHPAMetrics; by destruct (AS_TargetCPUUtilizationPercentage auto), (AS_TargetMemoryUtilizationPercentage auto).
Qed.

(** More than one replica comes with a disruption budget, a spread over
    regions, zones and nodes and a preferred anti-affinity, unless the user gave
    the budget or the spread. *)
Theorem pdb_iff_replicated instance :
  (is_Some (buildPodDisruptionBudgetSpec instance) ↔
     is_Some (workload instance ≫= WL_PodDisruptionBudget) ∨ 1 < GetEffectiveReplicas instance) ∧
  (∀ spec, workload instance ≫= WL_PodDisruptionBudget = None → buildPodDisruptionBudgetSpec instance = Some spec →
     PDB_MinAvailable spec = None ∧ PDB_MaxUnavailable spec = Some (AInt 1)).
Proof.
  unfold buildPodDisruptionBudgetSpec, needsPodDisruptionBudget.
  destruct (workload instance ≫= WL_PodDisruptionBudget) as [pdb|]; cbn.
  - split; [|done]. split; eauto.
  - destruct (Z.ltb_spec 1 (GetEffectiveReplicas instance)); cbn; split; try done.
    + split; eauto.
    + by intros spec _ [= <-].
    + split; [by intros []|]. intros [[]|]; [done|lia].
Qed.
