(* ===== verification/GeneratedConfig.v ===== *)
(** * The generated ConfigMap

    The file [controllers/configmap_reconciler.go]: the base configuration is
    read from a ConfigMap or from the labels of the image, the configuration is
    generated and stored in an immutable ConfigMap named after its content, and
    old ones are deleted once no rollout uses them.

    The Deployment and the ReplicaSets are read from a snapshot; [sort.Slice] is
    any sorting function, so that ties are broken in any way. *)

From Stdlib Require Import ZArith.
From S2P Require Import Prelude Value ApiProviders ApiServer Secret Provider Merge Generator Resolver Common Client Action Objects ConfigMaps Status.

#[local] Open Scope Z_scope.

Definition generatedConfigLabel : string := "ogx.io/generated-config".
Definition configMapRetention : Z := 2.

Definition generatedConfigMapName (crName contentHash : string) : string :=
  (crName +:+ "-config-" +:+ contentHash)%string.

Definition shouldGenerateConfig (instance : OGXServer) (praxisMode : bool) : bool :=
  negb (HasOverrideConfig instance) && (HasDeclarativeConfig instance || praxisMode).

(** ** Data *)

(** A volume of a pod template: its name, and the ConfigMap it mounts. *)
Record TemplateVolume := { TV_Name : string; TV_ConfigMap : option string }.

(** A Deployment or a ReplicaSet: the volumes of its template. *)
Record Workload := { WK_Meta : Metadata; WK_Volumes : list TemplateVolume }.

(** What the reconciler reads besides the ConfigMaps. *)
Record environment := {
  GetDeployment : NamespacedName → apiError + Workload;
  ListReplicaSets : string → (Workload → bool) → apiError + list Workload;
  DistributionImages : gmap string string;
  ImageMappingOverrides : gmap string string;
  OCILabelFetcher : option labelFetcher;
  now : Z;
}.

(** The ConfigMaps, and the cache of the resolver; [None] is a reconciler
    without resolver, which makes a new one each time. *)
Record world (W : Type) := { configMaps : W; resolver : option ociConfigCache }.
Arguments configMaps {_} _.
Arguments resolver {_} _.
Arguments Build_world {_} _ _.

Definition onConfigMaps {W A} : M W A → M (world W) A :=
  zoom configMaps (λ c w, {| configMaps := c; resolver := resolver w |}).

Section reconcile.
Context {MR : MapRange}.
Context (yaml_base : string → result BaseConfig) (yaml_map : string → result (option object))
        (yaml_marshal : object → result string) (json_object : string → result (option object)).
Context (SetControllerReference : OGXServer → Metadata → result Metadata).
Context (sortSlice : list ConfigMapObject → list ConfigMapObject).
Context (env : environment).
Context {W : Type} `{!Client W ConfigMapObject}.

Implicit Types (instance : OGXServer).

(** ** Generating *)

(** The cache cannot panic in a reachable state ([Resolver]); the error stands
    for the panic. *)
Definition panic : error := New "panic".

Definition resolveOCI (image : string) : M (world W) string := λ w,
  let cache := default newOCIConfigCache (resolver w) in
  match Resolve (OCILabelFetcher env) cache image with
  | None => (w, Err panic)
  | Some (r, cache) => ({| configMaps := configMaps w; resolver := (λ _, cache) <$> resolver w |}, r)
  end.

(** The text of the cause is part of the message of the terminal error. *)
Definition resolveBaseConfig (Error : error → string) instance : M (world W) string :=
  match Spec_BaseConfig (Server_Spec instance) with
  | Some ref =>
      let namespace := Meta_Namespace (Server_Meta instance) in
      found ← onConfigMaps (readReferencedConfigMapKey namespace ref);
      match found with
      | inl e =>
          raise (terminalError ("failed to resolve base config from ConfigMap " +:+ namespace +:+ "/" +:+ CKR_Name ref +:+
                                "[" +:+ CKR_Key ref +:+ "]: " +:+ Error (referenceErr e)))
      | inr data => mret data
      end
  | None =>
      image ← wrapM "failed to resolve distribution image: %w" []
                (pureM (resolveImage (DistributionImages env) (ImageMappingOverrides env)
                          (Spec_Distribution (Server_Spec instance))));
      wrapM "failed to resolve base config from OCI labels: %w" [] (resolveOCI image)
  end.

Definition buildGeneratedConfigMap instance (name configYAML : string) : ConfigMapObject :=
  {| CM_Meta :=
       {| Obj_Namespace := Meta_Namespace (Server_Meta instance); Obj_Name := name;
          Obj_Labels := <[managedByLabelKey := managedByLabelVal]>
                       (<["app.kubernetes.io/instance" := Server_Name instance]>
                       (<[generatedConfigLabel := "true"]> {[WatchLabelKey := WatchLabelValue]}));
          Obj_Annotations := ∅; Obj_OwnerReferences := []; Obj_Deleting := false |};
     CM_Data := {[generatedConfigKeyName := configYAML]};
     CM_Immutable := Some true; CM_ResourceVersion := ""; CM_CreationTimestamp := 0 |}.

Definition createGenerated (cm : ConfigMapObject) : M W unit := λ w,
  let '(w', e) := Create w cm in
  (w', match e with
       | Some e => if IsAlreadyExists e then Ok tt
                   else Err (Wrapf "failed to create generated ConfigMap: %w" [] (apiErr e))
       | None => Ok tt
       end).

Definition ensureGeneratedConfigMap instance (name configYAML : string) : M W unit :=
  found ← getIfExists "failed to check for existing generated ConfigMap: %w" []
            (Meta_Namespace (Server_Meta instance), name);
  match found with
  | Some existing =>
      if negb (bool_decide (default "" (CM_Data existing !! generatedConfigKeyName) = configYAML)) then
        raise (Errorf "failed to verify generated ConfigMap content for %q: hash collision detected" [name])
      else mret tt
  | None =>
      let cm := buildGeneratedConfigMap instance name configYAML in
      meta ← wrapM "failed to set owner reference on generated ConfigMap: %w" []
               (pureM (SetControllerReference instance (CM_Meta cm)));
      createGenerated (withCMMeta meta cm)
  end.

(** [resolveBaseConfig] never returns nil data without an error. *)
Definition reconcileGeneratedConfig (Error : error → string) instance : M (world W) (option GeneratedConfig) :=
  let praxisMode := IsPraxisModeEnabled (Server_Spec instance) in
  if negb (shouldGenerateConfig instance praxisMode) then mret None
  else
    baseConfigData ← resolveBaseConfig Error instance;
    _ ← wrapM "failed to validate secret env var mapping: %w" []
          (pureM (ValidateSecretRefEnvVarNames (Server_Spec instance)));
    generated ← wrapM "failed to generate config: %w" []
      (pureM (if HasDeclarativeConfig instance
              then GenerateConfig yaml_base yaml_marshal json_object (Server_Spec instance) baseConfigData praxisMode
              else GeneratePraxisDefaultConfig yaml_base yaml_map yaml_marshal (Server_Spec instance) baseConfigData));
    _ ← onConfigMaps (ensureGeneratedConfigMap instance
          (generatedConfigMapName (Server_Name instance) (Gen_ContentHash generated)) (Gen_ConfigYAML generated));
    mret (Some generated).

(** ** Cleaning up *)

Definition collectRuntimeConfigMapRefs (protected : gset string) (volumes : list TemplateVolume) : gset string :=
  foldl (λ protected v,
    if negb (bool_decide (TV_Name v = "user-config")) then protected
    else
      match TV_ConfigMap v with
      | None => protected
      | Some name => if bool_decide (name = "") then protected else {[name]} ∪ protected
      end) protected volumes.

Definition referencedRuntimeConfigMapNames instance (status : OGXServerStatus) (currentName : string)
    : result (gset string) :=
  let namespace := Meta_Namespace (Server_Meta instance) in
  let protected : gset string := {[currentName]} in
  let protected :=
    match Status_ConfigGeneration status with
    | Some cg => if bool_decide (CG_ConfigMapName cg = "") then protected else {[CG_ConfigMapName cg]} ∪ protected
    | None => protected
    end in
  protected ← match GetDeployment env (namespace, Server_Name instance) with
              | inl e => if IsNotFound e then Ok protected else Err (apiErr e)
              | inr deployment => Ok (collectRuntimeConfigMapRefs protected (WK_Volumes deployment))
              end;
  match ListReplicaSets env namespace
          (λ rs, bool_decide (Obj_Labels (WK_Meta rs) !! instanceLabelKey = Some (Server_Name instance))) with
  | inl e => Err (apiErr e)
  | inr items => Ok (foldl (λ protected rs, collectRuntimeConfigMapRefs protected (WK_Volumes rs)) protected items)
  end.

(** A generated ConfigMap of the instance, by its labels. *)
Definition isGenerated instance (cm : ConfigMapObject) : bool :=
  bool_decide (Obj_Labels (CM_Meta cm) !! generatedConfigLabel = Some "true") &&
  bool_decide (Obj_Labels (CM_Meta cm) !! instanceLabelKey = Some (Server_Name instance)).

(** The deletion loop: a deletion that fails is logged, and does not count. *)
Fixpoint deleteOld (protected : gset string) (deleteCount : Z) (items : list ConfigMapObject) (w : W) : W :=
  match items with
  | [] => w
  | cm :: items =>
      if deleteCount =? 0 then w
      else if bool_decide (Obj_Name (CM_Meta cm) ∈ protected) then deleteOld protected deleteCount items w
      else
        let '(w', e) := Delete w (objectKey cm) in
        match e with
        | Some e => deleteOld protected (if IsNotFound e then deleteCount - 1 else deleteCount) items w'
        | None => deleteOld protected (deleteCount - 1) items w'
        end
  end.

Definition listGenerated `{!Lister W ConfigMapObject} instance : M W (list ConfigMapObject) := λ w,
  (w, match List w (Meta_Namespace (Server_Meta instance)) (isGenerated instance) with
      | inr l => Ok l
      | inl e => Err (Wrapf "failed to list generated ConfigMaps: %w" [] (apiErr e))
      end).

Definition cleanupOldGeneratedConfigMaps `{!Lister W ConfigMapObject} instance (status : OGXServerStatus)
    (currentName : string) : M W unit :=
  items ← listGenerated instance;
  if Z.of_nat (length items) <=? configMapRetention then mret tt
  else
    protectedNames ← wrapM "failed to determine referenced generated ConfigMaps: %w" []
                       (pureM (referencedRuntimeConfigMapNames instance status currentName));
    let protectedCount :=
      Z.of_nat (length (filter (λ cm, Obj_Name (CM_Meta cm) ∈ protectedNames) items)) in
    let minimumToKeep := if configMapRetention <? protectedCount then protectedCount else configMapRetention in
    let deleteCount := Z.of_nat (length items) - minimumToKeep in
    modify (deleteOld protectedNames deleteCount (sortSlice items)).

(** ** The status *)

Definition withConfigGeneration (s : OGXServerStatus) (cg : option ConfigGenerationStatus) : OGXServerStatus :=
  {| Status_Phase := Status_Phase s; Status_Version := Status_Version s;
     Status_DistributionConfig := Status_DistributionConfig s;
     Status_ResolvedDistribution := Status_ResolvedDistribution s;
     Status_ConfigGeneration := cg;
     Status_Migration := Status_Migration s; Status_Conditions := Status_Conditions s;
     Status_AvailableReplicas := Status_AvailableReplicas s;
     Status_ServiceURL := Status_ServiceURL s; Status_ExternalURL := Status_ExternalURL s |}.

(** [None] is a nil configuration. *)
Definition updateConfigGenerationStatus instance (generated : option GeneratedConfig) (status : OGXServerStatus)
    : OGXServerStatus :=
  match generated with
  | None => status
  | Some g =>
      withConfigGeneration status (Some
        {| CG_ObservedGeneration := Meta_Generation (Server_Meta instance);
           CG_ConfigMapName := generatedConfigMapName (Server_Name instance) (Gen_ContentHash g);
           CG_GeneratedAt := now env;
           CG_ProviderCount := Gen_ProviderCount g;
           CG_ResourceCount := Gen_ResourceCount g;
           CG_ConfigVersion := Gen_ConfigVersion g |})
  end.

Definition clearConfigGenerationStatus (reason message : string) (status : OGXServerStatus) : OGXServerStatus :=
  setConfigGeneratedCondition (now env) (withConfigGeneration status None) false reason message.
End reconcile.
