(* ===== verification/GeneratedConfigFacts.v ===== *)
(** * Which generated ConfigMaps are kept

    The protected names, the deletion loop against the list of its victims, and
    the retention of the clean-up. *)

From Stdlib Require Import ZArith.
From S2P Require Import Prelude Value ApiProviders ApiServer Secret Provider Merge Generator Resolver Common Status Client Action Objects ConfigMaps GeneratedConfig.

#[local] Open Scope Z_scope.

(** [sort.Slice] on the creation time: any permutation sorted by it. *)
Definition createdBefore : relation ConfigMapObject :=
  λ a b, CM_CreationTimestamp a <= CM_CreationTimestamp b.

Definition sortsByCreation (sortSlice : list ConfigMapObject → list ConfigMapObject) : Prop :=
  ∀ l, sortSlice l ≡ₚ l ∧ StronglySorted createdBefore (sortSlice l).

(** An API server on which a deletion takes effect at once: no finalizers. *)
Class Deletes (W O : Type) `{APIObject O, Client W O} : Prop := {
  Delete_ok : ∀ w k, match (Delete w k).2 with Some e => IsNotFound e = true | None => True end;
  Delete_gone : ∀ w k, stored (Delete w k).1 k = None;
}.

Abbreviation nameOf cm := (Obj_Name (CM_Meta cm)).

Section protected.
Context (env : environment).

Implicit Types (instance : OGXServer) (status : OGXServerStatus) (protected : gset string).

(** ** The protected names *)

(** A pod template that mounts the ConfigMap [n] as its configuration. *)
Definition mounts (k : Workload) (n : string) : Prop :=
  n ≠ "" ∧ ∃ v, v ∈ WK_Volumes k ∧ TV_Name v = "user-config" ∧ TV_ConfigMap v = Some n.

Definition belongs instance (k : Workload) : bool :=
  bool_decide (Obj_Labels (WK_Meta k) !! instanceLabelKey = Some (Server_Name instance)).

(** The names that a rollout may still need. *)
Definition inUse instance status (currentName n : string) : Prop :=
  let namespace := Meta_Namespace (Server_Meta instance) in
  n = currentName ∨
  (∃ cg, Status_ConfigGeneration status = Some cg ∧ CG_ConfigMapName cg = n ∧ n ≠ "") ∨
  (∃ d, GetDeployment env (namespace, Server_Name instance) = inr d ∧ mounts d n) ∨
  (∃ l k, ListReplicaSets env namespace (belongs instance) = inr l ∧ k ∈ l ∧ mounts k n).

Lemma collect_spec protected k n :
  n ∈ collectRuntimeConfigMapRefs protected (WK_Volumes k) ↔ n ∈ protected ∨ mounts k n.
Proof.
  unfold collectRuntimeConfigMapRefs, mounts. revert protected.
  induction (WK_Volumes k) as [|v l IH]; intros protected; cbn [foldl]; [set_solver|].
  rewrite IH. setoid_rewrite elem_of_cons. clear IH.
  assert (Hstep : n ∈ (if negb (bool_decide (TV_Name v = "user-config")) then protected
    else match TV_ConfigMap v with
         | None => protected
         | Some name => if bool_decide (name = "") then protected else {[name]} ∪ protected
         end) ↔ n ∈ protected ∨ (n ≠ "" ∧ TV_Name v = "user-config" ∧ TV_ConfigMap v = Some n)).
  { repeat case_match; case_bool_decide; cbn in *; try case_bool_decide; try done; set_solver. }
  rewrite Hstep. naive_solver.
Qed.

Lemma collect_all_spec protected l n :
  n ∈ foldl (λ protected k, collectRuntimeConfigMapRefs protected (WK_Volumes k)) protected l ↔
  n ∈ protected ∨ ∃ k, k ∈ l ∧ mounts k n.
Proof.
  revert protected. induction l as [|k l IH]; intros protected; cbn [foldl].
  { set_solver. }
  rewrite IH, collect_spec. setoid_rewrite elem_of_cons. split.
  - intros [[?|?]|(k' & ? & ?)]; eauto.
  - intros [?|(k' & [->|?] & ?)]; eauto.
Qed.

Lemma referenced_spec instance status currentName protected :
  referencedRuntimeConfigMapNames env instance status currentName = Ok protected →
  ∀ n, n ∈ protected ↔ inUse instance status currentName n.
Proof.
  unfold referencedRuntimeConfigMapNames, inUse, belongs. cbv zeta.
  set (start := match Status_ConfigGeneration status with Some _ => _ | None => _ end).
  assert (Hs : ∀ n, n ∈ start ↔ n = currentName ∨
    ∃ cg, Status_ConfigGeneration status = Some cg ∧ CG_ConfigMapName cg = n ∧ n ≠ "").
  { intros n. subst start. destruct (Status_ConfigGeneration status) as [cg|]; [case_bool_decide as Hc|].
    - rewrite elem_of_singleton. split; [by auto|]. by intros [?|(? & [= <-] & ? & ?)]; [|congruence].
    - rewrite elem_of_union, !elem_of_singleton. split.
      + intros [->|?]; eauto.
      + intros [?|(? & [= <-] & ? & ?)]; auto.
    - rewrite elem_of_singleton. split; [by auto|]. by intros [?|(? & ? & _)]. }
  intros H n. apply bind_Ok in H as (p & Hp & H).
  assert (Hd : n ∈ p ↔ n ∈ start ∨
    ∃ d, GetDeployment env (Meta_Namespace (Server_Meta instance), Server_Name instance) = inr d ∧ mounts d n).
  { destruct (GetDeployment env _) as [e|d].
    - destruct (IsNotFound e); [injection Hp as <-|done]. split; [by auto|]. by intros [?|(? & ? & _)].
    - injection Hp as <-. rewrite collect_spec. split; [by intros [?|?]; eauto|].
      by intros [?|(? & [= <-] & ?)]; auto. }
  destruct (ListReplicaSets env _ _) as [e|l]; [done|]. injection H as <-.
  rewrite collect_all_spec, Hd, Hs. split.
  - intros [[[?|?]|?]|(k & ? & ?)]; eauto 10.
  - intros [?|[?|[?|(l' & k & [= <-] & ? & ?)]]]; eauto 10.
Qed.
End protected.

(** ** The deletion loop

    The client reads from a cache. *)

Section cleanup.
Context {W : Type} `{!Client W ConfigMapObject, !ReadCache W ConfigMapObject, !CachedLaws W ConfigMapObject}.

Implicit Types (protected : gset string) (w : W).

Definition unprotected protected (items : list ConfigMapObject) : list ConfigMapObject :=
  filter (λ cm, nameOf cm ∉ protected) items.

(** With any failures, only unprotected ConfigMaps of the list change. *)
Lemma deleteOld_only protected items n w k :
  stored (deleteOld protected n items w) k ≠ stored w k →
  ∃ cm, cm ∈ items ∧ objectKey cm = k ∧ nameOf cm ∉ protected.
Proof using Type*.
  revert n w. induction items as [|cm items IH]; intros n w; cbn [deleteOld]; [done|].
  assert (Hrec : ∀ n w', stored (deleteOld protected n items w') k ≠ stored w' k →
    ∃ cm', cm' ∈ cm :: items ∧ objectKey cm' = k ∧ nameOf cm' ∉ protected).
  { intros n' w' H. destruct (IH n' w' H) as (cm' & ? & ? & ?). exists cm'. split; [by right|done]. }
  destruct (n =? 0); [done|]. case_bool_decide as Hp; [by apply Hrec|].
  pose proof (Delete_spec w (objectKey cm)) as Hdel. destruct (Delete w (objectKey cm)) as [w1 e].
  destruct Hdel as [Hdel _]. destruct (decide (k = objectKey cm)) as [->|Hk].
  { intros _. exists cm. split; [by left|done]. }
  rewrite <- (Hdel k) by auto. destruct e; apply Hrec.
Qed.

(** The loop deletes the first [n] unprotected ones. *)
Definition deleteAll (items : list ConfigMapObject) w : W :=
  foldl (λ w cm, (Delete w (objectKey cm)).1) w items.

Lemma deleteOld_run `{!Deletes W ConfigMapObject} protected items n w : 0 <= n →
  deleteOld protected n items w = deleteAll (take (Z.to_nat n) (unprotected protected items)) w.
Proof using Type*.
  unfold unprotected. revert n w. induction items as [|cm items IH]; intros n w Hn; cbn [deleteOld].
  { by destruct (Z.to_nat n). }
  destruct (n =? 0) eqn:E0; [by apply Z.eqb_eq in E0 as ->|]. apply Z.eqb_neq in E0.
  rewrite filter_cons. case_bool_decide as Hp; [rewrite decide_False by tauto; by apply IH|].
  rewrite decide_True by done. replace (Z.to_nat n) with (S (Z.to_nat (n - 1))) by lia. cbn [take].
  unfold deleteAll. cbn [foldl]. fold (deleteAll (take (Z.to_nat (n - 1)) (unprotected protected items))).
  pose proof (Delete_ok w (objectKey cm)) as Hok. destruct (Delete w (objectKey cm)) as [w1 [e|]]; cbn in *.
  - rewrite Hok. apply IH. lia.
  - apply IH. lia.
Qed.

Lemma deleteAll_stored `{!Deletes W ConfigMapObject} items w k :
  stored (deleteAll items w) k = if decide (k ∈ objectKey <$> items) then None else stored w k.
Proof using Type*.
  unfold deleteAll. revert w. induction items as [|cm items IH]; intros w; cbn [foldl fmap list_fmap].
  { by rewrite decide_False by apply not_elem_of_nil. }
  rewrite IH. pose proof (Delete_spec w (objectKey cm)) as Hdel. pose proof (Delete_gone w (objectKey cm)) as Hg.
  destruct (Delete w (objectKey cm)) as [w1 e]. cbn in *. destruct Hdel as [Hdel _].
  repeat case_decide; rewrite ?elem_of_cons in *; try tauto; try done.
  - destruct H0 as [->|?]; [done|tauto].
  - apply Hdel. tauto.
Qed.

(** ** The clean-up *)

Context (sortSlice : list ConfigMapObject → list ConfigMapObject).
Context (env : environment).
Context `{!Lister W ConfigMapObject, !CachedListerLaws W ConfigMapObject}.

Implicit Types (instance : OGXServer) (status : OGXServerStatus).

Abbreviation cleanup := (cleanupOldGeneratedConfigMaps sortSlice env).

(** What was listed, and what it deletes, when it gets that far. *)
Lemma cleanup_past instance status currentName w items protected :
  List w (Meta_Namespace (Server_Meta instance)) (isGenerated instance) = inr items →
  configMapRetention < Z.of_nat (length items) →
  referencedRuntimeConfigMapNames env instance status currentName = Ok protected →
  cleanup instance status currentName w =
    (deleteOld protected
       (Z.of_nat (length items) -
        Z.max configMapRetention (Z.of_nat (length (filter (λ cm, nameOf cm ∈ protected) items))))
       (sortSlice items) w, Ok tt).
Proof using Type.
  intros Hl Hn Hp. unfold cleanupOldGeneratedConfigMaps. rewrite bindM_run. unfold listGenerated. cbn [fst snd].
  rewrite Hl, (proj2 (Z.leb_gt _ _) Hn), bindM_run, wrapM_run. cbn [pureM fst snd]. rewrite Hp.
  cbn [wrap]. unfold modify. do 2 f_equal.
  destruct (_ <? _) eqn:E'; [apply Z.ltb_lt in E'|apply Z.ltb_ge in E']; lia.
Qed.

Lemma cleanup_run instance status currentName w :
  (cleanup instance status currentName w).1 = w ∨
  ∃ items protected n,
    List w (Meta_Namespace (Server_Meta instance)) (isGenerated instance) = inr items ∧
    referencedRuntimeConfigMapNames env instance status currentName = Ok protected ∧
    (cleanup instance status currentName w).1 = deleteOld protected n (sortSlice items) w.
Proof using Type.
  destruct (List w (Meta_Namespace (Server_Meta instance)) (isGenerated instance)) as [e|items] eqn:El;
    [|destruct (Z.leb_spec (Z.of_nat (length items)) configMapRetention) as [Hn|Hn];
      [|destruct (referencedRuntimeConfigMapNames env instance status currentName) as [protected|e] eqn:Ep]].
  3: { right. exists items, protected. rewrite (cleanup_past _ _ _ _ items protected) by done. by eexists. }
  all: left; unfold cleanupOldGeneratedConfigMaps; rewrite bindM_run; unfold listGenerated; cbn [fst snd]; rewrite El.
  - done.
  - by rewrite (proj2 (Z.leb_le _ _) Hn).
  - by rewrite (proj2 (Z.leb_gt _ _) Hn), bindM_run, wrapM_run, Ep.
Qed.

Lemma cleanup_protects_put instance status currentName w w' r k :
  sortsByCreation sortSlice →
  cleanup instance status currentName w = (w', r) → stored w' k ≠ stored w k →
  ∃ cm, stored w k = Some cm ∧ k.1 = Meta_Namespace (Server_Meta instance) ∧
    isGenerated instance cm = true ∧ ¬ inUse env instance status currentName k.2.
Proof using Type*.
  intros HS E Hk. destruct (cleanup_run instance status currentName w) as [Hw|(items & protected & n & Hl & Hp & Hr)].
  { rewrite E in Hw. cbn in Hw. by subst w'. }
  rewrite E in Hr. cbn in Hr. subst w'. apply deleteOld_only in Hk as (cm & Hin & <- & Hn).
  rewrite (proj1 (HS items)) in Hin.
  pose proof (List_cached w (Meta_Namespace (Server_Meta instance)) (isGenerated instance)) as Hspec.
  rewrite Hl in Hspec. destruct Hspec as [_ Hspec]. apply Hspec in Hin as (Hns & Hg & [Hs _]%seen_Some).
  exists cm. split_and!; [done..|]. by rewrite <- (referenced_spec env _ _ _ _ Hp).
Qed.

(** C28. Whatever fails, the clean-up only ever deletes ConfigMaps of the
    instance's namespace with the two labels of its generated ConfigMaps, and
    never one that a rollout may need: the current one, the one in the status,
    and those mounted by the Deployment or by a ReplicaSet of the instance. *)
Theorem cleanup_protects instance status currentName w w' r k :
  sortsByCreation sortSlice →
  cleanup instance status currentName w = (w', r) → stored w' k ≠ stored w k →
  ∃ cm, stored w k = Some cm ∧ k.1 = Meta_Namespace (Server_Meta instance) ∧
    isGenerated instance cm = true ∧ ¬ inUse env instance status currentName k.2.
Proof using Type*. apply cleanup_protects_put. Qed.

Lemma listed_inj instance w items a b :
  List w (Meta_Namespace (Server_Meta instance)) (isGenerated instance) = inr items →
  a ∈ items → b ∈ items → objectKey a = objectKey b → a = b.
Proof using Type*.
  intros Hl Ha Hb Hk. pose proof (List_cached w (Meta_Namespace (Server_Meta instance)) (isGenerated instance)) as H.
  rewrite Hl in H. destruct H as [_ H]. apply H in Ha as (_ & _ & [Ha _]%seen_Some). apply H in Hb as (_ & _ & [Hb _]%seen_Some). congruence.
Qed.

Lemma listed_stored instance w items a :
  List w (Meta_Namespace (Server_Meta instance)) (isGenerated instance) = inr items →
  a ∈ items → stored w (objectKey a) = Some a.
Proof using Type*.
  intros Hl Ha. pose proof (List_cached w (Meta_Namespace (Server_Meta instance)) (isGenerated instance)) as H.
  rewrite Hl in H. destruct H as [_ H]. by apply H in Ha as (_ & _ & [Ha _]%seen_Some).
Qed.

Lemma listed_NoDup instance w items :
  List w (Meta_Namespace (Server_Meta instance)) (isGenerated instance) = inr items → NoDup items.
Proof using Type*.
  intros Hl. pose proof (List_cached w (Meta_Namespace (Server_Meta instance)) (isGenerated instance)) as H.
  rewrite Hl in H. by destruct H.
Qed.

(** The victims are the oldest unprotected ConfigMaps. *)
Lemma victims_split protected items n :
  sortsByCreation sortSlice →
  let victims := take n (unprotected protected (sortSlice items)) in
  ∃ kept, items ≡ₚ kept ++ victims ∧
    ∀ a b, a ∈ victims → b ∈ kept → nameOf b ∉ protected → createdBefore a b.
Proof using Type.
  intros HS victims. destruct (HS items) as [Hperm Hsorted].
  set (young := drop n (unprotected protected (sortSlice items))).
  exists (filter (λ cm, nameOf cm ∈ protected) (sortSlice items) ++ young). split.
  - etransitivity; [by symmetry|]. etransitivity; [symmetry; apply (filter_app_complement (λ cm, nameOf cm ∈ protected))|].
    rewrite <- app_assoc. f_equiv. rewrite Permutation_app_comm. subst young victims. by rewrite (take_drop n).
  - intros a b Ha [Hb|Hb]%elem_of_app Hn; [by apply list_elem_of_filter in Hb as [? _]|].
    assert (Hs : StronglySorted createdBefore (unprotected protected (sortSlice items))).
    { by apply StronglySorted_filter. }
    rewrite <- (take_drop n (unprotected _ _)) in Hs. by apply (StronglySorted_app_1_elem_of _ _ _ _ _ Hs).
Qed.

(** Retention: on a server whose deletions succeed, the clean-up keeps two
    generated ConfigMaps, or all the protected ones if there are more, and what
    it deletes is older than every unprotected one that it keeps. *)
Theorem cleanup_retention `{!Deletes W ConfigMapObject} instance status currentName w items protected :
  sortsByCreation sortSlice →
  List w (Meta_Namespace (Server_Meta instance)) (isGenerated instance) = inr items →
  referencedRuntimeConfigMapNames env instance status currentName = Ok protected →
  ∃ kept deleted w', cleanup instance status currentName w = (w', Ok tt) ∧
    items ≡ₚ kept ++ deleted ∧
    (∀ cm, cm ∈ kept → stored w' (objectKey cm) = Some cm) ∧
    (∀ cm, cm ∈ deleted → stored w' (objectKey cm) = None) ∧
    Z.of_nat (length kept) =
      Z.min (Z.of_nat (length items))
        (Z.max configMapRetention (Z.of_nat (length (filter (λ cm, nameOf cm ∈ protected) items)))) ∧
    (∀ a b, a ∈ deleted → b ∈ kept → nameOf b ∉ protected → createdBefore a b).
Proof using Type*.
  intros HS Hl Hp. destruct (decide (configMapRetention < Z.of_nat (length items))) as [Hn|Hn].
  - rewrite (cleanup_past _ _ _ _ items protected) by done.
    set (pc := length (filter _ items)). set (n := Z.to_nat (Z.of_nat (length items) - Z.max configMapRetention (Z.of_nat pc))).
    destruct (victims_split protected items n HS) as (kept & Hperm & Hold).
    set (victims := take n (unprotected protected (sortSlice items))) in *.
    assert (Hlen : (length kept + length victims = length items)%nat) by by rewrite Hperm, length_app.
    assert (Hpc : (pc + length (filter (λ cm, nameOf cm ∉ protected) items) = length items)%nat).
    { subst pc. by rewrite <- length_app, filter_app_complement. }
    assert (Hvic : length victims = n).
    { apply firstn_length_le. unfold unprotected. rewrite (proj1 (HS items)).
      unfold configMapRetention in *. lia. }
    exists kept, victims. eexists. split; [done|]. split; [done|].
    rewrite deleteOld_run by (unfold configMapRetention in *; lia). fold n. fold victims.
    setoid_rewrite deleteAll_stored. split_and!; [| |unfold configMapRetention in *; lia|done].
    + intros cm Hcm. assert (Hin : cm ∈ items) by (rewrite Hperm; apply elem_of_app; by left).
      rewrite decide_False; [by apply (listed_stored instance w items)|].
      intros (a & Hk & Ha)%list_elem_of_fmap. assert (Hina : a ∈ items) by (rewrite Hperm; apply elem_of_app; by right).
      pose proof (listed_inj instance w items cm a Hl Hin Hina Hk) as <-.
      pose proof (listed_NoDup instance w items Hl) as Hnd. rewrite Hperm in Hnd.
      apply NoDup_app in Hnd as (_ & Hdis & _). by destruct (Hdis cm).
    + intros cm Hcm. by rewrite decide_True by (apply list_elem_of_fmap; eauto).
  - exists items, [], w. split_and!.
    + unfold cleanupOldGeneratedConfigMaps. rewrite bindM_run. unfold listGenerated. cbn [fst snd].
      by rewrite Hl, (proj2 (Z.leb_le _ _)) by lia.
    + by rewrite app_nil_r.
    + intros cm. by apply (listed_stored instance).
    + by intros cm ?%not_elem_of_nil.
    + lia.
    + by intros a b ?%not_elem_of_nil.
Qed.
End cleanup.

(** ** Generating *)

(** The pods are given the configuration that is generated. *)
Lemma generated_ref instance praxis name :
  name ≠ "" → shouldGenerateConfig instance praxis = true →
  resolveRuntimeConfigRef instance name =
    Some {| RC_ConfigMapName := name; RC_ConfigMapKey := generatedConfigKeyName; RC_Generated := true |}.
Proof.
  unfold shouldGenerateConfig, HasOverrideConfig, resolveRuntimeConfigRef. intros Hn [Ho _]%andb_true_iff.
  rewrite (bool_decide_eq_false_2 _ Hn).
  destruct (Spec_OverrideConfig _) as [ref|]; [|done].
  by destruct (negb (bool_decide (CKR_Name ref = "")) && negb (bool_decide (CKR_Key ref = ""))).
Qed.

Section generate.
Context {MR : MapRange}.
Context (yaml_base : string → result BaseConfig) (yaml_map : string → result (option object))
        (yaml_marshal : object → result string) (json_object : string → result (option object)).
Context (SetControllerReference : OGXServer → Metadata → result Metadata).
Context (env : environment).
Context {W : Type} `{!Client W ConfigMapObject, !ReadCache W ConfigMapObject, !CachedLaws W ConfigMapObject}.

Implicit Types (instance : OGXServer).

Definition generatedKey instance (name : string) : NamespacedName := (Meta_Namespace (Server_Meta instance), name).

(** The read does not find the ConfigMap, and the API server answers that it
    exists: another reconciliation made it in between, or the cache does not hold
    it.  The code takes that for success and does not look at its content. *)
Definition acceptedUnread instance (name : string) (w w' : W) : Prop :=
  ∃ cm e, objectKey cm = generatedKey instance name ∧ seen w (generatedKey instance name) = None ∧
    Create w cm = (w', Some (AlreadyExists e)).

(** A ConfigMap that the reconciler made for [instance]. *)
Definition madeFor instance (cm : ConfigMapObject) : Prop :=
  IsControlledBy (CM_Meta cm) instance = true ∧ isGenerated instance cm = true ∧ CM_Immutable cm = Some true.

(** The ConfigMap of the key carries the configuration, and if it was missing,
    it is now the instance's. *)
Definition carries instance (name configYAML : string) (w w' : W) : Prop :=
  ∃ cm, stored w' (generatedKey instance name) = Some cm ∧
    default "" (CM_Data cm !! generatedConfigKeyName) = configYAML ∧
    (stored w (generatedKey instance name) = None → madeFor instance cm).

Lemma ensureGeneratedConfigMap_run instance name configYAML w w' r :
  setsController SetControllerReference →
  ensureGeneratedConfigMap SetControllerReference instance name configYAML w = (w', r) →
  (∀ k, k ≠ generatedKey instance name ∨ stored w k ≠ None ∨ is_ok r = false → stored w' k = stored w k) ∧
  (r = Ok tt → carries instance name configYAML w w' ∨ acceptedUnread instance name w w').
Proof using Type*.
  intros HS. unfold ensureGeneratedConfigMap. rewrite bindM_run.
  destruct (getIfExists_cached "failed to check for existing generated ConfigMap: %w" [] (generatedKey instance name) w) as (found & Hf & Hfound).
  unfold generatedKey in *. rewrite Hf. cbn [fst snd]. destruct found as [[cm|]|e]; [| |by intros [= <- <-]].
  - apply seen_Some in Hfound as [Hfound _]. case_bool_decide as Hy; cbn [negb]; intros [= <- <-]; split; try done.
    intros _. left. exists cm. split_and!; [done..|]. unfold generatedKey. by rewrite Hfound.
  - rewrite bindM_run, wrapM_run. cbn [pureM fst snd].
    destruct (SetControllerReference instance _) as [meta|e] eqn:Em; [|by intros [= <- <-]].
    destruct (HS _ _ _ Em) as (Hmeta & Hctl & _). cbn [wrap]. unfold createGenerated.
    set (cm := withCMMeta meta _). pose proof (Create_spec w cm) as Hc.
    assert (Hkey : objectKey cm = (Meta_Namespace (Server_Meta instance), name)) by by (cbn; rewrite Hmeta).
    destruct (Create w cm) as [w1 e] eqn:Ec. intros [= <- <-]. destruct Hc as [Hkeep Hmade]. split.
    + intros k Hk. apply Hkeep. destruct e as [e|]; [by right|]. left.
      destruct (Hmade eq_refl) as [Hnone _]. intros ->. rewrite Hkey in *. by destruct Hk as [?|[?|?]].
    + intros Hok. destruct e as [[e|e|e|e|e]|]; try discriminate Hok; [right; by exists cm, e|left].
      destruct (Hmade eq_refl) as (_ & cm' & Hcm' & Hlab & _ & Hown & Hdata & Himm). rewrite Hkey in Hcm'.
      exists cm'. split; [done|]. rewrite Hdata. split; [done|]. intros _. split_and!.
      * unfold IsControlledBy, GetControllerOf in *. by rewrite Hown.
      * unfold isGenerated. rewrite Hlab. change (CM_Meta cm) with meta. rewrite Hmeta.
        apply andb_true_iff; split; apply bool_decide_eq_true; cbn; by simplify_map_eq.
      * by rewrite Himm.
Qed.

Lemma resolveBaseConfig_run (Error : error → string) instance (w : world W) :
  configMaps (resolveBaseConfig env Error instance w).1 = configMaps w.
Proof using Type*.
  unfold resolveBaseConfig. destruct (Spec_BaseConfig _) as [ref|].
  - rewrite bindM_run. unfold onConfigMaps. rewrite zoom_run. cbn [fst snd].
    unfold readReferencedConfigMapKey. rewrite bindM_run. cbn.
    by repeat case_match.
  - rewrite bindM_run, wrapM_run. cbn [pureM fst snd]. destruct (resolveImage _ _ _) as [image|e]; [|done].
    cbn [wrap]. rewrite wrapM_run. cbn [fst]. unfold resolveOCI. by repeat case_match.
Qed.

Abbreviation reconcile :=
  (reconcileGeneratedConfig yaml_base yaml_map yaml_marshal json_object SetControllerReference env).

(** The generator that applies to the instance. *)
Definition generate instance (baseConfigData : string) : result GeneratedConfig :=
  let praxisMode := IsPraxisModeEnabled (Server_Spec instance) in
  if HasDeclarativeConfig instance
  then GenerateConfig yaml_base yaml_marshal json_object (Server_Spec instance) baseConfigData praxisMode
  else GeneratePraxisDefaultConfig yaml_base yaml_map yaml_marshal (Server_Spec instance) baseConfigData.

Lemma reconcileGeneratedConfig_spec_put (Error : error → string) instance (w w' : world W) r :
  setsController SetControllerReference →
  reconcile Error instance w = (w', r) →
  (∀ k, stored (configMaps w) k ≠ None ∨ r = Ok None ∨ is_ok r = false →
        stored (configMaps w') k = stored (configMaps w) k) ∧
  match r with
  | Ok None => shouldGenerateConfig instance (IsPraxisModeEnabled (Server_Spec instance)) = false
  | Ok (Some g) =>
      shouldGenerateConfig instance (IsPraxisModeEnabled (Server_Spec instance)) = true ∧
      ValidateSecretRefEnvVarNames (Server_Spec instance) = Ok tt ∧
      (∃ base, (resolveBaseConfig env Error instance w).2 = Ok base ∧ generate instance base = Ok g) ∧
      let name := generatedConfigMapName (Server_Name instance) (Gen_ContentHash g) in
      (∀ k, k ≠ generatedKey instance name → stored (configMaps w') k = stored (configMaps w) k) ∧
      (carries instance name (Gen_ConfigYAML g) (configMaps w) (configMaps w') ∨
       acceptedUnread instance name (configMaps w) (configMaps w'))
  | Err _ => True
  end.
Proof using Type*.
  intros HS. unfold reconcileGeneratedConfig.
  destruct (shouldGenerateConfig instance _); cbn [negb]; [|by intros [= <- <-]].
  rewrite bindM_run. pose proof (resolveBaseConfig_run Error instance w) as Hw.
  destruct (resolveBaseConfig env Error instance w) as [w1 [base|e]] eqn:Eb; cbn [fst snd] in *;
    [|intros [= <- <-]; by rewrite Hw].
  rewrite bindM_run, wrapM_run. cbn [pureM fst snd].
  destruct (ValidateSecretRefEnvVarNames _) as [[]|e]; cbn [wrap]; [|intros [= <- <-]; by rewrite Hw].
  rewrite bindM_run, wrapM_run. cbn [pureM fst snd]. change (if HasDeclarativeConfig instance then _ else _) with (generate instance base).
  destruct (generate instance base) as [g|e] eqn:Eg; cbn [wrap]; [|intros [= <- <-]; by rewrite Hw].
  rewrite bindM_run. unfold onConfigMaps. rewrite zoom_run. cbn [fst snd].
  destruct (ensureGeneratedConfigMap _ _ _ _ _) as [c' r'] eqn:Ee.
  apply ensureGeneratedConfigMap_run in Ee as [Hkeep Hok]; [|done]. rewrite Hw in *. cbn [fst snd configMaps].
  destruct r' as [[]|e]; intros [= <- <-]; cbn [configMaps]; [|split; [intros k _; apply Hkeep; auto|done]].
  split; [intros k [?|[?|?]]; try done; apply Hkeep; auto|].
  split_and!; [done..|by exists base| |by apply Hok]. intros k Hk. apply Hkeep. auto.
Qed.

End generate.
