(* ===== verification/NetworkPolicy.v ===== *)
(** * Network policies

    The files [pkg/deploy/plugins/networkpolicy_transformer.go],
    [pkg/deploy/utils.go], [applyNetworkPolicyTransformer] of
    [pkg/deploy/kustomizer.go] and [BuildPraxisPeer] of
    [controllers/ogxserver_controller.go]: the ingress rules of the policy in
    front of a server.  A kustomize resource is a parameter type with its kind,
    its reading as a map and its reconstruction from one. *)

From Stdlib Require Import ZArith.
From S2P Require Import Prelude Value ApiProviders ApiServer.

#[local] Open Scope Z_scope.

(** ** Ports and names of an instance *)

Definition GetServicePort (instance : OGXServer) : Z :=
  match Spec_Network (Server_Spec instance) with
  | Some n => if Net_Port n =? 0 then DefaultServerPort else Net_Port n
  | None => DefaultServerPort
  end.

Definition GetServiceName (instance : OGXServer) : string :=
  (Server_Name instance +:+ "-service")%string.

Definition defaultMetricsPort : Z := 9464.

Definition getEffectiveMetricsPort (instance : OGXServer) : Z :=
  match Spec_Monitoring (Server_Spec instance) with
  | None => defaultMetricsPort
  | Some monitoring =>
      match Mon_Enabled monitoring with
      | Some false => 0
      | _ => default defaultMetricsPort (Mon_MetricsPort monitoring)
      end
  end.

(** ** Peers *)

(** [networkingv1.NetworkPolicyPeer], without the IP blocks it never uses. *)
Record NetworkPolicyPeer := {
  Peer_PodSelector : option LabelSelector;
  Peer_NamespaceSelector : option LabelSelector;
}.

Definition matchLabels (labels : gmap string string) : LabelSelector :=
  {| LS_MatchLabels := labels; LS_MatchExpressions := [] |}.

Definition defaultPraxisPeer : NetworkPolicyPeer :=
  {| Peer_PodSelector := Some (matchLabels {[DefaultPraxisPodLabelKey := DefaultPraxisPodLabelValue]});
     Peer_NamespaceSelector := Some (matchLabels {[DefaultNamespaceNameLabel := DefaultPraxisNamespace]}) |}.

Definition BuildPraxisPeer (instance : OGXServer) : NetworkPolicyPeer :=
  match Spec_PraxisMode (Server_Spec instance) ≫= Praxis_PraxisSelector with
  | None => defaultPraxisPeer
  | Some sel =>
      {| Peer_PodSelector := Some (PSel_PodSelector sel);
         Peer_NamespaceSelector :=
           Some (matchLabels {[DefaultNamespaceNameLabel := PSel_Namespace sel]}) |}
  end.

(** The JSON of a selector and of a peer, as [json.Marshal] followed by
    [json.Unmarshal] into a map gives it: empty fields are omitted. *)
Definition labelsJSON (labels : gmap string string) : any := AMap (AString <$> labels).

Definition requirementJSON (r : LabelSelectorRequirement) : any :=
  AMap (<["key" := AString (Req_Key r)]> {["operator" := AString (Req_Operator r)]}
        |> set_list "values" (λ vs, AList (AString <$> vs)) (Req_Values r)).

Definition selectorJSON (s : LabelSelector) : any :=
  AMap (∅
        |> set_map "matchLabels" labelsJSON (LS_MatchLabels s)
        |> set_list "matchExpressions" (λ rs, AList (requirementJSON <$> rs)) (LS_MatchExpressions s)).

Definition peerJSON (p : NetworkPolicyPeer) : object :=
  ∅ |> set_some "podSelector" selectorJSON (Peer_PodSelector p)
    |> set_some "namespaceSelector" selectorJSON (Peer_NamespaceSelector p).

(** ** The transformer *)

Definition networkPolicyKind : string := "NetworkPolicy".
Definition openShiftIngressPolicyGroupLabelKey : string := "network.openshift.io/policy-group".
Definition openShiftIngressPolicyGroupLabelValue : string := "ingress".
Definition openShiftMonitoringPolicyGroupValue : string := "monitoring".

Record NetworkPolicyTransformerConfig := {
  InstanceName : string;
  ServicePort : Z;
  OperatorNamespace : string;
  Cfg_NetworkSpec : option NetworkSpec;
  MetricsPort : Z;
  PraxisPeer : option NetworkPolicyPeer;
  PraxisMode : bool;
}.

Section transformer.
Context (config : NetworkPolicyTransformerConfig).

(** A peer that selects namespaces by one label. *)
Definition namespaceLabelPeer (key value : string) : any :=
  AMap {["namespaceSelector" := AMap {["matchLabels" := AMap {[key := AString value]}]}]}.

Definition operatorNamespacePeer : any :=
  namespaceLabelPeer "kubernetes.io/metadata.name" (OperatorNamespace config).

Definition buildDefaultPeers : list any :=
  [AMap {["podSelector" := AMap ∅]}; operatorNamespacePeer].

Definition buildRouterPeers : list any :=
  match Cfg_NetworkSpec config with
  | None => []
  | Some _ =>
      [namespaceLabelPeer openShiftIngressPolicyGroupLabelKey openShiftIngressPolicyGroupLabelValue]
  end.

Definition praxisPeerMap : any :=
  AMap (peerJSON (default defaultPraxisPeer (PraxisPeer config))).

Definition buildPeers : list any :=
  if negb (PraxisMode config) then buildDefaultPeers ++ buildRouterPeers
  else [praxisPeerMap; operatorNamespacePeer].

Definition tcpPort (port : Z) : any :=
  AMap (<["protocol" := AString "TCP"]> {["port" := AInt32 port]}).

Definition ingressRule (peers : list any) (port : Z) : any :=
  AMap (<["from" := AList peers]> {["ports" := AList [tcpPort port]]}).

Definition buildMonitoringIngressRules : list any :=
  if MetricsPort config =? 0 then []
  else
    [ingressRule [namespaceLabelPeer openShiftIngressPolicyGroupLabelKey
                    openShiftMonitoringPolicyGroupValue] (MetricsPort config)].

Definition buildIngressRules : list any :=
  ingressRule buildPeers (ServicePort config) :: buildMonitoringIngressRules.

(** The rules of [spec.network.policy]; they are kept as their JSON. *)
Definition userIngress : list any :=
  match Cfg_NetworkSpec config ≫= Net_Policy with Some p => NP_Ingress p | None => [] end.

Definition userEgress : list any :=
  match Cfg_NetworkSpec config ≫= Net_Policy with Some p => NP_Egress p | None => [] end.

Definition policyTypes (types : list string) : any := AList (AString <$> types).

Definition applyPraxisNetworkPolicySpec (spec : object) : object :=
  let spec := <["ingress" := AList (buildIngressRules ++ userIngress)]> spec in
  match userEgress with
  | [] => spec
  | egress =>
      <["policyTypes" := policyTypes ["Ingress"; "Egress"]]> (<["egress" := AList egress]> spec)
  end.

Definition applyLegacyNetworkPolicySpec (spec : object) : object :=
  match userIngress with
  | [] => <["ingress" := AList buildIngressRules]> spec
  | ingress =>
      let spec := <["ingress" := AList ingress]> spec in
      match userEgress with
      | [] => <["policyTypes" := policyTypes ["Ingress"]]> spec
      | egress =>
          <["policyTypes" := policyTypes ["Ingress"; "Egress"]]> (<["egress" := AList egress]> spec)
      end
  end.

Definition applyNetworkPolicySpec (spec : object) : object :=
  if negb (PraxisMode config) then applyLegacyNetworkPolicySpec spec
  else applyPraxisNetworkPolicySpec spec.

(** The nested maps are created when they are missing or of another type. *)
Definition updatePodSelector (spec : object) : object :=
  let podSelector := default ∅ (as_object (index spec "podSelector")) in
  let labels := default ∅ (as_object (index podSelector "matchLabels")) in
  let labels := <["app.kubernetes.io/instance" := AString (InstanceName config)]>
                  (<["app" := AString DefaultLabelValue]> labels) in
  <["podSelector" := AMap (<["matchLabels" := AMap labels]> podSelector)]> spec.

(** [transformNetworkPolicy] on the map of the resource. *)
Definition transformData (data : object) : result object :=
  match index data "spec" with
  | AMap spec => Ok (<["spec" := AMap (applyNetworkPolicySpec (updatePodSelector spec))]> data)
  | _ => Err (New "failed to find spec in NetworkPolicy")
  end.

Section resources.
Context {Resource : Type} (GetKind : Resource → string)
  (asMap : Resource → result object) (updateResource : Resource → object → result Resource).

Definition transformNetworkPolicy (res : Resource) : result Resource :=
  data ← asMap res;
  data ← transformData data;
  updateResource res data.

Definition Transform (m : list Resource) : result (list Resource) :=
  mapM_result (λ res,
    if negb (bool_decide (GetKind res = networkPolicyKind)) then Ok res
    else wrap "failed to transform NetworkPolicy: %w" [] (transformNetworkPolicy res)) m.
End resources.
End transformer.

(** [applyNetworkPolicyTransformer]: the configuration for an instance;
    [operatorNS] is the result of [GetOperatorNamespace]. *)
Definition transformerConfig (ownerInstance : OGXServer) (praxisPeer : option NetworkPolicyPeer)
    (praxisMode : bool) (operatorNS : result string) : NetworkPolicyTransformerConfig :=
  {| InstanceName := Server_Name ownerInstance;
     ServicePort := GetServicePort ownerInstance;
     OperatorNamespace := match operatorNS with Ok ns => ns | Err _ => "ogx-k8s-operator-system" end;
     Cfg_NetworkSpec := Spec_Network (Server_Spec ownerInstance);
     MetricsPort := getEffectiveMetricsPort ownerInstance;
     PraxisPeer := praxisPeer;
     PraxisMode := praxisMode |}.
