(* ===== verification/NetworkPolicyFacts.v ===== *)
(** * What the network policy lets in

    The rules that the transformer emits are read the way Kubernetes documents
    them, and the traffic they allow is stated for both modes. *)

From Stdlib Require Import ZArith.
From S2P Require Import Prelude Value ApiProviders ApiServer NetworkPolicy.

#[local] Open Scope Z_scope.

(** ** Label selectors

    A selector matches when every label it lists is there with its value and
    every expression holds. *)

Definition requirementMatches (r : LabelSelectorRequirement) (labels : gmap string string) : bool :=
  let value := labels !! Req_Key r in
  let listed := match value with Some v => bool_decide (v ∈ Req_Values r) | None => false end in
  if bool_decide (Req_Operator r = "In") then listed
  else if bool_decide (Req_Operator r = "NotIn") then negb listed
  else if bool_decide (Req_Operator r = "Exists") then bool_decide (is_Some value)
  else if bool_decide (Req_Operator r = "DoesNotExist") then bool_decide (value = None)
  else false.

Definition selectorMatches (s : LabelSelector) (labels : gmap string string) : bool :=
  bool_decide (LS_MatchLabels s ⊆ labels) &&
  forallb (λ r, requirementMatches r labels) (LS_MatchExpressions s).

(** ** Traffic

    The labels of the source namespace and pod, whether the source is in the
    namespace of the server, and the TCP port it connects to. *)

Record traffic := {
  T_NamespaceLabels : gmap string string;
  T_PodLabels : gmap string string;
  T_SameNamespace : bool;
  T_Port : Z;
}.

Definition peerAllows (p : NetworkPolicyPeer) (t : traffic) : bool :=
  match Peer_NamespaceSelector p with
  | Some ns => selectorMatches ns (T_NamespaceLabels t) &&
               match Peer_PodSelector p with
               | Some pod => selectorMatches pod (T_PodLabels t)
               | None => true
               end
  | None => match Peer_PodSelector p with
            | Some pod => T_SameNamespace t && selectorMatches pod (T_PodLabels t)
            | None => false
            end
  end.

(** ** Reading the emitted JSON *)

Definition decodeLabels (v : any) : gmap string string :=
  match v with AMap m => omap as_string m | _ => ∅ end.

Definition decodeStrings (v : any) : list string :=
  match v with AList l => omap as_string l | _ => [] end.

Definition decodeRequirement (v : any) : LabelSelectorRequirement :=
  let m := default ∅ (as_object v) in
  {| Req_Key := default "" (as_string (index m "key"));
     Req_Operator := default "" (as_string (index m "operator"));
     Req_Values := decodeStrings (index m "values") |}.

Definition decodeSelector (v : any) : option LabelSelector :=
  m ← as_object v;
  Some {| LS_MatchLabels := decodeLabels (index m "matchLabels");
          LS_MatchExpressions :=
            match index m "matchExpressions" with AList l => decodeRequirement <$> l | _ => [] end |}.

Definition decodePeer (v : any) : NetworkPolicyPeer :=
  let m := default ∅ (as_object v) in
  {| Peer_PodSelector := decodeSelector (index m "podSelector");
     Peer_NamespaceSelector := decodeSelector (index m "namespaceSelector") |}.

Definition portAllows (v : any) (port : Z) : bool :=
  let m := default ∅ (as_object v) in
  match index m "protocol" with
  | AString "TCP" | ANil =>
      match index m "port" with ANil => true | AInt32 p | AInt p => p =? port | _ => false end
  | _ => false
  end.

(** A rule with no peers, or no ports, does not restrict them. *)
Definition ruleAllows (rule : any) (t : traffic) : bool :=
  let m := default ∅ (as_object rule) in
  match index m "from" with
  | AList (p :: ps) => existsb (λ p, peerAllows (decodePeer p) t) (p :: ps)
  | _ => true
  end &&
  match index m "ports" with
  | AList (p :: ps) => existsb (λ p, portAllows p (T_Port t)) (p :: ps)
  | _ => true
  end.

(** The traffic that a policy's [spec] lets in. *)
Definition allowsIngress (spec : object) (t : traffic) : bool :=
  match index spec "ingress" with
  | AList rules => existsb (λ r, ruleAllows r t) rules
  | _ => false
  end.

(** ** Reading is the inverse of writing *)

Lemma omap_as_string_fmap (m : gmap string string) : omap as_string (AString <$> m) = m.
Proof. apply map_eq. intros k. rewrite lookup_omap, lookup_fmap. by destruct (m !! k). Qed.

Lemma omap_as_string_list (l : list string) : omap as_string (AString <$> l) = l.
Proof. induction l as [|s l IH]; [done|]. cbn. by rewrite IH. Qed.

Lemma decodeRequirement_JSON r : decodeRequirement (requirementJSON r) = r.
Proof.
  destruct r as [k o vs]. unfold decodeRequirement, requirementJSON. cbn [as_object default from_option id Req_Key Req_Operator Req_Values].
  unfold index. cfg_lookup. cbn. destruct vs as [|v vs]; cbn; [reflexivity|].
  f_equal. apply (omap_as_string_list (v :: vs)).
Qed.

Lemma decodeSelector_JSON s : decodeSelector (selectorJSON s) = Some s.
Proof.
  destruct s as [labels exprs]. unfold decodeSelector, selectorJSON.
  cbn [as_object mbind option_bind LS_MatchLabels LS_MatchExpressions]. f_equal.
  assert (H1 : decodeLabels (index (∅ |> set_map "matchLabels" labelsJSON labels
      |> set_list "matchExpressions" (λ rs, AList (requirementJSON <$> rs)) exprs) "matchLabels") = labels).
  { unfold index. cfg_lookup. rewrite lookup_set_map_eq.
    destruct (decide (labels = ∅)) as [->|_]; [by rewrite lookup_empty|].
    cbn. apply omap_as_string_fmap. }
  rewrite H1. f_equal. unfold index.
  destruct exprs as [|e exprs]; cbn [set_list].
  - cfg_lookup. by rewrite lookup_empty.
  - rewrite lookup_insert_eq. cbn [default from_option id].
    rewrite <- list_fmap_compose. transitivity (id <$> e :: exprs); [|apply list_fmap_id].
    apply list_fmap_ext. intros i r _. apply decodeRequirement_JSON.
Qed.

Lemma decodePeer_JSON p : decodePeer (AMap (peerJSON p)) = p.
Proof.
  destruct p as [[pod|] [ns|]]; unfold decodePeer, peerJSON; cbn [as_object default from_option id];
    unfold index; cbn [set_some Peer_PodSelector Peer_NamespaceSelector]; cfg_lookup;
    rewrite ?lookup_empty; cbn [default from_option id]; by rewrite ?decodeSelector_JSON.
Qed.

(** ** The rules of the transformer *)

Lemma namespaceLabelPeer_allows key value t :
  peerAllows (decodePeer (namespaceLabelPeer key value)) t =
  bool_decide (T_NamespaceLabels t !! key = Some value).
Proof.
  unfold decodePeer, namespaceLabelPeer, index. cbn [as_object default from_option id].
  rewrite lookup_singleton_ne, lookup_singleton_eq by done. cbn [default from_option id decodeSelector as_object].
  unfold peerAllows. cbn [Peer_NamespaceSelector Peer_PodSelector mbind option_bind].
  unfold decodeSelector, index. cbn [as_object mbind option_bind].
  rewrite lookup_singleton_eq, lookup_singleton_ne by done.
  unfold selectorMatches. cbn [default from_option id LS_MatchLabels LS_MatchExpressions decodeLabels forallb].
  rewrite !andb_true_r. apply bool_decide_ext.
  rewrite omap_singleton_Some with (y := value) by done. apply map_singleton_subseteq_l.
Qed.

Lemma ingressRule_allows p ps port t :
  ruleAllows (ingressRule (p :: ps) port) t =
  existsb (λ p, peerAllows (decodePeer p) t) (p :: ps) && (port =? T_Port t).
Proof.
  unfold ruleAllows, ingressRule, index. cbn [as_object default from_option id].
  rewrite lookup_insert_eq, lookup_insert_ne, lookup_singleton_eq by done.
  cbn [default from_option id]. f_equal. cbn [existsb]. rewrite orb_false_r.
  unfold portAllows, tcpPort, index. cbn [as_object default from_option id].
  by rewrite lookup_insert_eq, lookup_insert_ne, lookup_singleton_eq by done.
Qed.

Section posture.
Context (config : NetworkPolicyTransformerConfig).

Definition fromOperator (t : traffic) : Prop :=
  T_NamespaceLabels t !! "kubernetes.io/metadata.name" = Some (OperatorNamespace config).

Definition fromGroup (group : string) (t : traffic) : Prop :=
  T_NamespaceLabels t !! "network.openshift.io/policy-group" = Some group.

Definition fromPraxis (t : traffic) : Prop :=
  peerAllows (default defaultPraxisPeer (PraxisPeer config)) t = true.

(** Prometheus may scrape, unless monitoring is off. *)
Definition scrape (t : traffic) : Prop :=
  MetricsPort config ≠ 0 ∧ T_Port t = MetricsPort config ∧ fromGroup "monitoring" t.

Definition allowedByUser (t : traffic) : Prop :=
  ∃ rule, rule ∈ userIngress config ∧ ruleAllows rule t = true.

Lemma existsb_rules rules t :
  existsb (λ r, ruleAllows r t) rules = true ↔ ∃ rule, rule ∈ rules ∧ ruleAllows rule t = true.
Proof. rewrite existsb_exists. by setoid_rewrite list_elem_of_In. Qed.

Lemma monitoring_allows t :
  existsb (λ r, ruleAllows r t) (buildMonitoringIngressRules config) = true ↔ scrape t.
Proof.
  unfold buildMonitoringIngressRules, scrape, fromGroup.
  destruct (Z.eqb_spec (MetricsPort config) 0) as [H0|H0]; cbn [existsb].
  - split; [done|]. by intros [? _].
  - rewrite orb_false_r, ingressRule_allows. cbn [existsb].
    rewrite orb_false_r, namespaceLabelPeer_allows, andb_true_iff, bool_decide_eq_true, Z.eqb_eq.
    unfold openShiftIngressPolicyGroupLabelKey, openShiftMonitoringPolicyGroupValue.
    split; [intros [? ?]; auto|intros (_ & ? & ?); auto].
Qed.

Lemma praxisRule_allows t :
  PraxisMode config = true →
  ruleAllows (ingressRule (buildPeers config) (ServicePort config)) t = true ↔
  T_Port t = ServicePort config ∧ (fromPraxis t ∨ fromOperator t).
Proof.
  intros Hm. unfold buildPeers. rewrite Hm. cbn [negb]. rewrite ingressRule_allows. cbn [existsb].
  unfold praxisPeerMap, operatorNamespacePeer, fromPraxis, fromOperator.
  rewrite decodePeer_JSON, namespaceLabelPeer_allows, orb_false_r, andb_true_iff, orb_true_iff,
    bool_decide_eq_true, Z.eqb_eq.
  split; [intros [? ?]; auto|intros [? ?]; auto].
Qed.

Lemma legacyRule_allows t :
  PraxisMode config = false →
  ruleAllows (ingressRule (buildPeers config) (ServicePort config)) t = true ↔
  T_Port t = ServicePort config ∧
  (T_SameNamespace t = true ∨ fromOperator t ∨
   Cfg_NetworkSpec config ≠ None ∧ fromGroup "ingress" t).
Proof.
  intros Hm. unfold buildPeers. rewrite Hm. cbn [negb buildDefaultPeers app].
  rewrite ingressRule_allows. cbn [existsb].
  assert (Hs : peerAllows (decodePeer (AMap {["podSelector" := AMap ∅]})) t = T_SameNamespace t).
  { unfold decodePeer, index. cbn [as_object default from_option id].
    rewrite lookup_singleton_eq, lookup_singleton_ne by done.
    cbn [default from_option id decodeSelector as_object mbind option_bind]. unfold peerAllows.
    cbn [Peer_NamespaceSelector Peer_PodSelector]. rewrite !index_empty. cbn [decodeLabels].
    unfold selectorMatches. cbn [LS_MatchLabels LS_MatchExpressions forallb].
    rewrite bool_decide_true by apply map_empty_subseteq. by rewrite !andb_true_r. }
  rewrite Hs. unfold operatorNamespacePeer, fromOperator, fromGroup, buildRouterPeers.
  rewrite namespaceLabelPeer_allows, andb_true_iff, !orb_true_iff, bool_decide_eq_true, Z.eqb_eq.
  destruct (Cfg_NetworkSpec config) as [n|]; cbn [existsb].
  - rewrite orb_false_r, namespaceLabelPeer_allows, bool_decide_eq_true.
    unfold openShiftIngressPolicyGroupLabelKey, openShiftIngressPolicyGroupLabelValue.
    split; [intros [[?|[?|?]] ?]; eauto 6|intros [? [?|[?|[_ ?]]]]; auto].
  - split; [intros [[?|[?|?]] ?]; auto; done|intros [? [?|[?|[? _]]]]; auto; done].
Qed.

Lemma allowsIngress_rules spec rules t :
  spec !! "ingress" = Some (AList rules) →
  allowsIngress spec t = true ↔ ∃ rule, rule ∈ rules ∧ ruleAllows rule t = true.
Proof. intros H. unfold allowsIngress, index. rewrite H. apply existsb_rules. Qed.

Lemma defaultRules_allow t :
  (∃ rule, rule ∈ buildIngressRules config ∧ ruleAllows rule t = true) ↔
  ruleAllows (ingressRule (buildPeers config) (ServicePort config)) t = true ∨ scrape t.
Proof.
  rewrite <- monitoring_allows, existsb_rules. unfold buildIngressRules. split.
  - intros (r & [->|Hr]%elem_of_cons & Ha); eauto.
  - intros [Ha|(r & Hr & Ha)]; eexists; (split; [|exact Ha]); [left|by right].
Qed.
End posture.

Lemma praxis_allows config spec t :
  PraxisMode config = true →
  allowsIngress (applyNetworkPolicySpec config spec) t = true ↔
  T_Port t = ServicePort config ∧ (fromPraxis config t ∨ fromOperator config t) ∨
  scrape config t ∨ allowedByUser config t.
Proof.
  intros Hm. unfold applyNetworkPolicySpec. rewrite Hm. cbn [negb]. unfold applyPraxisNetworkPolicySpec.
  rewrite (allowsIngress_rules _ (buildIngressRules config ++ userIngress config)).
  - pose proof (defaultRules_allow config t) as Hd. rewrite (praxisRule_allows config t Hm) in Hd.
    unfold allowedByUser. split.
    + intros (r & [Hr|Hr]%elem_of_app & Ha); [|by right; right; exists r].
      destruct (proj1 Hd) as [?|?]; eauto.
    + intros [H|[H|(r & Hr & Ha)]].
      1,2: destruct (proj2 Hd) as (r & Hr & Ha); [auto|]; exists r; set_solver.
      exists r. set_solver.
  - destruct (userEgress config); [apply lookup_insert_eq|].
    rewrite !lookup_insert_ne by done. apply lookup_insert_eq.
Qed.

(** C38. The Praxis lock-down: in Praxis mode the traffic that the policy lets in is
    the one from the Praxis pods and from the operator namespace to the service
    port, scraping of the metrics port, and what the user's additional rules
    allow; the user's rules remove nothing. *)
Theorem praxis_lockdown config spec t :
  PraxisMode config = true →
  allowsIngress (applyNetworkPolicySpec config spec) t = true ↔
  T_Port t = ServicePort config ∧ (fromPraxis config t ∨ fromOperator config t) ∨
  scrape config t ∨ allowedByUser config t.
Proof. apply praxis_allows. Qed.

(** The legacy posture: the user's ingress rules replace the defaults; without
    any, the service port is open to the namespace, to the operator and, when
    [spec.network] is set, to the OpenShift router, and the metrics port to the
    monitoring namespace. *)
Theorem legacy_posture config spec t :
  PraxisMode config = false →
  allowsIngress (applyNetworkPolicySpec config spec) t = true ↔
  if bool_decide (userIngress config = []) then
    T_Port t = ServicePort config ∧
      (T_SameNamespace t = true ∨ fromOperator config t ∨
       Cfg_NetworkSpec config ≠ None ∧ fromGroup "ingress" t) ∨
    scrape config t
  else allowedByUser config t.
Proof.
  intros Hm. unfold applyNetworkPolicySpec. rewrite Hm. cbn [negb]. unfold applyLegacyNetworkPolicySpec.
  case_bool_decide as Hu.
  - rewrite Hu, (allowsIngress_rules _ (buildIngressRules config)) by apply lookup_insert_eq.
    by rewrite defaultRules_allow, legacyRule_allows.
  - unfold allowedByUser. destruct (userIngress config) as [|r rs] eqn:E; [done|].
    rewrite (allowsIngress_rules _ (r :: rs)); [done|].
    destruct (userEgress config); rewrite !lookup_insert_ne by done; apply lookup_insert_eq.
Qed.

(** For an instance in Praxis mode without additional ingress rules, nothing
    reaches the service port but pods of the Praxis namespace and of the
    operator namespace, unless it is also the metrics port. *)
Theorem praxis_namespace_isolation r operatorNS spec t :
  let config := transformerConfig r (Some (BuildPraxisPeer r)) true operatorNS in
  let praxisNamespace := match Spec_PraxisMode (Server_Spec r) ≫= Praxis_PraxisSelector with
                         | Some sel => PSel_Namespace sel | None => "praxis-standalone" end in
  userIngress config = [] → getEffectiveMetricsPort r ≠ GetServicePort r →
  allowsIngress (applyNetworkPolicySpec config spec) t = true → T_Port t = GetServicePort r →
  T_NamespaceLabels t !! "kubernetes.io/metadata.name" = Some praxisNamespace ∨
  T_NamespaceLabels t !! "kubernetes.io/metadata.name" = Some (OperatorNamespace config).
Proof.
  intros config ns Hu Hp Ha Ht.
  pose proof (proj1 (praxis_allows config spec t eq_refl) Ha) as Hcases.
  destruct Hcases as [[_ [Hpx|Hop]]|[(_ & Hs & _)|(rule & Hr & _)]].
  - left. unfold fromPraxis in Hpx. cbn [PraxisPeer config transformerConfig default from_option id] in Hpx.
    unfold BuildPraxisPeer in Hpx. subst ns.
    destruct (Spec_PraxisMode (Server_Spec r) ≫= Praxis_PraxisSelector) as [sel|];
      unfold peerAllows in Hpx; cbn [Peer_NamespaceSelector defaultPraxisPeer] in Hpx;
      apply andb_true_iff in Hpx as [Hns _]; unfold selectorMatches in Hns;
      apply andb_true_iff in Hns as [Hns _]; apply bool_decide_eq_true in Hns; cbn [matchLabels LS_MatchLabels] in Hns;
      by apply map_singleton_subseteq_l in Hns.
  - by right.
  - exfalso. apply Hp. rewrite <- Ht, Hs. reflexivity.
  - rewrite Hu in Hr. by apply not_elem_of_nil in Hr.
Qed.

(** Egress: the user's egress rules are emitted as they are, with both policy
    types, except that in legacy mode they are dropped when no ingress rule is
    given; otherwise the egress section and the policy types of the manifest
    are kept. *)
Theorem egress_spec config spec :
  let spec' := applyNetworkPolicySpec config spec in
  let emitted := negb (bool_decide (userEgress config = [])) &&
                 (PraxisMode config || negb (bool_decide (userIngress config = []))) in
  spec' !! "egress" = (if emitted then Some (AList (userEgress config)) else spec !! "egress") ∧
  spec' !! "policyTypes" =
    (if emitted then Some (policyTypes ["Ingress"; "Egress"])
     else if negb (PraxisMode config) && negb (bool_decide (userIngress config = []))
     then Some (policyTypes ["Ingress"]) else spec !! "policyTypes").
Proof.
  cbv zeta. unfold applyNetworkPolicySpec, applyPraxisNetworkPolicySpec, applyLegacyNetworkPolicySpec.
  destruct (PraxisMode config), (userIngress config) as [|i rest] eqn:Ei, (userEgress config) as [|e es] eqn:Ee;
    rewrite ?(bool_decide_true ([] = [])), ?bool_decide_false by done; cbn [negb andb orb];
    split; cfg_lookup; done.
Qed.

(** The policy selects the pods of its instance: the two identifying labels are
    set, the other labels of the manifest's selector are kept, and nothing of
    the resource but the spec's [podSelector], [ingress], [egress] and
    [policyTypes] changes. *)
Theorem transformData_spec config data data' :
  transformData config data = Ok data' →
  ∃ spec spec' podSelector labels,
    index data "spec" = AMap spec ∧ data' !! "spec" = Some (AMap spec') ∧
    (∀ k, k ≠ "spec" → data' !! k = data !! k) ∧
    (∀ k, k ∉ ["podSelector"; "ingress"; "egress"; "policyTypes"] → spec' !! k = spec !! k) ∧
    spec' !! "podSelector" = Some (AMap podSelector) ∧
    podSelector !! "matchLabels" = Some (AMap labels) ∧
    labels !! "app" = Some (AString "ogx") ∧
    labels !! "app.kubernetes.io/instance" = Some (AString (InstanceName config)) ∧
    ∀ k, k ∉ ["app"; "app.kubernetes.io/instance"] →
      labels !! k = default ∅ (as_object (index (default ∅ (as_object (index spec "podSelector")))
                                            "matchLabels")) !! k.
Proof.
  unfold transformData. destruct (index data "spec") as [| | | | | | |spec| | |]; try done. intros [= <-].
  assert (Hne : ∀ s k, k ∉ ["ingress"; "egress"; "policyTypes"] →
    applyNetworkPolicySpec config s !! k = s !! k).
  { intros s k Hk. unfold applyNetworkPolicySpec, applyPraxisNetworkPolicySpec, applyLegacyNetworkPolicySpec.
    destruct (PraxisMode config), (userIngress config), (userEgress config); cbn [negb];
      rewrite !lookup_insert_ne by set_solver; done. }
  exists spec, (applyNetworkPolicySpec config (updatePodSelector config spec)).
  do 2 eexists. split; [done|]. split; [apply lookup_insert_eq|].
  split; [intros k Hk; by apply lookup_insert_ne|].
  split; [intros k Hk; rewrite Hne by set_solver; unfold updatePodSelector; apply lookup_insert_ne; set_solver|].
  split; [rewrite Hne by set_solver; apply lookup_insert_eq|].
  split; [apply lookup_insert_eq|].
  split; [by rewrite lookup_insert_ne, lookup_insert_eq by done|].
  split; [apply lookup_insert_eq|].
  intros k Hk. by rewrite !lookup_insert_ne by set_solver.
Qed.
