(* ===== verification/Pointer.v ===== *)
(** * JSON pointers

    [pkg/deploy/plugins/field_mutator.go] sets fields of a manifest by their JSON
    pointer (RFC 6901).  The package [jsonpointer] is the class [JSONPointer]:
    what the mutator relies on is [JSONPointerLaws], stated with [lookupAt] and
    [assignAt], which read and replace a node of a document.  [putPath] is what
    setting a field with the creation of its parents means, and
    [setWithPathCreation_putPath] says that the mutator does it.

    A document is its own deep copy, so [deepCopyData] does not appear. *)

From Stdlib Require Import Ascii ZArith.
From S2P Require Import Prelude Value Hash Fmt.

(** ** Nodes of a document *)

(** The place of an array that a token names. *)
Definition elementIndex (t : string) : option nat :=
  match Atoi t with Some n => if (0 <=? n)%Z then Some (Z.to_nat n) else None | None => None end.

#[global] Arguments elementIndex _ : simpl never.

Definition child (t : string) (v : any) : option any :=
  match v with
  | AMap m => m !! t
  | AList l => n ← elementIndex t; l !! n
  | _ => None
  end.

(** A map takes a new key, an array only replaces an element. *)
Definition withChild (t : string) (c v : any) : option any :=
  match v with
  | AMap m => Some (AMap (<[t := c]> m))
  | AList l =>
      n ← elementIndex t;
      if (n <? length l)%nat then Some (AList (<[n := c]> l)) else None
  | _ => None
  end.

Fixpoint lookupAt (tokens : list string) (v : any) : option any :=
  match tokens with
  | [] => Some v
  | t :: tokens => c ← child t v; lookupAt tokens c
  end.

Fixpoint assignAt (tokens : list string) (x v : any) : option any :=
  match tokens with
  | [] => Some x
  | t :: tokens =>
      match tokens with
      | [] => withChild t x v
      | _ => c ← child t v; c ← assignAt tokens x c; withChild t c v
      end
  end.

(** The node certainly has no such child: other types are left unspecified. *)
Definition lacks (t : string) (v : any) : bool :=
  match v with
  | ANil => true
  | AMap m => bool_decide (m !! t = None)
  | AList l => match elementIndex t with Some n => (length l <=? n)%nat | None => false end
  | _ => false
  end.

Fixpoint absent (tokens : list string) (v : any) : bool :=
  match tokens with
  | [] => false
  | t :: tokens => lacks t v || match child t v with Some c => absent tokens c | None => false end
  end.

(** There is certainly nothing that could hold the last token. *)
Fixpoint noParent (tokens : list string) (v : any) : bool :=
  match tokens with
  | [] => false
  | t :: tokens =>
      match tokens with
      | [] => match v with AMap _ => false | _ => lacks t v end
      | _ => lacks t v || match child t v with Some c => noParent tokens c | None => false end
      end
  end.

Definition isNil (v : any) : bool := match v with ANil => true | _ => false end.

(** ** The interface to the package *)

Class JSONPointer := {
  Pointer : Type;
  zeroPointer : Pointer;
  newPointer : string → result Pointer;
  DecodedTokens : Pointer → list string;
  ptrGet : Pointer → any → result any;
  ptrSet : Pointer → any → any → result any;
}.

(** How a token is written in a pointer: [~0] for [~] and [~1] for [/]. *)
Definition escapeToken (t : string) : string :=
  of_chars (flat_map (λ c, if Ascii.eqb c "~"%char then chars "~0" else if Ascii.eqb c "/"%char then chars "~1" else [c]) (chars t)).

Definition pointerText (tokens : list string) : string := "/" +:+ joinWith "/" tokens.

Class JSONPointerLaws `{JSONPointer} : Prop := {
  newPointer_spec : ∀ tokens, tokens ≠ [] →
    ∃ p, newPointer (pointerText (escapeToken <$> tokens)) = Ok p ∧ DecodedTokens p = tokens;
  ptrGet_found : ∀ p d v, lookupAt (DecodedTokens p) d = Some v → ptrGet p d = Ok v;
  ptrGet_absent : ∀ p d, absent (DecodedTokens p) d = true → is_ok (ptrGet p d) = false;
  ptrSet_assign : ∀ p d x d', DecodedTokens p ≠ [] →
    assignAt (DecodedTokens p) x d = Some d' → ptrSet p d x = Ok d';
  ptrSet_noParent : ∀ p d x, noParent (DecodedTokens p) d = true → is_ok (ptrSet p d x) = false;
}.

(** ** Setting a field and creating its parents *)

(** [isNumericString] *)
Definition isNumericString (s : string) : bool :=
  match chars s with [] => false | l => forallb isDigit l end.

Section creation.
Context `{JSONPointer}.

(** The loop over the parents: [path] has been visited, [tokens] are left. *)
Fixpoint createParents (path tokens : list string) (tree : any) : result any :=
  match tokens with
  | t :: ((next :: _) as tokens) =>
      let path := path ++ [t] in
      let parentPath := pointerText path in
      let parentPtr := match newPointer parentPath with Ok p => p | Err _ => zeroPointer end in
      let present := match ptrGet parentPtr tree with Ok parent => negb (isNil parent) | Err _ => false end in
      if present then createParents path tokens tree
      else
        let container := if isNumericString next then AList [] else AMap ∅ in
        tree ← wrap "failed to create path at %q: %w" [parentPath] (ptrSet parentPtr tree container);
        createParents path tokens tree
  | _ => Ok tree
  end.

Definition setWithPathCreation (data : any) (ptr : Pointer) (value : any) : result any :=
  match ptrSet ptr data value with
  | Ok tree => Ok tree
  | Err _ =>
      match DecodedTokens ptr with
      | [] => Ok value
      | tokens => tree ← createParents [] tokens data; ptrSet ptr tree value
      end
  end.
End creation.

(** ** What it means *)

Fixpoint nest (tokens : list string) (x : any) : any :=
  match tokens with [] => x | t :: tokens => AMap {[t := nest tokens x]} end.

(** A missing or nil node becomes a chain of maps; an array is never created,
    because it would be empty, and no element of it could be set. *)
Fixpoint putPath (tokens : list string) (x v : any) : option any :=
  match tokens with
  | [] => Some x
  | t :: tokens =>
      match tokens with
      | [] => withChild t x v
      | _ =>
          let c := default ANil (child t v) in
          if isNil c then
            if existsb isNumericString tokens then None else withChild t (nest tokens x) v
          else c ← putPath tokens x c; withChild t c v
      end
  end.

(** ** Reading what was assigned *)

Lemma child_withChild t c v v' : withChild t c v = Some v' → child t v' = Some c.
Proof.
  destruct v as [| | | | | |l|m| | |]; cbn [child withChild lacks]; try done.
  - intros (n & Hn & Hv)%bind_Some. destruct (Nat.ltb_spec n (length l)); [|done]. injection Hv as <-.
    cbn [child]. rewrite Hn. by apply list_lookup_insert_eq.
  - intros [= <-]. apply lookup_insert_eq.
Qed.

Lemma withChild_twice t c c' v v' :
  withChild t c v = Some v' → withChild t c' v' = withChild t c' v.
Proof.
  destruct v as [| | | | | |l|m| | |]; cbn [child withChild lacks]; try done.
  - intros (n & Hn & Hv)%bind_Some. destruct (Nat.ltb_spec n (length l)) as [Hl|]; [|done]. injection Hv as <-.
    cbn [withChild]. rewrite Hn. cbn [mbind option_bind]. rewrite length_insert. destruct (Nat.ltb_spec n (length l)); [|done].
    by rewrite list_insert_insert_eq.
  - intros [= <-]. cbn. by rewrite insert_insert_eq.
Qed.

(** Whether a node takes a child does not depend on the child. *)
Lemma withChild_some t c c' v v' : withChild t c v = Some v' → is_Some (withChild t c' v).
Proof.
  destruct v as [| | | | | |l|m| | |]; cbn [child withChild lacks]; try done. intros (n & -> & Hv)%bind_Some. cbn [mbind option_bind].
  by destruct (n <? length l)%nat.
Qed.

Lemma child_some t v c c' : child t v = Some c → is_Some (withChild t c' v).
Proof.
  destruct v as [| | | | | |l|m| | |]; cbn [child withChild lacks]; try done. intros (n & -> & Hl%lookup_lt_Some)%bind_Some. cbn [mbind option_bind].
  by apply Nat.ltb_lt in Hl as ->.
Qed.

Lemma assignAt_cons t tokens x v : tokens ≠ [] →
  assignAt (t :: tokens) x v = (c ← child t v; c ← assignAt tokens x c; withChild t c v).
Proof. by destruct tokens. Qed.

Lemma lookupAt_app path tokens v : lookupAt (path ++ tokens) v = lookupAt path v ≫= lookupAt tokens.
Proof.
  revert v. induction path as [|t path IH]; intros v; [done|]. cbn. destruct (child t v); [apply IH|done].
Qed.

(** Assigning below a node is assigning the changed node. *)
Lemma assignAt_app path tokens x d v : tokens ≠ [] → lookupAt path d = Some v →
  assignAt (path ++ tokens) x d = assignAt tokens x v ≫= λ v', assignAt path v' d.
Proof.
  intros Hne. revert d. induction path as [|t path IH]; intros d; cbn [lookupAt app].
  - intros [= ->]. by destruct (assignAt tokens x v).
  - destruct (child t d) as [c|] eqn:Ec; [|done]. intros Hv. cbn in Hv.
    rewrite assignAt_cons by (by destruct path). rewrite Ec. cbn. rewrite (IH _ Hv).
    destruct (assignAt tokens x v) as [v'|]; [|done]. cbn [mbind option_bind]. destruct path as [|t' path].
    + done.
    + by rewrite Ec.
Qed.

Lemma assignAt_some path v x d : lookupAt path d = Some v → is_Some (assignAt path x d).
Proof.
  revert d. induction path as [|t path IH]; intros d; cbn [lookupAt]; [by eexists|].
  intros (c & Ec & Hv)%bind_Some. destruct path as [|t' path]; [by eapply child_some|].
  rewrite assignAt_cons by done. rewrite Ec. cbn [mbind option_bind]. destruct (IH _ Hv) as [c' ->]. by eapply child_some.
Qed.

Lemma lookupAt_assignAt path x d d' : assignAt path x d = Some d' → lookupAt path d' = Some x.
Proof.
  revert d d'. induction path as [|t path IH]; intros d d'; [by intros [= ->]|].
  destruct path as [|t' path].
  - cbn. intros Hd. by rewrite (child_withChild _ _ _ _ Hd).
  - rewrite assignAt_cons by done. intros (c & Ec & (c' & Hc & Hd)%bind_Some)%bind_Some.
    cbn [lookupAt]. rewrite (child_withChild _ _ _ _ Hd). cbn. by apply (IH c).
Qed.

Lemma assignAt_twice path x y d d' : assignAt path x d = Some d' → assignAt path y d' = assignAt path y d.
Proof.
  revert d d'. induction path as [|t path IH]; intros d d'; [done|]. destruct path as [|t' path].
  - cbn. apply withChild_twice.
  - rewrite !assignAt_cons by done. intros (c & Ec & (c' & Hc & Hd)%bind_Some)%bind_Some.
    rewrite (child_withChild _ _ _ _ Hd), Ec. cbn [mbind option_bind]. rewrite (IH _ _ Hc).
    destruct (assignAt (t' :: path) y c); [|done]. by eapply withChild_twice.
Qed.

Lemma absent_app path t d v : lookupAt path d = Some v → lacks t v = true → absent (path ++ [t]) d = true.
Proof.
  revert d. induction path as [|t' path IH]; intros d; cbn.
  - intros [= ->] ->. done.
  - intros (c & -> & Hv)%bind_Some Hl. cbn. rewrite (IH _ Hv Hl). apply orb_true_r.
Qed.

Lemma nest_putPath tokens x : tokens ≠ [] → existsb isNumericString tokens = false →
  putPath tokens x (AMap ∅) = Some (nest tokens x).
Proof.
  destruct tokens as [|t [|t' tokens]]; intros Hne Hn; [done|done|].
  cbn [putPath child]. rewrite lookup_empty. cbn [default from_option isNil]. cbn [existsb] in Hn.
  apply orb_false_iff in Hn as [_ Hn]. cbn [existsb]. by rewrite Hn.
Qed.

(** Either the parents exist, or one of them is certainly missing. *)
Lemma putPath_direct tokens x v v' : tokens ≠ [] → putPath tokens x v = Some v' →
  assignAt tokens x v = Some v' ∨ noParent tokens v = true.
Proof.
  intros _. revert v v'. induction tokens as [|t tokens IH]; intros v v' Hv; [by left|].
  destruct tokens as [|t' tokens]; [by left|]. rewrite assignAt_cons by done.
  cbn [putPath] in Hv. cbn [noParent]. destruct (child t v) as [c|] eqn:Ec; cbn [default from_option id] in Hv.
  - destruct (isNil c) eqn:Hc.
    + destruct c; try done. right. apply orb_true_iff. right. destruct tokens; done.
    + apply bind_Some in Hv as (c' & Hc' & Hv').
      destruct (IH _ _ Hc') as [Ha|Ha]; [left|right].
      * cbn [mbind option_bind]. by rewrite Ha.
      * apply orb_true_iff. by right.
  - right. apply orb_true_iff. left. destruct (existsb _ _); [done|].
    destruct v as [| | | | | |l|m| | |]; cbn [child withChild lacks] in *; try done; [|by apply bool_decide_eq_true].
    apply bind_Some in Hv as (n & Hn & Hv). rewrite Hn in *. cbn [mbind option_bind] in *.
    by apply Nat.leb_le, lookup_ge_None_1.
Qed.

(** ** The mutator does what [putPath] says *)

Section correct.
Context `{JSONPointerLaws}.
#[local] Set Default Proof Using "Type*".

(** The intermediate tokens are joined without being escaped again. *)
Definition plain (t : string) : Prop := escapeToken t = t.

Lemma newPointer_plain path : path ≠ [] → Forall plain path →
  ∃ p, newPointer (pointerText path) = Ok p ∧ DecodedTokens p = path.
Proof.
  intros Hne Hp. destruct (newPointer_spec path Hne) as (p & Hn & Hd). exists p. split; [|done].
  rewrite <- Hn. do 2 f_equal. clear -Hp. induction Hp as [|t path Ht _ IH]; cbn; [done|]. by rewrite Ht, <- IH.
Qed.

(** One step of the loop, with the pointer already parsed. *)
Lemma createParents_cons path t next tokens tree :
  createParents path (t :: next :: tokens) tree =
  let ptr := match newPointer (pointerText (path ++ [t])) with Ok p => p | Err _ => zeroPointer end in
  if match ptrGet ptr tree with Ok parent => negb (isNil parent) | Err _ => false end
  then createParents (path ++ [t]) (next :: tokens) tree
  else
    tree ← wrap "failed to create path at %q: %w" [pointerText (path ++ [t])]
      (ptrSet ptr tree (if isNumericString next then AList [] else AMap ∅));
    createParents (path ++ [t]) (next :: tokens) tree.
Proof using. done. Qed.

Lemma createParents_spec tokens path tree x v v' :
  tokens ≠ [] → Forall plain (path ++ removelast tokens) →
  lookupAt path tree = Some v → putPath tokens x v = Some v' →
  ∃ tree', createParents path tokens tree = Ok tree' ∧
    assignAt (path ++ tokens) x tree' = assignAt path v' tree.
Proof.
  revert path tree v v'. induction tokens as [|t tokens IH]; intros path tree v v' Hne Hp Hv Hput; [done|].
  destruct tokens as [|next tokens].
  { exists tree. split; [done|]. rewrite (assignAt_app _ _ _ _ v) by done. cbn [putPath assignAt] in *. by rewrite Hput. }
  change (removelast (t :: next :: tokens)) with (t :: removelast (next :: tokens)) in Hp.
  rewrite cons_middle, (assoc_L app) in Hp.
  assert (Forall plain (path ++ [t])) as Hpath by by apply Forall_app in Hp as [? _].
  destruct (newPointer_plain (path ++ [t])) as (p & Hnew & Hdec); [by destruct path|done|].
  assert (∀ c, lookupAt path tree = Some v → child t v = Some c → lookupAt (path ++ [t]) tree = Some c) as Hchild.
  { intros c Hl Hc. rewrite lookupAt_app, Hl. cbn. by rewrite Hc. }
  assert (∀ c v1 y, withChild t c v = Some v1 →
            assignAt (path ++ [t]) y tree = withChild t y v ≫= λ v2, assignAt path v2 tree) as Hassign.
  { intros c v1 y _. by rewrite (assignAt_app _ _ _ _ v). }
  rewrite createParents_cons, Hnew. cbv zeta.
  assert (path ++ t :: next :: tokens = (path ++ [t]) ++ next :: tokens) as -> by by rewrite <- (assoc_L app).
  destruct (isNil (default ANil (child t v))) eqn:Hnil.
  - assert (existsb isNumericString (next :: tokens) = false ∧ withChild t (nest (next :: tokens) x) v = Some v')
      as [Hnum Hw] by (cbn [putPath] in Hput; rewrite Hnil in Hput; by destruct (existsb _ _)).
    assert (match ptrGet p tree with Ok parent => negb (isNil parent) | Err _ => false end = false) as ->.
    { destruct (child t v) as [c|] eqn:Ec; cbn in Hnil.
      - destruct c; try done. by rewrite (ptrGet_found p tree ANil) by (rewrite Hdec; by apply Hchild).
      - pose proof (ptrGet_absent p tree) as Ha. rewrite Hdec in Ha.
        destruct (ptrGet p tree) as [y|e]; [|done]. discriminate Ha. apply (absent_app _ _ _ v); [done|].
        destruct v as [| | | | | |l|m| | |]; cbn [child withChild lacks] in *; try done.
        + apply bind_Some in Hw as (n & Hn & Hw). rewrite Hn in *. cbn [mbind option_bind] in *.
          by apply Nat.leb_le, lookup_ge_None_1.
        + by apply bool_decide_eq_true. }
    assert (isNumericString next = false) as ->.
    { cbn in Hnum. by apply orb_false_iff in Hnum as [? _]. }
    destruct (withChild_some _ _ (AMap ∅) _ _ Hw) as [v1 Hv1].
    destruct (assignAt_some path v v1 tree Hv) as [tree1 Ht1].
    assert (assignAt (path ++ [t]) (AMap ∅) tree = Some tree1) as Ha by (rewrite (Hassign _ _ _ Hv1), Hv1; done).
    rewrite (ptrSet_assign p tree (AMap ∅) tree1) by (rewrite Hdec; done || by destruct path). cbn [wrap mbind result_bind].
    destruct (IH (path ++ [t]) tree1 (AMap ∅) (nest (next :: tokens) x)) as (tree' & Hrun & Hres); try done.
    + by eapply lookupAt_assignAt.
    + by apply nest_putPath.
    + exists tree'. split; [done|]. rewrite Hres, (assignAt_twice _ _ _ _ _ Ha), (Hassign _ _ _ Hw), Hw. done.
  - destruct (child t v) as [c|] eqn:Ec; [|done]. cbn in Hnil.
    assert (∃ c', putPath (next :: tokens) x c = Some c' ∧ withChild t c' v = Some v') as (c' & Hc & Hw).
    { cbn [putPath] in Hput. rewrite Ec in Hput. cbn [default from_option id] in Hput. rewrite Hnil in Hput.
      by apply bind_Some in Hput. }
    assert (match ptrGet p tree with Ok parent => negb (isNil parent) | Err _ => false end = true) as ->.
    { rewrite (ptrGet_found p tree c) by (rewrite Hdec; by apply Hchild). by rewrite Hnil. }
    destruct (IH (path ++ [t]) tree c c') as (tree' & Hrun & Hres); try done.
    + by apply Hchild.
    + exists tree'. split; [done|]. rewrite Hres, (Hassign _ _ _ Hw), Hw. done.
Qed.

Lemma setWithPathCreation_put data ptr value data' :
  DecodedTokens ptr ≠ [] → Forall plain (removelast (DecodedTokens ptr)) →
  putPath (DecodedTokens ptr) value data = Some data' →
  setWithPathCreation data ptr value = Ok data'.
Proof.
  intros Hne Hp Hput. unfold setWithPathCreation.
  destruct (putPath_direct _ _ _ _ Hne Hput) as [Ha|Ha].
  - by rewrite (ptrSet_assign _ _ _ _ Hne Ha).
  - pose proof (ptrSet_noParent ptr data value Ha) as He. destruct (ptrSet ptr data value) as [|e]; [done|].
    destruct (createParents_spec (DecodedTokens ptr) [] data value data data') as (tree' & Hrun & Hres); [done..|].
    destruct (DecodedTokens ptr) as [|t tokens] eqn:E; [done|]. rewrite Hrun. cbn [mbind result_bind].
    apply ptrSet_assign; rewrite E; [done|]. exact Hres.
Qed.

(** Setting a field with the creation of its parents, when the document can
    hold it: the result is the document with the value at the path, in which
    every missing or null parent has become a map with the next token as its
    only key, and every existing parent has kept its other children. *)
Theorem setWithPathCreation_putPath data ptr value data' :
  DecodedTokens ptr ≠ [] → Forall plain (removelast (DecodedTokens ptr)) →
  putPath (DecodedTokens ptr) value data = Some data' →
  setWithPathCreation data ptr value = Ok data'.
Proof. apply setWithPathCreation_put. Qed.

(** An array is created empty, so its first element can never be set. *)
Lemma array_parent_fails a m ptr value :
  plain a → DecodedTokens ptr = [a; "0"] → m !! a = None →
  is_ok (setWithPathCreation (AMap m) ptr value) = false.
Proof.
  intros Ha Hd Hm. unfold setWithPathCreation.
  pose proof (ptrSet_noParent ptr (AMap m) value) as He. rewrite Hd in *.
  destruct (ptrSet ptr (AMap m) value); [discriminate He; cbn; by rewrite Hm|]. clear He.
  destruct (newPointer_plain [a]) as (p & Hnew & Hdec); [done|by repeat constructor|].
  rewrite createParents_cons. cbn [app]. rewrite Hnew. cbv zeta.
  pose proof (ptrGet_absent p (AMap m)) as Hg. rewrite Hdec in Hg.
  destruct (ptrGet p (AMap m)); [discriminate Hg; cbn; by rewrite Hm|]. clear Hg.
  change (isNumericString "0") with true. cbn iota.
  rewrite (ptrSet_assign p (AMap m) (AList []) (AMap (<[a := AList []]> m))); [|by rewrite Hdec|by rewrite Hdec].
  cbn [wrap mbind result_bind createParents].
  apply ptrSet_noParent. rewrite Hd. cbn [noParent lacks child]. rewrite lookup_insert_eq. apply orb_true_r.
Qed.
End correct.

(** ** A package that satisfies the laws *)

(** The tokens of a pointer; [acc] is the current one, reversed. *)
Fixpoint tokensOf (acc l : list ascii) : list string :=
  match l with
  | [] => [of_chars (reverse acc)]
  | "/"%char :: l => of_chars (reverse acc) :: tokensOf [] l
  | "~"%char :: "0"%char :: l => tokensOf ("~"%char :: acc) l
  | "~"%char :: "1"%char :: l => tokensOf ("/"%char :: acc) l
  | c :: l => tokensOf (c :: acc) l
  end.

#[export] Instance token_pointer : JSONPointer := {|
  Pointer := list string;
  zeroPointer := [];
  newPointer s :=
    match chars s with
    | [] => Ok []
    | "/"%char :: l => Ok (tokensOf [] l)
    | _ => Err (New "JSON pointer must be empty or start with a slash")
    end;
  DecodedTokens p := p;
  ptrGet p d := match lookupAt p d with Some v => Ok v | None => Err (New "no such node") end;
  ptrSet p d x := match assignAt p x d with Some v => Ok v | None => Err (New "no such node") end;
|}.

Definition escapeChar (c : ascii) : list ascii :=
  if Ascii.eqb c "~"%char then chars "~0" else if Ascii.eqb c "/"%char then chars "~1" else [c].

Lemma tokensOf_escape t acc rest :
  tokensOf acc (flat_map escapeChar t ++ rest) = tokensOf (reverse t ++ acc) rest.
Proof.
  revert acc. induction t as [|c t IH]; intros acc; [done|]. cbn [flat_map]. rewrite <- (assoc_L app).
  rewrite reverse_cons, <- (assoc_L app). cbn [app]. rewrite <- IH. unfold escapeChar.
  destruct (Ascii.eqb_spec c "~"%char) as [->|Hc]; [done|].
  destruct (Ascii.eqb_spec c "/"%char) as [->|Hc']; [done|].
  cbn [app tokensOf]. by destruct c as [[] [] [] [] [] [] [] []].
Qed.

Lemma tokensOf_pointer tokens : tokens ≠ [] →
  tokensOf [] (chars (joinWith "/" (escapeToken <$> tokens))) = tokens.
Proof.
  induction tokens as [|t tokens IH]; intros Hne; [done|]. destruct tokens as [|t' tokens].
  - cbn [fmap list_fmap joinWith]. unfold escapeToken. rewrite chars_of_chars, <- (app_nil_r (flat_map _ _)).
    change (flat_map _ _) with (flat_map escapeChar (chars t)).
    rewrite tokensOf_escape. cbn [tokensOf]. by rewrite app_nil_r, reverse_involutive, of_chars_chars.
  - change (joinWith "/" (escapeToken <$> t :: t' :: tokens))
      with (escapeToken t +:+ "/" +:+ joinWith "/" (escapeToken <$> t' :: tokens))%string.
    rewrite !chars_app. unfold escapeToken at 1. rewrite chars_of_chars.
    change (flat_map _ _) with (flat_map escapeChar (chars t)).
    rewrite tokensOf_escape. cbn [chars app tokensOf]. rewrite IH by done.
    by rewrite app_nil_r, reverse_involutive, of_chars_chars.
Qed.

Lemma absent_lookupAt tokens d : absent tokens d = true → lookupAt tokens d = None.
Proof.
  revert d. induction tokens as [|t tokens IH]; intros d; [done|]. cbn [absent lookupAt].
  intros [Hl|Hc]%orb_true_iff.
  - assert (child t d = None) as ->; [|done].
    destruct d as [| | | | | |l|m| | |]; cbn [lacks child] in *; try done; [|by apply bool_decide_eq_true in Hl].
    destruct (elementIndex t) as [n|]; [|done]. cbn. by apply lookup_ge_None, Nat.leb_le.
  - destruct (child t d) as [c|]; [|done]. cbn. by apply IH.
Qed.

Lemma noParent_assignAt tokens x d : noParent tokens d = true → assignAt tokens x d = None.
Proof.
  revert d. induction tokens as [|t tokens IH]; intros d; [done|]. destruct tokens as [|t' tokens].
  - destruct d as [| | | | | |l|m| | |]; cbn [noParent lacks assignAt withChild]; try done.
    destruct (elementIndex t) as [n|]; [|done]. intros Hl%Nat.leb_le. cbn [mbind option_bind].
    by destruct (Nat.ltb_spec n (length l)); [lia|].
  - rewrite assignAt_cons by done. intros [Hl|Hc]%orb_true_iff.
    + assert (absent [t] d = true) as Ha%absent_lookupAt by (cbn; by rewrite Hl).
      cbn in Ha. by destruct (child t d).
    + destruct (child t d) as [c|]; [|done]. cbn [mbind option_bind]. by rewrite IH.
Qed.

#[export] Instance token_pointer_laws : JSONPointerLaws.
Proof.
  split.
  - intros tokens Hne. exists tokens. split; [|done]. unfold newPointer, token_pointer, pointerText.
    rewrite chars_app. cbn [chars app]. by rewrite tokensOf_pointer.
  - intros p d v Hv. cbn in *. by rewrite Hv.
  - intros p d Ha%absent_lookupAt. cbn in *. by rewrite Ha.
  - intros p d x d' _ Ha. cbn in *. by rewrite Ha.
  - intros p d x Hn%(noParent_assignAt _ x). cbn in *. by rewrite Hn.
Qed.
