(* ===== verification/Kustomize.v ===== *)
(** * Rendering the manifests

    The render half of [pkg/deploy/kustomizer.go] and the plugins of
    [pkg/deploy/plugins/]: the base manifests are loaded by kustomize, renamed,
    moved to the namespace of the instance, filled in from its spec, and given
    the pod, the autoscaler and the disruption budget that the controller built.

    Kustomize is the class [Kustomize]: a resource with its accessors, its
    reading as a map and its construction from one.  [view] is the tree of a
    resource.  The YAML and JSON coding between the two is lossless, except that
    a number forgets its Go type, which nothing here looks at. *)

From Stdlib Require Import ZArith.
From S2P Require Import Prelude Value ApiProviders ApiServer Fmt Workload Pointer NetworkPolicy.

#[local] Open Scope Z_scope.

(** ** The interface to kustomize *)

Class Kustomize := {
  Resource : Type;
  view : Resource → object;
  GetKind : Resource → string;
  GetName : Resource → string;
  GetNamespace : Resource → string;
  IsClusterScoped : Resource → bool;
  clusterScopedKind : string → string → bool;   (* of an API version and a kind *)
  SetName : string → Resource → result Resource;
  SetNamespace : string → Resource → result Resource;
  AsYAML : Resource → result object;        (* AsYAML and yaml.Unmarshal *)
  FromBytes : any → result Resource;        (* yaml.Marshal and Factory.FromBytes *)
  Append : list Resource → Resource → result (list Resource);
}.

(** A string of a tree; another type reads as [""]. *)
Definition textAt (path : list string) (d : object) : string :=
  default "" (lookupAt path (AMap d) ≫= as_string).

Definition kindOf (d : object) : string := textAt ["kind"] d.
Definition nameOf (d : object) : string := textAt ["metadata"; "name"] d.
Definition namespaceOf (d : object) : string := textAt ["metadata"; "namespace"] d.

(** Two resources that [Append] would not tell apart. *)
Definition sameID (d d' : object) : Prop :=
  textAt ["apiVersion"] d = textAt ["apiVersion"] d' ∧ kindOf d = kindOf d' ∧
  nameOf d = nameOf d' ∧ namespaceOf d = namespaceOf d'.

Class KustomizeLaws `{Kustomize} : Prop := {
  GetKind_view : ∀ r, GetKind r = kindOf (view r);
  GetName_view : ∀ r, GetName r = nameOf (view r);
  GetNamespace_view : ∀ r, GetNamespace r = namespaceOf (view r);
  IsClusterScoped_view : ∀ r, IsClusterScoped r = clusterScopedKind (textAt ["apiVersion"] (view r)) (kindOf (view r));
  SetName_view : ∀ n r r', SetName n r = Ok r' →
    putPath ["metadata"; "name"] (AString n) (AMap (view r)) = Some (AMap (view r'));
  SetNamespace_view : ∀ n r r', SetNamespace n r = Ok r' →
    putPath ["metadata"; "namespace"] (AString n) (AMap (view r)) = Some (AMap (view r'));
  AsYAML_view : ∀ r d, AsYAML r = Ok d → d = view r;
  FromBytes_view : ∀ v r, FromBytes v = Ok r → v = AMap (view r);
  Append_spec : ∀ l r l', Append l r = Ok l' → l' = l ++ [r];
  Append_fresh : ∀ l r, (∀ r', r' ∈ l → ¬ sameID (view r') (view r)) → is_ok (Append l r) = true;
}.

(** ** [plugins.go] and [name_prefix.go] *)

Record NamePrefixConfig := {
  Prefix : string;
  IncludeKinds : list string;
  ExcludeKinds : list string;
}.

Definition contains (l : list string) (s : string) : bool := bool_decide (s ∈ l).

Definition shouldApplyToKind (kind : string) (includeKinds excludeKinds : list string) : bool :=
  if (0 <? length excludeKinds)%nat && contains excludeKinds kind then false
  else if (length includeKinds =? 0)%nat then true
  else contains includeKinds kind.

Definition makePrefixedName (prefix name : string) : string := (prefix +:+ "-" +:+ name)%string.

Definition deploymentKind : string := "Deployment".
Definition serviceKind : string := "Service".

Section plugins.
Context `{KU : Kustomize, JP : JSONPointer}.
Context (IsDNS1123Label : string → list string).

Definition ValidateK8sLabelName (name : string) : result unit :=
  match IsDNS1123Label name with
  | [] => Ok tt
  | errs => Err (Errorf "failed to validate name %q: %s" [name; joinWith ", " errs])
  end.

Definition prefixName (config : NamePrefixConfig) (res : Resource) : result Resource :=
  if String.prefix (Prefix config +:+ "-") (GetName res) then Ok res
  else if negb (shouldApplyToKind (GetKind res) (IncludeKinds config) (ExcludeKinds config)) then Ok res
  else
    let prefixedName := makePrefixedName (Prefix config) (GetName res) in
    _ ← wrap "failed to make valid prefixed name: %w" [] (ValidateK8sLabelName prefixedName);
    wrap "failed to set resource name: %w" [] (SetName prefixedName res).

(** [namePrefixTransformer.Transform] *)
Definition prefixNames (config : NamePrefixConfig) (m : list Resource) : result (list Resource) :=
  mapM_result (prefixName config) m.

(** ** [namespace.go] *)

Definition CreateNamespacePlugin (namespace : string) : result string :=
  if bool_decide (namespace = "") then Err (New "failed to set namespace: namespace cannot be empty")
  else
    _ ← wrap "failed to set namespace: invalid namespace provided: %w" [] (ValidateK8sLabelName namespace);
    Ok namespace.

(** [namespacePlugin.Transform] *)
Definition setNamespaces (namespace : string) (m : list Resource) : result (list Resource) :=
  mapM_result (λ res,
    if IsClusterScoped res then Ok res
    else wrap "failed to set namespace for resource %s/%s: %w" [GetKind res; GetName res]
           (SetNamespace namespace res)) m.

(** ** [field_mutator.go] *)

Record FieldMapping := {
  SourceValue : any;
  DefaultValue : any;
  TargetField : string;
  TargetKind : string;
  CreateIfNotExists : bool;
}.

Definition isEmpty (v : any) : bool :=
  match v with
  | ANil => true
  | AString s => bool_decide (s = "")
  | AMap m => (size m =? 0)%nat
  | AList l => (length l =? 0)%nat
  | _ => false
  end.

Definition updateResource (res : Resource) (updatedData : any) : result Resource :=
  wrap "failed to create resource from updated YAML: %w" [] (FromBytes updatedData).

Definition setTargetField (res : Resource) (value : any) (mapping : FieldMapping) : result Resource :=
  data ← wrap "failed to get YAML: %w" [] (AsYAML res);
  ptr ← wrap "failed to parse JSON Pointer path %q: %w" [TargetField mapping] (newPointer (TargetField mapping));
  updatedData ← wrap "failed to set field at path %q: %w" [TargetField mapping]
    (if CreateIfNotExists mapping then setWithPathCreation (AMap data) ptr value else ptrSet ptr (AMap data) value);
  updateResource res updatedData.

(** One mapping of [fieldMutator.Transform]. *)
Definition applyMapping (m : list Resource) (mapping : FieldMapping) : result (list Resource) :=
  let value := if isEmpty (SourceValue mapping) then DefaultValue mapping else SourceValue mapping in
  if isEmpty value then Ok m
  else
    mapM_result (λ res,
      if negb (bool_decide (GetKind res = TargetKind mapping)) then Ok res
      else wrap "failed to set target field for mapping %s: %w" [TargetField mapping]
             (setTargetField res value mapping)) m.

(** [fieldMutator.Transform] *)
Definition mutateFields (mappings : list FieldMapping) (m : list Resource) : result (list Resource) :=
  foldM_result applyMapping mappings m.

(** ** [service_transformer.go] *)

Record ServiceTransformerConfig := { ST_MetricsPort : Z; ST_ServicePort : Z }.

Definition metricsServicePort (port : Z) : any :=
  AMap (<["name" := AString "metrics"]> (<["protocol" := AString "TCP"]>
          (<["port" := AInt32 port]> {["targetPort" := AInt32 port]}))).

Definition addMetricsPort (config : ServiceTransformerConfig) (res : Resource) : result Resource :=
  data ← wrap "failed to get Service YAML: %w" [] (AsYAML res);
  match as_object (index data "spec") with
  | None => Ok res
  | Some spec =>
      match as_list (index spec "ports") with
      | None => Ok res
      | Some ports =>
          let spec := <["ports" := AList (ports ++ [metricsServicePort (ST_MetricsPort config)])]> spec in
          wrap "failed to update Service resource: %w" []
            (updateResource res (AMap (<["spec" := AMap spec]> data)))
      end
  end.

(** [serviceTransformer.Transform] *)
Definition transformServices (config : ServiceTransformerConfig) (m : list Resource) : result (list Resource) :=
  if (ST_MetricsPort config =? 0) || (ST_MetricsPort config =? ST_ServicePort config) then Ok m
  else
    mapM_result (λ res,
      if negb (bool_decide (GetKind res = serviceKind)) then Ok res else addMetricsPort config res) m.

(** ** The field mappings of an instance *)

Section mappings.
Context (QuantityString : string → string).

Definition DefaultStorageSize : string := "10Gi".

Definition getStorageSize (instance : OGXServer) : string :=
  match workload instance ≫= WL_Storage with
  | Some s => match PVC_Size s with Some q => QuantityString q | None => "" end
  | None => ""
  end.

Definition getServicePort (instance : OGXServer) : any :=
  match Spec_Network (Server_Spec instance) with
  | Some n => if negb (Net_Port n =? 0) then AInt32 (Net_Port n) else ANil
  | None => ANil
  end.

Definition isAutoscalingEnabled (instance : OGXServer) : bool :=
  match workload instance ≫= WL_Autoscaling with
  | Some a => 0 <? AS_MaxReplicas a
  | None => false
  end.

(** Every mapping creates its field. *)
Definition mapping (source default : any) (field kind : string) : FieldMapping :=
  {| SourceValue := source; DefaultValue := default; TargetField := field; TargetKind := kind;
     CreateIfNotExists := true |}.

Definition buildFieldMappings (instanceName instanceNamespace serviceAccountName : string)
    (servicePort : any) (storageSize instanceLabelPath : string) (replicas : Z) : list FieldMapping :=
  [mapping (AString storageSize) (AString (QuantityString DefaultStorageSize))
     "/spec/resources/requests/storage" "PersistentVolumeClaim";
   mapping servicePort (AInt32 DefaultServerPort) "/spec/ports/0/port" "Service";
   mapping servicePort (AInt32 DefaultServerPort) "/spec/ports/0/targetPort" "Service";
   mapping (AString instanceName) ANil ("/spec/selector" +:+ instanceLabelPath) "Service";
   mapping (AString instanceName) ANil "/metadata/name" "Deployment";
   mapping (AInt32 replicas) ANil "/spec/replicas" "Deployment";
   mapping (AString serviceAccountName) ANil "/spec/template/spec/serviceAccountName" "Deployment";
   mapping (AString instanceName) ANil ("/spec/selector/matchLabels" +:+ instanceLabelPath) "Deployment";
   mapping (AString instanceName) ANil ("/spec/template/metadata/labels" +:+ instanceLabelPath) "Deployment";
   mapping (AString serviceAccountName) ANil "/subjects/0/name" "RoleBinding";
   mapping (AString instanceNamespace) ANil "/subjects/0/namespace" "RoleBinding";
   mapping (AString instanceName) ANil ("/spec/selector/matchLabels" +:+ instanceLabelPath) "PodDisruptionBudget";
   mapping (AString instanceName) ANil "/spec/scaleTargetRef/name" "HorizontalPodAutoscaler"].

Definition getFieldMappings (ownerInstance : OGXServer) : list FieldMapping :=
  let instanceName := Server_Name ownerInstance in
  let mappings :=
    buildFieldMappings instanceName (Meta_Namespace (Server_Meta ownerInstance)) (instanceName +:+ "-sa")
      (getServicePort ownerInstance) (getStorageSize ownerInstance) "/app.kubernetes.io~1instance"
      (GetEffectiveReplicas ownerInstance) in
  match workload ownerInstance ≫= WL_Storage with
  | Some _ => mappings ++ [mapping (AString "Recreate") ANil "/spec/strategy/type" "Deployment"]
  | None => mappings
  end.

(** ** [applyPlugins] *)

Definition updateResourceFromData (res : Resource) (data : object) : result Resource :=
  wrap "failed to create resource from updated YAML: %w" [] (FromBytes (AMap data)).

Definition parseResourceYAML (res : Resource) : result object := wrap "failed to get YAML: %w" [] (AsYAML res).

Definition removeReplicas (res : Resource) : result Resource :=
  if negb (bool_decide (GetKind res = deploymentKind)) then Ok res
  else
    data ← parseResourceYAML res;
    match as_object (index data "spec") with
    | None => Ok res
    | Some spec =>
        match spec !! "replicas" with
        | None => Ok res
        | Some _ => updateResourceFromData res (<["spec" := AMap (delete "replicas" spec)]> data)
        end
    end.

Definition removeDeploymentReplicas (m : list Resource) : result (list Resource) := mapM_result removeReplicas m.

Definition applyNetworkPolicyTransformer (m : list Resource) (ownerInstance : OGXServer)
    (praxisPeer : option NetworkPolicyPeer) (praxisMode : bool) (operatorNS : result string) : result (list Resource) :=
  Transform (transformerConfig ownerInstance praxisPeer praxisMode operatorNS)
    GetKind AsYAML (λ res data, updateResource res (AMap data)) m.

Definition applyServiceTransformer (m : list Resource) (ownerInstance : OGXServer) : result (list Resource) :=
  transformServices {| ST_MetricsPort := NetworkPolicy.getEffectiveMetricsPort ownerInstance;
                       ST_ServicePort := GetServicePort ownerInstance |} m.

(** [operatorNS] is the result of [GetOperatorNamespace]. *)
Definition applyPlugins (m : list Resource) (ownerInstance : OGXServer)
    (praxisPeer : option NetworkPolicyPeer) (praxisMode : bool) (operatorNS : result string) : result (list Resource) :=
  m ← wrap "failed to apply name prefix: %w" []
    (prefixNames {| Prefix := Server_Name ownerInstance; IncludeKinds := []; ExcludeKinds := [deploymentKind] |} m);
  namespace ← CreateNamespacePlugin (Meta_Namespace (Server_Meta ownerInstance));
  m ← wrap "failed to apply namespace setter plugin: %w" [] (setNamespaces namespace m);
  m ← wrap "failed to apply field transformer: %w" [] (mutateFields (getFieldMappings ownerInstance) m);
  m ← wrap "failed to apply NetworkPolicy transformer: %w" []
    (applyNetworkPolicyTransformer m ownerInstance praxisPeer praxisMode operatorNS);
  m ← wrap "failed to apply Service transformer: %w" [] (applyServiceTransformer m ownerInstance);
  if isAutoscalingEnabled ownerInstance
  then wrap "failed to strip replicas for autoscaling: %w" [] (removeDeploymentReplicas m)
  else Ok m.

(** ** [RenderManifestWithContext] *)

Record ManifestContext := {
  MC_ResolvedImage : string;
  MC_ConfigMapHash : string;
  MC_CABundleHash : string;
  MC_SecretHash : string;
  MC_ContainerSpec : option object;
  MC_PodSpec : option object;
  MC_PodDisruptionBudgetSpec : option PodDisruptionBudgetSpec;
  MC_HPASpec : option HPASpec;
  MC_PraxisPeer : option NetworkPolicyPeer;
  MC_PraxisMode : bool;
}.

Definition praxisPeerFromContext (ctx : option ManifestContext) : option NetworkPolicyPeer :=
  match ctx with Some c => MC_PraxisPeer c | None => None end.

Definition praxisModeFromContext (ctx : option ManifestContext) : bool :=
  match ctx with Some c => MC_PraxisMode c | None => true end.

Definition getDeploymentTemplateSpec (data : object) : result object :=
  match as_object (index data "spec") with
  | None => Err (New "failed to find deployment spec")
  | Some spec =>
      match as_object (index spec "template") with
      | None => Err (New "failed to find deployment template")
      | Some template =>
          match as_object (index template "spec") with
          | None => Err (New "failed to find deployment template spec")
          | Some templateSpec => Ok templateSpec
          end
      end
  end.

(** The template of the Deployment is a map inside [data]; changing it changes [data]. *)
Definition updateTemplate (f : object → object) (data : object) : object :=
  let spec := default ∅ (as_object (index data "spec")) in
  let template := default ∅ (as_object (index spec "template")) in
  <["spec" := AMap (<["template" := AMap (f template)]> spec)]> data.

(** [templateSpec[key] = podSpec[key]] for the sorted keys. *)
Definition enhanceTemplateSpec (podSpec templateSpec : object) : object :=
  foldl (λ spec key, <[key := index podSpec key]> spec) templateSpec (sort_strings (elements (dom podSpec))).

Definition addConfigMapAnnotations (data : object) (ctx : ManifestContext) : result object :=
  match as_object (index data "spec") with
  | None => Err (New "failed to find deployment spec in data")
  | Some spec =>
      match as_object (index spec "template") with
      | None => Err (New "failed to find deployment template in spec")
      | Some template =>
          let templateMeta := default ∅ (as_object (index template "metadata")) in
          let annotations := default ∅ (as_object (index templateMeta "annotations"))
            |> set_nonempty "configmap.hash/user-config" (MC_ConfigMapHash ctx)
            |> set_nonempty "configmap.hash/ca-bundle" (MC_CABundleHash ctx)
            |> set_nonempty "secret.hash/referenced" (MC_SecretHash ctx) in
          Ok (updateTemplate (λ template,
                <["metadata" := AMap (<["annotations" := AMap annotations]> templateMeta)]> template) data)
      end
  end.

Definition updateDeploymentSpec (res : Resource) (ctx : ManifestContext) : result Resource :=
  data ← parseResourceYAML res;
  templateSpec ← getDeploymentTemplateSpec data;
  let data :=
    match MC_PodSpec ctx with
    | Some podSpec =>
        updateTemplate (λ template, <["spec" := AMap (enhanceTemplateSpec podSpec templateSpec)]> template) data
    | None => data
    end in
  data ← addConfigMapAnnotations data ctx;
  updateResourceFromData res data.

(** An [IntOrString] is a number or a text. *)
Definition intOrStringToInterface (value : option any) : any := default ANil value.

Definition setOrDelete (key : string) (value : option any) (spec : object) : object :=
  match value with Some _ => <[key := intOrStringToInterface value]> spec | None => delete key spec end.

Definition updatePodDisruptionBudget (res : Resource) (ctx : ManifestContext) : result Resource :=
  match MC_PodDisruptionBudgetSpec ctx with
  | None => Ok res
  | Some pdb =>
      data ← parseResourceYAML res;
      match as_object (index data "spec") with
      | None => Err (New "failed to find PDB spec in data")
      | Some spec =>
          let spec := spec |> setOrDelete "minAvailable" (PDB_MinAvailable pdb)
                           |> setOrDelete "maxUnavailable" (PDB_MaxUnavailable pdb) in
          updateResourceFromData res (<["spec" := AMap spec]> data)
      end
  end.

Section render.
(** The files, kustomize itself, and the converter of typed objects to maps. *)
Context (Exists : string → bool) (Run : string → result (list Resource)).
Context (HPAToUnstructured : HPASpec → result object).

Definition updateHorizontalPodAutoscaler (res : Resource) (ctx : ManifestContext) : result Resource :=
  match MC_HPASpec ctx with
  | None => Ok res
  | Some spec =>
      specMap ← wrap "failed to convert HPA spec: %w" [] (HPAToUnstructured spec);
      data ← parseResourceYAML res;
      updateResourceFromData res (<["spec" := AMap specMap]> data)
  end.

(** [filepath.Join] of a clean path and a name. *)
Definition joinPath (dir name : string) : string := (dir +:+ "/" +:+ name)%string.

Definition RenderManifest (manifestPath : string) (ownerInstance : OGXServer)
    (praxisPeer : option NetworkPolicyPeer) (praxisMode : bool) (operatorNS : result string) : result (list Resource) :=
  let finalManifestPath :=
    if negb (Exists (joinPath manifestPath "kustomization.yaml")) then joinPath manifestPath "default"
    else manifestPath in
  resMap ← wrap "failed to run kustomize: %w" [] (Run finalManifestPath);
  applyPlugins resMap ownerInstance praxisPeer praxisMode operatorNS.

Definition enhance (ctx : ManifestContext) (res : Resource) : result Resource :=
  if bool_decide (GetKind res = deploymentKind) then
    wrap "failed to update Deployment: %w" [] (updateDeploymentSpec res ctx)
  else if bool_decide (GetKind res = "PodDisruptionBudget") then
    wrap "failed to update PodDisruptionBudget: %w" [] (updatePodDisruptionBudget res ctx)
  else if bool_decide (GetKind res = "HorizontalPodAutoscaler") then
    wrap "failed to update HorizontalPodAutoscaler: %w" [] (updateHorizontalPodAutoscaler res ctx)
  else Ok res.

Definition RenderManifestWithContext (manifestsPath : string) (ownerInstance : OGXServer)
    (ctx : option ManifestContext) (operatorNS : result string) : result (list Resource) :=
  resMap ← wrap "failed to render base manifests: %w" []
    (RenderManifest manifestsPath ownerInstance (praxisPeerFromContext ctx) (praxisModeFromContext ctx) operatorNS);
  match ctx with
  | None => Ok resMap
  | Some ctx => mapM_result (enhance ctx) resMap
  end.
End render.
End mappings.

Definition FilterExcludeKinds (resMap : list Resource) (kindsToExclude : list string) : result (list Resource) :=
  foldM_result (λ filtered res,
    if negb (contains kindsToExclude (GetKind res)) then
      wrap "failed to append resource while filtering %s/%s: %w" [GetKind res; GetName res] (Append filtered res)
    else Ok filtered) resMap [].
End plugins.
