(* ===== verification/KustomizeFacts.v ===== *)
(** * What the rendering produces

    Every step of the rendering acts on one resource at a time, and [renderView]
    is what it does to the tree of a resource; [render_refines] says that the
    plugins, which loop over all the resources for every field, do the same.
    Theorems about the manifests are then theorems about [renderView]. *)

From Stdlib Require Import Ascii ZArith.
From S2P Require Import Prelude Value ApiProviders ApiServer Hash Fmt Workload Pointer NetworkPolicy Kustomize.

#[local] Open Scope Z_scope.

(** ** Paths that do not meet *)

(** [p] names a node outside what an assignment at [q] changes.  A token of [p]
    that differs must not be another way to write the same index. *)
Fixpoint diverges (p q : list string) : bool :=
  match p, q with
  | a :: p, b :: q => if bool_decide (a = b) then diverges p q else bool_decide (elementIndex a = None)
  | _, _ => false
  end.

Lemma child_withChild_ne t t' c v v' :
  t' ≠ t → elementIndex t' = None → withChild t c v = Some v' → child t' v' = child t' v.
Proof.
  intros Hne Hi. destruct v as [| | | | | |l|m| | |]; cbn [withChild]; try done.
  - intros (n & _ & Hv)%bind_Some. destruct (n <? length l)%nat; [|done]. injection Hv as <-. cbn. by rewrite Hi.
  - intros [= <-]. cbn. by apply lookup_insert_ne.
Qed.

Lemma lookupAt_nest_diverges p q x : diverges p q = true → lookupAt p (nest q x) = None.
Proof.
  revert q. induction p as [|a p IH]; intros [|b q]; cbn [diverges lookupAt nest child]; try done.
  case_bool_decide as Hab.
  - subst b. rewrite lookup_singleton_eq. cbn. apply IH.
  - intros _. by rewrite lookup_singleton_ne.
Qed.

Lemma lookupAt_nil p a : lookupAt (a :: p) ANil = None.
Proof. done. Qed.

Lemma lookupAt_putPath_ne p q x v v' :
  diverges p q = true → putPath q x v = Some v' → lookupAt p v' = lookupAt p v.
Proof.
  revert q v v'. induction p as [|a p IH]; intros [|b q] v v' Hd Hput; try done. cbn [diverges] in Hd.
  assert (∀ c c', withChild b c v = Some c' → a ≠ b → child a c' = child a v) as Hne.
  { intros c c' Hw Hab. case_bool_decide; [done|]. apply bool_decide_eq_true in Hd. by eapply child_withChild_ne. }
  destruct (decide (a = b)) as [->|Hab].
  - rewrite bool_decide_eq_true_2 in Hd by done. cbn [putPath] in Hput. destruct q as [|t q]; [by destruct p|].
    destruct p as [|a p]; [done|]. cbn [lookupAt]. destruct (isNil (default ANil (child b v))) eqn:Hnil.
    + destruct (existsb _ _); [done|]. rewrite (child_withChild _ _ _ _ Hput). cbn [mbind option_bind].
      change (c ← child a (nest (t :: q) x); lookupAt p c) with (lookupAt (a :: p) (nest (t :: q) x)).
      rewrite lookupAt_nest_diverges by done. destruct (child b v) as [c|]; [|done]. by destruct c.
    + apply bind_Some in Hput as (c' & Hc & Hw). rewrite (child_withChild _ _ _ _ Hw). cbn [mbind option_bind].
      destruct (child b v) as [c|]; [|done]. cbn [default from_option id] in Hc. exact (IH _ _ _ Hd Hc).
  - cbn [lookupAt]. assert (∃ c, withChild b c v = Some v') as [c Hw].
    { cbn [putPath] in Hput. destruct q as [|t q]; [eauto|]. destruct (isNil _).
      - destruct (existsb _ _); [done|eauto].
      - apply bind_Some in Hput as (c & _ & ?); eauto. }
    by rewrite (Hne _ _ Hw Hab).
Qed.

Lemma lookupAt_nest q x : lookupAt q (nest q x) = Some x.
Proof. induction q as [|t q IH]; [done|]. cbn. by rewrite lookup_singleton_eq. Qed.

Lemma lookupAt_putPath q x v v' : putPath q x v = Some v' → lookupAt q v' = Some x.
Proof.
  revert v v'. induction q as [|t q IH]; intros v v'; [by intros [= ->]|]. cbn [putPath lookupAt].
  destruct q as [|t' q]; [intros Hw; by rewrite (child_withChild _ _ _ _ Hw)|].
  destruct (isNil _).
  - destruct (existsb _ _); [done|]. intros Hw. rewrite (child_withChild _ _ _ _ Hw). apply lookupAt_nest.
  - intros (c & Hc & Hw)%bind_Some. rewrite (child_withChild _ _ _ _ Hw). by apply (IH _ _ Hc).
Qed.

(** Setting below the root of a map gives a map. *)
Definition putIn (q : list string) (x : any) (d : object) : option object := putPath q x (AMap d) ≫= as_object.

Lemma putIn_Some q x d d' : putIn q x d = Some d' ↔ putPath q x (AMap d) = Some (AMap d').
Proof.
  unfold putIn. rewrite bind_Some. split.
  - intros (v & Hv & Hd). destruct v; try done. by injection Hd as <-.
  - intros Hv. by eexists.
Qed.

Lemma textAt_putIn q x d d' : putIn q (AString x) d = Some d' → textAt q d' = x.
Proof. intros Hp%putIn_Some. unfold textAt. by rewrite (lookupAt_putPath _ _ _ _ Hp). Qed.

Lemma textAt_putIn_ne p q x d d' : diverges p q = true → putIn q x d = Some d' → textAt p d' = textAt p d.
Proof. intros Hd Hp%putIn_Some. unfold textAt. by rewrite (lookupAt_putPath_ne _ _ _ _ _ Hd Hp). Qed.

Lemma textAt_insert_ne k x d t p : k ≠ t → textAt (t :: p) (<[k := x]> d) = textAt (t :: p) d.
Proof. intros Hne. unfold textAt. cbn [lookupAt child]. by rewrite lookup_insert_ne. Qed.

(** ** The rendering of one tree *)

Section view.
Context `{KU : Kustomize}.
Context (QuantityString : string → string).

(** The tokens of a pointer text. *)
Definition pointerTokens (s : string) : list string :=
  match chars s with "/"%char :: l => tokensOf [] l | _ => [] end.

Definition prefixView (config : NamePrefixConfig) (d : object) : option object :=
  if String.prefix (Prefix config +:+ "-") (nameOf d) ||
     negb (shouldApplyToKind (kindOf d) (IncludeKinds config) (ExcludeKinds config)) then Some d
  else putIn ["metadata"; "name"] (AString (makePrefixedName (Prefix config) (nameOf d))) d.

Definition namespaceView (namespace : string) (d : object) : option object :=
  if clusterScopedKind (textAt ["apiVersion"] d) (kindOf d) then Some d
  else putIn ["metadata"; "namespace"] (AString namespace) d.

Definition mappingView (d : object) (m : FieldMapping) : option object :=
  let value := if isEmpty (SourceValue m) then DefaultValue m else SourceValue m in
  if negb (bool_decide (kindOf d = TargetKind m)) || isEmpty value then Some d
  else putIn (pointerTokens (TargetField m)) value d.

Fixpoint mappingsView (l : list FieldMapping) (d : object) : option object :=
  match l with [] => Some d | m :: l => d ← mappingView d m; mappingsView l d end.

Definition policyView (config : NetworkPolicyTransformerConfig) (d : object) : option object :=
  if negb (bool_decide (kindOf d = networkPolicyKind)) then Some d
  else match transformData config d with Ok d => Some d | Err _ => None end.

Definition serviceView (config : ServiceTransformerConfig) (d : object) : option object :=
  if negb (bool_decide (kindOf d = serviceKind)) then Some d
  else if (ST_MetricsPort config =? 0) || (ST_MetricsPort config =? ST_ServicePort config) then Some d
  else
    match as_object (index d "spec") with
    | Some spec =>
        match as_list (index spec "ports") with
        | Some ports =>
            Some (<["spec" := AMap (<["ports" := AList (ports ++ [metricsServicePort (ST_MetricsPort config)])]> spec)]> d)
        | None => Some d
        end
    | None => Some d
    end.

Definition replicasView (d : object) : option object :=
  if negb (bool_decide (kindOf d = deploymentKind)) then Some d
  else
    match as_object (index d "spec") with
    | Some spec =>
        match spec !! "replicas" with
        | Some _ => Some (<["spec" := AMap (delete "replicas" spec)]> d)
        | None => Some d
        end
    | None => Some d
    end.

Definition pluginsView (instance : OGXServer) (praxisPeer : option NetworkPolicyPeer) (praxisMode : bool)
    (operatorNS : result string) (d : object) : option object :=
  d ← prefixView {| Prefix := Server_Name instance; IncludeKinds := []; ExcludeKinds := [deploymentKind] |} d;
  d ← namespaceView (Meta_Namespace (Server_Meta instance)) d;
  d ← mappingsView (getFieldMappings QuantityString instance) d;
  d ← policyView (transformerConfig instance praxisPeer praxisMode operatorNS) d;
  d ← serviceView {| ST_MetricsPort := NetworkPolicy.getEffectiveMetricsPort instance;
                     ST_ServicePort := GetServicePort instance |} d;
  if isAutoscalingEnabled instance then replicasView d else Some d.

Definition toOption {A} (r : result A) : option A := match r with Ok a => Some a | Err _ => None end.

Context (HPAToUnstructured : HPASpec → result object).

Definition deploymentView (ctx : ManifestContext) (d : object) : option object :=
  templateSpec ← toOption (getDeploymentTemplateSpec d);
  let d :=
    match MC_PodSpec ctx with
    | Some podSpec =>
        updateTemplate (λ template, <["spec" := AMap (enhanceTemplateSpec podSpec templateSpec)]> template) d
    | None => d
    end in
  toOption (addConfigMapAnnotations d ctx).

Definition budgetView (ctx : ManifestContext) (d : object) : option object :=
  match MC_PodDisruptionBudgetSpec ctx with
  | None => Some d
  | Some pdb =>
      spec ← as_object (index d "spec");
      Some (<["spec" := AMap (spec |> setOrDelete "minAvailable" (PDB_MinAvailable pdb)
                                   |> setOrDelete "maxUnavailable" (PDB_MaxUnavailable pdb))]> d)
  end.

Definition autoscalerView (ctx : ManifestContext) (d : object) : option object :=
  match MC_HPASpec ctx with
  | None => Some d
  | Some spec => specMap ← toOption (HPAToUnstructured spec); Some (<["spec" := AMap specMap]> d)
  end.

Definition enhanceView (ctx : ManifestContext) (d : object) : option object :=
  if bool_decide (kindOf d = deploymentKind) then deploymentView ctx d
  else if bool_decide (kindOf d = "PodDisruptionBudget") then budgetView ctx d
  else if bool_decide (kindOf d = "HorizontalPodAutoscaler") then autoscalerView ctx d
  else Some d.

(** The manifest of an instance, from a base manifest. *)
Definition renderView (instance : OGXServer) (ctx : option ManifestContext) (operatorNS : result string)
    (d : object) : option object :=
  d ← pluginsView instance (praxisPeerFromContext ctx) (praxisModeFromContext ctx) operatorNS d;
  match ctx with Some ctx => enhanceView ctx d | None => Some d end.
End view.

(** ** The code renders the trees *)

Section refinement.
Context `{KL : KustomizeLaws, JL : JSONPointerLaws}.
Context (IsDNS1123Label : string → list string) (QuantityString : string → string).
#[local] Set Default Proof Using "Type*".

(** When the step succeeds and the tree can be rendered, the result has that tree. *)
Definition tracks (F : Resource → result Resource) (V : object → option object) : Prop :=
  ∀ r r' d, F r = Ok r' → V (view r) = Some d → view r' = d.

Lemma tracks_Ok : tracks Ok Some.
Proof using. intros r r' d [= ->] [= ->]. done. Qed.

Lemma tracks_bind F V G U : tracks F V → tracks G U → tracks (λ r, F r ≫= G) (λ d, V d ≫= U).
Proof using.
  intros HF HG r r' d HFG (d1 & HV & HU)%bind_Some. res_inv. apply (HG x r'); [done|]. by rewrite (HF r x d1).
Qed.

Lemma tracks_wrap fmt (args : Resource → list string) F V : tracks F V → tracks (λ r, wrap fmt (args r) (F r)) V.
Proof using. intros HF r r' d ?%wrap_Ok. by apply HF. Qed.

(** A successful step on the resources of a list is a step on each. *)
Lemma tracks_mapM F V m m' :
  tracks F V → mapM_result F m = Ok m' →
  Forall2 (λ r r', ∀ d, V (view r) = Some d → view r' = d) m m'.
Proof using.
  intros HF Hm%mapM_result_Forall2. eapply Forall2_impl; [done|]. intros r r' Hr d Hd. by apply (HF r).
Qed.

Lemma updateResource_view r d r' : updateResource r d = Ok r' → d = AMap (view r').
Proof. intros Hr%wrap_Ok. by apply FromBytes_view. Qed.

Lemma parseResourceYAML_view r d : parseResourceYAML r = Ok d → d = view r.
Proof. intros Hr%wrap_Ok. by apply AsYAML_view. Qed.

Lemma prefix_tracks config : tracks (prefixName IsDNS1123Label config) (prefixView config).
Proof.
  intros r r' d Hr. unfold prefixName, prefixView in *. rewrite GetName_view, GetKind_view in Hr.
  destruct (String.prefix _ _); cbn [orb]; [injection Hr as <-; by intros [= ->]|].
  destruct (negb _); [injection Hr as <-; by intros [= ->]|]. res_inv. intros Hd%putIn_Some.
  apply SetName_view in H2. rewrite H2 in Hd. by injection Hd.
Qed.

Lemma namespace_tracks namespace :
  tracks (λ r, if IsClusterScoped r then Ok r
               else wrap "failed to set namespace for resource %s/%s: %w" [GetKind r; GetName r] (SetNamespace namespace r))
    (namespaceView namespace).
Proof.
  intros r r' d. unfold namespaceView. rewrite IsClusterScoped_view.
  destruct (clusterScopedKind _ _); [intros [= ->]; by intros [= ->]|].
  intros Hr%wrap_Ok%SetNamespace_view Hd%putIn_Some. rewrite Hr in Hd. by injection Hd.
Qed.

(** The mutator can parse the pointer of the mapping, and create its parents. *)
Definition wellFormed (m : FieldMapping) : Prop :=
  let tokens := pointerTokens (TargetField m) in
  CreateIfNotExists m = true ∧ tokens ≠ [] ∧ Forall plain (removelast tokens) ∧
  TargetField m = pointerText (escapeToken <$> tokens).

Definition mutate (m : FieldMapping) (r : Resource) : result Resource :=
  let value := if isEmpty (SourceValue m) then DefaultValue m else SourceValue m in
  if isEmpty value then Ok r
  else if negb (bool_decide (GetKind r = TargetKind m)) then Ok r
  else wrap "failed to set target field for mapping %s: %w" [TargetField m] (setTargetField r value m).

Lemma applyMapping_mapM m l : applyMapping l m = mapM_result (mutate m) l.
Proof using.
  unfold applyMapping, mutate. set (value := if isEmpty (SourceValue m) then _ else _).
  destruct (isEmpty value); [|done]. symmetry. induction l as [|r l IH]; [done|]. cbn. by rewrite IH.
Qed.

Lemma mutate_tracks m : wellFormed m → tracks (mutate m) (λ d, mappingView d m).
Proof.
  intros (Hcreate & Hne & Hplain & Htext) r r' d. unfold mutate, mappingView. rewrite GetKind_view.
  set (value := if isEmpty (SourceValue m) then _ else _).
  destruct (isEmpty value); [intros [= ->]; rewrite orb_true_r; by intros [= ->]|]. rewrite orb_false_r.
  destruct (negb _); [intros [= ->]; by intros [= ->]|]. intros Hr%wrap_Ok Hd%putIn_Some.
  unfold setTargetField in Hr. rewrite Hcreate in Hr.
  destruct (newPointer_spec _ Hne) as (p & Hp & Htokens). rewrite <- Htext in Hp. rewrite Hp in Hr.
  apply bind_Ok in Hr as (data & Hdata%wrap_Ok%AsYAML_view & Hr). subst data. cbn [wrap mbind result_bind] in Hr.
  apply bind_Ok in Hr as (tree & Htree%wrap_Ok & Hr%updateResource_view). subst tree.
  rewrite (setWithPathCreation_put _ _ _ (AMap d)) in Htree by by rewrite Htokens.
  by injection Htree.
Qed.

Definition renders (V : object → option object) (r r' : Resource) : Prop := ∀ d, V (view r) = Some d → view r' = d.

Lemma renders_refl m : Forall2 (renders Some) m m.
Proof using. induction m; constructor; [by intros d [= ->]|done]. Qed.

Lemma renders_trans V U l k k' :
  Forall2 (renders V) l k → Forall2 (renders U) k k' → Forall2 (renders (λ d, V d ≫= U)) l k'.
Proof using.
  intros Hl. revert k'. induction Hl as [|x y l k HV _ IH]; intros k' Hk; inversion_clear Hk as [|? z ? k1 HU Hk1];
    constructor; [|by apply IH].
  intros d (d1 & H1 & H2)%bind_Some. apply HU. by rewrite (HV d1).
Qed.

Lemma mutateFields_renders mappings m m' :
  Forall wellFormed mappings → mutateFields mappings m = Ok m' → Forall2 (renders (mappingsView mappings)) m m'.
Proof.
  intros Hwf. revert m. induction Hwf as [|x l Hx _ IH]; intros m.
  - intros [= ->]. apply renders_refl.
  - intros (m1 & Hm & Hl)%bind_Ok. rewrite applyMapping_mapM in Hm.
    eapply (renders_trans (λ d, mappingView d x)); [|by apply IH].
    by apply (tracks_mapM _ _ _ _ (mutate_tracks x Hx)).
Qed.

Lemma getFieldMappings_wellFormed instance : Forall wellFormed (getFieldMappings QuantityString instance).
Proof using.
  assert (∀ source default field kind, field ∈ ["/spec/resources/requests/storage"; "/spec/ports/0/port"; "/spec/ports/0/targetPort";
      "/spec/selector/app.kubernetes.io~1instance"; "/metadata/name"; "/spec/replicas"; "/spec/template/spec/serviceAccountName";
      "/spec/selector/matchLabels/app.kubernetes.io~1instance"; "/spec/template/metadata/labels/app.kubernetes.io~1instance";
      "/subjects/0/name"; "/subjects/0/namespace"; "/spec/scaleTargetRef/name"; "/spec/strategy/type"] →
      wellFormed (mapping source default field kind)) as Hm.
  { intros source default field kind Hf. unfold wellFormed, mapping. cbn [CreateIfNotExists TargetField].
    repeat (apply elem_of_cons in Hf as [->|Hf]); [..|by apply not_elem_of_nil in Hf];
      (split; [done|]; split; [done|]; split; [repeat constructor|done]). }
  unfold getFieldMappings, buildFieldMappings.
  case_match; repeat (apply Forall_cons; split); try apply Forall_nil_2; try done; apply Hm; decided.
Qed.

Lemma policy_tracks config :
  tracks (λ r, if negb (bool_decide (GetKind r = networkPolicyKind)) then Ok r
               else wrap "failed to transform NetworkPolicy: %w" []
                      (transformNetworkPolicy config AsYAML (λ r data, updateResource r (AMap data)) r))
    (policyView config).
Proof.
  intros r r' d. unfold policyView. rewrite GetKind_view. destruct (negb _); [intros [= ->]; by intros [= ->]|].
  intros Hr%wrap_Ok. apply bind_Ok in Hr as (data & Hdata%AsYAML_view & Hr). subst data.
  apply bind_Ok in Hr as (data & Hdata & Hr%updateResource_view). rewrite Hdata. injection Hr as ->. by intros [= ->].
Qed.

Lemma service_tracks config m m' :
  transformServices config m = Ok m' → Forall2 (renders (serviceView config)) m m'.
Proof.
  unfold transformServices. destruct (_ || _) eqn:Hports.
  { intros [= <-]. eapply Forall2_impl; [apply renders_refl|]. intros r r' Hr d. unfold serviceView. rewrite Hports.
    destruct (negb _); apply Hr. }
  apply tracks_mapM. intros r r' d. unfold serviceView. rewrite GetKind_view, Hports.
  destruct (negb _); [intros [= ->]; by intros [= ->]|]. unfold addMetricsPort.
  intros Hr. apply bind_Ok in Hr as (data & Hdata%wrap_Ok%AsYAML_view & Hr). subst data. revert Hr.
  destruct (as_object _) as [spec|]; [|intros [= ->]; by intros [= ->]].
  destruct (as_list _) as [ports|]; [|intros [= ->]; by intros [= ->]].
  intros Hr%wrap_Ok%updateResource_view. injection Hr as <-. by intros [= ->].
Qed.

Lemma replicas_tracks : tracks removeReplicas replicasView.
Proof.
  intros r r' d. unfold removeReplicas, replicasView. rewrite GetKind_view.
  destruct (negb _); [intros [= ->]; by intros [= ->]|].
  intros Hr. apply bind_Ok in Hr as (data & Hdata%parseResourceYAML_view & Hr). subst data. revert Hr.
  destruct (as_object _) as [spec|]; [|intros [= ->]; by intros [= ->]].
  destruct (spec !! _); [|intros [= ->]; by intros [= ->]].
  intros Hr%wrap_Ok%FromBytes_view. injection Hr as <-. by intros [= ->].
Qed.

Lemma deployment_tracks ctx : tracks (λ r, updateDeploymentSpec r ctx) (deploymentView ctx).
Proof.
  intros r r' d Hr. apply bind_Ok in Hr as (data & Hdata%parseResourceYAML_view & Hr). subst data.
  apply bind_Ok in Hr as (spec & Hspec & Hr). unfold deploymentView. rewrite Hspec. cbn [toOption mbind option_bind].
  apply bind_Ok in Hr as (data & Hdata & Hr%wrap_Ok%FromBytes_view). rewrite Hdata. injection Hr as ->. by intros [= ->].
Qed.

Lemma budget_tracks ctx : tracks (λ r, updatePodDisruptionBudget r ctx) (budgetView ctx).
Proof.
  intros r r' d. unfold updatePodDisruptionBudget, budgetView.
  destruct (MC_PodDisruptionBudgetSpec ctx) as [pdb|]; [|intros [= ->]; by intros [= ->]].
  intros Hr. apply bind_Ok in Hr as (data & Hdata%parseResourceYAML_view & Hr). subst data. revert Hr.
  destruct (as_object _) as [spec|]; [|done]. intros Hr%wrap_Ok%FromBytes_view. injection Hr as <-. by intros [= ->].
Qed.

Context (Exists : string → bool) (Run : string → result (list Resource)).
Context (HPAToUnstructured : HPASpec → result object).

Lemma enhance_tracks ctx : tracks (enhance HPAToUnstructured ctx) (enhanceView HPAToUnstructured ctx).
Proof.
  intros r r' d. unfold enhance, enhanceView. rewrite GetKind_view.
  case_bool_decide; [intros Hr%wrap_Ok; by apply deployment_tracks|].
  case_bool_decide; [intros Hr%wrap_Ok; by apply budget_tracks|].
  case_bool_decide; [|intros [= ->]; by intros [= ->]].
  unfold updateHorizontalPodAutoscaler, autoscalerView. intros Hr%wrap_Ok. revert Hr.
  destruct (MC_HPASpec ctx) as [spec|]; [|intros [= ->]; by intros [= ->]].
  intros Hr. apply bind_Ok in Hr as (m & Hm%wrap_Ok & Hr). rewrite Hm. cbn [toOption mbind option_bind].
  apply bind_Ok in Hr as (data & Hdata%parseResourceYAML_view & Hr%wrap_Ok%FromBytes_view). subst data.
  injection Hr as <-. by intros [= ->].
Qed.

Lemma applyPlugins_renders m instance peer mode ns m' :
  applyPlugins IsDNS1123Label QuantityString m instance peer mode ns = Ok m' →
  Forall2 (renders (pluginsView QuantityString instance peer mode ns)) m m'.
Proof.
  intros Hm. unfold applyPlugins in Hm.
  apply bind_Ok in Hm as (m1 & H1%wrap_Ok & Hm). apply bind_Ok in Hm as (namespace & Hns & Hm).
  apply bind_Ok in Hm as (m2 & H2%wrap_Ok & Hm). apply bind_Ok in Hm as (m3 & H3%wrap_Ok & Hm).
  apply bind_Ok in Hm as (m4 & H4%wrap_Ok & Hm). apply bind_Ok in Hm as (m5 & H5%wrap_Ok & Hm).
  assert (namespace = Meta_Namespace (Server_Meta instance)) as ->.
  { unfold CreateNamespacePlugin in Hns. case_bool_decide; [done|]. res_inv. done. }
  eapply renders_trans; [by apply (tracks_mapM _ _ _ _ (prefix_tracks _))|].
  eapply renders_trans; [by apply (tracks_mapM _ _ _ _ (namespace_tracks _))|].
  eapply renders_trans; [by apply mutateFields_renders; [apply getFieldMappings_wellFormed|]|].
  eapply renders_trans; [by apply (tracks_mapM _ _ _ _ (policy_tracks _))|].
  eapply renders_trans; [by apply service_tracks in H5|].
  destruct (isAutoscalingEnabled instance); [|injection Hm as <-; apply renders_refl].
  apply wrap_Ok in Hm. by apply (tracks_mapM _ _ _ _ replicas_tracks).
Qed.

Lemma render_refine path instance ctx operatorNS out :
  RenderManifestWithContext IsDNS1123Label QuantityString Exists Run HPAToUnstructured path instance ctx operatorNS = Ok out →
  ∃ base, (Run path = Ok base ∨ Run (joinPath path "default") = Ok base) ∧
    Forall2 (λ b r, ∀ d, renderView QuantityString HPAToUnstructured instance ctx operatorNS (view b) = Some d → view r = d)
      base out.
Proof.
  intros Hout. apply bind_Ok in Hout as (m & Hm%wrap_Ok & Hout).
  apply bind_Ok in Hm as (base & Hbase%wrap_Ok & Hm). exists base.
  split; [destruct (negb _); auto|]. apply applyPlugins_renders in Hm.
  eapply (renders_trans (pluginsView _ _ _ _ _)); [done|].
  destruct ctx as [ctx|]; [|injection Hout as <-; apply renders_refl].
  by apply (tracks_mapM _ _ _ _ (enhance_tracks ctx)).
Qed.

(** C35. The rendering refines its specification on one tree: when the manifests
    of an instance are rendered, there is one for each base manifest, in the same
    order, and each is what [renderView] makes of its base manifest, which is
    the renaming, the namespace, the fields of the spec, the ingress rules, the
    metrics port, and the pod, budget and autoscaler of the context, one after
    the other, whatever the other manifests are. *)
Theorem render_refines path instance ctx operatorNS out :
  RenderManifestWithContext IsDNS1123Label QuantityString Exists Run HPAToUnstructured path instance ctx operatorNS = Ok out →
  ∃ base, (Run path = Ok base ∨ Run (joinPath path "default") = Ok base) ∧
    Forall2 (λ b r, ∀ d, renderView QuantityString HPAToUnstructured instance ctx operatorNS (view b) = Some d → view r = d)
      base out.
Proof. apply render_refine. Qed.
End refinement.
