(* ===== verification/Manifests.v ===== *)
(** * The base manifests

    The files under [controllers/manifests/base/] as kustomize loads them: each
    resource gets the labels of [kustomization.yaml].  The theorem of this file
    says that the manifests of an instance refer to each other. *)

From Stdlib Require Import Ascii ZArith.
From S2P Require Import Prelude Value ApiProviders ApiServer Hash Fmt Workload Pointer NetworkPolicy Kustomize KustomizeFacts.

#[local] Open Scope Z_scope.

(** ** The files *)

Definition mapping_ (l : list (string * any)) : any := AMap (list_to_map l).

Definition commonLabels : list (string * any) :=
  [("app.kubernetes.io/managed-by", AString "ogx-operator"); ("app.kubernetes.io/part-of", AString "ogx");
   ("ogx.io/watch", AString "true")].

(** The labels that the fields are filled in for. *)
Definition podLabels (name : string) : any :=
  mapping_ [("app", AString "ogx"); ("app.kubernetes.io/instance", AString name)].

Definition manifest (apiVersion kind name : string) (labels rest : list (string * any)) : object :=
  list_to_map ([("apiVersion", AString apiVersion); ("kind", AString kind);
                ("metadata", mapping_ [("name", AString name); ("labels", mapping_ (labels ++ commonLabels))])] ++ rest).

Definition pvcManifest : object :=
  manifest "v1" "PersistentVolumeClaim" "pvc" []
    [("spec", mapping_ [("accessModes", AList [AString "ReadWriteOnce"]);
                        ("resources", mapping_ [("requests", mapping_ [("storage", AMap ∅)])])])].

Definition serviceAccountManifest : object := manifest "v1" "ServiceAccount" "sa" [] [].

Definition serviceManifest : object :=
  manifest "v1" "Service" "service" []
    [("spec", mapping_ [("type", AString "ClusterIP"); ("selector", podLabels "");
                        ("ports", AList [mapping_ [("name", AString "http"); ("protocol", AString "TCP")]])])].

Definition networkPolicyManifest : object :=
  manifest "networking.k8s.io/v1" "NetworkPolicy" "network-policy" []
    [("spec", mapping_ [("podSelector", mapping_ [("matchLabels", podLabels "")]);
                        ("policyTypes", AList [AString "Ingress"]); ("ingress", AList [])])].

Definition deploymentManifest : object :=
  manifest "apps/v1" "Deployment" "deployment" []
    [("spec", mapping_
       [("replicas", AInt 1); ("selector", mapping_ [("matchLabels", podLabels "")]);
        ("template", mapping_
          [("metadata", mapping_ [("labels", podLabels ""); ("annotations", AMap ∅)]);
           ("spec", mapping_ [("serviceAccountName", AString "sa"); ("containers", AList []); ("volumes", AList [])])])])].

Definition hpaManifest : object :=
  manifest "autoscaling/v2" "HorizontalPodAutoscaler" "hpa"
    [("app", AString "ogx"); ("app.kubernetes.io/instance", AString "")]
    [("spec", mapping_
       [("minReplicas", AInt 1); ("maxReplicas", AInt 1);
        ("scaleTargetRef", mapping_ [("apiVersion", AString "apps/v1"); ("kind", AString "Deployment"); ("name", AString "deployment")]);
        ("metrics", AList [])])].

Definition pdbManifest : object :=
  manifest "policy/v1" "PodDisruptionBudget" "pdb"
    [("app", AString "ogx"); ("app.kubernetes.io/instance", AString "")]
    [("spec", mapping_ [("maxUnavailable", AInt 1); ("selector", mapping_ [("matchLabels", podLabels "")])])].

Definition roleBindingManifest : object :=
  manifest "rbac.authorization.k8s.io/v1" "RoleBinding" "rb" []
    [("subjects", AList [mapping_ [("kind", AString "ServiceAccount"); ("name", AString "sa"); ("namespace", AString "default")]]);
     ("roleRef", mapping_ [("kind", AString "ClusterRole"); ("name", AString "system:openshift:scc:nonroot-v2");
                           ("apiGroup", AString "rbac.authorization.k8s.io")])].

(** One recording rule. *)
Definition apiInfoRule (api expr : string) : any :=
  mapping_ [("record", AString "ogx:api_info:max"); ("labels", mapping_ [("api", AString api)]); ("expr", AString expr)].

Definition requestsExpr (api : string) : string :=
  Sprintf "clamp_max(sum(ogx_requests_total{api=%q}) or vector(0), 1)" [api].

Definition prometheusRuleManifest : object :=
  manifest "monitoring.coreos.com/v1" "PrometheusRule" "prometheus-rules" []
    [("spec", mapping_
       [("groups", AList
          [mapping_ [("name", AString "telemetry.rules"); ("interval", AString "60s");
                     ("rules", AList
                        [apiInfoRule "inference" (requestsExpr "inference");
                         apiInfoRule "vector_io" (requestsExpr "vector_io");
                         apiInfoRule "responses" (requestsExpr "responses");
                         apiInfoRule "rag" "clamp_max(sum(ogx_vector_io_documents_retrieved_total) or vector(0), 1)";
                         apiInfoRule "agentic" "clamp_max(sum(ogx_responses_agentic_calls_total) or vector(0), 1)"])]])])].

Definition serviceMonitorManifest : object :=
  manifest "monitoring.coreos.com/v1" "ServiceMonitor" "service-monitor"
    [("monitoring.opendatahub.io/scrape", AString "true")]
    [("spec", mapping_
       [("selector", mapping_
          [("matchLabels", mapping_ [("app.kubernetes.io/managed-by", AString "ogx-operator");
                                     ("app.kubernetes.io/part-of", AString "ogx")])]);
        ("endpoints", AList [mapping_ [("targetPort", AString "metrics"); ("path", AString "/metrics"); ("interval", AString "60s")]])])].

(** In the order of [kustomization.yaml]. *)
Definition baseManifests : list object :=
  [pvcManifest; serviceAccountManifest; serviceManifest; networkPolicyManifest; deploymentManifest; hpaManifest;
   pdbManifest; roleBindingManifest; prometheusRuleManifest; serviceMonitorManifest].

(** ** Evaluation of the rendering *)

Ltac inBase := unfold baseManifests; rewrite !elem_of_cons; auto 12.

Lemma prefix_cons a b s t :
  String.prefix (String a s) (String b t) = if ascii_dec a b then String.prefix s t else false.
Proof. cbn [String.prefix]. by destruct (ascii_dec a b). Qed.

Lemma prefix_dash n s : existsb (Ascii.eqb "-"%char) (chars s) = false → String.prefix (n +:+ "-") s = false.
Proof.
  revert s. induction n as [|c n IH]; intros [|c' s]; [done| |done|]; cbn [chars existsb].
  - intros [Hc _]%orb_false_iff. change ("" +:+ "-") with (String "-" ""). rewrite prefix_cons.
    destruct (ascii_dec _ _) as [<-|]; [|done]. by rewrite Ascii.eqb_refl in Hc.
  - intros [_ Hs]%orb_false_iff. change (String c n +:+ "-") with (String c (n +:+ "-")). rewrite prefix_cons.
    destruct (ascii_dec c c'); [|done]. by apply IH.
Qed.

Lemma getContainerPort_service instance : getContainerPort instance = GetServicePort instance.
Proof.
  unfold getContainerPort, GetServicePort. destruct (Spec_Network _) as [net|]; [|done].
  by destruct (Net_Port net =? 0).
Qed.

(** The mappings, with the port of the Service in place of the optional one. *)
Definition fieldMappings (QuantityString : string → string) (instance : OGXServer) (port : Z) : list FieldMapping :=
  buildFieldMappings QuantityString (Server_Name instance) (Meta_Namespace (Server_Meta instance))
    (Server_Name instance +:+ "-sa") (AInt32 port) (getStorageSize QuantityString instance)
    "/app.kubernetes.io~1instance" (GetEffectiveReplicas instance) ++
  match workload instance ≫= WL_Storage with
  | Some _ => [mapping (AString "Recreate") ANil "/spec/strategy/type" "Deployment"]
  | None => []
  end.

Lemma lookupAt_child k p d x : elementIndex p = None → lookupAt [k; p] (AMap d) = Some x →
  ∃ m, d !! k = Some (AMap m) ∧ m !! p = Some x.
Proof.
  intros Hp. cbn [lookupAt child]. intros (c & Hc & (c' & Hc' & [= <-])%bind_Some)%bind_Some.
  destruct c as [| | | | | |l|m| | |]; try done; [|by eexists]. cbn [child] in Hc'. by rewrite Hp in Hc'.
Qed.

Lemma index_lookup d k x : d !! k = Some x → index d k = x.
Proof. unfold index. by intros ->. Qed.

Lemma lookupAt_insert_ne k x d t p : k ≠ t → lookupAt (t :: p) (AMap (<[k := x]> d)) = lookupAt (t :: p) (AMap d).
Proof. intros Hne. cbn [lookupAt child]. by rewrite lookup_insert_ne. Qed.

Lemma lookupAt_insert k x d p : lookupAt (k :: p) (AMap (<[k := x]> d)) = lookupAt p x.
Proof. cbn [lookupAt child]. by rewrite lookup_insert_eq. Qed.

Lemma kindOf_insert k x d : k ≠ "kind" → kindOf (<[k := x]> d) = kindOf d.
Proof. apply textAt_insert_ne. Qed.

Lemma applyNetworkPolicySpec_podSelector config spec :
  applyNetworkPolicySpec config spec !! "podSelector" = spec !! "podSelector".
Proof.
  unfold applyNetworkPolicySpec, applyPraxisNetworkPolicySpec, applyLegacyNetworkPolicySpec.
  repeat case_match; by rewrite ?lookup_insert_ne.
Qed.

Lemma enhanceTemplateSpec_union podSpec templateSpec : enhanceTemplateSpec podSpec templateSpec = podSpec ∪ templateSpec.
Proof.
  unfold enhanceTemplateSpec.
  assert (∀ keys (spec : object) k, foldl (λ spec key, <[key := index podSpec key]> spec) spec keys !! k =
            if decide (k ∈ keys) then Some (index podSpec k) else spec !! k) as Hfold.
  { induction keys as [|key keys IH]; intros spec k; cbn [foldl].
    - by rewrite decide_False by apply not_elem_of_nil.
    - rewrite IH. destruct (decide (k ∈ keys)) as [Hk|Hk].
      + by rewrite decide_True by by right.
      + destruct (decide (k = key)) as [->|Hne].
        * by rewrite decide_True, lookup_insert_eq by left.
        * rewrite lookup_insert_ne by done. rewrite decide_False; [done|]. by intros [?|?]%elem_of_cons. }
  apply map_eq. intros k. rewrite Hfold, lookup_union. unfold index.
  destruct (podSpec !! k) as [x|] eqn:Hk.
  - rewrite decide_True; [by rewrite union_Some_l|].
    rewrite sort_strings_Permutation. apply elem_of_elements, elem_of_dom. by eexists.
  - rewrite decide_False; [by rewrite (left_id_L _ _)|].
    rewrite sort_strings_Permutation. intros [y Hy]%elem_of_elements%elem_of_dom. by rewrite Hk in Hy.
Qed.

(** The hashes of the configuration, on the pods. *)
Definition hashAnnotations (ctx : ManifestContext) (annotations : object) : object :=
  annotations |> set_nonempty "configmap.hash/user-config" (MC_ConfigMapHash ctx)
              |> set_nonempty "configmap.hash/ca-bundle" (MC_CABundleHash ctx)
              |> set_nonempty "secret.hash/referenced" (MC_SecretHash ctx).

Lemma deploymentView_spec ctx d spec template templateSpec templateMeta annotations :
  d !! "spec" = Some (AMap spec) → spec !! "template" = Some (AMap template) →
  template !! "spec" = Some (AMap templateSpec) → template !! "metadata" = Some (AMap templateMeta) →
  templateMeta !! "annotations" = Some (AMap annotations) →
  deploymentView ctx d =
  Some (<["spec" := AMap (<["template" := AMap
          (<["metadata" := AMap (<["annotations" := AMap (hashAnnotations ctx annotations)]> templateMeta)]>
            (<["spec" := AMap (default ∅ (MC_PodSpec ctx) ∪ templateSpec)]> template))]> spec)]> d).
Proof.
  intros Hspec Htemplate Hts Hmeta Hann. unfold deploymentView, getDeploymentTemplateSpec.
  rewrite (index_lookup _ _ _ Hspec). cbn [as_object]. rewrite (index_lookup _ _ _ Htemplate). cbn [as_object].
  rewrite (index_lookup _ _ _ Hts). cbn [as_object toOption mbind option_bind].
  destruct (MC_PodSpec ctx) as [podSpec|]; cbn [default from_option id].
  - unfold addConfigMapAnnotations, updateTemplate.
    rewrite (index_lookup d _ _ Hspec). cbn [as_object default from_option id].
    rewrite (index_lookup spec _ _ Htemplate). cbn [as_object default from_option id].
    rewrite (index_lookup (<["spec" := _]> d) "spec" _ (lookup_insert_eq _ _ _)). cbn [as_object default from_option id].
    rewrite (index_lookup (<["template" := _]> spec) "template" _ (lookup_insert_eq _ _ _)). cbn [as_object default from_option id].
    rewrite (index_lookup (<["spec" := _]> template) "metadata" (AMap templateMeta)) by by rewrite lookup_insert_ne.
    cbn [as_object default from_option id]. rewrite (index_lookup _ _ _ Hann). cbn [as_object default from_option id toOption].
    by rewrite !insert_insert_eq, enhanceTemplateSpec_union.
  - unfold addConfigMapAnnotations, updateTemplate.
    rewrite (index_lookup d _ _ Hspec). cbn [as_object default from_option id].
    rewrite (index_lookup spec _ _ Htemplate). cbn [as_object default from_option id].
    rewrite (index_lookup template _ _ Hmeta). cbn [as_object default from_option id].
    rewrite (index_lookup _ _ _ Hann). cbn [as_object default from_option id toOption].
    rewrite (left_id_L ∅ (∪)), (insert_id template "spec") by done. reflexivity.
Qed.

Section references.
Context `{KU : Kustomize} (QuantityString : string → string).

(** The kinds of the base manifests live in namespaces. *)
Definition namespacedKinds : Prop :=
  Forall (λ d, clusterScopedKind (textAt ["apiVersion"] d) (kindOf d) = false) baseManifests.

Lemma mappingsView_app l k d : mappingsView (l ++ k) d = mappingsView l d ≫= mappingsView k.
Proof.
  revert d. induction l as [|m l IH]; intros d; [done|]. cbn [app mappingsView].
  destruct (mappingView d m); [apply IH|done].
Qed.

Lemma mappingView_value source source' default field kind d :
  (if isEmpty source then default else source) = (if isEmpty source' then default else source') →
  mappingView d (mapping source default field kind) = mappingView d (mapping source' default field kind).
Proof. intros H. unfold mappingView, mapping. cbn [SourceValue DefaultValue TargetField TargetKind]. by rewrite H. Qed.

Lemma getFieldMappings_port instance d :
  mappingsView (getFieldMappings QuantityString instance) d =
  mappingsView (fieldMappings QuantityString instance (GetServicePort instance)) d.
Proof.
  assert ((if isEmpty (getServicePort instance) then AInt32 DefaultServerPort else getServicePort instance)
          = AInt32 (GetServicePort instance)) as Hport.
  { unfold getServicePort, GetServicePort. destruct (Spec_Network _) as [net|]; [|done]. by destruct (Net_Port net =? 0). }
  assert (∀ rest d, mappingsView (buildFieldMappings QuantityString (Server_Name instance) (Meta_Namespace (Server_Meta instance))
            (Server_Name instance +:+ "-sa") (getServicePort instance) (getStorageSize QuantityString instance)
            "/app.kubernetes.io~1instance" (GetEffectiveReplicas instance) ++ rest) d =
          mappingsView (buildFieldMappings QuantityString (Server_Name instance) (Meta_Namespace (Server_Meta instance))
            (Server_Name instance +:+ "-sa") (AInt32 (GetServicePort instance)) (getStorageSize QuantityString instance)
            "/app.kubernetes.io~1instance" (GetEffectiveReplicas instance) ++ rest) d) as Hm.
  { intros rest d'. unfold buildFieldMappings. cbn [app mappingsView].
    destruct (mappingView d' _) as [d1|]; [|done]. cbn [mbind option_bind].
    rewrite (mappingView_value _ (AInt32 (GetServicePort instance)) _ "/spec/ports/0/port") by done.
    destruct (mappingView d1 _) as [d2|]; [|done]. cbn [mbind option_bind].
    by rewrite (mappingView_value _ (AInt32 (GetServicePort instance)) _ "/spec/ports/0/targetPort"). }
  unfold getFieldMappings, fieldMappings. destruct (_ ≫= WL_Storage) as [st|]; [apply Hm|].
  rewrite <- (app_nil_r (buildFieldMappings _ _ _ _ (getServicePort _) _ _ _)). apply Hm.
Qed.

(** The prefix keeps the kind, so a base manifest gets the namespace. *)
Lemma prefixed_namespace instance b d ns :
  namespacedKinds → b ∈ baseManifests →
  prefixView {| Prefix := Server_Name instance; IncludeKinds := []; ExcludeKinds := [deploymentKind] |} b = Some d →
  namespaceView ns d = putIn ["metadata"; "namespace"] (AString ns) d.
Proof.
  intros Hk Hb Hd. unfold namespaceView. assert (textAt ["apiVersion"] d = textAt ["apiVersion"] b ∧ kindOf d = kindOf b) as [-> ->].
  { unfold prefixView in Hd. destruct (_ || _); [by injection Hd as <-|]. unfold kindOf.
    split; by eapply textAt_putIn_ne in Hd. }
  unfold namespacedKinds in Hk. rewrite Forall_forall in Hk. by rewrite Hk.
Qed.

(** A field of a tree that may not exist. *)
Definition field (d : option object) (path : list string) : option any := d ← d; lookupAt path (AMap d).

(** The stages up to the fields of the spec. *)
Definition mapped (instance : OGXServer) (b : object) : option object :=
  d ← prefixView {| Prefix := Server_Name instance; IncludeKinds := []; ExcludeKinds := [deploymentKind] |} b;
  d ← putIn ["metadata"; "namespace"] (AString (Meta_Namespace (Server_Meta instance))) d;
  mappingsView (fieldMappings QuantityString instance (GetServicePort instance)) d.

Lemma pluginsView_mapped instance peer mode ns b : namespacedKinds → b ∈ baseManifests →
  pluginsView QuantityString instance peer mode ns b =
  d ← mapped instance b;
  d ← policyView (transformerConfig instance peer mode ns) d;
  d ← serviceView {| ST_MetricsPort := NetworkPolicy.getEffectiveMetricsPort instance; ST_ServicePort := GetServicePort instance |} d;
  if isAutoscalingEnabled instance then replicasView d else Some d.
Proof.
  intros Hk Hb. unfold pluginsView, mapped. destruct (prefixView _ b) as [d|] eqn:Hd; [|done]. cbn [mbind option_bind].
  rewrite (prefixed_namespace _ _ _ _ Hk Hb Hd). destruct (putIn _ _ d) as [d2|]; [|done]. cbn [mbind option_bind].
  by rewrite getFieldMappings_port.
Qed.

Section names.
Context (instance : OGXServer) (Hname : Server_Name instance ≠ "") (Hns : Meta_Namespace (Server_Meta instance) ≠ "").
#[local] Set Default Proof Using "Type*".

(** Evaluates the stages on a base manifest; the name and the namespace are not empty. *)
Ltac evaluate :=
  unfold mapped, fieldMappings; generalize (GetServicePort instance); intros port;
  destruct (Server_Name instance) as [|c n]; [done|];
  destruct (Meta_Namespace (Server_Meta instance)) as [|c' ns]; [done|];
  destruct (workload instance ≫= WL_Storage);
  unfold prefixView; try rewrite prefix_dash by (vm_compute; reflexivity);
  vm_compute; reflexivity.

Ltac each Hpath :=
  repeat (apply elem_of_cons in Hpath as [->|Hpath]); [..|by apply not_elem_of_nil in Hpath]; evaluate.

Lemma service_mapped path : path ∈ [["kind"]; ["metadata"; "name"]; ["spec"; "selector"]; ["spec"; "ports"]] →
  field (mapped instance serviceManifest) path =
  lookupAt path (mapping_
    [("kind", AString "Service"); ("metadata", mapping_ [("name", AString (GetServiceName instance))]);
     ("spec", mapping_ [("selector", podLabels (Server_Name instance));
                        ("ports", AList [mapping_ [("name", AString "http"); ("protocol", AString "TCP");
                                                   ("port", AInt32 (GetServicePort instance));
                                                   ("targetPort", AInt32 (GetServicePort instance))]])])]).
Proof.
  unfold GetServiceName. intros Hpath. each Hpath.
Qed.

Lemma deployment_mapped path :
  path ∈ [["kind"]; ["metadata"; "name"]; ["spec"; "replicas"]; ["spec"; "selector"]; ["spec"; "template"]] →
  field (mapped instance deploymentManifest) path =
  lookupAt path (mapping_
    [("kind", AString "Deployment"); ("metadata", mapping_ [("name", AString (Server_Name instance))]);
     ("spec", mapping_
       [("replicas", AInt32 (GetEffectiveReplicas instance));
        ("selector", mapping_ [("matchLabels", podLabels (Server_Name instance))]);
        ("template", mapping_
          [("metadata", mapping_ [("labels", podLabels (Server_Name instance)); ("annotations", AMap ∅)]);
           ("spec", mapping_ [("serviceAccountName", AString (Server_Name instance +:+ "-sa"));
                              ("containers", AList []); ("volumes", AList [])])])])]).
Proof. intros Hpath. each Hpath. Qed.

Lemma strategy_mapped :
  field (mapped instance deploymentManifest) ["spec"; "strategy"] =
  match workload instance ≫= WL_Storage with
  | Some _ => Some (mapping_ [("type", AString "Recreate")])
  | None => None
  end.
Proof. evaluate. Qed.

Lemma budget_mapped path : path ∈ [["kind"]; ["spec"]] →
  field (mapped instance pdbManifest) path =
  lookupAt path (mapping_
    [("kind", AString "PodDisruptionBudget");
     ("spec", mapping_ [("maxUnavailable", AInt 1);
                        ("selector", mapping_ [("matchLabels", podLabels (Server_Name instance))])])]).
Proof. intros Hpath. each Hpath. Qed.

Lemma serviceAccount_mapped path : path ∈ [["kind"]; ["metadata"; "name"]; ["metadata"; "namespace"]] →
  field (mapped instance serviceAccountManifest) path =
  lookupAt path (mapping_
    [("kind", AString "ServiceAccount");
     ("metadata", mapping_ [("name", AString (Server_Name instance +:+ "-sa"));
                            ("namespace", AString (Meta_Namespace (Server_Meta instance)))])]).
Proof. intros Hpath. each Hpath. Qed.

Lemma roleBinding_mapped path : path ∈ [["kind"]; ["subjects"]] →
  field (mapped instance roleBindingManifest) path =
  lookupAt path (mapping_
    [("kind", AString "RoleBinding");
     ("subjects", AList [mapping_ [("kind", AString "ServiceAccount"); ("name", AString (Server_Name instance +:+ "-sa"));
                                   ("namespace", AString (Meta_Namespace (Server_Meta instance)))]])]).
Proof. intros Hpath. each Hpath. Qed.

(** The name of the policy may already look prefixed; its spec is the same. *)
Lemma policy_mapped path : path ∈ [["kind"]; ["spec"]] →
  field (mapped instance networkPolicyManifest) path = lookupAt path (AMap networkPolicyManifest).
Proof.
  intros Hpath. unfold mapped, prefixView. destruct (String.prefix _ _); each Hpath.
Qed.

Context (Hkinds : namespacedKinds) (ctx : ManifestContext) (operatorNS : result string).
Context (HPAToUnstructured : HPASpec → result object).

(** A field of the manifest that a base manifest is rendered to. *)
Definition rendered (b : object) (path : list string) : option any :=
  field (renderView QuantityString HPAToUnstructured instance (Some ctx) operatorNS b) path.

(** What a stage does not look at, by the kind. *)
Lemma policyView_other config d : kindOf d ≠ "NetworkPolicy" → policyView config d = Some d.
Proof using. intros Hd. unfold policyView. by rewrite bool_decide_eq_false_2. Qed.

Lemma serviceView_other config d : kindOf d ≠ "Service" → serviceView config d = Some d.
Proof using. intros Hd. unfold serviceView. by rewrite bool_decide_eq_false_2. Qed.

Lemma scaling_other d : kindOf d ≠ "Deployment" →
  (if isAutoscalingEnabled instance then replicasView d else Some d) = Some d.
Proof using.
  intros Hd. unfold replicasView. rewrite bool_decide_eq_false_2 by done. by destruct (isAutoscalingEnabled _).
Qed.

Lemma enhanceView_other d : kindOf d ∉ ["Deployment"; "PodDisruptionBudget"; "HorizontalPodAutoscaler"] →
  enhanceView HPAToUnstructured ctx d = Some d.
Proof. intros Hd. unfold enhanceView. by rewrite !bool_decide_eq_false_2 by (clear -Hd; set_solver). Qed.

(** The stages after the mappings, on a tree of another kind than Service and NetworkPolicy. *)
Lemma rendered_mapped b path : b ∈ baseManifests →
  kindOf b ∉ ["Service"; "NetworkPolicy"; "Deployment"; "PodDisruptionBudget"; "HorizontalPodAutoscaler"] →
  field (mapped instance b) ["kind"] = Some (AString (kindOf b)) →
  rendered b path = field (mapped instance b) path.
Proof.
  intros Hb Hk Hf. unfold rendered, renderView. rewrite pluginsView_mapped by done.
  unfold field in *. destruct (mapped instance b) as [d|]; [|done]. cbn [mbind option_bind] in *.
  assert (kindOf d = kindOf b) as Hd by (unfold kindOf at 1, textAt; by rewrite Hf).
  rewrite policyView_other by (rewrite Hd; set_solver). cbn [mbind option_bind].
  rewrite serviceView_other by (rewrite Hd; set_solver). cbn [mbind option_bind].
  rewrite scaling_other by (rewrite Hd; set_solver). cbn [mbind option_bind].
  rewrite enhanceView_other by (rewrite Hd; set_solver). done.
Qed.

Lemma kind_of_field o d k : o = Some d → field o ["kind"] = Some (AString k) → kindOf d = k.
Proof using. intros -> Hf. unfold kindOf, textAt. cbn [field mbind option_bind] in Hf. by rewrite Hf. Qed.

Definition httpPort : any :=
  mapping_ [("name", AString "http"); ("protocol", AString "TCP");
            ("port", AInt32 (GetServicePort instance)); ("targetPort", AInt32 (GetServicePort instance))].

Lemma rendered_service :
  rendered serviceManifest ["metadata"; "name"] = Some (AString (GetServiceName instance)) ∧
  rendered serviceManifest ["spec"; "selector"] = Some (podLabels (Server_Name instance)) ∧
  rendered serviceManifest ["spec"; "ports"] =
    Some (AList (httpPort ::
      let metrics := NetworkPolicy.getEffectiveMetricsPort instance in
      if (metrics =? 0) || (metrics =? GetServicePort instance) then [] else [metricsServicePort metrics])).
Proof.
  unfold rendered, renderView. rewrite pluginsView_mapped by (done || inBase).
  pose proof (service_mapped ["kind"] ltac:(decided)) as Hkind.
  pose proof (service_mapped ["metadata"; "name"] ltac:(decided)) as Hn.
  pose proof (service_mapped ["spec"; "selector"] ltac:(decided)) as Hsel.
  pose proof (service_mapped ["spec"; "ports"] ltac:(decided)) as Hports.
  destruct (mapped instance serviceManifest) as [d|]; [|done].
  apply (kind_of_field _ _ _ eq_refl) in Hkind.
  change (lookupAt ["metadata"; "name"] (AMap d) = Some (AString (GetServiceName instance))) in Hn.
  change (lookupAt ["spec"; "selector"] (AMap d) = Some (podLabels (Server_Name instance))) in Hsel.
  change (lookupAt ["spec"; "ports"] (AMap d) = Some (AList [httpPort])) in Hports.
  cbn [mbind option_bind]. rewrite policyView_other by by rewrite Hkind. cbn [mbind option_bind].
  destruct (lookupAt_child "spec" "ports" _ _ eq_refl Hports) as (spec & Hspec & Hp).
  assert (∀ d', kindOf d' = "Service" → (if isAutoscalingEnabled instance then replicasView d' else Some d') = Some d'
            ∧ enhanceView HPAToUnstructured ctx d' = Some d') as Htail.
  { intros d' Hd'. split; [apply scaling_other|apply enhanceView_other]; rewrite Hd'; done || decided. }
  unfold serviceView. rewrite Hkind. change (negb (bool_decide ("Service" = serviceKind))) with false.
  cbn [ST_MetricsPort ST_ServicePort].
  destruct ((_ =? 0) || _).
  - cbn [mbind option_bind]. destruct (Htail d Hkind) as [-> Hd]. cbn [mbind option_bind]. by rewrite Hd.
  - rewrite (index_lookup _ _ _ Hspec). cbn [as_object]. rewrite (index_lookup _ _ _ Hp). cbn [as_list mbind option_bind].
    set (d' := <["spec" := _]> d). destruct (Htail d') as [-> Hd]; [by unfold d'; rewrite kindOf_insert|].
    cbn [mbind option_bind]. rewrite Hd. unfold field. cbn [mbind option_bind]. unfold d'. split; [by rewrite lookupAt_insert_ne|].
    rewrite !lookupAt_insert. split; [|done].
    rewrite lookupAt_insert_ne by done. cbn [lookupAt child] in Hsel |- *. by rewrite Hspec in Hsel.
Qed.

Lemma rendered_policy :
  rendered networkPolicyManifest ["spec"; "podSelector"; "matchLabels"] = Some (podLabels (Server_Name instance)).
Proof.
  unfold rendered, renderView. rewrite pluginsView_mapped by (done || inBase).
  pose proof (policy_mapped ["kind"] ltac:(decided)) as Hkind.
  pose proof (policy_mapped ["spec"] ltac:(decided)) as Hspec.
  destruct (mapped instance networkPolicyManifest) as [d|]; [|done].
  apply (kind_of_field _ _ _ eq_refl) in Hkind. cbn [mbind option_bind].
  unfold policyView. rewrite Hkind. change (negb (bool_decide ("NetworkPolicy" = networkPolicyKind))) with false. cbn iota.
  set (config := transformerConfig _ _ _ _).
  set (spec := list_to_map [("podSelector", mapping_ [("matchLabels", podLabels "")]);
                ("policyTypes", AList [AString "Ingress"]); ("ingress", AList [])] : object).
  assert (index d "spec" = AMap spec) as Hs.
  { apply index_lookup. unfold field in Hspec. cbn [lookupAt child mbind option_bind] in Hspec.
    destruct (d !! "spec") as [x|]; [|discriminate Hspec]. injection Hspec as ->. done. }
  unfold transformData. rewrite Hs. cbn [mbind option_bind].
  set (d' := <["spec" := _]> d).
  assert (kindOf d' = "NetworkPolicy") as Hd' by (unfold d'; by rewrite kindOf_insert).
  rewrite serviceView_other by by rewrite Hd'. cbn [mbind option_bind].
  rewrite scaling_other by by rewrite Hd'. cbn [mbind option_bind].
  rewrite enhanceView_other by (rewrite Hd'; decided). unfold field. cbn [mbind option_bind].
  unfold d'. rewrite lookupAt_insert. cbn [lookupAt child].
  rewrite applyNetworkPolicySpec_podSelector.
  unfold updatePodSelector. change (InstanceName config) with (Server_Name instance). unfold spec.
  destruct (Server_Name instance) as [|c n]; [done|]. vm_compute. reflexivity.
Qed.

Lemma rendered_budget :
  rendered pdbManifest ["spec"; "selector"; "matchLabels"] = Some (podLabels (Server_Name instance)).
Proof.
  unfold rendered, renderView. rewrite pluginsView_mapped by (done || inBase).
  pose proof (budget_mapped ["kind"] ltac:(decided)) as Hkind.
  pose proof (budget_mapped ["spec"] ltac:(decided)) as Hspec.
  destruct (mapped instance pdbManifest) as [d|]; [|done].
  apply (kind_of_field _ _ _ eq_refl) in Hkind. cbn [mbind option_bind].
  rewrite policyView_other by by rewrite Hkind. cbn [mbind option_bind].
  rewrite serviceView_other by by rewrite Hkind. cbn [mbind option_bind].
  rewrite scaling_other by by rewrite Hkind.
  cbn [mbind option_bind]. unfold enhanceView, budgetView. rewrite Hkind.
  change (bool_decide ("PodDisruptionBudget" = deploymentKind)) with false.
  change (bool_decide ("PodDisruptionBudget" = "PodDisruptionBudget")) with true. cbn iota.
  set (spec := list_to_map [("maxUnavailable", AInt 1);
                ("selector", mapping_ [("matchLabels", podLabels (Server_Name instance))])] : object).
  assert (d !! "spec" = Some (AMap spec)) as Hs.
  { unfold field in Hspec. cbn [lookupAt child mbind option_bind] in Hspec.
    destruct (d !! "spec") as [x|]; [|discriminate Hspec]. injection Hspec as ->. done. }
  assert (∀ k v o, k ≠ "selector" → lookupAt ["selector"; "matchLabels"] (AMap (setOrDelete k o v)) =
            lookupAt ["selector"; "matchLabels"] (AMap v)) as Hset.
  { intros k v o Hk. unfold setOrDelete. destruct o; [by rewrite lookupAt_insert_ne|].
    cbn [lookupAt child]. by rewrite lookup_delete_ne. }
  unfold field. destruct (MC_PodDisruptionBudgetSpec ctx) as [pdb|]; cbn [mbind option_bind].
  - rewrite (index_lookup _ _ _ Hs). cbn [as_object mbind option_bind]. rewrite lookupAt_insert.
    rewrite !Hset by done. vm_compute. reflexivity.
  - cbn [lookupAt child]. rewrite Hs. vm_compute. reflexivity.
Qed.

(** The defaults of the template that the pod specification of the context is laid over. *)
Definition templateDefaults : object :=
  list_to_map [("serviceAccountName", AString (Server_Name instance +:+ "-sa"));
               ("containers", AList []); ("volumes", AList [])].

Definition templateOf : object :=
  <["metadata" := AMap (<["annotations" := AMap (hashAnnotations ctx ∅)]>
                          (list_to_map [("labels", podLabels (Server_Name instance)); ("annotations", AMap ∅)]))]>
    (<["spec" := AMap (default ∅ (MC_PodSpec ctx) ∪ templateDefaults)]>
      (list_to_map [("metadata", mapping_ [("labels", podLabels (Server_Name instance)); ("annotations", AMap ∅)]);
                    ("spec", AMap templateDefaults)])).

Lemma renderView_deployment :
  ∃ d spec,
    renderView QuantityString HPAToUnstructured instance (Some ctx) operatorNS deploymentManifest =
      Some (<["spec" := AMap (<["template" := AMap templateOf]> spec)]> d) ∧
    kindOf d = "Deployment" ∧ lookupAt ["metadata"; "name"] (AMap d) = Some (AString (Server_Name instance)) ∧
    spec !! "selector" = Some (mapping_ [("matchLabels", podLabels (Server_Name instance))]) ∧
    spec !! "replicas" = (if isAutoscalingEnabled instance then None else Some (AInt32 (GetEffectiveReplicas instance))) ∧
    spec !! "strategy" =
      match workload instance ≫= WL_Storage with Some _ => Some (mapping_ [("type", AString "Recreate")]) | None => None end.
Proof.
  unfold renderView. rewrite pluginsView_mapped by (done || inBase).
  pose proof (deployment_mapped ["kind"] ltac:(decided)) as Hkind.
  pose proof (deployment_mapped ["metadata"; "name"] ltac:(decided)) as Hn.
  pose proof (deployment_mapped ["spec"; "selector"] ltac:(decided)) as Hsel.
  pose proof (deployment_mapped ["spec"; "replicas"] ltac:(decided)) as Hrep.
  pose proof (deployment_mapped ["spec"; "template"] ltac:(decided)) as Htem.
  pose proof strategy_mapped as Hstr.
  destruct (mapped instance deploymentManifest) as [d|]; [|done].
  apply (kind_of_field _ _ _ eq_refl) in Hkind. cbn [mbind option_bind].
  rewrite policyView_other by by rewrite Hkind. cbn [mbind option_bind].
  rewrite serviceView_other by by rewrite Hkind. cbn [mbind option_bind].
  destruct (lookupAt_child "spec" "selector" _ _ eq_refl Hsel) as (spec & Hspec & Hs).
  unfold field in Hrep, Htem, Hstr. cbn [mbind option_bind lookupAt child] in Hrep, Htem, Hstr.
  rewrite Hspec in Hrep, Htem, Hstr. cbn [mbind option_bind lookupAt child] in Hrep, Htem, Hstr.
  assert (∀ k, (c ← spec !! k; Some c) = spec !! k) as Hsome by (intros k; by destruct (spec !! k)).
  rewrite Hsome in Hrep, Htem, Hstr.
  set (spec' := if isAutoscalingEnabled instance then delete "replicas" spec else spec).
  assert ((if isAutoscalingEnabled instance then replicasView d else Some d) = Some (<["spec" := AMap spec']> d)) as ->.
  { unfold spec', replicasView. rewrite Hkind. change (negb (bool_decide ("Deployment" = deploymentKind))) with false. cbn iota.
    destruct (isAutoscalingEnabled instance); [|by rewrite insert_id].
    rewrite (index_lookup _ _ _ Hspec). cbn [as_object]. rewrite Hrep. done. }
  assert (∀ k, k ≠ "replicas" → spec' !! k = spec !! k) as Hspec'.
  { intros k Hk. unfold spec'. destruct (isAutoscalingEnabled _); [by apply lookup_delete_ne|done]. }
  cbn [mbind option_bind]. unfold enhanceView. rewrite kindOf_insert, Hkind by done.
  change (bool_decide ("Deployment" = deploymentKind)) with true. cbn iota.
  rewrite (deploymentView_spec ctx _ spec'
             (list_to_map [("metadata", mapping_ [("labels", podLabels (Server_Name instance)); ("annotations", AMap ∅)]);
                           ("spec", AMap templateDefaults)])
             templateDefaults (list_to_map [("labels", podLabels (Server_Name instance)); ("annotations", AMap ∅)]) ∅);
    [|apply lookup_insert_eq|rewrite Hspec' by done; exact Htem|done..].
  exists d, spec'. rewrite insert_insert_eq. split_and!; [done|done|exact Hn| | |].
  - rewrite Hspec' by done. exact Hs.
  - unfold spec'. destruct (isAutoscalingEnabled _); [by apply lookup_delete_eq|exact Hrep].
  - rewrite Hspec' by done. exact Hstr.
Qed.

(** What the deployment is rendered to, field by field. *)
Lemma rendered_deployment :
  rendered deploymentManifest ["metadata"; "name"] = Some (AString (Server_Name instance)) ∧
  rendered deploymentManifest ["spec"; "selector"; "matchLabels"] = Some (podLabels (Server_Name instance)) ∧
  rendered deploymentManifest ["spec"; "template"; "metadata"; "labels"] = Some (podLabels (Server_Name instance)) ∧
  rendered deploymentManifest ["spec"; "template"; "metadata"; "annotations"] = Some (AMap (hashAnnotations ctx ∅)) ∧
  rendered deploymentManifest ["spec"; "template"; "spec"] = Some (AMap (default ∅ (MC_PodSpec ctx) ∪ templateDefaults)) ∧
  rendered deploymentManifest ["spec"; "replicas"] =
    (if isAutoscalingEnabled instance then None else Some (AInt32 (GetEffectiveReplicas instance))) ∧
  rendered deploymentManifest ["spec"; "strategy"; "type"] =
    match workload instance ≫= WL_Storage with Some _ => Some (AString "Recreate") | None => None end.
Proof.
  destruct renderView_deployment as (d & spec & Hd & _ & Hn & Hsel & Hrep & Hstr).
  unfold rendered. rewrite Hd. unfold field. cbn [mbind option_bind].
  rewrite lookupAt_insert_ne by done. rewrite !lookupAt_insert.
  cbn [lookupAt child]. rewrite !(lookup_insert_ne spec) by done. rewrite Hsel, Hrep, Hstr.
  split_and!; try done.
  - by destruct (isAutoscalingEnabled _).
  - by destruct (workload _ ≫= _).
Qed.
End names.

(** ** The manifests of an instance *)

Section theorems.
Context `{KL : !KustomizeLaws, JL : JSONPointerLaws}.
Context (IsDNS1123Label : string → list string).
Context (Exists : string → bool) (Run : string → result (list Resource)) (HPAToUnstructured : HPASpec → result object).
#[local] Set Default Proof Using "Type*".

(** Kustomize loads the files of the repository. *)
Definition loadsBase : Prop := ∀ path base, Run path = Ok base → view <$> base = baseManifests.

Definition at_ (r : Resource) (path : list string) : option any := lookupAt path (AMap (view r)).

Lemma out_rendered path instance ctx operatorNS out :
  loadsBase →
  RenderManifestWithContext IsDNS1123Label QuantityString Exists Run HPAToUnstructured path instance (Some ctx) operatorNS = Ok out →
  Forall2 (λ b r, ∀ p x, rendered instance ctx operatorNS HPAToUnstructured b p = Some x → at_ r p = Some x ) baseManifests out.
Proof.
  intros Hb Hout. destruct (render_refine _ _ _ _ _ _ _ _ _ _ Hout) as (base & Hrun & Hall).
  assert (view <$> base = baseManifests) as <- by by destruct Hrun as [Hrun|Hrun]; apply Hb in Hrun.
  apply Forall2_fmap_l. eapply Forall2_impl; [done|]. intros b r Hr p x Hx. unfold rendered, field in Hx.
  apply bind_Some in Hx as (d & Hd & Hx). unfold at_. by rewrite (Hr d Hd).
Qed.

Lemma rendered_at instance ctx operatorNS out i b r p x :
  Forall2 (λ b r, ∀ p x, rendered instance ctx operatorNS HPAToUnstructured b p = Some x → at_ r p = Some x) baseManifests out →
  baseManifests !! i = Some b → out !! i = Some r →
  rendered instance ctx operatorNS HPAToUnstructured b p = Some x → at_ r p = Some x.
Proof. intros Hall Hb Hr. by apply (Forall2_lookup_lr _ _ _ _ _ _ Hall Hb Hr). Qed.

(** The premises of [rendered_mapped]. *)
Ltac plainKind mapped :=
  first [done | solve [inBase] | decided | rewrite mapped by (done || decided); vm_compute; reflexivity].

(** C31. The manifests of an instance agree with each other, with the pod and with
    the Ingress, whatever the context holds: the Deployment has the name of the
    instance, and the selectors of the Deployment, of the Service, of the
    NetworkPolicy and of the PodDisruptionBudget are exactly the labels of its
    pods; the Service has the name that the Ingress and the status use and sends
    its port to the port that the container listens on, and has the metrics port
    when monitoring is on and on a port of its own; the RoleBinding binds the
    ServiceAccount that is created, in the namespace of the instance. *)
Theorem manifests_agree path instance ctx operatorNS out :
  Server_Name instance ≠ "" → Meta_Namespace (Server_Meta instance) ≠ "" → namespacedKinds → loadsBase →
  RenderManifestWithContext IsDNS1123Label QuantityString Exists Run HPAToUnstructured path instance (Some ctx) operatorNS = Ok out →
  let name := Server_Name instance in
  let pods := Some (podLabels name) in
  let metrics := Workload.getMetricsPort instance in
  ∃ pvc account service policy deployment hpa pdb binding rule monitor,
    out = [pvc; account; service; policy; deployment; hpa; pdb; binding; rule; monitor] ∧
    at_ deployment ["metadata"; "name"] = Some (AString name) ∧
    at_ deployment ["spec"; "template"; "metadata"; "labels"] = pods ∧
    at_ deployment ["spec"; "selector"; "matchLabels"] = pods ∧
    at_ service ["spec"; "selector"] = pods ∧
    at_ policy ["spec"; "podSelector"; "matchLabels"] = pods ∧
    at_ pdb ["spec"; "selector"; "matchLabels"] = pods ∧
    at_ service ["metadata"; "name"] = Some (AString (GetServiceName instance)) ∧
    at_ service ["spec"; "ports"] = Some (AList
      (mapping_ [("name", AString "http"); ("protocol", AString "TCP"); ("port", AInt32 (GetServicePort instance));
                 ("targetPort", AInt32 (getContainerPort instance))] ::
       if isMonitoringDisabled instance || (metrics =? 0) || (metrics =? GetServicePort instance) then []
       else [metricsServicePort metrics])) ∧
    at_ account ["metadata"; "name"] = Some (AString (name +:+ "-sa")) ∧
    at_ account ["metadata"; "namespace"] = Some (AString (Meta_Namespace (Server_Meta instance))) ∧
    at_ binding ["subjects"] = Some (AList
      [mapping_ [("kind", AString "ServiceAccount"); ("name", AString (name +:+ "-sa"));
                 ("namespace", AString (Meta_Namespace (Server_Meta instance)))]]).
Proof.
  intros Hn Hns Hk Hb Hout name pods metrics.
  pose proof (out_rendered _ _ _ _ _ Hb Hout) as Hall.
  pose proof (Forall2_length _ _ _ Hall) as Hlen.
  destruct out as [|pvc [|account [|service [|policy [|deployment [|hpa [|pdb [|binding [|rule [|monitor [|]]]]]]]]]]]; try done.
  exists pvc, account, service, policy, deployment, hpa, pdb, binding, rule, monitor. split; [done|].
  pose proof (rendered_deployment instance Hn Hns Hk ctx operatorNS HPAToUnstructured) as (D1 & D2 & D3 & _).
  pose proof (rendered_service instance Hn Hns Hk ctx operatorNS HPAToUnstructured) as (S1 & S2 & S3).
  split_and!.
  - by apply (rendered_at _ _ _ _ 4 _ _ _ _ Hall eq_refl eq_refl).
  - by apply (rendered_at _ _ _ _ 4 _ _ _ _ Hall eq_refl eq_refl).
  - by apply (rendered_at _ _ _ _ 4 _ _ _ _ Hall eq_refl eq_refl).
  - by apply (rendered_at _ _ _ _ 2 _ _ _ _ Hall eq_refl eq_refl).
  - apply (rendered_at _ _ _ _ 3 _ _ _ _ Hall eq_refl eq_refl). by apply rendered_policy.
  - apply (rendered_at _ _ _ _ 6 _ _ _ _ Hall eq_refl eq_refl). by apply rendered_budget.
  - by apply (rendered_at _ _ _ _ 2 _ _ _ _ Hall eq_refl eq_refl).
  - apply (rendered_at _ _ _ _ 2 _ _ _ _ Hall eq_refl eq_refl). rewrite S3, getContainerPort_service.
    do 3 f_equal. subst metrics. unfold NetworkPolicy.getEffectiveMetricsPort, isMonitoringDisabled, Workload.getMetricsPort.
    destruct (Spec_Monitoring _) as [m|]; [|done]. destruct (Mon_Enabled m) as [[]|]; cbn [negb orb]; done || by destruct (Mon_MetricsPort m).
  - apply (rendered_at _ _ _ _ 1 _ _ _ _ Hall eq_refl eq_refl). rewrite rendered_mapped by (plainKind serviceAccount_mapped).
    by rewrite serviceAccount_mapped by (done || decided).
  - apply (rendered_at _ _ _ _ 1 _ _ _ _ Hall eq_refl eq_refl). rewrite rendered_mapped by (plainKind serviceAccount_mapped).
    by rewrite serviceAccount_mapped by (done || decided).
  - apply (rendered_at _ _ _ _ 7 _ _ _ _ Hall eq_refl eq_refl). rewrite rendered_mapped by (plainKind roleBinding_mapped).
    by rewrite roleBinding_mapped by (done || decided).
Qed.

(** The rendered Deployment, and what the view of its base manifest is. *)
Lemma deployment_view path instance ctx operatorNS out :
  loadsBase →
  RenderManifestWithContext IsDNS1123Label QuantityString Exists Run HPAToUnstructured path instance (Some ctx) operatorNS = Ok out →
  ∃ deployment, out !! 4%nat = Some deployment ∧
    ∀ d, renderView QuantityString HPAToUnstructured instance (Some ctx) operatorNS deploymentManifest = Some d → view deployment = d.
Proof.
  intros Hb Hout. destruct (render_refine _ _ _ _ _ _ _ _ _ _ Hout) as (base & Hrun & Hall).
  assert (view <$> base = baseManifests) as Hbase by by destruct Hrun as [Hrun|Hrun]; apply Hb in Hrun.
  assert (∃ b, base !! 4%nat = Some b ∧ view b = deploymentManifest) as (b & Hb4 & Hv).
  { apply (f_equal (λ l : list object, l !! 4%nat)) in Hbase. rewrite list_lookup_fmap in Hbase.
    destruct (base !! 4%nat) as [b|]; [|done]. exists b. split; [done|]. by injection Hbase. }
  destruct (Forall2_lookup_l _ _ _ _ _ Hall Hb4) as (deployment & Hd & Hr). rewrite Hv in Hr. by exists deployment.
Qed.

(** The pod specification of the context, on the rendered Deployment. *)
Lemma deployment_pod_spec path instance ctx operatorNS out :
  Server_Name instance ≠ "" → Meta_Namespace (Server_Meta instance) ≠ "" → namespacedKinds → loadsBase →
  RenderManifestWithContext IsDNS1123Label QuantityString Exists Run HPAToUnstructured path instance (Some ctx) operatorNS = Ok out →
  ∃ deployment, out !! 4%nat = Some deployment ∧
    ∀ k, at_ deployment ["spec"; "template"; "spec"; k] =
         match default ∅ (MC_PodSpec ctx) !! k with Some v => Some v | None => templateDefaults instance !! k end.
Proof.
  intros Hn Hns Hk Hb Hout. destruct (deployment_view path instance ctx operatorNS out Hb Hout) as (deployment & Hd & Hr).
  exists deployment. split; [done|]. intros k.
  destruct (renderView_deployment instance Hn Hns Hk ctx operatorNS HPAToUnstructured) as (d & spec & Hview & _).
  pose proof (rendered_deployment instance Hn Hns Hk ctx operatorNS HPAToUnstructured) as (_ & _ & _ & _ & Hp & _).
  pose proof (Hr _ Hview) as Hdep. unfold rendered in Hp. rewrite Hview, <- Hdep in Hp. unfold field in Hp.
  cbn [mbind option_bind] in Hp. unfold at_. change ["spec"; "template"; "spec"; k] with (["spec"; "template"; "spec"] ++ [k]).
  rewrite lookupAt_app, Hp. cbn [mbind option_bind lookupAt child]. rewrite lookup_union.
  by destruct (default ∅ (MC_PodSpec ctx) !! k), (templateDefaults instance !! k).
Qed.

(** C32. The Deployment of an instance follows its spec and its context: the
    replicas of the spec (also zero), and none when an autoscaler is in charge;
    the Recreate strategy exactly when there is persistent storage; every key of
    the pod specification of the context, and, for a key that it lacks, what the
    manifest has there: the service account named after the instance, no
    containers and no volumes, and nothing else; and on the pods exactly the hashes
    that the context carries. *)
Theorem deployment_follows_spec path instance ctx operatorNS out :
  Server_Name instance ≠ "" → Meta_Namespace (Server_Meta instance) ≠ "" → namespacedKinds → loadsBase →
  RenderManifestWithContext IsDNS1123Label QuantityString Exists Run HPAToUnstructured path instance (Some ctx) operatorNS = Ok out →
  ∃ deployment, out !! 4%nat = Some deployment ∧ kindOf (view deployment) = "Deployment" ∧
    at_ deployment ["spec"; "replicas"] =
      (if isAutoscalingEnabled instance then None else Some (AInt32 (GetEffectiveReplicas instance))) ∧
    at_ deployment ["spec"; "strategy"; "type"] =
      match workload instance ≫= WL_Storage with Some _ => Some (AString "Recreate") | None => None end ∧
    (let podSpec := default ∅ (MC_PodSpec ctx) in
     (∀ k v, podSpec !! k = Some v → at_ deployment ["spec"; "template"; "spec"; k] = Some v) ∧
     (∀ k, podSpec !! k = None → at_ deployment ["spec"; "template"; "spec"; k] =
        if bool_decide (k = "serviceAccountName") then Some (AString (Server_Name instance +:+ "-sa"))
        else if bool_decide (k = "containers") then Some (AList [])
        else if bool_decide (k = "volumes") then Some (AList []) else None)) ∧
    (∀ key hash,
      (key, hash) ∈ [("configmap.hash/user-config", MC_ConfigMapHash ctx); ("configmap.hash/ca-bundle", MC_CABundleHash ctx);
                     ("secret.hash/referenced", MC_SecretHash ctx)] →
      at_ deployment ["spec"; "template"; "metadata"; "annotations"; key] =
        if bool_decide (hash = "") then None else Some (AString hash)).
Proof.
  intros Hn Hns Hk Hb Hout. destruct (deployment_view path instance ctx operatorNS out Hb Hout) as (deployment & Hd & Hr).
  exists deployment. split; [done|].
  destruct (renderView_deployment instance Hn Hns Hk ctx operatorNS HPAToUnstructured)
    as (d & spec & Hview & Hkind & _ & _ & Hrep & Hstr).
  pose proof (rendered_deployment instance Hn Hns Hk ctx operatorNS HPAToUnstructured) as (_ & _ & _ & Ha & Hp & Hrep' & Hstr').
  pose proof (Hr _ Hview) as Hdep. unfold rendered in Ha, Hp, Hrep', Hstr'. rewrite Hview, <- Hdep in Ha, Hp, Hrep', Hstr'.
  unfold field in Ha, Hp, Hrep', Hstr'. cbn [mbind option_bind] in Ha, Hp, Hrep', Hstr'. unfold at_.
  split.
  { by rewrite Hdep, kindOf_insert. }
  split; [done|]. split; [done|]. split.
  - destruct (deployment_pod_spec path instance ctx operatorNS out Hn Hns Hk Hb Hout) as (deployment' & Hd' & Hspec).
    rewrite Hd in Hd'. injection Hd' as <-. unfold at_ in Hspec. split; [intros k v Hkv|intros k Hkv]; [by rewrite Hspec, Hkv|].
    rewrite Hspec, Hkv. unfold templateDefaults. cbn [list_to_map foldr uncurry fst snd].
    repeat case_bool_decide; subst; try done. by rewrite !lookup_insert_ne.
  - intros key hash Hkey. change ["spec"; "template"; "metadata"; "annotations"; key]
      with (["spec"; "template"; "metadata"; "annotations"] ++ [key]).
    rewrite lookupAt_app, Ha. cbn [mbind option_bind lookupAt child]. unfold hashAnnotations.
    repeat (apply elem_of_cons in Hkey as [[= -> ->]|Hkey]); [..|by apply not_elem_of_nil in Hkey];
      cfg_lookup; by case_bool_decide.
Qed.

(** The excluded kinds are dropped, in the order of the others. *)
Lemma FilterExcludeKinds_Ok m kinds out :
  FilterExcludeKinds m kinds = Ok out → out = filter (λ r, kindOf (view r) ∉ kinds) m.
Proof using KL.
  unfold FilterExcludeKinds. assert (∀ acc out, foldM_result (λ filtered res,
    if negb (contains kinds (GetKind res)) then
      wrap "failed to append resource while filtering %s/%s: %w" [GetKind res; GetName res] (Append filtered res)
    else Ok filtered) m acc = Ok out → out = acc ++ filter (λ r, kindOf (view r) ∉ kinds) m) as Hfold; [|apply Hfold].
  induction m as [|r m IH]; intros acc out'; cbn [foldM_result].
  - intros [= <-]. by rewrite app_nil_r.
  - rewrite filter_cons, GetKind_view. unfold contains. case_bool_decide as Hr; cbn [negb].
    + rewrite decide_False by (intros Hn; by apply Hn). apply IH.
    + rewrite decide_True by done. intros Hout%bind_Ok. destruct Hout as (acc' & Happ%wrap_Ok%Append_spec & Hout).
      rewrite (IH _ _ Hout), Happ, <- (assoc_L app). done.
Qed.

(** The plugin takes a name for prefixed when it starts with the name of the
    instance: the policy of an instance called network keeps the name of the base
    manifest, and no deletion of [network-network-policy] finds it. *)
Lemma prefix_skipped :
  prefixView {| Prefix := "network"; IncludeKinds := []; ExcludeKinds := [deploymentKind] |} networkPolicyManifest
  = Some networkPolicyManifest ∧ nameOf networkPolicyManifest = "network-policy".
Proof using. split; vm_compute; reflexivity. Qed.
End theorems.

End references.
