(* ===== verification/Apply.v ===== *)
(** * Applying the manifests

    The apply half of [pkg/deploy/kustomizer.go] and [pkg/compare/]: each rendered
    resource is created, patched by server-side apply, replaced or left alone,
    depending on who owns the object of that name.

    The objects of all kinds are one store here, so the key of an object carries
    its group and kind next to its namespace. *)

From S2P Require Import Prelude Value ApiProviders ApiServer Fmt Client Action Objects Pointer Kustomize.

(** ** Objects of any kind *)

(** [unstructured.Unstructured]: [U_Object] is the tree outside the metadata. *)
Record Unstructured := {
  U_Group : string;
  U_Version : string;
  U_Kind : string;
  U_Meta : Metadata;
  U_UID : string;
  U_ResourceVersion : string;
  U_Object : object;
}.

(** The group, the kind and the namespace as the segments of a path. *)
Definition keyOf (group kind namespace name : string) : NamespacedName :=
  (pointerText (escapeToken <$> [group; kind; namespace]), name).

Lemma keyOf_inj g k ns n g' k' ns' n' : keyOf g k ns n = keyOf g' k' ns' n' → g = g' ∧ k = k' ∧ ns = ns' ∧ n = n'.
Proof.
  unfold keyOf. intros H. pose proof (f_equal fst H) as Hp. pose proof (f_equal snd H) as Hn. cbn [fst snd] in Hp, Hn.
  unfold pointerText in Hp. apply string_app_inj_l, (f_equal chars), (f_equal (tokensOf [])) in Hp.
  rewrite !tokensOf_pointer in Hp by done. by injection Hp as -> -> ->.
Qed.

#[global] Arguments keyOf _ _ _ _ : simpl never.

(** A scalar of a tree, reached through maps only: the server may reorder and
    extend lists, and add fields. *)
Fixpoint scalarAt (path : list string) (v : any) : option any :=
  match path, v with
  | [], AString _ | [], ABool _ | [], AInt _ | [], AInt32 _ => Some v
  | t :: path, AMap m => c ← m !! t; scalarAt path c
  | _, _ => None
  end.

Definition includes (d d' : object) : Prop :=
  ∀ path v, scalarAt path (AMap d) = Some v → scalarAt path (AMap d') = Some v.

#[export] Instance Unstructured_object : APIObject Unstructured := {
  objectKey := λ u, keyOf (U_Group u) (U_Kind u) (Obj_Namespace (U_Meta u)) (Obj_Name (U_Meta u));
  persists := λ u u',
    U_Kind u' = U_Kind u ∧
    Obj_Labels (U_Meta u') = Obj_Labels (U_Meta u) ∧
    Obj_Annotations (U_Meta u') = Obj_Annotations (U_Meta u) ∧
    Obj_OwnerReferences (U_Meta u') = Obj_OwnerReferences (U_Meta u) ∧
    includes (U_Object u) (U_Object u');
  deleting := λ u, Obj_Deleting (U_Meta u);
}.

Definition withUMeta (f : Metadata → Metadata) (u : Unstructured) : Unstructured :=
  {| U_Group := U_Group u; U_Version := U_Version u; U_Kind := U_Kind u; U_Meta := f (U_Meta u); U_UID := U_UID u;
     U_ResourceVersion := U_ResourceVersion u; U_Object := U_Object u |}.

Definition withUVersion (rv : string) (u : Unstructured) : Unstructured :=
  {| U_Group := U_Group u; U_Version := U_Version u; U_Kind := U_Kind u; U_Meta := U_Meta u; U_UID := U_UID u;
     U_ResourceVersion := rv; U_Object := U_Object u |}.

(** Server-side apply with forced ownership, and a deletion that is refused when
    the object is not the one that was read. *)
Class Applier (W : Type) := {
  ApplyPatch : W → Unstructured → Unstructured → W * option apiError;
  DeleteExact : W → Unstructured → W * option apiError;
}.

(** Applying a manifest sets its fields and keeps the owners, which it does not
    mention; a precondition names the object by its UID. *)
Class ApplierLaws (W : Type) `{Client W Unstructured, Applier W} : Prop := {
  ApplyPatch_spec : ∀ w existing desired, objectKey existing = objectKey desired →
    let '(w', e) := ApplyPatch w existing desired in
    (∀ k, k ≠ objectKey desired ∨ e ≠ None → stored w' k = stored w k) ∧
    (e = None → ∀ o, stored w (objectKey desired) = Some o →
       ∃ o', stored w' (objectKey desired) = Some o' ∧ U_UID o' = U_UID o ∧ U_Kind o' = U_Kind o ∧
         (Obj_OwnerReferences (U_Meta desired) = [] → Obj_OwnerReferences (U_Meta o') = Obj_OwnerReferences (U_Meta o)) ∧
         includes (U_Object desired) (U_Object o'));
  DeleteExact_spec : ∀ w existing,
    let '(w', e) := DeleteExact w existing in
    (∀ k, k ≠ objectKey existing ∨ e ≠ None → stored w' k = stored w k) ∧
    (e = None → ∃ o, stored w (objectKey existing) = Some o ∧ U_UID o = U_UID existing ∧
       U_ResourceVersion o = U_ResourceVersion existing ∧
       ∀ o', stored w' (objectKey existing) = Some o' → deleting o' = true ∧ persists o o') ∧
    (∀ e', e = Some (NotFound e') → stored w (objectKey existing) = None);
}.

(** ** The parts of a tree *)

(** [unstructured.NestedString], [""] when there is none. *)
Definition NestedString (d : object) (path : list string) : string := textAt path d.

(** [unstructured.NestedMap] *)
Definition NestedMap (d : object) (path : list string) : option object := lookupAt path (AMap d) ≫= as_object.

(** [unstructured.NestedSlice] *)
Definition NestedSlice (d : object) (path : list string) : option (list any) := lookupAt path (AMap d) ≫= as_list.

Definition roleRefIdentity (obj : Unstructured) : string :=
  let part name := NestedString (U_Object obj) ["roleRef"; name] in
  (part "apiGroup" +:+ "/" +:+ part "kind" +:+ "/" +:+ part "name")%string.

Definition roleRefChanged (desired existing : Unstructured) : bool :=
  negb (bool_decide (roleRefIdentity desired = roleRefIdentity existing)).

Definition ownedByInstance (existing : Unstructured) (ownerInstance : OGXServer) : bool :=
  existsb (λ ref, bool_decide (Owner_UID ref = Meta_UID (Server_Meta ownerInstance))) (Obj_OwnerReferences (U_Meta existing)).

(** ** Full replacement of a Deployment *)

(** What is read of a converted [appsv1.Deployment]. *)
Record DeploymentObject := {
  Dep_Volumes : list Volume;
  Dep_StrategyType : string;
  Dep_RollingUpdate : option any;
}.

Definition hasVolume (volumes : list Volume) (name : string) : bool :=
  existsb (λ vol, bool_decide (Vol_Name vol = name)) volumes.

Definition hasLegacyCABundleVolumes (deployment : Unstructured) : bool :=
  match NestedSlice (U_Object deployment) ["spec"; "template"; "spec"; "volumes"] with
  | None => false
  | Some volumes =>
      existsb (λ vol,
        match as_object vol with
        | None => false
        | Some volumeMap =>
            let volumeName := NestedString volumeMap ["name"] in
            (bool_decide (volumeName = "ca-bundle") && bool_decide (is_Some (volumeMap !! "emptyDir"))) ||
            bool_decide (volumeName = "ca-bundle-source")
        end) volumes
  end.

Definition hasStaleUserConfigVolume (desired existing : DeploymentObject) : bool :=
  hasVolume (Dep_Volumes existing) "user-config" && negb (hasVolume (Dep_Volumes desired) "user-config").

Section deployment.
(** [DefaultUnstructuredConverter.FromUnstructured] into a Deployment. *)
Context (toDeployment : object → result DeploymentObject).

Definition deploymentNeedsFullReplacement (desired existing : Unstructured) : string :=
  if hasLegacyCABundleVolumes existing then "legacy CA bundle volumes detected"
  else
    match toDeployment (U_Object existing) with
    | Err _ => ""
    | Ok existingDep =>
        match toDeployment (U_Object desired) with
        | Err _ => ""
        | Ok desiredDep =>
            if hasStaleUserConfigVolume desiredDep existingDep then "stale user-config volume detected"
            else if bool_decide (Dep_StrategyType desiredDep = "Recreate") && bool_decide (is_Some (Dep_RollingUpdate existingDep))
            then "incompatible rollingUpdate strategy detected"
            else ""
        end
    end.
End deployment.

(** ** The operations *)

Section apply.
Context {W : Type} `{!Client W Unstructured, !Applier W, KU : Kustomize}.
(** The REST mapper, the typed conversions, the owner reference, and the reading
    of a rendered resource. *)
Context (RESTMapping : string → string → string → result bool)
  (toDeployment : object → result DeploymentObject) (toService : object → result unit)
  (SetControllerReference : OGXServer → Metadata → result Metadata)
  (toUnstructured : Resource → result Unstructured).

Implicit Types (ownerInstance : OGXServer) (desired existing u : Unstructured).

(** [err := cli.Get(...)], where the caller looks at the error. *)
Definition getting (k : NamespacedName) : M W (apiError + Unstructured) := gets (λ w, Get w k).

(** [return err] of a call. *)
Definition calling (run : W → W * option apiError) : M W unit :=
  λ w, let '(w', e) := run w in (w', match e with Some e => Err (apiErr e) | None => Ok tt end).

Definition clusterRoleKey (name : string) : NamespacedName := keyOf "rbac.authorization.k8s.io" "ClusterRole" "" name.
Definition crdKey (name : string) : NamespacedName := keyOf "apiextensions.k8s.io" "CustomResourceDefinition" "" name.

(** Whether a RoleBinding is skipped. *)
Definition CheckClusterRoleExists (crb : Unstructured) : M W bool :=
  match NestedMap (U_Object crb) ["roleRef"] with
  | None => mret false
  | Some roleRef =>
      let roleName := NestedString roleRef ["name"] in
      if bool_decide (roleName = "") then mret false
      else
        r ← getting (clusterRoleKey roleName);
        match r with
        | inl e => if IsNotFound e then mret true else raise (apiErr e)
        | inr _ => mret false
        end
  end.

Definition CheckCRDExists (crdName : string) : M W bool :=
  r ← getting (crdKey crdName);
  match r with
  | inl e => if IsNotFound e then mret false else raise (apiErr e)
  | inr _ => mret true
  end.

Fixpoint allCRDsExist (crdNames : list string) : M W bool :=
  match crdNames with
  | [] => mret true
  | crdName :: crdNames =>
      exists_ ← wrapM "failed to check CRD %s: %w" [crdName] (CheckCRDExists crdName);
      if negb exists_ then mret false else allCRDsExist crdNames
  end.

Definition MonitoringCRDsAvailable : M W bool :=
  allCRDsExist ["servicemonitors.monitoring.coreos.com"; "prometheusrules.monitoring.coreos.com"].

Definition isClusterScoped (group version kind : string) : result bool :=
  wrap "failed to get REST mapping for GVK %v: %w" [group; version; kind] (RESTMapping group version kind).

Definition createResource obj ownerInstance : M W unit :=
  scoped ← pureM (wrap "failed to determine resource scope: %w" [] (isClusterScoped (U_Group obj) (U_Version obj) (U_Kind obj)));
  let skipOwnerRef := scoped || bool_decide (U_Kind obj = "PersistentVolumeClaim") in
  obj ← pureM (if skipOwnerRef then Ok obj
               else
                 m ← wrap "failed to set controller reference for %s: %w" [U_Kind obj]
                   (SetControllerReference ownerInstance (U_Meta obj));
                 Ok (withUMeta (λ _, m) obj));
  calling (λ w, Create w obj).

(** An [AlreadyExists] of the creation only changes the text of the error. *)
Definition replaceOwnedRoleBinding desired existing ownerInstance : M W unit :=
  let name := Obj_Name (U_Meta existing) in
  let namespace := Obj_Namespace (U_Meta existing) in
  _ ← (λ w,
    let '(w', e) := DeleteExact w existing in
    (w', match e with
         | Some e => if IsNotFound e then Ok tt
                     else Err (Wrapf "failed to delete RoleBinding %s/%s for replacement: %w" [namespace; name] (apiErr e))
         | None => Ok tt
         end));
  wrapM "failed to create replacement RoleBinding %s/%s: %w" [namespace; name] (createResource desired ownerInstance).

(** [true]: the object was handled. *)
Definition replaceRoleBindingOnRoleRefChange desired existing ownerInstance : M W bool :=
  if negb (bool_decide (U_Kind existing = "RoleBinding")) || negb (roleRefChanged desired existing) then mret false
  else if negb (IsControlledBy (U_Meta existing) ownerInstance) then mret true
  else _ ← replaceOwnedRoleBinding desired existing ownerInstance; mret true.

(** The differences are only logged; a Service that is gone, or that cannot be
    read as one, is told apart. *)
Definition CheckAndLogServiceChanges desired : M W unit :=
  r ← getting (objectKey desired);
  match r with
  | inl e =>
      if IsNotFound e then mret tt
      else raise (Wrapf "failed to fetch existing service for comparison: %w" [] (apiErr e))
  | inr _ => pureM (wrap "failed to convert desired unstructured object to Service: %w" [] (toService (U_Object desired)))
  end.

Definition applyResourcePatch desired existing : M W unit :=
  let patch : M W unit := calling (λ w, ApplyPatch w existing desired) in
  if bool_decide (U_Kind existing = "PersistentVolumeClaim") then mret tt
  else if bool_decide (U_Kind existing = "Service") then
    _ ← wrapM "failed to validate resource mutations while patching: %w" [] (CheckAndLogServiceChanges desired);
    patch
  else if bool_decide (U_Kind existing = deploymentKind) then
    if negb (bool_decide (deploymentNeedsFullReplacement toDeployment desired existing = ""))
    then calling (λ w, Update w (withUVersion (U_ResourceVersion existing) desired))
    else patch
  else patch.

Definition patchResource desired existing ownerInstance : M W unit :=
  if negb (ownedByInstance existing ownerInstance) then mret tt
  else
    handled ← replaceRoleBindingOnRoleRefChange desired existing ownerInstance;
    if handled : bool then mret tt else applyResourcePatch desired existing.

Definition OGXServerKind : string := "OGXServer".

Definition manageResource (res : Resource) ownerInstance : M W unit :=
  if bool_decide (GetKind res = OGXServerKind) && bool_decide (GetName res = Server_Name ownerInstance) &&
     bool_decide (GetNamespace res = Meta_Namespace (Server_Meta ownerInstance))
  then mret tt
  else
    u ← pureM (wrap "failed to unmarshal resource: %w" [] (toUnstructured res));
    shouldSkip ← if bool_decide (U_Kind u = "RoleBinding")
                 then wrapM "failed to check ClusterRole existence: %w" [] (CheckClusterRoleExists u) else mret false;
    if shouldSkip : bool then mret tt
    else
      r ← getting (objectKey u);
      match r with
      | inl e =>
          if negb (IsNotFound e) then raise (Wrapf "failed to get resource: %w" [] (apiErr e))
          else createResource u ownerInstance
      | inr found => patchResource u found ownerInstance
      end.

Fixpoint ApplyResources (ownerInstance : OGXServer) (resMap : list Resource) : M W unit :=
  match resMap with
  | [] => mret tt
  | res :: resMap =>
      _ ← wrapM "failed to manage resource %s/%s: %w" [GetKind res; GetName res] (manageResource res ownerInstance);
      ApplyResources ownerInstance resMap
  end.
End apply.

#[global] Arguments calling {_} _ _ : simpl never.
#[global] Arguments CheckAndLogServiceChanges {_ _} _ _ _ : simpl never.
#[global] Arguments deploymentNeedsFullReplacement _ _ _ : simpl never.
