(* ===== verification/ApplyFacts.v ===== *)
(** * Whom applying the manifests affects

    The ownership rules of the apply step, what a successful run establishes, and
    how the full replacement of a Deployment loses its owner. *)

From S2P Require Import Prelude Value ApiProviders ApiServer Fmt Client Action Objects Pointer Kustomize Apply.

Section facts.
Context {W : Type} `{!Client W Unstructured, CL : !ClientLaws W Unstructured, AP : !Applier W, AL : !ApplierLaws W, KU : Kustomize}.
Context (RESTMapping : string → string → string → result bool)
  (toDeployment : object → result DeploymentObject) (toService : object → result unit)
  (SetControllerReference : OGXServer → Metadata → result Metadata)
  (toUnstructured : Resource → result Unstructured).
Context (instance : OGXServer).
#[local] Set Default Proof Using "Type*".

#[local] Abbreviation manage := (manageResource RESTMapping toDeployment toService SetControllerReference toUnstructured).
#[local] Abbreviation applyAll := (ApplyResources RESTMapping toDeployment toService SetControllerReference toUnstructured).
#[local] Abbreviation create := (createResource RESTMapping SetControllerReference).

(** The object belongs to someone else, or is a volume claim. *)
Definition untouchable (o : Unstructured) : Prop := ownedByInstance o instance = false ∨ U_Kind o = "PersistentVolumeClaim".

(** Outside [K] nothing changes, and what is untouchable does not change. *)
Definition respects (K : list NamespacedName) (w w' : W) : Prop :=
  (∀ k, k ∉ K → stored w' k = stored w k) ∧ ∀ k o, stored w k = Some o → untouchable o → stored w' k = Some o.

#[local] Instance respects_preorder K : PreOrder (respects K).
Proof.
  split.
  - intros w. done.
  - intros w1 w2 w3 [F1 U1] [F2 U2]. split; [intros k Hk; by rewrite F2, F1|]. intros k o Ho Hu. by apply U2, Hu; apply U1.
Qed.

(** A write at one key, whose object may be changed. *)
Lemma respects_write K w w' k :
  k ∈ K → (∀ k', k' ≠ k → stored w' k' = stored w k') → (∀ o, stored w k = Some o → untouchable o → stored w' k = Some o) →
  respects K w w'.
Proof.
  intros Hk Hf Hu. split.
  - intros k' Hk'. apply Hf. by intros ->.
  - intros k' o Ho Huo. destruct (decide (k' = k)) as [->|Hne]; [by apply Hu|by rewrite Hf].
Qed.

Lemma Create_respects K w u : objectKey u ∈ K → respects K w (Create w u).1.
Proof.
  intros Hk. pose proof (Create_spec w u) as Hs. destruct (Create w u) as [w' e]. destruct Hs as [Hf Hc].
  apply (respects_write _ _ _ _ Hk); [intros; apply Hf; by left|]. intros o Ho _.
  destruct e as [e|]; [rewrite Hf by (by right); done|]. destruct (Hc eq_refl) as [Hn _]. by rewrite Hn in Ho.
Qed.

Lemma calling_state (run : W → W * option apiError) w : (calling run w).1 = (run w).1.
Proof. unfold calling. by destruct (run w). Qed.

(** What [createResource] writes. *)
Definition creates (u u' : Unstructured) : Prop :=
  (u' = u ∧ (U_Kind u = "PersistentVolumeClaim" ∨ RESTMapping (U_Group u) (U_Version u) (U_Kind u) = Ok true)) ∨
  ∃ m, SetControllerReference instance (U_Meta u) = Ok m ∧ u' = withUMeta (λ _, m) u.

Lemma createResource_run u w :
  (∃ e, create u instance w = (w, Err e)) ∨ ∃ u', creates u u' ∧ create u instance w = calling (λ w, Create w u') w.
Proof.
  unfold createResource, isClusterScoped, pureM, mbind, M_bind.
  destruct (RESTMapping _ _ _) as [scoped|e] eqn:Hs; cbn; [|by left; eauto].
  destruct (scoped || _) eqn:Hskip.
  - right. exists u. split; [|done]. left. split; [done|]. apply orb_true_iff in Hskip as [->|Hp]; [by right|].
    left. by apply bool_decide_eq_true in Hp.
  - destruct (SetControllerReference instance (U_Meta u)) as [m|e] eqn:Hm; cbn; [|by left; eauto].
    right. eexists. split; [right; by eexists|done].
Qed.

Context (Hset : setsController SetControllerReference).

Lemma creates_key u u' : creates u u' → objectKey u' = objectKey u ∧ U_Kind u' = U_Kind u.
Proof. intros [[-> _]|(m & Hm & ->)]; [done|]. destruct (Hset _ _ _ Hm) as [-> _]. done. Qed.

Lemma createResource_respects K u : objectKey u ∈ K → keeps (respects K) (create u instance).
Proof.
  intros Hk w. destruct (createResource_run u w) as [[e ->]|(u' & Hu & ->)]; [done|].
  rewrite calling_state. apply Create_respects. by destruct (creates_key _ _ Hu) as [-> _].
Qed.

Lemma IsControlledBy_owned u : IsControlledBy (U_Meta u) instance = true → ownedByInstance u instance = true.
Proof.
  unfold IsControlledBy, GetControllerOf, ownedByInstance. destruct (List.find _ _) as [r|] eqn:Hf; [|done].
  intros Hr. apply existsb_exists. exists r. split; [by apply find_some in Hf as [? _]|done].
Qed.

(** ** One resource *)

Section patch.
Context (K : list NamespacedName) (w : W) (desired existing : Unstructured).
Context (Hex : stored w (objectKey existing) = Some existing) (Hkey : objectKey existing = objectKey desired)
  (Hk : objectKey desired ∈ K).

(** A write at the key of an object that is owned, and is no claim. *)
Lemma owned_write w' :
  ownedByInstance existing instance = true → U_Kind existing ≠ "PersistentVolumeClaim" →
  (∀ k, k ≠ objectKey desired → stored w' k = stored w k) → respects K w w'.
Proof.
  intros Ho Hp Hf. apply (respects_write _ _ _ _ Hk Hf). intros o Hs. rewrite <- Hkey, Hex in Hs. injection Hs as <-.
  intros [Hn|Hn]; congruence.
Qed.

Lemma replaceOwned_respects :
  ownedByInstance existing instance = true → U_Kind existing = "RoleBinding" →
  respects K w (replaceOwnedRoleBinding RESTMapping SetControllerReference desired existing instance w).1.
Proof.
  intros Ho Hrb. unfold replaceOwnedRoleBinding. rewrite bindM_run.
  pose proof (DeleteExact_spec w existing) as Hd. destruct (DeleteExact w existing) as [w1 e]. destruct Hd as [Hf _].
  assert (respects K w w1) as H1.
  { apply owned_write; [done|by rewrite Hrb|]. intros k Hne. apply Hf. left. by rewrite Hkey. }
  destruct e as [e|]; cbn [fst snd]; [destruct (IsNotFound e); cbn [fst]; [|done]|];
    (etransitivity; [exact H1|]); rewrite wrapM_run; by apply createResource_respects.
Qed.

Lemma CheckAndLogServiceChanges_reads u : (CheckAndLogServiceChanges toService u w).1 = w.
Proof using.
  unfold CheckAndLogServiceChanges. rewrite bindM_run. cbn [getting gets fst snd]. destruct (Get w _) as [e|o].
  - by destruct (IsNotFound e).
  - unfold pureM. done.
Qed.

Lemma applyResourcePatch_respects :
  ownedByInstance existing instance = true →
  respects K w (applyResourcePatch toDeployment toService desired existing w).1.
Proof.
  intros Ho. unfold applyResourcePatch. case_bool_decide as Hp; [done|].
  assert (respects K w (calling (λ w, ApplyPatch w existing desired) w).1) as Hpatch.
  { rewrite calling_state. apply owned_write; [done|done|].
    intros k Hne. pose proof (ApplyPatch_spec w existing desired Hkey) as Ha. destruct (ApplyPatch _ _ _) as [w' e].
    apply Ha. by left. }
  case_bool_decide; [|case_bool_decide; [case_match; [|done]|done]].
  - rewrite bindM_run, wrapM_run. cbn [fst snd]. rewrite CheckAndLogServiceChanges_reads.
    destruct (wrap _ _ _); done.
  - rewrite calling_state. apply owned_write; [done|done|]. intros k Hne.
    pose proof (Update_spec w (withUVersion (U_ResourceVersion existing) desired)) as Hu.
    destruct (Update w _) as [w' e]. apply Hu. by left.
Qed.

Lemma patchResource_respects :
  respects K w (patchResource RESTMapping toDeployment toService SetControllerReference desired existing instance w).1.
Proof.
  unfold patchResource. destruct (ownedByInstance existing instance) eqn:Ho; [|done]. cbn [negb].
  unfold replaceRoleBindingOnRoleRefChange. rewrite bindM_run.
  case_bool_decide as Hrb; cbn [negb orb]; [|by apply applyResourcePatch_respects].
  destruct (roleRefChanged desired existing); cbn [negb]; [|by apply applyResourcePatch_respects].
  destruct (IsControlledBy _ _); cbn [negb]; [|done]. rewrite bindM_run.
  pose proof (replaceOwned_respects Ho Hrb) as Hr. by destruct (replaceOwnedRoleBinding _ _ _ _ _ w) as [w' [[]|e]].
Qed.
End patch.

(** The keys that the manifests name. *)
Definition keysOf (resMap : list Resource) : list NamespacedName :=
  omap (λ res, match toUnstructured res with Ok u => Some (objectKey u) | Err _ => None end) resMap.

Lemma CheckClusterRoleExists_reads u w : (CheckClusterRoleExists u w).1 = w.
Proof using.
  unfold CheckClusterRoleExists. destruct (NestedMap _ _) as [ref|]; [|done]. case_bool_decide; [done|].
  rewrite bindM_run. cbn [getting gets fst snd]. destruct (Get w _) as [e|o]; [by destruct (IsNotFound e)|done].
Qed.

Lemma manageResource_respects K res :
  (∀ u, toUnstructured res = Ok u → objectKey u ∈ K) → keeps (respects K) (manage res instance).
Proof.
  intros Hk w. unfold manageResource. destruct (_ && _); [done|]. rewrite bindM_run.
  unfold pureM. cbn [fst snd]. destruct (toUnstructured res) as [u|e] eqn:Hu; cbn [wrap]; [|done].
  specialize (Hk _ eq_refl). rewrite bindM_run.
  assert ((((if bool_decide (U_Kind u = "RoleBinding")
             then wrapM "failed to check ClusterRole existence: %w" [] (CheckClusterRoleExists u) else mret false) : M W bool) w).1 = w)
    as -> by (case_bool_decide; [rewrite wrapM_run; apply CheckClusterRoleExists_reads|done]).
  destruct (_ : result bool) as [[]|e]; [done| |done]. rewrite bindM_run. cbn [getting gets fst snd].
  pose proof (Get_spec w (objectKey u)) as Hg. destruct (Get w (objectKey u)) as [e|found].
  - destruct (IsNotFound e); cbn [negb]; [by apply createResource_respects|done].
  - apply patchResource_respects; [|by apply stored_key in Hg|done].
    by rewrite (stored_key _ _ _ Hg).
Qed.

Lemma ApplyResources_respects K resMap : keysOf resMap ⊆ K → keeps (respects K) (applyAll instance resMap).
Proof.
  induction resMap as [|res resMap IH]; intros HK; cbn [ApplyResources]; [apply keeps_ret, _|].
  apply keeps_bind; [apply _|apply keeps_wrap; [apply _|]; apply manageResource_respects|intros _; apply IH].
  - intros u Hu. apply HK. unfold keysOf. cbn. rewrite Hu. by left.
  - intros k Hk. apply HK. unfold keysOf in *. cbn. destruct (toUnstructured res); [by right|done].
Qed.

(** C33. Applying the manifests of an instance, in every run and whatever fails: an
    object whose owner references do not name the instance is exactly what it
    was, so is every persistent volume claim, whoever owns it, and no object
    changes that no manifest names. *)
Theorem apply_ownership resMap w :
  let w' := (applyAll instance resMap w).1 in
  (∀ k, k ∉ keysOf resMap → stored w' k = stored w k) ∧
  (∀ k o, stored w k = Some o → ownedByInstance o instance = false ∨ U_Kind o = "PersistentVolumeClaim" →
    stored w' k = Some o).
Proof. exact (ApplyResources_respects (keysOf resMap) resMap (λ k Hk, Hk) w). Qed.

(** ** What a successful run establishes *)

(** The outcome for the manifest [u], between the states [w] and [w']. *)
Definition established (u : Unstructured) (w w' : W) : Prop :=
  ∃ o, stored w' (objectKey u) = Some o ∧
    (stored w (objectKey u) = None →
       includes (U_Object u) (U_Object o) ∧
       (IsControlledBy (U_Meta o) instance = true ∨ U_Kind u = "PersistentVolumeClaim" ∨
        RESTMapping (U_Group u) (U_Version u) (U_Kind u) = Ok true)) ∧
    (∀ o0, stored w (objectKey u) = Some o0 → ownedByInstance o0 instance = true →
       U_Kind o0 ≠ "PersistentVolumeClaim" → includes (U_Object u) (U_Object o)).

Lemma createResource_Ok u w w' : create u instance w = (w', Ok tt) →
  stored w (objectKey u) = None ∧ ∃ o, stored w' (objectKey u) = Some o ∧ includes (U_Object u) (U_Object o) ∧
    (IsControlledBy (U_Meta o) instance = true ∨ U_Kind u = "PersistentVolumeClaim" ∨
     RESTMapping (U_Group u) (U_Version u) (U_Kind u) = Ok true).
Proof.
  destruct (createResource_run u w) as [[e ->]|(u' & Hu & ->)]; [done|]. destruct (creates_key _ _ Hu) as [Hk Hkind].
  unfold calling. pose proof (Create_spec w u') as Hs. destruct (Create w u') as [w1 [e|]]; [done|].
  destruct Hs as [_ Hs]. destruct (Hs eq_refl) as (Hn & o & Ho & _ & _ & _ & Howners & Hincl). intros [= <-].
  rewrite Hk in Hn, Ho. split; [done|]. exists o. split; [done|].
  destruct Hu as [[-> Hskip]|(m & Hm & ->)]; [by auto|]. split; [done|]. left.
  destruct (Hset _ _ _ Hm) as (_ & Hc & _). unfold IsControlledBy, GetControllerOf in *. by rewrite Howners.
Qed.

Lemma patch_Ok desired existing w w' :
  objectKey existing = objectKey desired → stored w (objectKey existing) = Some existing →
  patchResource RESTMapping toDeployment toService SetControllerReference desired existing instance w = (w', Ok tt) →
  U_Kind existing ≠ "RoleBinding" → ownedByInstance existing instance = true → U_Kind existing ≠ "PersistentVolumeClaim" →
  ∃ o, stored w' (objectKey desired) = Some o ∧ includes (U_Object desired) (U_Object o).
Proof.
  intros Hkey Hex Hrun Hrb Ho Hp. unfold patchResource in Hrun. rewrite Ho in Hrun. cbn [negb] in Hrun.
  unfold replaceRoleBindingOnRoleRefChange in Hrun. rewrite bool_decide_eq_false_2 in Hrun by done.
  rewrite bindM_run in Hrun. cbn in Hrun. unfold applyResourcePatch in Hrun. rewrite bool_decide_eq_false_2 in Hrun by done.
  assert (∀ w0, calling (λ w, ApplyPatch w existing desired) w = (w0, Ok tt) →
    ∃ o, stored w0 (objectKey desired) = Some o ∧ includes (U_Object desired) (U_Object o)) as Hpatch.
  { intros w0. unfold calling. pose proof (ApplyPatch_spec w existing desired Hkey) as Ha.
    destruct (ApplyPatch _ _ _) as [w1 [e|]]; [done|]. intros [= <-]. destruct Ha as [_ Ha].
    rewrite Hkey in Hex. destruct (Ha eq_refl _ Hex) as (o & Hs & _ & _ & _ & Hi). eauto. }
  case_bool_decide; [|case_bool_decide; [case_match|]].
  - rewrite bindM_run, wrapM_run in Hrun. cbn [fst snd] in Hrun. rewrite CheckAndLogServiceChanges_reads in Hrun.
    destruct (wrap _ _ _) as [[]|e]; [by apply Hpatch|done].
  - unfold calling in Hrun. pose proof (Update_spec w (withUVersion (U_ResourceVersion existing) desired)) as Hu.
    destruct (Update w _) as [w1 [e|]]; [done|]. injection Hrun as <-. destruct Hu as [_ Hu].
    destruct (Hu eq_refl) as (o & Hs & _ & _ & _ & _ & Hi). exists o. split; [exact Hs|exact Hi].
  - by apply Hpatch.
  - by apply Hpatch.
Qed.

(** The resource is the custom resource itself. *)
Definition ownResource (res : Resource) : bool :=
  bool_decide (GetKind res = OGXServerKind) && bool_decide (GetName res = Server_Name instance) &&
  bool_decide (GetNamespace res = Meta_Namespace (Server_Meta instance)).

Lemma manageResource_Ok res u w w' :
  manage res instance w = (w', Ok tt) → toUnstructured res = Ok u → ownResource res = false →
  U_Kind u ≠ "RoleBinding" → established u w w'.
Proof.
  intros Hrun Hu Hown Hrb. unfold manageResource in Hrun. unfold ownResource in Hown. rewrite Hown in Hrun.
  rewrite bindM_run in Hrun. unfold pureM in Hrun. cbn [fst snd] in Hrun. rewrite Hu in Hrun. cbn [wrap] in Hrun.
  rewrite bool_decide_eq_false_2 in Hrun by done. rewrite bindM_run in Hrun. cbn [mret M_ret fst snd] in Hrun.
  rewrite bindM_run in Hrun. cbn [getting gets fst snd] in Hrun.
  pose proof (Get_spec w (objectKey u)) as Hg. destruct (Get w (objectKey u)) as [e|found].
  - destruct (IsNotFound e) eqn:He; cbn [negb] in Hrun; [|done].
    destruct (createResource_Ok _ _ _ Hrun) as (Hn & o & Ho & Hi & Hc).
    exists o. split; [done|]. split; [done|]. intros o0. by rewrite Hn.
  - pose proof (stored_key _ _ _ Hg) as Hkey. assert (stored w (objectKey found) = Some found) as Hex by by rewrite Hkey.
    pose proof (patchResource_respects [objectKey u] w u found Hex Hkey ltac:(by left)) as Hr. rewrite Hrun in Hr. cbn [fst] in Hr.
    destruct (decide (untouchable found)) as [Hun|Hun].
    + exists found. destruct Hr as [_ Hr]. split; [by apply Hr|]. rewrite Hg. split; [done|].
      intros o0 [= <-] Ho Hp. destruct Hun; congruence.
    + assert (ownedByInstance found instance = true) as Ho by (destruct (ownedByInstance _ _) eqn:E; [done|destruct Hun; by left]).
      assert (U_Kind found ≠ "PersistentVolumeClaim") as Hp by (intros E; apply Hun; by right).
      assert (U_Kind found = U_Kind u) as Hk by by apply keyOf_inj in Hkey as (_ & ? & _).
      destruct (patch_Ok u found w w' Hkey Hex Hrun) as (o & Hs & Hi); [by rewrite Hk|done|done|].
      exists o. split; [done|]. rewrite Hg. done.
Qed.

Lemma established_frame K u w0 w1 w2 : objectKey u ∉ K → respects K w1 w2 → established u w0 w1 → established u w0 w2.
Proof. intros Hk [Hf _] (o & Ho & H1 & H2). exists o. by rewrite Hf. Qed.

Lemma established_before K u w0 w1 w2 : objectKey u ∉ K → respects K w0 w1 → established u w1 w2 → established u w0 w2.
Proof. intros Hk [Hf _] (o & Ho & H1 & H2). exists o. by rewrite <- (Hf _ Hk). Qed.

(** C34. What a successful application establishes, when no two manifests name the
    same object: every manifest but a RoleBinding (and the custom resource
    itself) is in the cluster; one that was not there has been created with its
    fields and with the instance as its controller, unless it is a volume claim
    or of a cluster-scoped kind; one that the instance owned, and is not a
    claim, has the fields of the manifest now. *)
Theorem apply_establishes resMap w w' res u :
  applyAll instance resMap w = (w', Ok tt) → NoDup (keysOf resMap) →
  res ∈ resMap → toUnstructured res = Ok u → ownResource res = false → U_Kind u ≠ "RoleBinding" →
  established u w w'.
Proof.
  intros Hrun Hnd Hin Hu Hown Hrb. revert w Hrun Hnd Hin. induction resMap as [|r resMap IH]; intros w Hrun Hnd Hin.
  { by apply not_elem_of_nil in Hin. }
  cbn [ApplyResources] in Hrun. apply bindM_Ok in Hrun as (w1 & [] & H1 & Hrun). apply wrapM_Ok in H1.
  apply elem_of_cons in Hin as [<-|Hin].
  - unfold keysOf in Hnd. cbn in Hnd. rewrite Hu in Hnd. apply NoDup_cons in Hnd as [Hn _].
    eapply established_frame; [exact Hn| |by eapply manageResource_Ok].
    pose proof (ApplyResources_respects (keysOf resMap) resMap (λ k Hk, Hk) w1) as Hr. by rewrite Hrun in Hr.
  - assert (objectKey u ∈ keysOf resMap) as Hku.
    { apply list_elem_of_omap. exists res. by rewrite Hu. }
    unfold keysOf in Hnd. cbn in Hnd. destruct (toUnstructured r) as [v|e] eqn:Hv.
    + apply NoDup_cons in Hnd as [Hn Hnd]. eapply (established_before [objectKey v]); [|  |by apply IH].
      * intros E%list_elem_of_singleton. apply Hn. change (objectKey v ∈ keysOf resMap). by rewrite <- E.
      * pose proof (manageResource_respects [objectKey v] r) as Hr.
        specialize (Hr ltac:(intros v' Hv'; rewrite Hv in Hv'; injection Hv' as <-; by left) w). by rewrite H1 in Hr.
    + eapply (established_before []); [by apply not_elem_of_nil| |by apply IH].
      pose proof (manageResource_respects [] r) as Hr. specialize (Hr ltac:(intros v' Hv'; by rewrite Hv in Hv') w).
      by rewrite H1 in Hr.
Qed.

(** ** The full replacement loses the owner *)

(** When the Deployment of the instance must be replaced in full (a legacy or
    stale volume, or a change of strategy), the replacement is an update with the
    rendered manifest, which has no owner references: after the successful run
    the Deployment belongs to nobody, is not removed with the instance, and no
    later run, with whatever manifests, changes it again. *)
Theorem full_replacement_orphans res u o w w' :
  toUnstructured res = Ok u → ownResource res = false → Obj_OwnerReferences (U_Meta u) = [] →
  stored w (objectKey u) = Some o → U_Kind u = "Deployment" → ownedByInstance o instance = true →
  deploymentNeedsFullReplacement toDeployment u o ≠ "" →
  manage res instance w = (w', Ok tt) →
  ∃ o', stored w' (objectKey u) = Some o' ∧ includes (U_Object u) (U_Object o') ∧
    Obj_OwnerReferences (U_Meta o') = [] ∧
    ∀ resMap, stored (applyAll instance resMap w').1 (objectKey u) = Some o'.
Proof.
  intros Hu Hown Hno Hs Hkind Ho Hfull Hrun. unfold manageResource in Hrun. unfold ownResource in Hown. rewrite Hown in Hrun.
  rewrite bindM_run in Hrun. unfold pureM in Hrun. cbn [fst snd] in Hrun. rewrite Hu in Hrun. cbn [wrap] in Hrun.
  rewrite Hkind, bool_decide_eq_false_2 in Hrun by done. rewrite bindM_run in Hrun. cbn [mret M_ret fst snd] in Hrun.
  rewrite bindM_run in Hrun. cbn [getting gets fst snd] in Hrun.
  pose proof (Get_spec w (objectKey u)) as Hg. destruct (Get w (objectKey u)) as [e|found].
  { destruct e; cbn in Hrun; try done. congruence. }
  rewrite Hs in Hg. injection Hg as <-. unfold patchResource in Hrun. rewrite Ho in Hrun. cbn [negb] in Hrun.
  assert (U_Kind o = "Deployment") as Hok.
  { rewrite <- Hkind. pose proof (stored_key _ _ _ Hs) as Hkey. by apply keyOf_inj in Hkey as (_ & ? & _). }
  unfold replaceRoleBindingOnRoleRefChange in Hrun. rewrite Hok in Hrun.
  rewrite bool_decide_eq_false_2 in Hrun by done. rewrite bindM_run in Hrun. cbn in Hrun.
  unfold applyResourcePatch in Hrun. rewrite Hok, !(bool_decide_eq_false_2 ("Deployment" = _)) in Hrun by done.
  change (bool_decide ("Deployment" = deploymentKind)) with true in Hrun. cbn iota in Hrun.
  rewrite bool_decide_eq_false_2 in Hrun by done. cbn [negb] in Hrun. unfold calling in Hrun.
  pose proof (Update_spec w (withUVersion (U_ResourceVersion o) u)) as Hup.
  destruct (Update w _) as [w1 [e|]]; [done|]. injection Hrun as <-. destruct Hup as [_ Hup].
  destruct (Hup eq_refl) as (o' & Ho' & _ & _ & _ & Howners & Hincl). cbn in Howners.
  exists o'. split; [exact Ho'|]. split; [exact Hincl|]. split; [by rewrite Howners|].
  intros resMap. destruct (ApplyResources_respects (keysOf resMap) resMap (λ k Hk, Hk) w1) as [_ Hun].
  apply Hun; [exact Ho'|]. left. unfold ownedByInstance. by rewrite Howners, Hno.
Qed.
End facts.

