(* ===== verification/DeployHelpers.v ===== *)
(** * Helpers of the package deploy

    The files [pkg/deploy/deploy.go] and [pkg/deploy/networkpolicy.go]: creating,
    updating and deleting one typed object.  The operator itself applies its
    manifests by [Apply]; these functions are exported, and called by tests only. *)

From Stdlib Require Import ZArith.
From S2P Require Import Prelude Value ApiProviders ApiServer Fmt Common Client Action Objects Workload.

(** ** A Deployment *)

(** [appsv1.DeploymentSpec]: the template and the rest are one tree. *)
Record DeploymentSpec := { Dep_Replicas : option Z; Dep_Selector : any; Dep_Template : any }.

Definition withReplicas (n : option Z) (s : DeploymentSpec) : DeploymentSpec :=
  {| Dep_Replicas := n; Dep_Selector := Dep_Selector s; Dep_Template := Dep_Template s |}.
Definition withSelector (sel : any) (s : DeploymentSpec) : DeploymentSpec :=
  {| Dep_Replicas := Dep_Replicas s; Dep_Selector := sel; Dep_Template := Dep_Template s |}.

Abbreviation Deployment := (Object DeploymentSpec).

(** [err := cli.Create(...); return err] *)
Definition returning {W} (run : W → W * option apiError) : M W unit :=
  λ w, let '(w', e) := run w in (w', match e with Some e => Err (apiErr e) | None => Ok tt end).

Section deployment.
Context {W : Type} `{!Client W Deployment}.
Context (SetControllerReference : OGXServer → Metadata → result Metadata).
(** [reflect.DeepEqual] *)
Context (DeepEqual : DeploymentSpec → DeploymentSpec → bool).

Definition hasAutoscaler (instance : OGXServer) : bool :=
  match Spec_Workload (Server_Spec instance) ≫= WL_Autoscaling with
  | Some a => (0 <? AS_MaxReplicas a)%Z
  | None => false
  end.

(** The spec that is wanted, given the one that is there. *)
Definition desiredSpec (instance : OGXServer) (found desired : DeploymentSpec) : DeploymentSpec :=
  if hasAutoscaler instance then withReplicas (Dep_Replicas found) desired else desired.

(** The owners and the rest of the metadata stay those of the object that is there. *)
Definition updatedDeployment (found desired : Deployment) : Deployment :=
  {| Obj_Meta := SetAnnotations (Obj_Annotations (Obj_Meta desired)) (SetLabels (Obj_Labels (Obj_Meta desired)) (Obj_Meta found));
     Obj_Spec := withSelector (Dep_Selector (Obj_Spec found)) (Obj_Spec desired) |}.

Definition ApplyDeployment (instance : OGXServer) (deployment : Deployment) : M W unit :=
  meta ← pureM (wrap "failed to set controller reference: %w" [] (SetControllerReference instance (Obj_Meta deployment)));
  let deployment := withMeta (λ _, meta) deployment in
  got ← getIfExists "failed to fetch deployment: %w" [] (objectKey deployment);
  match got with
  | None => returning (λ w, Create w deployment)
  | Some found =>
      let deployment := withSpec (desiredSpec instance (Obj_Spec found) (Obj_Spec deployment)) deployment in
      if negb (DeepEqual (Obj_Spec found) (Obj_Spec deployment))
      then returning (λ w, Update w (updatedDeployment found deployment))
      else mret tt
  end.

(** ** What it leaves *)

Context `{CL : !ClientLaws W Deployment} (HS : setsController SetControllerReference).
#[local] Set Default Proof Using "Type*".

Lemma returning_Ok (run : W → W * option apiError) w w' : returning run w = (w', Ok tt) → run w = (w', None).
Proof using Type. unfold returning. destruct (run w) as [w1 [e|]]; intros [= <-]; done. Qed.

(** A new Deployment is controlled by the instance.  One that exists is left alone
    when its spec is the desired one; or it gets the labels, the annotations and the
    spec of the desired one, with its own selector, and its own replicas under an
    autoscaler: whoever owned it, and this does not change. *)
Theorem ApplyDeployment_spec instance deployment w w' :
  ApplyDeployment instance deployment w = (w', Ok tt) →
  let k := objectKey deployment in
  (∀ k', k' ≠ k → stored w' k' = stored w k') ∧
  ∃ o, stored w' k = Some o ∧
    match stored w k with
    | None => Obj_Spec o = Obj_Spec deployment ∧ IsControlledBy (Obj_Meta o) instance = true
    | Some found =>
        let spec := desiredSpec instance (Obj_Spec found) (Obj_Spec deployment) in
        Obj_OwnerReferences (Obj_Meta o) = Obj_OwnerReferences (Obj_Meta found) ∧
        (if DeepEqual (Obj_Spec found) spec then o = found
         else Obj_Labels (Obj_Meta o) = Obj_Labels (Obj_Meta deployment) ∧
              Obj_Annotations (Obj_Meta o) = Obj_Annotations (Obj_Meta deployment) ∧
              Obj_Spec o = withSelector (Dep_Selector (Obj_Spec found)) spec)
    end.
Proof.
  unfold ApplyDeployment. rewrite bindM_run. cbn [pureM fst snd].
  destruct (SetControllerReference instance (Obj_Meta deployment)) as [meta|e] eqn:Em; cbn [wrap]; [|done].
  destruct (HS _ _ _ Em) as (Hmeta & Hctl & _). set (d := withMeta (λ _, meta) deployment).
  assert (objectKey d = objectKey deployment) as Hk by (unfold d, withMeta; cbn; by rewrite Hmeta).
  rewrite bindM_run. destruct (getIfExists_spec "failed to fetch deployment: %w" [] (objectKey d) w) as (got & -> & Hg).
  cbn [fst snd]. destruct got as [[found|]|e]; [| |done]; rewrite Hk in *; cbv zeta; rewrite Hg.
  - set (spec := desiredSpec instance (Obj_Spec found) (Obj_Spec d)). cbn [withSpec Obj_Spec].
    change (desiredSpec instance (Obj_Spec found) (Obj_Spec deployment)) with spec.
    destruct (DeepEqual (Obj_Spec found) spec) eqn:E; cbn [negb].
    + intros [= <-]. split; [done|]. by exists found.
    + intros H%returning_Ok. set (o := updatedDeployment _ _) in H. pose proof (Update_spec w o) as Hu. rewrite H in Hu.
      assert (objectKey o = objectKey deployment) as Hko.
      { etransitivity; [|by apply stored_key in Hg]. unfold o, updatedDeployment. reflexivity. }
      rewrite Hko in Hu. destruct Hu as [Hf Hs]. split; [intros k' Hne; apply Hf; by left|].
      destruct (Hs eq_refl) as (o' & Ho' & Hl & Ha & Hr & Hsp). exists o'. split; [done|]. split; [done|].
      rewrite Hl, Ha, Hsp. unfold o, updatedDeployment. cbn. by rewrite Hmeta.
  - intros H%returning_Ok. pose proof (Create_spec w d) as Hc. rewrite H in Hc. rewrite Hk in Hc. destruct Hc as [Hf Hs].
    split; [intros k' Hne; apply Hf; by left|]. destruct (Hs eq_refl) as (_ & o & Ho & _ & _ & Hr & Hsp).
    exists o. split; [done|]. split; [done|]. unfold IsControlledBy, GetControllerOf in *. rewrite Hr. exact Hctl.
Qed.
End deployment.

(** ** A NetworkPolicy *)

(** The resource version is the server's. *)
Record NetworkPolicyObject := { NPO_Meta : Metadata; NPO_ResourceVersion : string; NPO_Spec : any }.

#[export] Instance NetworkPolicy_object : APIObject NetworkPolicyObject := {
  objectKey := λ p, (Obj_Namespace (NPO_Meta p), Obj_Name (NPO_Meta p));
  persists := λ p p',
    Obj_Labels (NPO_Meta p') = Obj_Labels (NPO_Meta p) ∧
    Obj_Annotations (NPO_Meta p') = Obj_Annotations (NPO_Meta p) ∧
    Obj_OwnerReferences (NPO_Meta p') = Obj_OwnerReferences (NPO_Meta p) ∧
    NPO_Spec p' = NPO_Spec p;
  deleting := λ p, Obj_Deleting (NPO_Meta p);
}.

Section policy.
Context {W : Type} `{!Client W NetworkPolicyObject}.
Context (SetControllerReference : OGXServer → Metadata → result Metadata).

Definition ApplyNetworkPolicy (instance : OGXServer) (networkPolicy : NetworkPolicyObject) : M W unit :=
  meta ← pureM (wrap "failed to set controller reference: %w" [] (SetControllerReference instance (NPO_Meta networkPolicy)));
  let networkPolicy :=
    {| NPO_Meta := meta; NPO_ResourceVersion := NPO_ResourceVersion networkPolicy; NPO_Spec := NPO_Spec networkPolicy |} in
  existing ← getIfExists "failed to get NetworkPolicy: %w" [] (objectKey networkPolicy);
  match existing with
  | None => writing "failed to create NetworkPolicy: %w" [] (λ w, Create w networkPolicy)
  | Some existing =>
      let networkPolicy :=
        {| NPO_Meta := NPO_Meta networkPolicy; NPO_ResourceVersion := NPO_ResourceVersion existing;
           NPO_Spec := NPO_Spec networkPolicy |} in
      writing "failed to update NetworkPolicy: %w" [] (λ w, Update w networkPolicy)
  end.

Definition HandleDisabledNetworkPolicy (networkPolicy : NetworkPolicyObject) : M W unit :=
  existing ← getIfExists "failed to check NetworkPolicy existence: %w" [] (objectKey networkPolicy);
  match existing with
  | None => mret tt
  | Some existing => writing "failed to delete NetworkPolicy: %w" [] (λ w, Delete w (objectKey existing))
  end.

Context `{CL : !ClientLaws W NetworkPolicyObject} (HS : setsController SetControllerReference).
#[local] Set Default Proof Using "Type*".

Lemma writing_Ok (run : W → W * option apiError) fmt args w w' : writing fmt args run w = (w', Ok tt) → run w = (w', None).
Proof using Type. unfold writing. destruct (run w) as [w1 [e|]]; intros [= <-]; done. Qed.

(** What is there is the policy, controlled by the instance, and nothing else changed. *)
Lemma ApplyNetworkPolicy_spec instance policy w w' :
  ApplyNetworkPolicy instance policy w = (w', Ok tt) →
  let k := objectKey policy in
  (∀ k', k' ≠ k → stored w' k' = stored w k') ∧
  ∃ o, stored w' k = Some o ∧ NPO_Spec o = NPO_Spec policy ∧ Obj_Labels (NPO_Meta o) = Obj_Labels (NPO_Meta policy) ∧
    IsControlledBy (NPO_Meta o) instance = true.
Proof.
  unfold ApplyNetworkPolicy. rewrite bindM_run. cbn [pureM fst snd].
  destruct (SetControllerReference instance (NPO_Meta policy)) as [meta|e] eqn:Em; cbn [wrap]; [|done].
  destruct (HS _ _ _ Em) as (Hmeta & Hctl & _). cbv zeta.
  assert (Hlabels : Obj_Labels meta = Obj_Labels (NPO_Meta policy)) by (by rewrite Hmeta).
  assert (Hkey : (Obj_Namespace meta, Obj_Name meta) = objectKey policy) by (by rewrite Hmeta).
  assert (Hcontrolled : ∀ m, Obj_OwnerReferences m = Obj_OwnerReferences meta → IsControlledBy m instance = true).
  { intros m Hm. unfold IsControlledBy, GetControllerOf in *. by rewrite Hm. }
  clear Hmeta. rewrite bindM_run. set (p := {| NPO_Meta := meta |}).
  destruct (getIfExists_spec "failed to get NetworkPolicy: %w" [] (objectKey p) w) as (got & -> & _).
  cbn [fst snd]. destruct got as [[existing|]|e]; [| |done]; intros H%writing_Ok.
  - set (o := {| NPO_Meta := _ |}) in H. pose proof (Update_spec w o) as Hu. rewrite H in Hu.
    change (objectKey o) with (Obj_Namespace meta, Obj_Name meta) in Hu. rewrite Hkey in Hu. destruct Hu as [Hf Hs].
    split; [intros k' Hne; apply Hf; by left|]. destruct (Hs eq_refl) as (o' & Ho' & Hl & _ & Hr & Hsp).
    exists o'. split_and!; [done|done|by rewrite Hl|by apply Hcontrolled].
  - pose proof (Create_spec w p) as Hu. rewrite H in Hu.
    change (objectKey p) with (Obj_Namespace meta, Obj_Name meta) in Hu. rewrite Hkey in Hu. destruct Hu as [Hf Hs].
    split; [intros k' Hne; apply Hf; by left|]. destruct (Hs eq_refl) as (_ & o' & Ho' & Hl & _ & Hr & Hsp).
    exists o'. split_and!; [done|done|by rewrite Hl|by apply Hcontrolled].
Qed.

(** What is there afterwards is going away, whoever owned it. *)
Lemma HandleDisabledNetworkPolicy_spec policy w w' :
  HandleDisabledNetworkPolicy policy w = (w', Ok tt) →
  (∀ k', k' ≠ objectKey policy → stored w' k' = stored w k') ∧
  ∀ o, stored w' (objectKey policy) = Some o → deleting o = true.
Proof using CL.
  unfold HandleDisabledNetworkPolicy. rewrite bindM_run.
  destruct (getIfExists_spec "failed to check NetworkPolicy existence: %w" [] (objectKey policy) w) as (got & -> & Hg).
  cbn [fst snd]. destruct got as [[existing|]|e]; [| |done].
  - intros H%writing_Ok. pose proof (Delete_spec w (objectKey existing)) as Hd. rewrite H in Hd.
    rewrite (stored_key _ _ _ Hg) in Hd. destruct Hd as (Hf & Hs & _). split; [intros k' Hne; apply Hf; by left|].
    intros o Ho. by apply (Hs eq_refl o).
  - intros [= <-]. split; [done|]. intros o Ho. congruence.
Qed.
End policy.
