(* ===== verification/Exclusion.v ===== *)
(** * Which manifests a server does not want

    The part of [controllers/ogxserver_controller.go] that chooses the kinds to
    leave out, and deletes what an earlier reconciliation made of them.  The
    objects of all kinds are the store of [Apply]. *)

From S2P Require Import Prelude Value ApiProviders ApiServer Fmt Client Action Objects Workload Kustomize Apply.

(** ** The choice *)

Section kinds.
Context (instance : OGXServer).

(** An adopted claim replaces the instance's own. *)
Definition shouldExcludePVC (effectivePVCName : string) : bool :=
  if negb (bool_decide (effectivePVCName = (Server_Name instance +:+ "-pvc")%string)) then true
  else
    match workload instance with
    | None => true
    | Some w => match WL_Storage w with None => true | Some _ => false end
    end.

Definition networkPolicyDisabled : bool :=
  match (Spec_Network (Server_Spec instance) ≫= Net_Policy) ≫= NP_Enabled with
  | Some enabled => negb enabled
  | None => false
  end.

Definition determineKindsToExclude (effectivePVCName : string) : list string :=
  (if shouldExcludePVC effectivePVCName then ["PersistentVolumeClaim"] else []) ++
  (if networkPolicyDisabled then ["NetworkPolicy"] else []) ++
  (if negb (needsPodDisruptionBudget instance) then ["PodDisruptionBudget"] else []) ++
  (match workload instance with
   | None => ["HorizontalPodAutoscaler"]
   | Some w => match WL_Autoscaling w with None => ["HorizontalPodAutoscaler"] | Some _ => [] end
   end) ++
  (if isMonitoringDisabled instance then ["PrometheusRule"; "ServiceMonitor"] else []).
End kinds.

(** ** The deletions *)

Section deletion.
Context {W : Type} `{!Client W Unstructured}.

Implicit Types (instance : OGXServer) (kindsToExclude : list string).

(** The kinds that are deleted: their group, and the suffix of the object's name. *)
Definition excludable : list (string * (string * string)) :=
  [("NetworkPolicy", ("networking.k8s.io", "-network-policy"));
   ("PodDisruptionBudget", ("policy", "-pdb"));
   ("HorizontalPodAutoscaler", ("autoscaling", "-hpa"));
   ("PrometheusRule", ("monitoring.coreos.com", "-prometheus-rules"));
   ("ServiceMonitor", ("monitoring.coreos.com", "-service-monitor"))].

Definition childKey instance (kind group suffix : string) : NamespacedName :=
  keyOf group kind (Meta_Namespace (Server_Meta instance)) (Server_Name instance +:+ suffix).

(** The body that the functions below share; [gone] are the errors of the read
    that mean that there is nothing to delete. *)
Definition deleteChildIfExists (gone : apiError → bool) (kind group suffix : string) instance : M W unit :=
  let key := childKey instance kind group suffix in
  r ← getting key;
  match r with
  | inl e => if gone e then mret tt else raise (Wrapf ("failed to get " +:+ kind +:+ ": %w") [] (apiErr e))
  | inr obj =>
      if negb (IsControlledBy (U_Meta obj) instance) then mret tt
      else writing ("failed to delete " +:+ kind +:+ ": %w") [] (λ w, Delete w key)
  end.

Definition deleteNetworkPolicyIfExists : OGXServer → M W unit :=
  deleteChildIfExists IsNotFound "NetworkPolicy" "networking.k8s.io" "-network-policy".

Definition deletePodDisruptionBudgetIfExists : OGXServer → M W unit :=
  deleteChildIfExists IsNotFound "PodDisruptionBudget" "policy" "-pdb".

Definition deleteHorizontalPodAutoscalerIfExists : OGXServer → M W unit :=
  deleteChildIfExists IsNotFound "HorizontalPodAutoscaler" "autoscaling" "-hpa".

Definition goneOrNoMatch (e : apiError) : bool := IsNotFound e || IsNoMatchError e.

Definition deletePrometheusRuleIfExists : OGXServer → M W unit :=
  deleteChildIfExists goneOrNoMatch "PrometheusRule" "monitoring.coreos.com" "-prometheus-rules".

Definition deleteServiceMonitorIfExists : OGXServer → M W unit :=
  deleteChildIfExists goneOrNoMatch "ServiceMonitor" "monitoring.coreos.com" "-service-monitor".

(** [if slices.Contains(kindsToExclude, kind)] *)
Definition whenExcluded kindsToExclude (kind : string) (m : M W unit) : M W unit :=
  if bool_decide (kind ∈ kindsToExclude) then m else mret tt.

Definition deleteMonitoringResourcesIfExcluded instance kindsToExclude : M W unit :=
  monitoringAvailable ← wrapM "failed to check monitoring CRD availability: %w" [] MonitoringCRDsAvailable;
  if negb monitoringAvailable then mret tt
  else
    _ ← whenExcluded kindsToExclude "PrometheusRule" (deletePrometheusRuleIfExists instance);
    whenExcluded kindsToExclude "ServiceMonitor" (deleteServiceMonitorIfExists instance).

Definition deleteExcludedResources instance kindsToExclude : M W unit :=
  _ ← whenExcluded kindsToExclude "NetworkPolicy" (deleteNetworkPolicyIfExists instance);
  _ ← whenExcluded kindsToExclude "PodDisruptionBudget" (deletePodDisruptionBudgetIfExists instance);
  _ ← whenExcluded kindsToExclude "HorizontalPodAutoscaler" (deleteHorizontalPodAutoscalerIfExists instance);
  deleteMonitoringResourcesIfExcluded instance kindsToExclude.
End deletion.

(** ** What the deletions do *)

(** A kind has one group and one suffix. *)
Lemma excludable_fun kind p q : (kind, p) ∈ excludable → (kind, q) ∈ excludable → p = q.
Proof.
  assert (NoDup excludable.*1) as Hnd by (by vm_compute; repeat constructor; set_solver).
  generalize excludable Hnd. intros l Hl. induction l as [|[k r] l IH]; cbn in Hl; [by intros ?%not_elem_of_nil|].
  apply NoDup_cons in Hl as [Hn Hl].
  intros [Hp|Hp]%elem_of_cons [Hq|Hq]%elem_of_cons; [congruence|injection Hp as -> ->|injection Hq as -> ->|].
  - destruct Hn. by apply (list_elem_of_fmap_2 fst) in Hq.
  - destruct Hn. by apply (list_elem_of_fmap_2 fst) in Hp.
  - by apply IH.
Qed.

Lemma excludable_not kind : kind ∉ excludable.*1 → ∀ p, (kind, p) ∉ excludable.
Proof. intros H p Hp. apply H. by apply (list_elem_of_fmap_2 fst) in Hp. Qed.

Section facts.
Context {W : Type} `{!Client W Unstructured, CL : !ClientLaws W Unstructured}.
Context (instance : OGXServer).
#[local] Set Default Proof Using "Type*".

Implicit Types (w : W) (K : list NamespacedName).

Definition controlled (o : Unstructured) : bool := IsControlledBy (U_Meta o) instance.

(** Only objects at the keys of [K] that the instance controls may go; an object
    that stays there is marked as deleted. *)
Definition prunes K w w' : Prop :=
  ∀ k, stored w' k = stored w k ∨
       k ∈ K ∧ (∃ o, stored w k = Some o ∧ controlled o = true) ∧ ∀ o', stored w' k = Some o' → deleting o' = true.

(** The instance controls no object at the key, but for one that is being deleted. *)
Definition relinquished w (k : NamespacedName) : Prop :=
  ∀ o, stored w k = Some o → controlled o = true → deleting o = true.

#[local] Instance prunes_preorder K : PreOrder (prunes K).
Proof.
  split.
  - intros w k. by left.
  - intros w1 w2 w3 H12 H23 k. destruct (H23 k) as [E|(Hk & (o & Ho & Hc) & Hd)].
    + rewrite E. apply H12.
    + right. split; [done|]. split; [|done]. destruct (H12 k) as [E|(_ & He & _)]; [|done]. exists o. by rewrite <- E.
Qed.

Lemma prunes_mono K K' w w' : K ⊆ K' → prunes K w w' → prunes K' w w'.
Proof. intros HK H k. destruct (H k) as [?|(? & ? & ?)]; [by left|right; auto]. Qed.

Lemma prunes_relinquished K w w' k : prunes K w w' → relinquished w k → relinquished w' k.
Proof.
  intros H Hr o Ho Hc. destruct (H k) as [E|(_ & _ & Hd)]; [|by apply Hd]. apply Hr; [by rewrite <- E|done].
Qed.

(** One deletion. *)
Lemma deleteChild_spec gone kind group suffix w :
  (∀ e, gone e = true → IsNotFound e = false → ∀ w k, Get w k = inl e → stored w k = None) →
  let k := childKey instance kind group suffix in
  let '(w', r) := deleteChildIfExists gone kind group suffix instance w in
  prunes [k] w w' ∧ (r = Ok tt → relinquished w' k).
Proof.
  intros Hgone k. unfold deleteChildIfExists. rewrite bindM_run. cbn [getting gets fst snd]. fold k.
  pose proof (Get_spec w k) as Hg. destruct (Get w k) as [e|o] eqn:Eg.
  - destruct (gone e) eqn:He; cbn; [|by split]. split; [done|]. intros _ o Ho.
    destruct (IsNotFound e) eqn:En.
    + destruct e; try done. by rewrite Hg in Ho.
    + by rewrite (Hgone e He En w k Eg) in Ho.
  - destruct (IsControlledBy (U_Meta o) instance) eqn:Ec; cbn [negb].
    + unfold writing. pose proof (Delete_spec w k) as Hd. destruct (Delete w k) as [w' e]. destruct Hd as (Hf & Hs & _).
      split.
      * intros k'. destruct (decide (k' = k)) as [->|Hne]; [|left; apply Hf; by left].
        destruct e as [e|]; [left; apply Hf; by right|]. right. split; [by left|]. split; [by exists o|].
        intros o' Ho'. by apply (Hs eq_refl).
      * destruct e; [done|]. intros _ o' Ho' _. by apply (Hs eq_refl).
    + cbn. split; [done|]. intros _ o' Ho' Hc. rewrite Hg in Ho'. injection Ho' as <-.
      unfold controlled in Hc. congruence.
Qed.
(** A kind that the server does not serve has no objects. *)
Definition unserved : Prop := ∀ w k e, Get w k = inl (NoMatch e) → stored w k = None.

(** The objects that exclusion may delete. *)
Definition exclusionKeys (kinds : list string) : list NamespacedName :=
  (λ '(kind, (group, suffix)), childKey instance kind group suffix) <$>
    filter (λ x, x.1 ∈ kinds) excludable.

Lemma elem_of_exclusionKeys kinds k :
  k ∈ exclusionKeys kinds ↔
  ∃ kind group suffix, (kind, (group, suffix)) ∈ excludable ∧ kind ∈ kinds ∧ k = childKey instance kind group suffix.
Proof.
  unfold exclusionKeys. rewrite list_elem_of_fmap. setoid_rewrite list_elem_of_filter. split.
  - intros ([kind [group suffix]] & -> & ? & ?). by exists kind, group, suffix.
  - intros (kind & group & suffix & ? & ? & ->). by exists (kind, (group, suffix)).
Qed.

(** The definitions of both monitoring kinds are installed. *)
Definition monitoringInstalled w : Prop :=
  stored w (crdKey "servicemonitors.monitoring.coreos.com") ≠ None ∧
  stored w (crdKey "prometheusrules.monitoring.coreos.com") ≠ None.

Lemma prunes_elsewhere kinds w w' group kind namespace name :
  prunes (exclusionKeys kinds) w w' → (∀ p, (kind, p) ∉ excludable) →
  stored w' (keyOf group kind namespace name) = stored w (keyOf group kind namespace name).
Proof.
  intros H Hk. destruct (H (keyOf group kind namespace name)) as [E|(Hin & _)]; [done|].
  apply elem_of_exclusionKeys in Hin as (kind' & group' & suffix & Hx & _ & E). apply keyOf_inj in E as (_ & -> & _).
  by destruct (Hk _ Hx).
Qed.

Lemma prunes_installed kinds w w' : prunes (exclusionKeys kinds) w w' → monitoringInstalled w → monitoringInstalled w'.
Proof.
  unfold monitoringInstalled, crdKey. intros H. by rewrite !(prunes_elsewhere _ _ _ _ _ _ _ H) by (apply excludable_not; set_solver).
Qed.

Definition monitoringKinds : list string := ["PrometheusRule"; "ServiceMonitor"].

(** What a part of the deletions achieves, when it deals with the kinds [ks]. *)
Definition excludes (kinds ks : list string) (m : M W unit) : Prop :=
  ∀ w, prunes (exclusionKeys kinds) w (m w).1 ∧
       ((m w).2 = Ok tt → ∀ kind group suffix, (kind, (group, suffix)) ∈ excludable → kind ∈ ks → kind ∈ kinds →
        (kind ∈ monitoringKinds → monitoringInstalled w) → relinquished (m w).1 (childKey instance kind group suffix)).

Lemma excludes_seq kinds ks ks' (m m' : M W unit) :
  excludes kinds ks m → excludes kinds ks' m' → excludes kinds (ks ++ ks') (_ ← m; m').
Proof.
  intros Hm Hm' w. rewrite bindM_run. destruct (Hm w) as [Hp Hr]. destruct (m w) as [w1 [[]|e]]; cbn [fst snd] in *; [|done].
  destruct (Hm' w1) as [Hp' Hr']. split; [by etransitivity|].
  intros Hok kind group suffix Hx [Hk|Hk]%elem_of_app Hin Hmon.
  - by apply (prunes_relinquished _ _ _ _ Hp'), Hr.
  - apply Hr'; try done. intros Hm0. by apply (prunes_installed _ _ _ Hp), Hmon.
Qed.

Lemma excludes_child kinds gone kind group suffix :
  (∀ e, gone e = true → IsNotFound e = false → ∀ w k, Get w k = inl e → stored w k = None) →
  (kind, (group, suffix)) ∈ excludable →
  excludes kinds [kind] (whenExcluded kinds kind (deleteChildIfExists gone kind group suffix instance)).
Proof.
  intros Hgone Hx w. unfold whenExcluded. case_bool_decide as Hk; [|split; [done|]; intros _ k g s _ ->%list_elem_of_singleton; done].
  pose proof (deleteChild_spec gone kind group suffix w Hgone) as H. cbn in H.
  destruct (deleteChildIfExists gone kind group suffix instance w) as [w' r]. destruct H as [Hp Hr]. cbn [fst snd]. split.
  - apply (prunes_mono [childKey instance kind group suffix]); [|done].
    intros k ->%list_elem_of_singleton. apply elem_of_exclusionKeys. by exists kind, group, suffix.
  - intros Hok k g s Hx' ->%list_elem_of_singleton _ _. pose proof (excludable_fun _ _ _ Hx Hx') as [= <- <-]. by apply Hr.
Qed.

Lemma notFound_gone e : IsNotFound e = true → IsNotFound e = false → ∀ w k, Get w k = inl e → stored w k = None.
Proof. congruence. Qed.

Lemma allCRDsExist_reads names w : (allCRDsExist names w).1 = w.
Proof using Type.
  induction names as [|n names IH]; cbn [allCRDsExist]; [done|]. rewrite bindM_run, wrapM_run. cbn [fst snd].
  unfold CheckCRDExists. rewrite bindM_run. cbn [getting gets fst snd].
  destruct (Get w _) as [e|o]; [destruct (IsNotFound e)|]; cbn; done.
Qed.

Lemma allCRDsExist_false names w :
  (allCRDsExist names w).2 = Ok false → ∃ name, name ∈ names ∧ stored w (crdKey name) = None.
Proof.
  induction names as [|n names IH]; cbn [allCRDsExist]; [done|]. rewrite bindM_run, wrapM_run. cbn [fst snd].
  unfold CheckCRDExists. rewrite bindM_run. cbn [getting gets fst snd].
  pose proof (Get_spec w (crdKey n)) as Hg.
  destruct (Get w (crdKey n)) as [e|o]; [destruct e|]; cbn; try done.
  - intros _. exists n. split; [by left|done].
  - intros H. destruct (IH H) as (name & ? & ?). exists name. split; [by right|done].
Qed.

Lemma monitoring_available w : (MonitoringCRDsAvailable w).2 = Ok false → ¬ monitoringInstalled w.
Proof.
  intros H%allCRDsExist_false [H1 H2]. destruct H as (name & Hin & Hn).
  apply elem_of_cons in Hin as [->|Hin]; [done|].
  by apply list_elem_of_singleton in Hin as ->.
Qed.

Section served.
Context (HU : unserved).

Lemma goneOrNoMatch_gone e :
  goneOrNoMatch e = true → IsNotFound e = false → ∀ w k, Get w k = inl e → stored w k = None.
Proof. intros He Hn w k Hg. destruct e; try done. by apply (HU w k e). Qed.

Lemma excludes_monitoring kinds :
  excludes kinds ["PrometheusRule"; "ServiceMonitor"] (deleteMonitoringResourcesIfExcluded instance kinds).
Proof.
  intros w. unfold deleteMonitoringResourcesIfExcluded. rewrite bindM_run, wrapM_run. cbn [fst snd].
  unfold MonitoringCRDsAvailable. rewrite allCRDsExist_reads.
  destruct (allCRDsExist _ w).2 as [[|]|e] eqn:E; cbn [wrap negb]; [| |by split].
  - clear E. revert w. apply (excludes_seq kinds ["PrometheusRule"] ["ServiceMonitor"]); apply excludes_child;
      try apply goneOrNoMatch_gone; set_solver.
  - split; [done|]. intros _ kind group suffix _ Hk _ Hmon. by destruct (monitoring_available _ E (Hmon Hk)).
Qed.

Lemma excludes_all kinds : excludes kinds excludable.*1 (deleteExcludedResources instance kinds).
Proof.
  repeat apply (excludes_seq kinds [_]); [..|apply excludes_monitoring];
    apply excludes_child; try apply notFound_gone; set_solver.
Qed.

(** Deleting what a server does not want, in every run and whatever fails, of any
    list of kinds: an object goes only when the instance controls it and its kind
    is excludable and listed, so a volume claim never goes.  When the run
    succeeds, the instance controls no NetworkPolicy, disruption budget or
    autoscaler of a listed kind any more, but for those being deleted, and no
    rule or monitor either when their definitions are installed. *)
Theorem exclusion_spec kinds w :
  let '(w', r) := deleteExcludedResources instance kinds w in
  prunes (exclusionKeys kinds) w w' ∧
  (∀ group namespace name, stored w' (keyOf group "PersistentVolumeClaim" namespace name) =
                           stored w (keyOf group "PersistentVolumeClaim" namespace name)) ∧
  (r = Ok tt → ∀ kind group suffix, (kind, (group, suffix)) ∈ excludable → kind ∈ kinds →
    (kind ∈ monitoringKinds → monitoringInstalled w) → relinquished w' (childKey instance kind group suffix)).
Proof.
  pose proof (excludes_all kinds w) as H. destruct (deleteExcludedResources instance kinds w) as [w' r].
  destruct H as [Hp Hr]. split_and!; [done| |].
  - intros group namespace name. apply (prunes_elsewhere _ _ _ _ _ _ _ Hp), excludable_not. set_solver.
  - intros Hok kind group suffix Hx. apply Hr; [done|done|]. by apply (list_elem_of_fmap_2 fst) in Hx.
Qed.
End served.
End facts.
