(* ===== verification/NetworkResources.v ===== *)
(** * Ingress

    The file [controllers/network_resources.go]: the Ingress of a server.  The
    cluster is reached through the interface [Client];
    [SetControllerReference] of controller-runtime is a parameter. *)

From Stdlib Require Import Ascii ZArith.
From S2P Require Import Prelude Value ApiProviders ApiServer Client NetworkPolicy.

(** ** Objects *)

Record IngressTLS := { TLS_Hosts : list string; TLS_Secret : string }.

(** A rule with one path; the path type is always Prefix. *)
Record IngressRule := {
  Rule_Host : string;
  Rule_Path : string;
  Rule_ServiceName : string;
  Rule_ServicePort : Z;
}.

Record Ingress := {
  Ing_Namespace : string;
  Ing_Name : string;
  Ing_Labels : gmap string string;
  Ing_TLS : list IngressTLS;
  Ing_Rules : list IngressRule;
  Ing_Controller : option string;           (* UID of the controlling owner *)
  Ing_Deleting : bool;
  Ing_ResourceVersion : string;
  Ing_LoadBalancer : list (string * string); (* host name and IP *)
}.

#[export] Instance Ingress_object : APIObject Ingress := {
  objectKey := λ i, (Ing_Namespace i, Ing_Name i);
  persists := λ i i',
    Ing_Labels i' = Ing_Labels i ∧ Ing_TLS i' = Ing_TLS i ∧ Ing_Rules i' = Ing_Rules i ∧
    Ing_Controller i' = Ing_Controller i;
  deleting := Ing_Deleting;
}.

Definition IngressNameSuffix : string := "-ingress".
Definition ReasonInsecureExternalAccess : string := "InsecureExternalAccess".

Definition ingressKey (instance : OGXServer) : NamespacedName :=
  (Meta_Namespace (Server_Meta instance), (Server_Name instance +:+ IngressNameSuffix)%string).

(** [metav1.IsControlledBy] *)
Definition IsControlledBy (obj : Ingress) (instance : OGXServer) : bool :=
  bool_decide (Ing_Controller obj = Some (Meta_UID (Server_Meta instance))).

(** ** The spec's wishes *)

Definition externalAccess (instance : OGXServer) : option ExternalAccessConfig :=
  Spec_Network (Server_Spec instance) ≫= Net_ExternalAccess.

Definition externalAccessRequested (instance : OGXServer) : bool :=
  match externalAccess instance with Some ea => EA_Enabled ea | None => false end.

Definition externalAccessIsSafeToExpose (instance : OGXServer) : bool :=
  if negb (externalAccessRequested instance) then false
  else
    match externalAccess instance with
    | None => false
    | Some ea =>
        negb (bool_decide (EA_Hostname ea = "")) &&
        match EA_TLS ea with
        | Some tls => negb (bool_decide (TLS_SecretName tls = ""))
        | None => false
        end
    end.

Section reconcile.
Context {W : Type} `{Client W Ingress}.
Context (SetControllerReference : OGXServer → Ingress → result Ingress).

(** The cluster, and the reasons of the events recorded so far; [None] is a
    reconciler without recorder. *)
Record cluster := { api : W; events : option (list string) }.

Definition withAPI (w : cluster) (a : W) : cluster := {| api := a; events := events w |}.

(** ** The reconciler *)

Definition warnInsecureExternalAccess (w : cluster) : cluster :=
  match events w with
  | None => w
  | Some es => {| api := api w; events := Some (es ++ [ReasonInsecureExternalAccess]) |}
  end.

Definition buildIngress (instance : OGXServer) : result Ingress :=
  match externalAccessIsSafeToExpose instance, externalAccess instance with
  | true, Some ea =>
      let secretName := match EA_TLS ea with Some tls => TLS_SecretName tls | None => "" end in
      wrap "failed to set controller reference: %w" []
        (SetControllerReference instance
           {| Ing_Namespace := Meta_Namespace (Server_Meta instance);
              Ing_Name := (Server_Name instance +:+ IngressNameSuffix)%string;
              Ing_Labels := <["app.kubernetes.io/managed-by" := "ogx-operator"]>
                            {["app.kubernetes.io/instance" := Server_Name instance]};
              Ing_TLS := [{| TLS_Hosts := [EA_Hostname ea]; TLS_Secret := secretName |}];
              Ing_Rules := [{| Rule_Host := EA_Hostname ea; Rule_Path := "/";
                               Rule_ServiceName := GetServiceName instance;
                               Rule_ServicePort := GetServicePort instance |}];
              Ing_Controller := None; Ing_Deleting := false; Ing_ResourceVersion := ""; Ing_LoadBalancer := [] |})
  | _, _ => Err (New "failed to build Ingress: hostname and TLS secretName are required")
  end.

(** Deletes the Ingress; one that is already gone is deleted. *)
Definition deleteIngress (w : cluster) (key : NamespacedName) : cluster * result unit :=
  let '(a, e) := Delete (api w) key in
  (withAPI w a, match e with
      | Some e => if IsNotFound e then Ok tt
                  else Err (Wrapf "failed to delete Ingress: %w" [] (apiErr e))
      | None => Ok tt
      end).

Definition enforceInternalOnlyIngress (w : cluster) (instance : OGXServer) : cluster * result unit :=
  match Get (api w) (ingressKey instance) with
  | inl e => (w, if IsNotFound e then Ok tt else Err (Wrapf "failed to get Ingress: %w" [] (apiErr e)))
  | inr existing =>
      if negb (IsControlledBy existing instance) then (w, Ok tt)
      else deleteIngress w (objectKey existing)
  end.

(** [existing] is the outcome of the [Get]: the Ingress or the error, which the
    source passes as [existing], [getErr] and [existsAlready]. *)
Definition handleDisabledIngress (w : cluster) (instance : OGXServer) (existing : apiError + Ingress)
    : cluster * result unit :=
  match existing with
  | inl _ => (w, Ok tt)
  | inr existing =>
      if negb (IsControlledBy existing instance) then (w, Ok tt)
      else deleteIngress w (objectKey existing)
  end.

Definition withResourceVersion (i : Ingress) (version : string) : Ingress :=
  {| Ing_Namespace := Ing_Namespace i; Ing_Name := Ing_Name i; Ing_Labels := Ing_Labels i;
     Ing_TLS := Ing_TLS i; Ing_Rules := Ing_Rules i; Ing_Controller := Ing_Controller i;
     Ing_Deleting := Ing_Deleting i; Ing_ResourceVersion := version; Ing_LoadBalancer := Ing_LoadBalancer i |}.

(** The error of a write. *)
Definition written (format : string) (run : W * option apiError) (w : cluster) : cluster * result unit :=
  (withAPI w run.1,
   match run.2 with Some e => Err (Wrapf format [] (apiErr e)) | None => Ok tt end).

Definition handleEnabledIngress (w : cluster) (instance : OGXServer) (existing : apiError + Ingress)
    : cluster * result unit :=
  match buildIngress instance with
  | Err e => (w, Err e)
  | Ok ingress =>
      match existing with
      | inl getErr =>
          if IsNotFound getErr then
            written "failed to create Ingress: %w" (Create (api w) ingress) w
          else (w, Err (Wrapf "failed to get Ingress: %w" [] (apiErr getErr)))
      | inr existing =>
          if negb (IsControlledBy existing instance) then (w, Ok tt)
          else
            written "failed to update Ingress: %w"
              (Update (api w) (withResourceVersion ingress (Ing_ResourceVersion existing))) w
      end
  end.

(** A [Get] that fails because there is no such object is not an error. *)
Definition getIngress (w : cluster) (instance : OGXServer) : result (apiError + Ingress) :=
  match Get (api w) (ingressKey instance) with
  | inl e => if IsNotFound e then Ok (inl e)
             else Err (Wrapf "failed to get Ingress: %w" [] (apiErr e))
  | inr existing => Ok (inr existing)
  end.

Definition reconcileLegacyIngress (w : cluster) (instance : OGXServer) : cluster * result unit :=
  match getIngress w instance with
  | Err e => (w, Err e)
  | Ok existing =>
      if negb (externalAccessRequested instance) || negb (externalAccessIsSafeToExpose instance) then
        let w := if externalAccessRequested instance then warnInsecureExternalAccess w else w in
        handleDisabledIngress w instance existing
      else handleEnabledIngress w instance existing
  end.

Definition reconcileIngress (w : cluster) (instance : OGXServer) : cluster * result unit :=
  if IsPraxisModeEnabled (Server_Spec instance) then enforceInternalOnlyIngress w instance
  else reconcileLegacyIngress w instance.

Definition cleanupUnsafeOwnedIngress (w : cluster) (instance : OGXServer) : cluster * result unit :=
  if IsPraxisModeEnabled (Server_Spec instance) then (w, Ok tt)
  else if negb (externalAccessRequested instance) || externalAccessIsSafeToExpose instance then (w, Ok tt)
  else
    let w := warnInsecureExternalAccess w in
    match getIngress w instance with
    | Err e => (w, Err e)
    | Ok existing => handleDisabledIngress w instance existing
    end.

(** ** The external URL *)

(** The characters that [url.URL.String] keeps in a host; the others are
    percent-encoded. *)
Definition hostChar (c : ascii) : bool :=
  in_range "a" "z" c || in_range "A" "Z" c || in_range "0" "9" c ||
  existsb (Ascii.eqb c) (chars "!$&'()*+,;=:[]<>-_.~") || Ascii.eqb c (ascii_of_nat 34).

Definition upperHex (n : nat) : ascii := nth n (chars "0123456789ABCDEF") "0"%char.

Fixpoint escapeHost (l : list ascii) : list ascii :=
  match l with
  | [] => []
  | c :: l =>
      if hostChar c then c :: escapeHost l
      else "%"%char :: upperHex (nat_of_ascii c / 16) :: upperHex (nat_of_ascii c mod 16) :: escapeHost l
  end.

Definition buildURLString (host : string) : string :=
  if bool_decide (host = "") then "https:" else ("https://" +:+ of_chars (escapeHost (chars host)))%string.

(** [None] is the nil URL. *)
Definition getIngressURL (w : cluster) (instance : OGXServer) : option string :=
  if negb (externalAccessRequested instance) then None
  else
    match Get (api w) (ingressKey instance) with
    | inl _ => Some ""
    | inr ingress =>
        let fromRules :=
          match Ing_Rules ingress with
          | rule :: _ => if bool_decide (Rule_Host rule = "") then Some ""
                         else Some (buildURLString (Rule_Host rule))
          | [] => Some ""
          end in
        match Ing_LoadBalancer ingress with
        | (hostname, ip) :: _ =>
            if negb (bool_decide (hostname = "")) then Some (buildURLString hostname)
            else if negb (bool_decide (ip = "")) then Some (buildURLString ip)
            else fromRules
        | [] => fromRules
        end
    end.
(** ** What a reconciliation changes *)

Context `{!ReadCache W Ingress, !CachedLaws W Ingress}.
#[local] Set Default Proof Using "Type*".

Implicit Types (w : cluster) (a : W) (instance : OGXServer).

(** Only the instance's own Ingress may differ. *)
Definition ownOnly instance a a' : Prop :=
  ∀ k, stored a' k = stored a k ∨
       k = ingressKey instance ∧ ∀ i, stored a k = Some i → IsControlledBy i instance = true.

(** The outcome of a step: what it may touch, and that a failure touches nothing. *)
Definition step instance a (run : cluster * result unit) : Prop :=
  ownOnly instance a (api run.1) ∧
  (is_ok run.2 = false → ∀ k, stored (api run.1) k = stored a k).

(** The cache holds no Ingress of the instance that it controls, but for one that
    is being deleted. *)
Definition noneControlled instance a : Prop :=
  ∀ i, seen a (ingressKey instance) = Some i → IsControlledBy i instance = false ∨ Ing_Deleting i = true.

Lemma step_same instance a w r : (∀ k, stored (api w) k = stored a k) → step instance a (w, r).
Proof. intros Hs. split; [intros k; left; apply Hs|done]. Qed.

Lemma warn_api w : api (warnInsecureExternalAccess w) = api w.
Proof. unfold warnInsecureExternalAccess. by destruct (events w). Qed.

(** Deleting the Ingress that was read as controlled. *)
Lemma deleteIngress_step w instance i :
  stored (api w) (ingressKey instance) = Some i → IsControlledBy i instance = true →
  step instance (api w) (deleteIngress w (ingressKey instance)) ∧
  (is_ok (deleteIngress w (ingressKey instance)).2 = true →
   noneControlled instance (api (deleteIngress w (ingressKey instance)).1)).
Proof.
  intros Hi Hc. unfold deleteIngress.
  pose proof (Delete_spec (api w) (ingressKey instance)) as Hd.
  destruct (Delete (api w) (ingressKey instance)) as [a e]. destruct Hd as (Hf & Hok & Hnf).
  assert (Hown : ownOnly instance (api w) a).
  { intros k. destruct (decide (k = ingressKey instance)) as [->|Hk]; [|left; auto].
    right. split; [done|]. congruence. }
  destruct e as [e|]; [destruct (IsNotFound e) eqn:E|]; cbn; (split; [split; [exact Hown|]|]); cbn; try done.
  - intros _. destruct e; try discriminate E. intros i' [Hi' _]%seen_Some. rewrite Hf in Hi' by auto.
    rewrite (Hnf _ eq_refl) in Hi'. discriminate Hi'.
  - intros _ k. apply Hf. by right.
  - intros _ i' [Hi' _]%seen_Some. right. by apply (Hok eq_refl).
Qed.

(** What the handler knows after the [Get]. *)
Definition knows w instance (existing : apiError + Ingress) : Prop :=
  match existing with
  | inr i => seen (api w) (ingressKey instance) = Some i
  | inl e => IsNotFound e = true ∧ seen (api w) (ingressKey instance) = None
  end.

Lemma getIngress_knows w instance existing : getIngress w instance = Ok existing → knows w instance existing.
Proof.
  unfold getIngress. pose proof (Get_cached (api w) (ingressKey instance)) as Hg.
  destruct (Get (api w) (ingressKey instance)) as [[e|e|e|e|e]|i]; cbn; intros [= <-]; cbn; auto.
Qed.

Lemma handleDisabledIngress_step w instance existing :
  knows w instance existing →
  step instance (api w) (handleDisabledIngress w instance existing) ∧
  (is_ok (handleDisabledIngress w instance existing).2 = true →
   noneControlled instance (api (handleDisabledIngress w instance existing).1)).
Proof.
  destruct existing as [e|i]; cbn [knows handleDisabledIngress].
  - intros [_ Hn]. split; [by apply step_same|]. intros _ i Hi. cbn in Hi. congruence.
  - intros Hs. pose proof Hs as [Hi _]%seen_Some. destruct (IsControlledBy i instance) eqn:Hc; cbn [negb].
    + rewrite (stored_key _ _ _ Hi). by apply deleteIngress_step with i.
    + split; [by apply step_same|]. intros _ i' Hi'. left. cbn in Hi'. congruence.
Qed.

Lemma enforceInternalOnlyIngress_disabled w instance :
  enforceInternalOnlyIngress w instance =
  match getIngress w instance with
  | Err e => (w, Err e)
  | Ok existing => handleDisabledIngress w instance existing
  end.
Proof.
  unfold enforceInternalOnlyIngress, getIngress. destruct (Get _ _) as [e|i]; [|done].
  by destruct (IsNotFound e).
Qed.

(** [SetControllerReference] makes the instance the controller and changes
    nothing else. *)
Definition setsController : Prop := ∀ instance i i',
  SetControllerReference instance i = Ok i' →
  i' = {| Ing_Namespace := Ing_Namespace i; Ing_Name := Ing_Name i; Ing_Labels := Ing_Labels i;
          Ing_TLS := Ing_TLS i; Ing_Rules := Ing_Rules i;
          Ing_Controller := Some (Meta_UID (Server_Meta instance)); Ing_Deleting := Ing_Deleting i;
          Ing_ResourceVersion := Ing_ResourceVersion i; Ing_LoadBalancer := Ing_LoadBalancer i |}.

(** The labels of the Ingress. *)
Definition ingressLabels instance : gmap string string :=
  <["app.kubernetes.io/managed-by" := "ogx-operator"]> {["app.kubernetes.io/instance" := Server_Name instance]}.

(** An Ingress that serves the declared host over TLS with the declared Secret,
    and forwards to the instance's service. *)
Definition exposesSafely instance (i : Ingress) : Prop :=
  ∃ ea tls, externalAccess instance = Some ea ∧ EA_Enabled ea = true ∧ EA_TLS ea = Some tls ∧
    EA_Hostname ea ≠ "" ∧ TLS_SecretName tls ≠ "" ∧
    Ing_TLS i = [{| TLS_Hosts := [EA_Hostname ea]; TLS_Secret := TLS_SecretName tls |}] ∧
    Ing_Rules i = [{| Rule_Host := EA_Hostname ea; Rule_Path := "/";
                      Rule_ServiceName := (Server_Name instance +:+ "-service")%string;
                      Rule_ServicePort := GetServicePort instance |}] ∧
    Ing_Controller i = Some (Meta_UID (Server_Meta instance)) ∧
    Ing_Labels i = ingressLabels instance.

Lemma buildIngress_safe instance i :
  setsController → buildIngress instance = Ok i →
  objectKey i = ingressKey instance ∧ exposesSafely instance i.
Proof.
  intros Hs. unfold buildIngress, exposesSafely, externalAccessIsSafeToExpose, externalAccessRequested.
  destruct (externalAccess instance) as [ea|]; cbn; [|discriminate].
  destruct (EA_Enabled ea) eqn:He; cbn; [|discriminate].
  case_bool_decide as Hh; cbn; [discriminate|].
  destruct (EA_TLS ea) as [tls|] eqn:Ht; cbn; [|discriminate].
  case_bool_decide as Hn; cbn; [discriminate|]. intros Hb. res_inv.
  apply Hs in Hb. subst i. split; [done|]. exists ea, tls. by rewrite He.
Qed.

Lemma exposesSafely_persists instance i i' : persists i i' → exposesSafely instance i → exposesSafely instance i'.
Proof.
  cbn. intros (Hl & Ht & Hr & Hc) (ea & tls & Hx). exists ea, tls. rewrite Hl, Ht, Hr, Hc. exact Hx.
Qed.

(** A write of the built Ingress. *)
Lemma written_step fmt w instance i e a :
  (e = None → ∀ j, stored (api w) (ingressKey instance) = Some j → IsControlledBy j instance = true) →
  (∀ k, k ≠ ingressKey instance ∨ e ≠ None → stored a k = stored (api w) k) →
  (e = None → ∃ i', stored a (ingressKey instance) = Some i' ∧ persists i i') →
  exposesSafely instance i →
  step instance (api w) (written fmt (a, e) w) ∧
  (is_ok (written fmt (a, e) w).2 = true →
   ∃ i', stored (api (written fmt (a, e) w).1) (ingressKey instance) = Some i' ∧ exposesSafely instance i').
Proof.
  intros Hown Hf Hok Hx. unfold written. cbn. split; [split|]; cbn.
  - intros k. destruct (decide (k = ingressKey instance)) as [->|Hk]; [|left; auto].
    destruct e; [left; apply Hf; by right|right; auto].
  - destruct e; [|done]. intros _ k. apply Hf. by right.
  - destruct e; [done|]. intros _. destruct Hok as (i' & Hi' & Hp); [done|].
    exists i'. split; [done|]. by apply exposesSafely_persists with i.
Qed.

Lemma handleEnabledIngress_step w instance existing :
  setsController → knows w instance existing →
  step instance (api w) (handleEnabledIngress w instance existing) ∧
  (is_ok (handleEnabledIngress w instance existing).2 = true →
   ∃ i, stored (api (handleEnabledIngress w instance existing).1) (ingressKey instance) = Some i ∧
        (IsControlledBy i instance = false ∨ exposesSafely instance i)).
Proof.
  intros Hs Hk. unfold handleEnabledIngress. destruct (buildIngress instance) as [ing|e] eqn:Hb;
    [|split; [by apply step_same|done]].
  apply buildIngress_safe in Hb as [Hkey Hx]; [|done].
  destruct existing as [e0|i]; cbn in Hk.
  - destruct Hk as [-> Hn].
    pose proof (Create_spec (api w) ing) as Hc. destruct (Create (api w) ing) as [a e].
    destruct Hc as [Hf Hok]. rewrite Hkey in Hf, Hok.
    destruct (written_step "failed to create Ingress: %w" w instance ing e a) as [? Hi];
      [intros [Hn' _]%Hok; congruence|done|by intros [_ ?]%Hok|done|]. split; [done|].
    intros (i & ? & ?)%Hi. eauto.
  - apply seen_Some in Hk as [Hk _]. destruct (IsControlledBy i instance) eqn:Hc; cbn [negb];
      [|split; [by apply step_same|eauto]].
    set (ing' := withResourceVersion ing (Ing_ResourceVersion i)).
    pose proof (Update_spec (api w) ing') as Hu. destruct (Update (api w) ing') as [a e].
    change (objectKey ing') with (objectKey ing) in Hu. rewrite Hkey in Hu. destruct Hu as [Hf Hok].
    destruct (written_step "failed to update Ingress: %w" w instance ing' e a) as [? Hi];
      [congruence|done..|]. split; [done|].
    intros (i' & ? & ?)%Hi. eauto.
Qed.

(** The instance is meant to be reached from outside. *)
Definition exposed instance : bool :=
  negb (IsPraxisModeEnabled (Server_Spec instance)) && externalAccessIsSafeToExpose instance.

(** The stored Ingress is the one the mode asks for. *)
Definition posture instance a : Prop :=
  if exposed instance then
    ∃ i, stored a (ingressKey instance) = Some i ∧
         (IsControlledBy i instance = false ∨ exposesSafely instance i)
  else noneControlled instance a.

Lemma safe_requested instance :
  externalAccessIsSafeToExpose instance = true → externalAccessRequested instance = true.
Proof. unfold externalAccessIsSafeToExpose. by destruct (externalAccessRequested instance). Qed.

Lemma reconcileIngress_step w instance :
  setsController →
  step instance (api w) (reconcileIngress w instance) ∧
  (is_ok (reconcileIngress w instance).2 = true → posture instance (api (reconcileIngress w instance).1)).
Proof.
  intros Hs. unfold reconcileIngress, posture, exposed. destruct (IsPraxisModeEnabled _); cbn [negb andb].
  - rewrite enforceInternalOnlyIngress_disabled.
    destruct (getIngress w instance) as [ex|e] eqn:Hg; [|split; [by apply step_same|done]].
    by apply handleDisabledIngress_step, getIngress_knows.
  - unfold reconcileLegacyIngress.
    destruct (getIngress w instance) as [ex|e] eqn:Hg; [|split; [by apply step_same|done]].
    apply getIngress_knows in Hg. destruct (externalAccessIsSafeToExpose instance) eqn:Hsafe.
    + rewrite safe_requested by done. cbn. by apply handleEnabledIngress_step.
    + rewrite orb_true_r. set (w1 := if externalAccessRequested instance then _ else _).
      assert (Hw1 : api w1 = api w) by (subst w1; destruct (externalAccessRequested _); [apply warn_api|done]).
      rewrite <- Hw1. apply handleDisabledIngress_step. destruct ex; cbn in *; by rewrite Hw1.
Qed.

Lemma cleanupUnsafeOwnedIngress_step w instance :
  let run := cleanupUnsafeOwnedIngress w instance in
  step instance (api w) run ∧
  (is_ok run.2 = true → IsPraxisModeEnabled (Server_Spec instance) = false →
   externalAccessRequested instance = true → externalAccessIsSafeToExpose instance = false →
   noneControlled instance (api run.1)).
Proof.
  cbv zeta. unfold cleanupUnsafeOwnedIngress.
  destruct (IsPraxisModeEnabled _); [split; [by apply step_same|done]|].
  destruct (externalAccessRequested instance); cbn [negb orb]; [|split; [by apply step_same|done]].
  destruct (externalAccessIsSafeToExpose instance); [split; [by apply step_same|done]|].
  assert (Hw : api (warnInsecureExternalAccess w) = api w) by apply warn_api.
  destruct (getIngress _ instance) as [ex|e] eqn:Hg; [|split; [apply step_same; by rewrite Hw|done]].
  apply getIngress_knows in Hg. apply handleDisabledIngress_step in Hg as [Hst Hn].
  rewrite Hw in Hst. split; [done|auto].
Qed.

(** ** The calls that write

    At most one: to make the instance's Ingress, or, when the Ingress that was read
    is the instance's, to rewrite or delete it. *)
Inductive ownWrite instance (a : W) : W → Prop :=
| write_none : ownWrite instance a a
| write_create i : objectKey i = ingressKey instance → ownWrite instance a (Create a i).1
| write_update i i0 : objectKey i = ingressKey instance →
    seen a (ingressKey instance) = Some i0 → IsControlledBy i0 instance = true → ownWrite instance a (Update a i).1
| write_delete i0 :
    seen a (ingressKey instance) = Some i0 → IsControlledBy i0 instance = true →
    ownWrite instance a (Delete a (ingressKey instance)).1.

Lemma handleDisabledIngress_writes w instance existing :
  knows w instance existing → ownWrite instance (api w) (api (handleDisabledIngress w instance existing).1).
Proof.
  destruct existing as [e|i]; cbn [knows handleDisabledIngress]; intros Hk; [apply write_none|].
  destruct (IsControlledBy i instance) eqn:Hc; cbn [negb]; [|apply write_none].
  pose proof Hk as [Hkey%stored_key _]%seen_Some. unfold deleteIngress. rewrite Hkey.
  pose proof (write_delete instance (api w) i Hk Hc) as Hw. by destruct (Delete (api w) (ingressKey instance)).
Qed.

Lemma handleEnabledIngress_writes w instance existing :
  setsController → knows w instance existing →
  ownWrite instance (api w) (api (handleEnabledIngress w instance existing).1).
Proof.
  intros Hs Hk. unfold handleEnabledIngress. destruct (buildIngress instance) as [ing|e] eqn:Hb; [|apply write_none].
  apply buildIngress_safe in Hb as [Hkey _]; [|done]. destruct existing as [e0|i]; cbn [knows] in Hk.
  - destruct (IsNotFound e0); [by apply write_create|apply write_none].
  - destruct (IsControlledBy i instance) eqn:Hc; cbn [negb]; [|apply write_none]. by apply write_update with i.
Qed.

Lemma reconcileIngress_writes w instance :
  setsController → ownWrite instance (api w) (api (reconcileIngress w instance).1).
Proof.
  intros Hs. unfold reconcileIngress. destruct (IsPraxisModeEnabled _).
  - rewrite enforceInternalOnlyIngress_disabled. destruct (getIngress w instance) as [ex|e] eqn:Hg; [|apply write_none].
    by apply handleDisabledIngress_writes, getIngress_knows.
  - unfold reconcileLegacyIngress. destruct (getIngress w instance) as [ex|e] eqn:Hg; [|apply write_none].
    apply getIngress_knows in Hg. destruct (_ || _); [|by apply handleEnabledIngress_writes].
    set (w1 := if externalAccessRequested instance then _ else _).
    assert (Hw1 : api w1 = api w) by (subst w1; destruct (externalAccessRequested instance); [apply warn_api|done]).
    rewrite <- Hw1. apply handleDisabledIngress_writes. destruct ex; cbn in *; by rewrite Hw1.
Qed.

Lemma cleanupUnsafeOwnedIngress_writes w instance :
  ownWrite instance (api w) (api (cleanupUnsafeOwnedIngress w instance).1).
Proof.
  unfold cleanupUnsafeOwnedIngress. destruct (IsPraxisModeEnabled _); [apply write_none|].
  destruct (_ || _); [apply write_none|]. cbv zeta.
  destruct (getIngress _ instance) as [ex|e] eqn:Hg; [|rewrite <- (warn_api w); apply write_none].
  apply getIngress_knows, handleDisabledIngress_writes in Hg. by rewrite warn_api in Hg.
Qed.

(** Ownership: neither reconciling the Ingress nor the early clean-up changes an
    object other than the instance's own Ingress, or an Ingress of that name
    that another object controls; and a call that fails changes nothing. *)
Theorem ingress_ownership w instance run :
  setsController →
  run = reconcileIngress w instance ∨ run = cleanupUnsafeOwnedIngress w instance →
  (∀ k, k ≠ ingressKey instance → stored (api run.1) k = stored (api w) k) ∧
  (∀ i, stored (api w) (ingressKey instance) = Some i → IsControlledBy i instance = false →
        stored (api run.1) (ingressKey instance) = Some i) ∧
  (is_ok run.2 = false → ∀ k, stored (api run.1) k = stored (api w) k).
Proof.
  intros Hs Hrun.
  assert (Hst : step instance (api w) run).
  { destruct Hrun as [->| ->]; [by apply reconcileIngress_step|apply cleanupUnsafeOwnedIngress_step]. }
  destruct Hst as [Hown Herr]. split_and!; [|intros i Hi Hc|done].
  - intros k Hk. destruct (Hown k) as [?|[? _]]; done.
  - destruct (Hown (ingressKey instance)) as [->|[_ Hc']]; [done|]. by rewrite (Hc' i Hi) in Hc.
Qed.

(** Exposure: after a reconciliation that succeeds, an instance in Praxis mode,
    or one whose external access is off or lacks a host name or a TLS Secret,
    has no Ingress in the cache that it controls and that is not being deleted; any other instance has an Ingress, and if it controls
    it, it terminates TLS for the declared host with the declared Secret and
    forwards to the service port. *)
Theorem reconcileIngress_posture w w' instance :
  setsController → reconcileIngress w instance = (w', Ok tt) →
  if negb (IsPraxisModeEnabled (Server_Spec instance)) && externalAccessIsSafeToExpose instance then
    ∃ i, stored (api w') (ingressKey instance) = Some i ∧
         (IsControlledBy i instance = false ∨ exposesSafely instance i)
  else ∀ i, seen (api w') (ingressKey instance) = Some i → IsControlledBy i instance = false ∨ Ing_Deleting i = true.
Proof.
  intros Hs Hr. pose proof (proj2 (reconcileIngress_step w instance Hs)) as Hp. rewrite Hr in Hp.
  by apply Hp.
Qed.
End reconcile.
