(* ===== verification/Preflight.v ===== *)
(** * Praxis preflight

    The file [controllers/praxis_preflight.go]: the conditions that say whether
    a Praxis instance is reachable and the TLS Secret is there.  The parsing of
    a selector, the list of pods and the read of a Secret are calls of the
    Kubernetes libraries, and parameters. *)

From Stdlib Require Import ZArith.
From stdpp Require Import pretty.
From S2P Require Import Prelude Value ApiProviders ApiServer Fmt Client Status Common NetworkPolicy NetworkPolicyFacts.

(** ** Pods *)

Record PodCondition := { PodCond_Type : string; PodCond_Status : string }.

(** [Pod_Deleting] says that the deletion timestamp is set. *)
Record Pod := {
  Pod_Namespace : string;
  Pod_Labels : gmap string string;
  Pod_Deleting : bool;
  Pod_Phase : string;
  Pod_Conditions : list PodCondition;
}.

Definition isPodReady (pod : Pod) : bool :=
  if Pod_Deleting pod || negb (bool_decide (Pod_Phase pod = "Running")) then false
  else
    match List.find (λ c, bool_decide (PodCond_Type c = "Ready")) (Pod_Conditions pod) with
    | Some c => bool_decide (PodCond_Status c = "True")
    | None => false
    end.

Definition resolvePraxisPodSelector (instance : OGXServer) : string * LabelSelector :=
  match Spec_PraxisMode (Server_Spec instance) ≫= Praxis_PraxisSelector with
  | Some sel => (PSel_Namespace sel, PSel_PodSelector sel)
  | None => (DefaultPraxisNamespace,
             {| LS_MatchLabels := {[DefaultPraxisPodLabelKey := DefaultPraxisPodLabelValue]};
                LS_MatchExpressions := [] |})
  end.


Section preflight.
Context {Selector : Type} (LabelSelectorAsSelector : LabelSelector → result Selector).
Context (List : string → Selector → result (list Pod)).
Context (GetSecret : NamespacedName → option apiError) (now : Z).

Definition updatePraxisReachableCondition (instance : OGXServer) (status : OGXServerStatus) : OGXServerStatus :=
  let '(namespace, selector) := resolvePraxisPodSelector instance in
  match LabelSelectorAsSelector selector with
  | Err err =>
      SetPraxisReachableCondition now status false ReasonPraxisSelectorInvalid
        (Sprintf "Invalid spec.praxisMode.praxisSelector: %v" [Error err])
  | Ok labelSelector =>
      match List namespace labelSelector with
      | Err err =>
          SetPraxisReachableCondition now status false ReasonPraxisUnreachable
            (Sprintf "Failed to list Praxis pods in namespace %q: %v" [namespace; Error err])
      | Ok pods =>
          let readyCount := length (List.filter isPodReady pods) in
          if (readyCount =? 0)%nat then
            SetPraxisReachableCondition now status false ReasonPraxisUnreachable
              (Sprintf "No Ready Praxis pods match the selector in namespace %q; OGX is internal-only and has no valid path until Praxis is available" [namespace])
          else
            SetPraxisReachableCondition now status true ReasonPraxisReachable
              (Sprintf "%d Ready Praxis pod(s) match the selector in namespace %q" [pretty readyCount; namespace])
      end
  end.

Definition updateTLSConfiguredCondition (instance : OGXServer) (status : OGXServerStatus) : OGXServerStatus :=
  let secretName := match Spec_Network (Server_Spec instance) ≫= Net_TLS with
                    | Some tls => TLS_SecretName tls | None => "" end in
  let namespace := Meta_Namespace (Server_Meta instance) in
  if bool_decide (secretName = "") then
    SetTLSConfiguredCondition now status false ReasonTLSNotConfigured
      "spec.network.tls.secretName is not set; Praxis-fronted OGX is expected to serve its internal endpoint over TLS"
  else
    match GetSecret (namespace, secretName) with
    | Some (NotFound _) =>
        SetTLSConfiguredCondition now status false ReasonTLSSecretMissing
          (Sprintf "TLS Secret %q not found in namespace %q (it must exist and carry the label %s=%s to be detected by the operator)"
             [secretName; namespace; WatchLabelKey; WatchLabelValue])
    | Some e =>
        SetTLSConfiguredCondition now status false ReasonTLSSecretMissing
          (Sprintf "Failed to get TLS Secret %q in namespace %q: %v" [secretName; namespace; Error (apiErr e)])
    | None =>
        SetTLSConfiguredCondition now status true ReasonTLSConfigured
          (Sprintf "TLS Secret %q found" [secretName])
    end.

Definition updatePraxisPreflightStatus (instance : OGXServer) (status : OGXServerStatus) : OGXServerStatus :=
  updateTLSConfiguredCondition instance (updatePraxisReachableCondition instance status).

(** ** Lemmas *)

Lemma ready_pods pods :
  (length (List.filter isPodReady pods) =? 0)%nat = false ↔ ∃ pod, pod ∈ pods ∧ isPodReady pod = true.
Proof.
  rewrite Nat.eqb_neq. split.
  - destruct (List.filter isPodReady pods) as [|pod l] eqn:E; [done|]. intros _. exists pod.
    assert (Hin : In pod (List.filter isPodReady pods)) by (rewrite E; by left).
    apply filter_In in Hin as [Hin Hr]. by rewrite list_elem_of_In.
  - intros (pod & Hin & Hr) Hl. apply length_zero_iff_nil in Hl.
    assert (Hf : In pod (List.filter isPodReady pods)) by (apply filter_In; by rewrite <- list_elem_of_In).
    by rewrite Hl in Hf.
Qed.

(** The pods that the preflight check found Ready. *)
Definition readyPraxisPod (instance : OGXServer) (pod : Pod) : Prop :=
  ∃ sel pods, LabelSelectorAsSelector (resolvePraxisPodSelector instance).2 = Ok sel ∧
    List (resolvePraxisPodSelector instance).1 sel = Ok pods ∧ pod ∈ pods ∧ isPodReady pod = true.

Lemma praxisReachable_flag instance status :
  ∃ flag reason message,
    updatePraxisReachableCondition instance status =
      SetPraxisReachableCondition now status flag reason message ∧
    (flag = true ↔ ∃ pod, readyPraxisPod instance pod).
Proof.
  unfold updatePraxisReachableCondition, readyPraxisPod.
  destruct (resolvePraxisPodSelector instance) as [ns selector]. cbn [fst snd].
  destruct (LabelSelectorAsSelector selector) as [sel|e] eqn:Hs;
    [|do 3 eexists; split; [reflexivity|]; split; [done|]; by intros (? & ? & ? & ? & _)].
  destruct (List ns sel) as [pods|e] eqn:Hl;
    [|do 3 eexists; split; [reflexivity|]; split; [done|];
      intros (? & ? & ? & [= <-] & Hl' & _); congruence].
  destruct (_ =? 0)%nat eqn:Hn; (do 3 eexists; split; [reflexivity|]).
  - split; [done|]. intros (pod & ? & pods' & [= <-] & Hl' & Hin & Hr).
    assert (pods' = pods) as -> by congruence.
    rewrite (proj2 (ready_pods pods)) in Hn by eauto. done.
  - split; [|done]. intros _. apply ready_pods in Hn as (pod & ? & ?). exists pod, sel, pods. done.
Qed.

Lemma tlsConfigured_flag instance status :
  ∃ flag reason message,
    updateTLSConfiguredCondition instance status =
      SetTLSConfiguredCondition now status flag reason message ∧
    (flag = true ↔ ∃ tls, Spec_Network (Server_Spec instance) ≫= Net_TLS = Some tls ∧
       TLS_SecretName tls ≠ "" ∧ GetSecret (Meta_Namespace (Server_Meta instance), TLS_SecretName tls) = None).
Proof.
  unfold updateTLSConfiguredCondition.
  destruct (Spec_Network (Server_Spec instance) ≫= Net_TLS) as [tls|];
    [|do 3 eexists; split; [reflexivity|]; split; [done|]; by intros (? & ? & _)].
  case_bool_decide as Hn;
    [do 3 eexists; split; [reflexivity|]; split; [done|]; by intros (? & [= <-] & ? & _)|].
  destruct (GetSecret _) as [[e|e|e|e|e]|] eqn:Hg;
    (do 3 eexists; split; [reflexivity|]; split; [try done; eauto|]);
    intros (? & [= <-] & _ & ?); congruence.
Qed.

(** The preflight conditions: PraxisReachable is True exactly when the selector
    is valid, the pods can be listed and one of them is Ready; TLSConfigured is
    True exactly when a Secret is named and can be read; nothing else of the
    status changes. *)
Theorem updatePraxisPreflightStatus_spec instance status :
  let status' := updatePraxisPreflightStatus instance status in
  (IsConditionTrue (Some status') ConditionTypePraxisReachable = true ↔
     ∃ pod, readyPraxisPod instance pod) ∧
  (IsConditionTrue (Some status') ConditionTypeTLSConfigured = true ↔
     ∃ tls, Spec_Network (Server_Spec instance) ≫= Net_TLS = Some tls ∧ TLS_SecretName tls ≠ "" ∧
       GetSecret (Meta_Namespace (Server_Meta instance), TLS_SecretName tls) = None) ∧
  (∀ t, t ≠ ConditionTypePraxisReachable → t ≠ ConditionTypeTLSConfigured →
     GetCondition (Some status') t = GetCondition (Some status) t) ∧
  withConditions status' (Status_Conditions status) = status.
Proof.
  unfold updatePraxisPreflightStatus. cbv zeta.
  destruct (praxisReachable_flag instance status) as (f1 & r1 & m1 & -> & H1).
  destruct (tlsConfigured_flag instance (SetPraxisReachableCondition now status f1 r1 m1)) as (f2 & r2 & m2 & -> & H2).
  unfold SetPraxisReachableCondition, SetTLSConfiguredCondition. split_and!.
  - rewrite IsConditionTrue_SetCondition_ne by done. by rewrite IsConditionTrue_flag.
  - by rewrite IsConditionTrue_flag.
  - intros t Ht1 Ht2. by rewrite !GetCondition_SetCondition_ne.
  - rewrite !withConditions_SetCondition. apply withConditions_id.
Qed.

(** ** The preflight check and the network policy *)

(** [List] returns the pods of the namespace whose labels match. *)
Definition lists : Prop := ∀ selector sel ns pods pod,
  LabelSelectorAsSelector selector = Ok sel → List ns sel = Ok pods → pod ∈ pods →
  Pod_Namespace pod = ns ∧ selectorMatches selector (Pod_Labels pod) = true.

(** Traffic of a pod to a port; every namespace carries its name as a label. *)
Definition trafficOf (pod : Pod) (nsLabels : gmap string string) (same : bool) (port : Z) : traffic :=
  {| T_NamespaceLabels := <[DefaultNamespaceNameLabel := Pod_Namespace pod]> nsLabels;
     T_PodLabels := Pod_Labels pod; T_SameNamespace := same; T_Port := port |}.

Lemma BuildPraxisPeer_selector instance :
  BuildPraxisPeer instance =
  {| Peer_PodSelector := Some (resolvePraxisPodSelector instance).2;
     Peer_NamespaceSelector :=
       Some (matchLabels {[DefaultNamespaceNameLabel := (resolvePraxisPodSelector instance).1]}) |}.
Proof.
  unfold BuildPraxisPeer, resolvePraxisPodSelector.
  by destruct (Spec_PraxisMode (Server_Spec instance) ≫= Praxis_PraxisSelector).
Qed.

(** The two readings of the Praxis selector agree: every Ready pod that makes
    PraxisReachable True is let through to the service port by the network
    policy that the operator installs in Praxis mode. *)
Theorem ready_praxis_pods_admitted instance operatorNS spec pod nsLabels same :
  lists → readyPraxisPod instance pod →
  let config := transformerConfig instance (Some (BuildPraxisPeer instance)) true operatorNS in
  allowsIngress (applyNetworkPolicySpec config spec)
    (trafficOf pod nsLabels same (GetServicePort instance)) = true.
Proof.
  intros Hl (sel & pods & Hs & Hp & Hin & _) config.
  destruct (Hl _ _ _ _ _ Hs Hp Hin) as [Hns Hm].
  apply praxis_allows; [done|]. left. split; [done|]. left.
  unfold fromPraxis. cbn [PraxisPeer config transformerConfig default from_option id].
  rewrite BuildPraxisPeer_selector. unfold peerAllows. cbn [Peer_NamespaceSelector Peer_PodSelector].
  apply andb_true_iff. split; [|exact Hm]. unfold selectorMatches. cbn [matchLabels LS_MatchLabels LS_MatchExpressions forallb].
  rewrite andb_true_r. apply bool_decide_eq_true, map_singleton_subseteq_l.
  cbn. rewrite <- Hns. apply lookup_insert_eq.
Qed.
End preflight.
