(* ===== verification/Adoption.v ===== *)
(** * Adoption of legacy resources

    The file [controllers/legacy_adoption.go]: an OGXServer takes over the
    volume claim, the Service and the Ingress of a LlamaStackDistribution that
    an annotation names.  Each kind of objects has a store of its own, reached
    through [Client], [Lister] and [Patcher]; [SetControllerReference] is a
    parameter, and [now] the clock in seconds. *)

From Stdlib Require Import ZArith.
From S2P Require Import Prelude Value ApiProviders ApiServer Fmt Client Action Objects Status Common.

(** ** Constants *)

Definition legacyGroupVersion : string := "llamastack.io/v1alpha1".
Definition LlamaStackDistributionKind : string := "LlamaStackDistribution".

Definition ConditionTypeStorageAdopted : string := "StorageAdopted".
Definition ConditionTypeNetworkingAdopted : string := "NetworkingAdopted".
Definition ConditionTypeAdoptionConfigInvalid : string := "AdoptionConfigInvalid".
Definition ReasonStorageAdopted : string := "StorageAdopted".
Definition ReasonNetworkingAdopted : string := "NetworkingAdopted".
Definition ReasonAdoptionConfigInvalid : string := "AdoptionConfigInvalid".

(** ** Data *)

(** The part of a Service spec that adoption rewrites, and the rest of it. *)
Record ServiceSpec := { Svc_Selector : gmap string string; Svc_Rest : any }.

Record DeploymentSpec := { Dep_Replicas : option Z; Dep_Rest : any }.

Record adoptionResult := { requeue : bool; requeueAfter : Z }.

Definition noRequeue : adoptionResult := {| requeue := false; requeueAfter := 0 |}.

Definition isExpectedLegacyOwnerRef (ownerRef : option OwnerReference) (legacyName : string) : bool :=
  match ownerRef with
  | None => false
  | Some r =>
      bool_decide (Owner_APIVersion r = legacyGroupVersion) &&
      bool_decide (Owner_Kind r = LlamaStackDistributionKind) &&
      bool_decide (Owner_Name r = legacyName)
  end.

(** ** Conditions *)

Section conditions.
Context (now : Z).

Definition SetStorageAdoptedCondition (status : OGXServerStatus) (adopted : bool) (message : string) :=
  SetCondition status (flagCondition now ConditionTypeStorageAdopted adopted ReasonStorageAdopted message).

Definition SetNetworkingAdoptedCondition (status : OGXServerStatus) (adopted : bool) (message : string) :=
  SetCondition status
    (flagCondition now ConditionTypeNetworkingAdopted adopted ReasonNetworkingAdopted message).

Definition SetAdoptionConfigInvalidCondition (status : OGXServerStatus) (message : string) :=
  SetCondition status
    (flagCondition now ConditionTypeAdoptionConfigInvalid true ReasonAdoptionConfigInvalid message).

Definition clearAdoptionConfigInvalidCondition (status : OGXServerStatus) : OGXServerStatus :=
  match GetCondition (Some status) ConditionTypeAdoptionConfigInvalid with
  | None => status
  | Some existing =>
      if bool_decide (Cond_Status existing = ConditionFalse) then status
      else SetCondition status (flagCondition now ConditionTypeAdoptionConfigInvalid false
             "AnnotationsValid" "Adoption annotations are valid")
  end.

Definition validateAdoptionSource (status : OGXServerStatus) (annotationName value instanceName : string)
    : OGXServerStatus * bool :=
  if bool_decide (value = "") then (status, true)
  else if bool_decide (value = instanceName) then
    (SetAdoptionConfigInvalidCondition status
       (Sprintf "%s: value %q must not equal the CR name; same-name adoption causes resource conflicts"
          [annotationName; value]), false)
  else
    match ValidateAdoptionAnnotation value with
    | Err e => (SetAdoptionConfigInvalidCondition status (Sprintf "%s: %v" [annotationName; Error e]), false)
    | Ok _ => (status, true)
    end.

Definition validateAdoptionSources (status : OGXServerStatus)
    (instanceName storageSource networkingSource : string) : OGXServerStatus * bool :=
  let '(status, valid) := validateAdoptionSource status "adopt-storage" storageSource instanceName in
  if negb valid then (status, false)
  else validateAdoptionSource status "adopt-networking" networkingSource instanceName.
End conditions.

(** ** One object of one kind *)

Section kind.
Context {W Spec : Type} `{Client W (Object Spec)}.
Context (SetControllerReference : OGXServer → Metadata → result Metadata) (now : Z).

(** What an adopted object records: where it came from, and when. *)
Definition audit (legacySource : string) (m : Metadata) : Metadata :=
  SetAnnotations (<[AdoptedAtAnnotation := formatRFC3339 now]> (Obj_Annotations m))
    (SetLabels (<[AdoptedFromLabel := legacySource]> (Obj_Labels m)) m).

Definition unexpectedOwner (name : string) (r : OwnerReference) : error :=
  Errorf "failed to adopt %s: unexpected controller owner %s/%s %q"
    [name; Owner_APIVersion r; Owner_Kind r; Owner_Name r].

(** The guard of both ways to take an object over: its controller, if it has
    one, is the legacy owner. *)
Definition checkLegacyOwner (m : Metadata) (legacySource : string) : result unit :=
  match GetControllerOf m with
  | Some r =>
      if isExpectedLegacyOwnerRef (Some r) legacySource then Ok tt
      else Err (unexpectedOwner (Obj_Name m) r)
  | None => Ok tt
  end.

Definition dropController (m : Metadata) : Metadata :=
  SetOwnerReferences (withoutController (Obj_OwnerReferences m)) m.

Definition detachAndLabelPVC (instanceName : string) (pvc : Object Spec) (legacySource : string) : M W unit :=
  _ ← pureM (checkLegacyOwner (Obj_Meta pvc) legacySource);
  let label m := SetLabels (<[instanceLabelKey := instanceName]> (Obj_Labels m)) m in
  let pvc := withMeta (λ m, label (audit legacySource (dropController m))) pvc in
  writing "failed to update %s after adoption: %w" [Obj_Name (Obj_Meta pvc)] (λ w, Update w pvc).

Definition transferOwnership (instance : OGXServer) (obj : Object Spec) (legacySource : string) : M W unit :=
  _ ← pureM (checkLegacyOwner (Obj_Meta obj) legacySource);
  let resourceName := Obj_Name (Obj_Meta obj) in
  meta ← wrapM "failed to set controller reference on %s: %w" [resourceName]
           (pureM (SetControllerReference instance (audit legacySource (dropController (Obj_Meta obj)))));
  writing "failed to update %s after ownership transfer: %w" [resourceName]
    (λ w, Update w (withMeta (λ _, meta) obj)).

(** The common body of the adoption of a Service and of an Ingress: [prepare]
    rewrites the spec. *)
Definition adoptOwned (kindName : string) (prepare : Spec → Spec) (suffix : string)
    (instance : OGXServer) (legacyName : string) : M W bool :=
  let name := (legacyName +:+ suffix)%string in
  found ← getIfExists ("failed to get legacy " +:+ kindName +:+ " %s: %w") [name]
            (Meta_Namespace (Server_Meta instance), name);
  match found with
  | None => mret false
  | Some obj =>
      if IsControlledBy (Obj_Meta obj) instance then mret true
      else
        _ ← transferOwnership instance (withSpec (prepare (Obj_Spec obj)) obj) legacyName;
        mret true
  end.

(** ** Cleaning up *)

Definition shouldDeleteAdoptedResource (instance : OGXServer) (m : Metadata) : bool :=
  if negb (IsControlledBy m instance) then false
  else bool_decide (is_Some (Obj_Labels m !! AdoptedFromLabel)).

Definition HasLabels (key : string) (o : Object Spec) : bool :=
  bool_decide (is_Some (Obj_Labels (Obj_Meta o) !! key)).

Definition MatchingLabels (key value : string) (o : Object Spec) : bool :=
  bool_decide (Obj_Labels (Obj_Meta o) !! key = Some value).

Fixpoint deleteAdopted (kindName : string) (instance : OGXServer) (items : list (Object Spec)) : M W unit :=
  match items with
  | [] => mret tt
  | obj :: items =>
      if negb (shouldDeleteAdoptedResource instance (Obj_Meta obj))
      then deleteAdopted kindName instance items
      else
        _ ← (λ w, let '(w', e) := Delete w (objectKey obj) in
                  (w', match e with
                       | Some e =>
                           if IsNotFound e then Ok tt
                           else Err (Wrapf ("failed to delete adopted " +:+ kindName +:+ " %s: %w")
                                       [Obj_Name (Obj_Meta obj)] (apiErr e))
                       | None => Ok tt
                       end));
        deleteAdopted kindName instance items
  end.

Definition listObjects `{Lister W (Object Spec)} (format ns : string) (p : Object Spec → bool)
    : M W (list (Object Spec)) :=
  λ w, (w, match List w ns p with
           | inr l => Ok l
           | inl e => Err (Wrapf format [] (apiErr e))
           end).

Definition cleanupAdopted `{Lister W (Object Spec)} (kindName plural : string) (instance : OGXServer)
    : M W unit :=
  items ← listObjects ("failed to list " +:+ plural +:+ " for adoption cleanup: %w")
            (Meta_Namespace (Server_Meta instance)) (HasLabels AdoptedFromLabel);
  deleteAdopted kindName instance items.
End kind.

(** ** The reconciler *)

Section adoption.
Context {WV WS WI WD WP : Type}.
Context `{CV : Client WV (Object any), LV : !Lister WV (Object any)}.
Context `{CS : Client WS (Object ServiceSpec), LS : !Lister WS (Object ServiceSpec)}.
Context `{CI : Client WI (Object any), LI : !Lister WI (Object any)}.
Context `{CD : Client WD (Object DeploymentSpec), PD : !Patcher WD (Object DeploymentSpec)}.
Context `{CP : Client WP (Object any), LP : !Lister WP (Object any)}.
Context (SetControllerReference : OGXServer → Metadata → result Metadata) (now : Z).

Record state := {
  pvcs : WV;
  services : WS;
  ingresses : WI;
  deployments : WD;
  pods : WP;
  status : OGXServerStatus;
}.

Definition withStatus (f : OGXServerStatus → OGXServerStatus) (s : state) : state :=
  {| pvcs := pvcs s; services := services s; ingresses := ingresses s;
     deployments := deployments s; pods := pods s; status := f (status s) |}.

Definition inPVCs {A} : M WV A → M state A :=
  zoom pvcs (λ w s, {| pvcs := w; services := services s; ingresses := ingresses s;
                       deployments := deployments s; pods := pods s; status := status s |}).

Definition inServices {A} : M WS A → M state A :=
  zoom services (λ w s, {| pvcs := pvcs s; services := w; ingresses := ingresses s;
                           deployments := deployments s; pods := pods s; status := status s |}).

Definition inIngresses {A} : M WI A → M state A :=
  zoom ingresses (λ w s, {| pvcs := pvcs s; services := services s; ingresses := w;
                            deployments := deployments s; pods := pods s; status := status s |}).

Definition inDeployments {A} : M WD A → M state A :=
  zoom deployments (λ w s, {| pvcs := pvcs s; services := services s; ingresses := ingresses s;
                              deployments := w; pods := pods s; status := status s |}).

Definition inPods {A} : M WP A → M state A :=
  zoom pods (λ w s, {| pvcs := pvcs s; services := services s; ingresses := ingresses s;
                       deployments := deployments s; pods := w; status := status s |}).

Definition setStatus (f : OGXServerStatus → OGXServerStatus) : M state unit := modify (withStatus f).

Definition atReplicas (n : option Z) (d : Object DeploymentSpec) : Object DeploymentSpec :=
  withSpec {| Dep_Replicas := n; Dep_Rest := Dep_Rest (Obj_Spec d) |} d.

Definition scaleDownLegacyDeployment (namespace legacyName : string) : M state bool :=
  found ← inDeployments (getIfExists "failed to get legacy Deployment %s: %w" [legacyName]
                           (namespace, legacyName));
  match found with
  | None => mret false
  | Some deployment =>
      _ ← (if bool_decide (Dep_Replicas (Obj_Spec deployment) = Some 0%Z) then mret tt
           else inDeployments (writing "failed to scale down legacy Deployment %s: %w" [legacyName]
                  (λ w, Patch w deployment (atReplicas (Some 0%Z) deployment))));
      podList ← wrapM "failed to list pods for legacy Deployment %s: %w" [legacyName]
                  (inPods (λ w, (w, match List w namespace (MatchingLabels instanceLabelKey legacyName) with
                                    | inr l => Ok l
                                    | inl e => Err (apiErr e)
                                    end)));
      mret (0 <? length podList)%nat
  end.

Definition adoptStorage (instance : OGXServer) (legacyName : string) : M state adoptionResult :=
  let namespace := Meta_Namespace (Server_Meta instance) in
  let pvcName := (legacyName +:+ "-pvc")%string in
  let adopted := setStatus (λ st, SetStorageAdoptedCondition now st true
                                    (Sprintf "PVC %s adopted" [pvcName])) in
  found ← inPVCs (getIfExists "failed to get legacy PVC %s: %w" [pvcName] (namespace, pvcName));
  match found with
  | None => mret noRequeue
  | Some pvc =>
      if bool_decide (Obj_Labels (Obj_Meta pvc) !! AdoptedFromLabel = Some legacyName) then
        _ ← adopted; mret noRequeue
      else
        waiting ← scaleDownLegacyDeployment namespace legacyName;
        if waiting : bool then mret {| requeue := true; requeueAfter := 5 |}
        else
          _ ← inPVCs (detachAndLabelPVC now (Server_Name instance) pvc legacyName);
          _ ← adopted; mret noRequeue
  end.

(** The selector that routes a Service to the pods of the instance. *)
Definition routeTo (instance : OGXServer) (spec : ServiceSpec) : ServiceSpec :=
  {| Svc_Selector := <[DefaultLabelKey := DefaultLabelValue]>
                       (<[instanceLabelKey := Server_Name instance]> ∅);
     Svc_Rest := Svc_Rest spec |}.

Definition adoptLegacyService (instance : OGXServer) (legacyName : string) : M state bool :=
  inServices (adoptOwned SetControllerReference now "Service" (routeTo instance) "-service"
                instance legacyName).

Definition adoptLegacyIngress (instance : OGXServer) (legacyName : string) : M state bool :=
  inIngresses (adoptOwned SetControllerReference now "Ingress" id "-ingress" instance legacyName).

Definition adoptNetworking (instance : OGXServer) (legacyName : string) : M state unit :=
  serviceAdopted ← adoptLegacyService instance legacyName;
  ingressAdopted ← adoptLegacyIngress instance legacyName;
  if serviceAdopted || ingressAdopted then
    setStatus (λ st, SetNetworkingAdoptedCondition now st true
                       (Sprintf "Networking adopted from %s" [legacyName]))
  else mret tt.

Definition adoptStorageSource (instance : OGXServer) (storageSource : string) : M state adoptionResult :=
  if bool_decide (storageSource = "") then mret noRequeue
  else wrapM "failed to adopt storage from %q: %w" [storageSource] (adoptStorage instance storageSource).

Definition adoptNetworkingSource (instance : OGXServer) (networkingSource : string) : M state unit :=
  if bool_decide (networkingSource = "") then mret tt
  else wrapM "failed to adopt networking from %q: %w" [networkingSource]
         (adoptNetworking instance networkingSource).

Definition adoptLegacyResources (instance : OGXServer) : M state adoptionResult :=
  let storageSource := GetAdoptStorageSource instance in
  let networkingSource := GetAdoptNetworkingSource instance in
  if bool_decide (storageSource = "") && bool_decide (networkingSource = "") then
    _ ← setStatus (clearAdoptionConfigInvalidCondition now); mret noRequeue
  else
    valid ← (λ s, let '(st, valid) := validateAdoptionSources now (status s) (Server_Name instance)
                                        storageSource networkingSource in
                  (withStatus (λ _, st) s, Ok valid));
    if negb valid then mret noRequeue
    else
      _ ← setStatus (clearAdoptionConfigInvalidCondition now);
      storageResult ← adoptStorageSource instance storageSource;
      _ ← adoptNetworkingSource instance networkingSource;
      mret (if requeue storageResult then storageResult else noRequeue).

Definition cleanupAdoptedServices (instance : OGXServer) : M state unit :=
  inServices (cleanupAdopted "Service" "services" instance).

Definition cleanupAdoptedIngresses (instance : OGXServer) : M state unit :=
  inIngresses (cleanupAdopted "Ingress" "ingresses" instance).

Definition cleanupAdoptedNetworking (instance : OGXServer) : M state unit :=
  if negb (bool_decide (GetAdoptNetworkingSource instance = "")) then mret tt
  else
    reported ← gets (λ s, IsConditionTrue (Some (status s)) ConditionTypeNetworkingAdopted);
    if negb reported then mret tt
    else
      _ ← cleanupAdoptedServices instance;
      _ ← cleanupAdoptedIngresses instance;
      setStatus (λ st, SetNetworkingAdoptedCondition now st false "Adoption annotation removed").

Definition resolveEffectivePVCName (instance : OGXServer) : M state string :=
  let src := GetAdoptStorageSource instance in
  if negb (bool_decide (src = "")) && is_ok (ValidateAdoptionAnnotation src)
  then mret (src +:+ "-pvc")%string
  else
    items ← inPVCs (listObjects "failed to list adopted PVCs: %w" (Meta_Namespace (Server_Meta instance))
              (λ o, HasLabels AdoptedFromLabel o && MatchingLabels instanceLabelKey (Server_Name instance) o));
    match items with
    | [] => mret (Server_Name instance +:+ "-pvc")%string
    | [pvc] => mret (Obj_Name (Obj_Meta pvc))
    | _ =>
        let names := joinWith " " (map (λ o, Obj_Name (Obj_Meta o)) items) in
        let msg := Sprintf "multiple adopted PVCs found for instance %q: %v; remove the %s label from all but one"
                     [Server_Name instance; ("[" +:+ names +:+ "]")%string; AdoptedFromLabel] in
        _ ← setStatus (λ st, SetAdoptionConfigInvalidCondition now st msg);
        raise (terminalError msg)
    end.
End adoption.
Arguments state : clear implicits.
