(* ===== verification/AdoptionFacts.v ===== *)
(** * What adoption takes over, and what it leaves alone

    Lemmas per operation of [Adoption], then the properties: ownership, the
    hand-over of the volume claim, convergence, and cleaning up. *)

From Stdlib Require Import ZArith.
From S2P Require Import Prelude Value ApiProviders ApiServer Fmt Client Action Objects Status Common Adoption.

(** ** The cache

    The manager's cache of these kinds holds the objects that carry the label of
    the operator ([newCacheOptions]). *)

Definition managed (m : Metadata) : bool :=
  bool_decide (Obj_Labels m !! managedByLabelKey = Some managedByLabelVal).

Class ManagedCache (W Spec : Type) `{ReadCache W (Object Spec)} : Prop :=
  held_managed : ∀ o : Object Spec, held W o = managed (Obj_Meta o).

Lemma seen_managed {W Spec} `{!Client W (Object Spec), !ReadCache W (Object Spec), !ManagedCache W Spec} (w : W) k o :
  seen w k = Some o ↔ stored w k = Some o ∧ managed (Obj_Meta o) = true.
Proof. by rewrite seen_Some, held_managed. Qed.

(** ** One object of one kind *)

(** The object has no controller, or the legacy resource [src] controls it. *)
Definition takeable (src : string) (m : Metadata) : Prop :=
  ∀ r, GetControllerOf m = Some r → isExpectedLegacyOwnerRef (Some r) src = true.

Section kind.
Context {W Spec : Type} `{Client W (Object Spec), !ReadCache W (Object Spec), !CachedLaws W (Object Spec),
  !ManagedCache W Spec}.
Context (SetControllerReference : OGXServer → Metadata → result Metadata) (now : Z).
#[local] Set Default Proof Using "Type*".

(** The audit trail of an adopted object. *)
Definition audited (src : string) (m m' : Metadata) : Prop :=
  Obj_Annotations m' = <[AdoptedAtAnnotation := formatRFC3339 now]> (Obj_Annotations m) ∧
  Obj_Labels m' !! AdoptedFromLabel = Some src.

(** A claim taken over by [instance]: it was free or the legacy resource's, and
    in the cache; it has no controller now, and it is labelled for the instance. *)
Definition claimedPVC (instance : OGXServer) (src : string) (o o' : Object Spec) : Prop :=
  (managed (Obj_Meta o) = true ∧ takeable src (Obj_Meta o)) ∧ audited src (Obj_Meta o) (Obj_Meta o') ∧ Obj_Spec o' = Obj_Spec o ∧
  GetControllerOf (Obj_Meta o') = None ∧
  Obj_Labels (Obj_Meta o') =
    <[instanceLabelKey := Server_Name instance]> (<[AdoptedFromLabel := src]> (Obj_Labels (Obj_Meta o))) ∧
  ∀ r, r ∈ Obj_OwnerReferences (Obj_Meta o') ↔
       r ∈ Obj_OwnerReferences (Obj_Meta o) ∧ isController r = false.

(** An object taken over by [instance]: it was free or the legacy resource's, and
    in the cache, and the instance is its controller now. *)
Definition takenOver (prepare : Spec → Spec) (instance : OGXServer) (src : string) (o o' : Object Spec) : Prop :=
  (managed (Obj_Meta o) = true ∧ takeable src (Obj_Meta o)) ∧ audited src (Obj_Meta o) (Obj_Meta o') ∧ Obj_Spec o' = prepare (Obj_Spec o) ∧
  IsControlledBy (Obj_Meta o') instance = true ∧
  Obj_Labels (Obj_Meta o') = <[AdoptedFromLabel := src]> (Obj_Labels (Obj_Meta o)) ∧
  ∀ r, r ∈ Obj_OwnerReferences (Obj_Meta o') →
       r ∈ Obj_OwnerReferences (Obj_Meta o) ∨ Owner_UID r = Meta_UID (Server_Meta instance).

Lemma checkLegacyOwner_Ok m src : checkLegacyOwner m src = Ok tt ↔ takeable src m.
Proof.
  unfold checkLegacyOwner, takeable. destruct (GetControllerOf m) as [r|]; [|by split].
  destruct (isExpectedLegacyOwnerRef (Some r) src) eqn:E; split; try done.
  - by intros _ r' [= <-].
  - intros Ht. by rewrite (Ht r eq_refl) in E.
Qed.

(** Running a write: on failure nothing changes, on success the object is there. *)
Lemma update_run format args (o : Object Spec) (w : W) :
  let '(w', r) := writing format args (λ w, Update w o) w in
  (∀ k, k ≠ objectKey o → stored w' k = stored w k) ∧
  match r with
  | Ok _ => ∃ o', stored w' (objectKey o) = Some o' ∧ persists o o'
  | Err _ => ∀ k, stored w' k = stored w k
  end.
Proof.
  unfold writing. pose proof (Update_spec w o) as Hu. destruct (Update w o) as [w' [e|]]; destruct Hu as [Hf Hok].
  - split; intros k; [intros Hk|]; apply Hf; [by left|by right].
  - split; [auto|]. by apply Hok.
Qed.

Lemma detachAndLabelPVC_run instance (pvc : Object Spec) src (w : W) :
  let k := objectKey pvc in
  seen w k = Some pvc →
  let '(w', r) := detachAndLabelPVC now (Server_Name instance) pvc src w in
  rewrote k (claimedPVC instance src) w w' ∧
  match r with
  | Ok _ => ∃ o, stored w' k = Some o ∧ claimedPVC instance src pvc o
  | Err _ => ∀ k', stored w' k' = stored w k'
  end.
Proof.
  cbv zeta. intros [Hp Hm]%seen_managed. unfold detachAndLabelPVC. rewrite bindM_run. cbn [pureM fst snd].
  destruct (checkLegacyOwner (Obj_Meta pvc) src) as [[]|e] eqn:Hc; [|split; [apply rewrote_refl|done]].
  apply checkLegacyOwner_Ok in Hc.
  match goal with |- context [writing ?f ?a (λ w0, Update w0 ?o)] =>
    pose proof (update_run f a o w) as Hu; set (desired := o) in * end.
  change (objectKey desired) with (objectKey pvc) in Hu.
  match type of Hu with let '(_, _) := ?run in _ => destruct run as [w' [[]|e]] end; destruct Hu as [Hf Hok].
  - destruct Hok as (o' & Ho' & Hl & Ha & Hr & Hs).
    assert (Hcl : claimedPVC instance src pvc o').
    { split; [done|]. unfold audited. rewrite Hl, Ha, Hs. subst desired. cbn.
      split_and!; try done.
      - by rewrite lookup_insert_ne, lookup_insert_eq.
      - unfold GetControllerOf. rewrite Hr. cbn. apply withoutController_none.
      - intros r. rewrite Hr. cbn. apply elem_of_withoutController. }
    split; [|eauto]. split; [done|]. right. eauto.
  - split; [|done]. split; [auto|by left].
Qed.

Lemma transferOwnership_run instance (obj : Object Spec) (spec : Spec) src (w : W) :
  setsController SetControllerReference →
  let k := objectKey obj in
  seen w k = Some obj →
  let '(w', r) := transferOwnership SetControllerReference now instance (withSpec spec obj) src w in
  rewrote k (takenOver (λ _, spec) instance src) w w' ∧
  match r with
  | Ok _ => ∃ o, stored w' k = Some o ∧ takenOver (λ _, spec) instance src obj o
  | Err _ => ∀ k', stored w' k' = stored w k'
  end.
Proof.
  intros HS. cbv zeta. intros [Hp Hman]%seen_managed. unfold transferOwnership. rewrite bindM_run. cbn [pureM fst snd].
  destruct (checkLegacyOwner _ src) as [[]|e] eqn:Hc; [|split; [apply rewrote_refl|done]].
  apply checkLegacyOwner_Ok in Hc. cbn [Obj_Meta withSpec] in *.
  rewrite bindM_run. unfold wrapM. cbn [pureM fst snd].
  destruct (SetControllerReference _ _) as [meta|e] eqn:Hm; cbn [wrap]; [|split; [apply rewrote_refl|done]].
  destruct (HS _ _ _ Hm) as (Hmeta & Hctl & Hown).
  assert (Hml : Obj_Annotations meta = Obj_Annotations (audit now src (Obj_Meta obj)) ∧
                Obj_Labels meta = Obj_Labels (audit now src (Obj_Meta obj))) by by rewrite Hmeta.
  destruct Hml as [Hma Hml].
  match goal with |- context [writing ?f ?a (λ w0, Update w0 ?o)] =>
    pose proof (update_run f a o w) as Hu; set (desired := o) in * end.
  replace (objectKey desired) with (objectKey obj) in Hu by (subst desired; cbn; by rewrite Hmeta).
  match type of Hu with let '(_, _) := ?run in _ => destruct run as [w' [[]|e]] end; destruct Hu as [Hf Hok].
  - destruct Hok as (o' & Ho' & Hl & Ha & Hr & Hs).
    assert (Hcl : takenOver (λ _, spec) instance src obj o').
    { split; [done|]. unfold audited. rewrite Hl, Ha, Hs. subst desired. cbn.
      split_and!; [by rewrite Hma|rewrite Hml; apply lookup_insert_eq|done|..].
      - unfold IsControlledBy, GetControllerOf in *. by rewrite Hr.
      - by rewrite Hml.
      - intros r Hin. rewrite Hr in Hin. cbn in Hin. destruct (Hown r Hin) as [Hin'|]; [|by right].
        left. by apply elem_of_withoutController in Hin' as [? _]. }
    split; [|eauto]. split; [done|]. right. eauto.
  - split; [|done]. split; [auto|by left].
Qed.

Lemma adoptOwned_run kindName prepare suffix instance src (w : W) :
  setsController SetControllerReference →
  let k := (Meta_Namespace (Server_Meta instance), (src +:+ suffix)%string) in
  let '(w', r) := adoptOwned SetControllerReference now kindName prepare suffix instance src w in
  rewrote k (takenOver prepare instance src) w w' ∧
  match r with
  | Ok true => ∃ o, stored w' k = Some o ∧ IsControlledBy (Obj_Meta o) instance = true
  | Ok false => seen w k = None ∧ ∀ k', stored w' k' = stored w k'
  | Err _ => ∀ k', stored w' k' = stored w k'
  end.
Proof.
  intros HS. cbv zeta. unfold adoptOwned. rewrite bindM_run. set (k := (_, _)).
  destruct (getIfExists_cached ("failed to get legacy " +:+ kindName +:+ " %s: %w")
              [(src +:+ suffix)%string] k w) as (r & -> & Hr). cbn [fst snd].
  destruct r as [[obj|]|e]; [|split; [apply rewrote_refl|done]..].
  pose proof Hr as [Hst _]%seen_Some.
  destruct (IsControlledBy (Obj_Meta obj) instance) eqn:Hc.
  { split; [apply rewrote_refl|]. eauto. }
  rewrite bindM_run.
  pose proof (stored_key _ _ _ Hst) as Hk. rewrite <- Hk in Hr.
  pose proof (transferOwnership_run instance obj (prepare (Obj_Spec obj)) src w HS Hr) as Ht.
  destruct (transferOwnership _ _ _ _ _ w) as [w' [[]|e]]; cbn [fst snd]; destruct Ht as [[Hf Hrw] Hok];
    rewrite Hk in *.
  - split; [|destruct Hok as (o & Ho & _ & _ & _ & Hctl & _); eauto].
    split; [done|]. right. exists obj. destruct Hok as (o & Ho & Ht). by exists o.
  - split; [|done]. split; [done|]. left. apply Hok.
Qed.

End kind.

(** ** Adoption does not change what the cache holds *)

Lemma managed_label m m' key value : key ≠ managedByLabelKey →
  Obj_Labels m' = <[key := value]> (Obj_Labels m) → managed m' = managed m.
Proof. intros Hk Hl. unfold managed. by rewrite Hl, lookup_insert_ne. Qed.

Lemma claimedPVC_managed {Spec} now instance src (o o' : Object Spec) :
  claimedPVC now instance src o o' → managed (Obj_Meta o') = managed (Obj_Meta o).
Proof.
  intros (_ & _ & _ & _ & Hl & _). unfold managed. by rewrite Hl, !lookup_insert_ne by done.
Qed.

Lemma takenOver_managed {Spec} now (prepare : Spec → Spec) instance src (o o' : Object Spec) :
  takenOver now prepare instance src o o' → managed (Obj_Meta o') = managed (Obj_Meta o).
Proof. intros (_ & _ & _ & _ & Hl & _). by apply (managed_label _ _ AdoptedFromLabel src). Qed.

(** ** Cleaning up *)

Section cleanup.
Context {W Spec : Type} `{Client W (Object Spec), !ReadCache W (Object Spec), !CachedLaws W (Object Spec)}.
#[local] Set Default Proof Using "Type*".

(** No object at [k], or one that is being deleted. *)
Definition gone (k : NamespacedName) (w : W) : Prop :=
  ∀ o, stored w k = Some o → Obj_Deleting (Obj_Meta o) = true.

Lemma deleteAdopted_run kindName instance (items : list (Object Spec)) (w : W) :
  let '(w', r) := deleteAdopted kindName instance items w in
  let doomed k := ∃ o, o ∈ items ∧ objectKey o = k ∧ shouldDeleteAdoptedResource instance (Obj_Meta o) = true in
  (∀ k, stored w' k = stored w k ∨ doomed k ∧ gone k w') ∧
  (is_ok r = true → ∀ k, doomed k ∨ gone k w → gone k w').
Proof.
  revert w. induction items as [|obj items IH]; intros w; cbn [deleteAdopted].
  { cbn. split; [by left|]. intros _ k [(o & Ho & _)|Hg]; [by apply not_elem_of_nil in Ho|done]. }
  destruct (shouldDeleteAdoptedResource instance (Obj_Meta obj)) eqn:Hs; cbn [negb].
  2:{ specialize (IH w). destruct (deleteAdopted _ _ items w) as [w' r]. destruct IH as [Hf Hg]. split.
      - intros k. destruct (Hf k) as [?|((o & ? & ?) & ?)]; [by left|]. right. split; [|done]. exists o. split; [by right|done].
      - intros Hr k [(o & Ho & Hk & Hso)|?]; apply Hg; auto. left. apply elem_of_cons in Ho as [->|Ho]; [congruence|eauto]. }
  rewrite bindM_run. pose proof (Delete_spec w (objectKey obj)) as Hd.
  destruct (Delete w (objectKey obj)) as [w1 e]. cbn [fst snd]. destruct Hd as (Hdf & Hdok & Hdn).
  assert (Hstep : ∀ k, stored w1 k = stored w k ∨ k = objectKey obj ∧ gone k w1).
  { intros k. destruct (decide (k = objectKey obj)) as [->|]; [|left; auto].
    destruct e as [e|]; [left; apply Hdf; by right|]. right. split; [done|]. intros o Ho. by apply (Hdok eq_refl). }
  set (r1 := match e with Some e => _ | None => _ end).
  assert (Hgone : is_ok r1 = true → gone (objectKey obj) w1).
  { subst r1. destruct e as [e|]; intros Hr o Ho; [|by apply (Hdok eq_refl)].
    destruct e as [e|e|e|e|e]; try done. rewrite Hdf in Ho by (by right). by rewrite (Hdn e eq_refl) in Ho. }
  destruct r1 as [[]|er]; cbn [fst snd].
  2:{ split; [|done]. intros k. destruct (Hstep k) as [?|[-> ?]]; [by left|]. right. split; [|done]. exists obj. split; [left|done]. }
  specialize (IH w1). destruct (deleteAdopted _ _ items w1) as [w' r]. destruct IH as [Hf Hg]. split.
  - intros k. destruct (Hf k) as [Hk|((o & ? & ?) & ?)]; [|right; split; [exists o; split; [by right|done]|done]].
    destruct (Hstep k) as [Hk1|[-> Hgk]]; [left; congruence|]. right. split; [exists obj; split; [left|done]|].
    intros o Ho. apply Hgk. by rewrite <- Hk.
  - intros Hr k Hk. specialize (Hgone eq_refl). destruct (decide (k = objectKey obj)) as [->|Hne].
    + apply Hg; auto.
    + apply Hg; [done|]. destruct Hk as [(o & Ho & Hok & Hso)|Hgk].
      * apply elem_of_cons in Ho as [->|Ho]; [congruence|]. eauto.
      * right. intros o Ho. apply Hgk. rewrite <- Ho. symmetry. by destruct (Hstep k) as [|[? _]].
Qed.

Context `{!Lister W (Object Spec), !CachedListerLaws W (Object Spec)}.

(** What a clean-up may delete. *)
Definition ownAdopted (instance : OGXServer) (o : Object Spec) : Prop :=
  Obj_Namespace (Obj_Meta o) = Meta_Namespace (Server_Meta instance) ∧
  IsControlledBy (Obj_Meta o) instance = true ∧ is_Some (Obj_Labels (Obj_Meta o) !! AdoptedFromLabel).

Lemma shouldDelete_ownAdopted instance (o : Object Spec) :
  Obj_Namespace (Obj_Meta o) = Meta_Namespace (Server_Meta instance) →
  shouldDeleteAdoptedResource instance (Obj_Meta o) = true ↔ ownAdopted instance o.
Proof.
  intros Hns. unfold shouldDeleteAdoptedResource, ownAdopted.
  destruct (IsControlledBy _ _); cbn; rewrite ?bool_decide_eq_true; naive_solver.
Qed.

Lemma cleanupAdopted_run kindName plural instance (w : W) :
  let '(w', r) := cleanupAdopted kindName plural instance w in
  (∀ k, stored w' k = stored w k ∨ (∃ o, stored w k = Some o ∧ ownAdopted instance o) ∧ gone k w') ∧
  (is_ok r = true → ∀ k o, seen w' k = Some o → ownAdopted instance o → Obj_Deleting (Obj_Meta o) = true).
Proof.
  unfold cleanupAdopted. rewrite bindM_run. unfold listObjects. cbn [fst snd].
  pose proof (List_cached w (Meta_Namespace (Server_Meta instance)) (HasLabels AdoptedFromLabel)) as Hl.
  destruct (List w _ _) as [e|items]; [split; [by left|done]|]. destruct Hl as [_ Hl].
  pose proof (deleteAdopted_run kindName instance items w) as Hd.
  destruct (deleteAdopted _ _ items w) as [w' r]. destruct Hd as [Hf Hg].
  assert (Hdoom : ∀ k, (∃ o, o ∈ items ∧ objectKey o = k ∧ shouldDeleteAdoptedResource instance (Obj_Meta o) = true)
                  → ∃ o, stored w k = Some o ∧ ownAdopted instance o).
  { intros k (o & Ho & <- & Hs). apply Hl in Ho as (Hns & _ & [Ho _]%seen_Some). exists o. split; [done|].
    by apply shouldDelete_ownAdopted. }
  split.
  - intros k. destruct (Hf k) as [?|[? ?]]; [by left|right; auto].
  - intros Hr k o Hs Hown. pose proof Hs as [Ho _]%seen_Some. pose proof (stored_key _ _ _ Ho) as Hk.
    destruct (Hf k) as [Hsame|[Hdel _]]; [|by apply (Hg Hr k (or_introl Hdel))].
    apply (Hg Hr k); [left|done]. exists o. destruct Hown as (Hns & Hc & Hlab). split; [|split; [done|]].
    + apply Hl. split; [done|]. split; [by apply bool_decide_eq_true|]. by rewrite Hk, <- (seen_same _ _ _ Hsame).
    + by apply shouldDelete_ownAdopted.
Qed.
End cleanup.

(** ** The reconciler *)

Section adoption.
Context {WV WS WI WD WP : Type}.
Context `{!Client WV (Object any), !ReadCache WV (Object any), !CachedLaws WV (Object any), !ManagedCache WV any,
          !Lister WV (Object any), !CachedListerLaws WV (Object any)}.
Context `{!Client WS (Object ServiceSpec), !ReadCache WS (Object ServiceSpec), !CachedLaws WS (Object ServiceSpec), !ManagedCache WS ServiceSpec,
          !Lister WS (Object ServiceSpec), !CachedListerLaws WS (Object ServiceSpec)}.
Context `{!Client WI (Object any), !ReadCache WI (Object any), !CachedLaws WI (Object any), !ManagedCache WI any,
          !Lister WI (Object any), !CachedListerLaws WI (Object any)}.
Context `{!Client WD (Object DeploymentSpec), !ReadCache WD (Object DeploymentSpec), !CachedLaws WD (Object DeploymentSpec), !ManagedCache WD DeploymentSpec,
          !Patcher WD (Object DeploymentSpec), !PatcherLaws WD (Object DeploymentSpec)}.
(** The cache holds every pod. *)
Context `{!Client WP (Object any), !ClientLaws WP (Object any), !Lister WP (Object any), !ListerLaws WP (Object any)}.
Context (now : Z).
#[local] Set Default Proof Using "Type*".

Abbreviation cluster := (state WV WS WI WD WP).
Implicit Types (s : cluster) (instance : OGXServer).

(** A Deployment in the cache, scaled to zero and otherwise unchanged. *)
Definition scaledToZero (d d' : Object DeploymentSpec) : Prop :=
  managed (Obj_Meta d) = true ∧ persists (atReplicas (Some 0%Z) d) d'.

(** No pod carries the label of the legacy resource. *)
Definition noLegacyPods (ns legacyName : string) s : Prop :=
  ∀ k p, stored (pods s) k = Some p → k.1 = ns → Obj_Labels (Obj_Meta p) !! instanceLabelKey ≠ Some legacyName.

(** The legacy Deployment, when it is seen, is scaled to zero and has no pods
    left; of one that is gone, or that the cache does not hold, nothing is known. *)
Definition quiescent (ns legacyName : string) s : Prop :=
  ∀ d, seen (deployments s) (ns, legacyName) = Some d →
       Dep_Replicas (Obj_Spec d) = Some 0%Z ∧ noLegacyPods ns legacyName s.

(** What a step on storage may touch. *)
Definition sameButStorage s s' : Prop :=
  services s' = services s ∧ ingresses s' = ingresses s ∧ pods s' = pods s.

Lemma MatchingLabels_nil ns key value s :
  List (pods s) ns (MatchingLabels key value) = inr [] →
  ∀ k p, stored (pods s) k = Some p → k.1 = ns → Obj_Labels (Obj_Meta p) !! key ≠ Some value.
Proof.
  intros Hl k p Hp Hk Hv. pose proof (List_spec (pods s) ns (MatchingLabels key value)) as Hspec.
  rewrite Hl in Hspec. destruct Hspec as [_ Hin]. apply (not_elem_of_nil p), Hin.
  rewrite (stored_key _ _ _ Hp). split_and!; [done|by apply bool_decide_eq_true|done].
Qed.

(** Reading a store leaves the state as it is. *)
Lemma getIn_run {T O} `{!APIObject O, !Client T O, !ReadCache T O, !CachedLaws T O} (view : cluster → T) set fmt args key s :
  set (view s) s = s →
  ∃ r, zoom view set (getIfExists fmt args key) s = (s, r) ∧
       match r with Ok o => seen (view s) key = o | Err _ => True end.
Proof using Type.
  intros Hset. destruct (getIfExists_cached fmt args key (view s)) as (r & E & Hr).
  exists r. rewrite zoom_run, E. cbn. by rewrite Hset.
Qed.

Lemma scaleDown_run ns legacyName s :
  let '(s', r) := scaleDownLegacyDeployment ns legacyName s in
  sameButStorage s s' ∧ pvcs s' = pvcs s ∧ status s' = status s ∧
  rewrote (ns, legacyName) scaledToZero (deployments s) (deployments s') ∧
  (r = Ok false → quiescent ns legacyName s').
Proof.
  unfold scaleDownLegacyDeployment, inDeployments, inPods.
  edestruct (getIn_run deployments) as (r & E & Hr); [|rewrite (bindM_step _ _ _ _ _ E)]; [by destruct s|].
  destruct r as [[d|]|e].
  2-3: split_and!; [done..|apply rewrote_refl|try done].
  2: by intros _ d; cbn; rewrite Hr.
  apply seen_managed in Hr as [Hr Hm].
  set (scale := if bool_decide _ then _ else _).
  assert (Hscale : let '(s1, r1) := scale s in
            sameButStorage s s1 ∧ pvcs s1 = pvcs s ∧ status s1 = status s ∧
            rewrote (ns, legacyName) scaledToZero (deployments s) (deployments s1) ∧
            (r1 = Ok tt → ∃ d', stored (deployments s1) (ns, legacyName) = Some d' ∧
                                Dep_Replicas (Obj_Spec d') = Some 0%Z)).
  { subst scale. case_bool_decide as Hz.
    { cbn. split_and!; try done; [apply rewrote_refl|eauto]. }
    rewrite zoom_run. unfold writing.
    pose proof (stored_key _ _ _ Hr) as Hk. pose proof (Patch_spec (deployments s) d (atReplicas (Some 0%Z) d) eq_refl) as Hp.
    rewrite Hk in Hp. destruct (Patch _ d _) as [w' e]. destruct Hp as [Hf Hok]. cbn.
    split_and!; try done.
    - split; [intros k Hne; apply Hf; by left|]. destruct e as [e|]; [left; apply Hf; by right|].
      right. destruct (Hok eq_refl Hr) as (d' & Hd' & Hpd). by exists d, d'.
    - destruct e; [done|]. intros _. destruct (Hok eq_refl Hr) as (d' & Hd' & _ & _ & _ & Hsp). exists d'.
      split; [done|]. by rewrite Hsp. }
  destruct (scale s) as [s1 r1] eqn:E1. rewrite (bindM_step _ _ _ _ _ E1).
  destruct Hscale as (Hsame & Hpv & Hst & Hrw & Hok). destruct r1 as [[]|e]; [|done].
  rewrite bindM_run, wrapM_run, zoom_run. cbn [fst snd].
  destruct (List (pods s1) ns _) as [e|l] eqn:Hl; cbn [wrap fst snd]; (split_and!; [exact Hsame|exact Hpv|exact Hst|exact Hrw|]);
    [done|].
  intros Hf d' [Hd' _]%seen_Some. destruct (Hok eq_refl) as (d'' & Hd'' & Hz). cbn in Hd'. rewrite Hd'' in Hd'. injection Hd' as <-.
  split; [done|]. destruct l as [|p l]; [|discriminate Hf]. unfold noLegacyPods. cbn.
  by apply MatchingLabels_nil.
Qed.

Lemma adoptStorage_run instance src s :
  let ns := Meta_Namespace (Server_Meta instance) in
  let k := (ns, (src +:+ "-pvc")%string) in
  let '(s', r) := adoptStorage now instance src s in
  sameButStorage s s' ∧ sameButConditions [ConditionTypeStorageAdopted] (status s) (status s') ∧
  rewrote (ns, src) scaledToZero (deployments s) (deployments s') ∧
  rewrote k (claimedPVC now instance src) (pvcs s) (pvcs s') ∧
  (stored (pvcs s') k ≠ stored (pvcs s) k → quiescent ns src s') ∧
  match r with
  | Ok res =>
      requeue res = false → ∀ o, seen (pvcs s') k = Some o →
      Obj_Labels (Obj_Meta o) !! AdoptedFromLabel = Some src ∧
      IsConditionTrue (Some (status s')) ConditionTypeStorageAdopted = true
  | Err _ => True
  end.
Proof.
  cbv zeta. unfold adoptStorage, inPVCs. set (ns := Meta_Namespace _). set (k := (ns, _)).
  edestruct (getIn_run pvcs) as (r & E & Hr); [|rewrite (bindM_step _ _ _ _ _ E)]; [by destruct s|].
  assert (Hid : sameButStorage s s) by done.
  destruct r as [[pvc|]|e].
  2-3: split_and!; try apply rewrote_refl; try done; intros _ o; cbn; by rewrite Hr.
  case_bool_decide as Hlab.
  { cbn.
    split_and!; try apply rewrote_refl; try apply setFlag_same; try done.
    intros _ o Ho. cbn [pvcs withStatus] in Ho. rewrite Hr in Ho. injection Ho as <-.
    split; [done|]. apply IsConditionTrue_flag. }
  pose proof Hr as [Hstored _]%seen_Some.
  pose proof (scaleDown_run ns src s) as Hsd.
  destruct (scaleDownLegacyDeployment ns src s) as [s1 r1] eqn:E1. rewrite (bindM_step _ _ _ _ _ E1).
  destruct Hsd as (Hsame & Hpv & Hst & Hrw & Hq).
  destruct r1 as [[]|e].
  1,3: cbn; rewrite Hpv, Hst; split_and!; try apply rewrote_refl; done.
  pose proof (stored_key _ _ _ Hstored) as Hk.
  assert (Hr1 : seen (pvcs s1) (objectKey pvc) = Some pvc) by by rewrite Hk, Hpv.
  pose proof (detachAndLabelPVC_run now instance pvc src (pvcs s1) Hr1) as Hd.
  rewrite Hk, Hpv in Hd. unfold mbind at 1, M_bind. rewrite zoom_run, Hpv.
  destruct (detachAndLabelPVC _ _ pvc src (pvcs s)) as [w' [[]|e]]; destruct Hd as [Hrwp Hok]; cbn.
  - destruct Hok as (o & Ho & Hc).
    split_and!; try done.
    + rewrite <- Hst. apply setFlag_same.
    + by intros _; apply Hq.
    + intros _ o' [Ho' _]%seen_Some. cbn [pvcs withStatus] in Ho'. rewrite Ho in Ho'. injection Ho' as <-. split; [apply Hc|apply IsConditionTrue_flag].
  - split_and!; try done; [by rewrite Hst|]. intros Hne. by rewrite Hok in Hne.
Qed.

Context (SetControllerReference : OGXServer → Metadata → result Metadata).
Context (HS : setsController SetControllerReference).

Lemma adoptNetworking_run instance src s :
  let ns := Meta_Namespace (Server_Meta instance) in
  let ks := (ns, (src +:+ "-service")%string) in
  let ki := (ns, (src +:+ "-ingress")%string) in
  let '(s', r) := adoptNetworking SetControllerReference now instance src s in
  (pvcs s' = pvcs s ∧ deployments s' = deployments s ∧ pods s' = pods s) ∧
  sameButConditions [ConditionTypeNetworkingAdopted] (status s) (status s') ∧
  rewrote ks (takenOver now (routeTo instance) instance src) (services s) (services s') ∧
  rewrote ki (takenOver now id instance src) (ingresses s) (ingresses s') ∧
  match r with
  | Ok _ =>
      (∀ o, seen (services s') ks = Some o → IsControlledBy (Obj_Meta o) instance = true) ∧
      (∀ o, seen (ingresses s') ki = Some o → IsControlledBy (Obj_Meta o) instance = true) ∧
      (seen (services s') ks ≠ None ∨ seen (ingresses s') ki ≠ None →
       IsConditionTrue (Some (status s')) ConditionTypeNetworkingAdopted = true)
  | Err _ => status s' = status s
  end.
Proof.
  cbv zeta. unfold adoptNetworking, adoptLegacyService, adoptLegacyIngress, inServices, inIngresses.
  pose proof (adoptOwned_run SetControllerReference now "Service" (routeTo instance) "-service" instance src
                (services s) HS) as H1.
  rewrite (bindM_step _ _ _ _ _ (zoom_run _ _ _ _)).
  destruct (adoptOwned _ _ "Service" _ _ _ _ (services s)) as [w1 r1]. cbn [fst snd]. destruct H1 as [Hrw1 Hok1].
  destruct r1 as [b1|e]; [|by split_and!; try apply rewrote_refl].
  pose proof (adoptOwned_run SetControllerReference now "Ingress" id "-ingress" instance src
                (ingresses s) HS) as H2.
  rewrite (bindM_step _ _ _ _ _ (zoom_run _ _ _ _)). cbn [ingresses].
  destruct (adoptOwned _ _ "Ingress" _ _ _ _ (ingresses s)) as [w2 r2]. cbn [fst snd]. destruct H2 as [Hrw2 Hok2].
  destruct r2 as [b2|e]; [|by split_and!; try apply rewrote_refl].
  assert (Hs : ∀ o, seen w1 (Meta_Namespace (Server_Meta instance), (src +:+ "-service")%string) = Some o →
                 IsControlledBy (Obj_Meta o) instance = true).
  { intros o Ho. destruct b1; [destruct Hok1 as (? & ? & ?); apply seen_Some in Ho as [Ho _]|
      destruct Hok1 as [Hn1 Hsame1]; rewrite (seen_same _ _ _ (Hsame1 _)) in Ho]; congruence. }
  assert (Hi : ∀ o, seen w2 (Meta_Namespace (Server_Meta instance), (src +:+ "-ingress")%string) = Some o →
                 IsControlledBy (Obj_Meta o) instance = true).
  { intros o Ho. destruct b2; [destruct Hok2 as (? & ? & ?); apply seen_Some in Ho as [Ho _]|
      destruct Hok2 as [Hn2 Hsame2]; rewrite (seen_same _ _ _ (Hsame2 _)) in Ho]; congruence. }
  destruct (b1 || b2) eqn:Hb; cbn.
  - split_and!; try done; [apply setFlag_same|]. intros _. apply IsConditionTrue_flag.
  - apply orb_false_iff in Hb as [-> ->]. split_and!; try done.
    destruct Hok1 as [Hn1 Hsame1], Hok2 as [Hn2 Hsame2].
    rewrite (seen_same _ _ _ (Hsame1 _)), (seen_same _ _ _ (Hsame2 _)). by intros [?|?].
Qed.

(** ** The annotations *)

(** An annotation that may be acted on. *)
Definition validSource instance (src : string) : Prop :=
  src = "" ∨ src ≠ Server_Name instance ∧ is_ok (ValidateAdoptionAnnotation src) = true.

Lemma validateAdoptionSource_run instance st annotation src :
  let '(st', valid) := validateAdoptionSource now st annotation src (Server_Name instance) in
  (valid = true ↔ validSource instance src) ∧
  (if valid then st' = st
   else sameButConditions [ConditionTypeAdoptionConfigInvalid] st st' ∧
        IsConditionTrue (Some st') ConditionTypeAdoptionConfigInvalid = true).
Proof using Type.
  unfold validateAdoptionSource, validSource. case_bool_decide as He; [split; [|done]; tauto|].
  case_bool_decide as Hn.
  { split; [split; [done|]|split; [apply setFlag_same|apply IsConditionTrue_flag]]. by intros [?|[? _]]. }
  destruct (ValidateAdoptionAnnotation src) as [[]|e]; [split; [|done]; tauto|].
  split; [split; [done|]|split; [apply setFlag_same|apply IsConditionTrue_flag]]. by intros [?|[_ ?]].
Qed.

Lemma validateAdoptionSources_run instance st src1 src2 :
  let '(st', valid) := validateAdoptionSources now st (Server_Name instance) src1 src2 in
  (valid = true ↔ validSource instance src1 ∧ validSource instance src2) ∧
  (if valid then st' = st
   else sameButConditions [ConditionTypeAdoptionConfigInvalid] st st' ∧
        IsConditionTrue (Some st') ConditionTypeAdoptionConfigInvalid = true).
Proof using Type.
  unfold validateAdoptionSources.
  pose proof (validateAdoptionSource_run instance st "adopt-storage" src1) as H1.
  destruct (validateAdoptionSource now st "adopt-storage" src1 _) as [st1 [|]]; destruct H1 as [Hv1 H1]; cbn [negb].
  - subst st1. pose proof (validateAdoptionSource_run instance st "adopt-networking" src2) as H2.
    destruct (validateAdoptionSource now st "adopt-networking" src2 _) as [st2 v2]. destruct H2 as [Hv2 H2].
    split; [|done]. tauto.
  - split; [|done]. split; [done|]. intros [H _]. by apply Hv1 in H.
Qed.

Lemma clearInvalid_same st :
  sameButConditions [ConditionTypeAdoptionConfigInvalid] st (clearAdoptionConfigInvalidCondition now st).
Proof using Type.
  unfold clearAdoptionConfigInvalidCondition. destruct (GetCondition _ _); [|done].
  case_bool_decide; [done|apply setFlag_same].
Qed.

(** ** Properties *)

(** A rewriting for the sake of an annotation that is there. *)
Definition named {O : Type} (src : string) (R : O → O → Prop) (o o' : O) : Prop := src ≠ "" ∧ R o o'.

Lemma rewrote_named {W O} `{!Client W O} src k (R : O → O → Prop) (w w' : W) :
  src ≠ "" → rewrote k R w w' → rewrote k (named src R) w w'.
Proof using Type. intros Hne [Hf [E|(o & o' & ? & ? & ?)]]; (split; [done|]); [by left|]. right. exists o, o'. by split_and!. Qed.

(** What adoption may touch: the objects that the two annotations name, each
    rewritten in the one way that its kind allows, and three conditions. *)
Definition adoptionFrame instance s s' : Prop :=
  let ns := Meta_Namespace (Server_Meta instance) in
  let st := GetAdoptStorageSource instance in
  let nw := GetAdoptNetworkingSource instance in
  pods s' = pods s ∧
  rewrote (ns, st) (named st scaledToZero) (deployments s) (deployments s') ∧
  rewrote (ns, (st +:+ "-pvc")%string) (named st (claimedPVC now instance st)) (pvcs s) (pvcs s') ∧
  rewrote (ns, (nw +:+ "-service")%string) (named nw (takenOver now (routeTo instance) instance nw)) (services s) (services s') ∧
  rewrote (ns, (nw +:+ "-ingress")%string) (named nw (takenOver now id instance nw)) (ingresses s) (ingresses s') ∧
  sameButConditions [ConditionTypeAdoptionConfigInvalid; ConditionTypeStorageAdopted; ConditionTypeNetworkingAdopted]
    (status s) (status s').

(** The stores are as they were. *)
Definition sameStores s s' : Prop :=
  pvcs s' = pvcs s ∧ services s' = services s ∧ ingresses s' = ingresses s ∧
  deployments s' = deployments s ∧ pods s' = pods s.

(** What a successful pass guarantees of the storage, and of the network. *)
Definition storageAdopted instance s : Prop :=
  let src := GetAdoptStorageSource instance in
  src ≠ "" → ∀ o, seen (pvcs s) (Meta_Namespace (Server_Meta instance), (src +:+ "-pvc")%string) = Some o →
       Obj_Labels (Obj_Meta o) !! AdoptedFromLabel = Some src ∧
       IsConditionTrue (Some (status s)) ConditionTypeStorageAdopted = true.

Definition networkingAdopted instance s : Prop :=
  let ns := Meta_Namespace (Server_Meta instance) in
  let src := GetAdoptNetworkingSource instance in
  src ≠ "" →
  (∀ o, seen (services s) (ns, (src +:+ "-service")%string) = Some o →
        IsControlledBy (Obj_Meta o) instance = true ∧
        IsConditionTrue (Some (status s)) ConditionTypeNetworkingAdopted = true) ∧
  (∀ o, seen (ingresses s) (ns, (src +:+ "-ingress")%string) = Some o →
        IsControlledBy (Obj_Meta o) instance = true ∧
        IsConditionTrue (Some (status s)) ConditionTypeNetworkingAdopted = true).

Lemma adoptStorageSource_run instance s :
  let ns := Meta_Namespace (Server_Meta instance) in
  let src := GetAdoptStorageSource instance in
  let k := (ns, (src +:+ "-pvc")%string) in
  let '(s', r) := adoptStorageSource now instance src s in
  sameButStorage s s' ∧ sameButConditions [ConditionTypeStorageAdopted] (status s) (status s') ∧
  rewrote (ns, src) (named src scaledToZero) (deployments s) (deployments s') ∧
  rewrote k (named src (claimedPVC now instance src)) (pvcs s) (pvcs s') ∧
  (stored (pvcs s') k ≠ stored (pvcs s) k → quiescent ns src s') ∧
  match r with Ok res => requeue res = false → storageAdopted instance s' | Err _ => True end.
Proof.
  cbv zeta. unfold adoptStorageSource, storageAdopted. case_bool_decide as He.
  { cbn. split_and!; try apply rewrote_refl; done. }
  rewrite wrapM_run. pose proof (adoptStorage_run instance (GetAdoptStorageSource instance) s) as H.
  destruct (adoptStorage now instance _ s) as [s' [res|e]]; cbn [fst snd wrap];
    destruct H as (? & ? & ?%(rewrote_named _ _ _ _ _ He) & ?%(rewrote_named _ _ _ _ _ He) & ? & ?); split_and!; auto.
Qed.

Lemma adoptNetworkingSource_run instance s :
  let ns := Meta_Namespace (Server_Meta instance) in
  let src := GetAdoptNetworkingSource instance in
  let '(s', r) := adoptNetworkingSource SetControllerReference now instance src s in
  (pvcs s' = pvcs s ∧ deployments s' = deployments s ∧ pods s' = pods s) ∧
  sameButConditions [ConditionTypeNetworkingAdopted] (status s) (status s') ∧
  rewrote (ns, (src +:+ "-service")%string) (named src (takenOver now (routeTo instance) instance src)) (services s) (services s') ∧
  rewrote (ns, (src +:+ "-ingress")%string) (named src (takenOver now id instance src)) (ingresses s) (ingresses s') ∧
  match r with Ok _ => networkingAdopted instance s' | Err _ => status s' = status s end.
Proof.
  cbv zeta. unfold adoptNetworkingSource, networkingAdopted. case_bool_decide as He.
  { cbn. split_and!; try apply rewrote_refl; done. }
  rewrite wrapM_run. pose proof (adoptNetworking_run instance (GetAdoptNetworkingSource instance) s) as H.
  destruct (adoptNetworking _ now instance _ s) as [s' [[]|e]]; cbn [fst snd wrap]; destruct H as (Hk & ? & ?%(rewrote_named _ _ _ _ _ He) & ?%(rewrote_named _ _ _ _ _ He) & H).
  - destruct H as (Hs & Hi & Hc). do 4 (split; [done|]). intros _.
    split; intros o Ho; (split; [by eauto|]); apply Hc; rewrite Ho; by (left; done) || by (right; done).
  - done.
Qed.

Lemma adoptionFrame_status instance s f :
  sameButConditions [ConditionTypeAdoptionConfigInvalid] (status s) (f (status s)) →
  adoptionFrame instance s (withStatus f s).
Proof using All.
  intros [Hc Hw]. unfold adoptionFrame. split_and!; try apply rewrote_refl; [done|].
  split; [|done]. intros t Ht. apply Hc. set_solver.
Qed.

(** Cleaning up: of the Ingresses, only adopted ones are deleted. *)
Lemma cleanup_ingresses instance s :
  let s' := (cleanupAdoptedNetworking now instance s).1 in
  ∀ k, stored (ingresses s') k = stored (ingresses s) k ∨
       (∃ o, stored (ingresses s) k = Some o ∧ ownAdopted instance o) ∧ gone k (ingresses s').
Proof.
  cbv zeta. unfold cleanupAdoptedNetworking. destruct (negb _); [by left|]. unfold gets. rewrite bindM_run. cbn [fst snd].
  destruct (negb _); [by left|]. rewrite bindM_run. unfold cleanupAdoptedServices, cleanupAdoptedIngresses, inServices, inIngresses.
  rewrite zoom_run. cbn [fst snd]. destruct (cleanupAdopted "Service" _ _ (services s)) as [w1 [[]|e]]; [|by left]. cbn [fst snd].
  rewrite (bindM_step _ _ _ _ _ (zoom_run _ _ _ _)). cbn [ingresses].
  pose proof (cleanupAdopted_run "Ingress" "ingresses" instance (ingresses s)) as H.
  destruct (cleanupAdopted "Ingress" _ _ (ingresses s)) as [w2 [[]|e]]; apply H.
Qed.

(** The names of the legacy Ingress and of the instance's own differ. *)
Lemma legacy_name_differs instance src suffix : src ≠ "" → validSource instance src →
  (src +:+ suffix)%string ≠ (Server_Name instance +:+ suffix)%string.
Proof using Type.
  intros Hne [?|[Hn _]] E; [done|]. apply Hn. apply (f_equal chars) in E. rewrite !chars_app in E.
  by apply app_inv_tail, chars_inj in E.
Qed.

Lemma adoptLegacyResources_run instance s :
  let ns := Meta_Namespace (Server_Meta instance) in
  let st := GetAdoptStorageSource instance in
  let nw := GetAdoptNetworkingSource instance in
  let k := (ns, (st +:+ "-pvc")%string) in
  let '(s', r) := adoptLegacyResources SetControllerReference now instance s in
  adoptionFrame instance s s' ∧
  (stored (pvcs s') k ≠ stored (pvcs s) k → quiescent ns st s') ∧
  if bool_decide (validSource instance st ∧ validSource instance nw)
  then ∀ res, r = Ok res → (requeue res = false → storageAdopted instance s') ∧ networkingAdopted instance s'
  else r = Ok noRequeue ∧ sameStores s s' ∧
       IsConditionTrue (Some (status s')) ConditionTypeAdoptionConfigInvalid = true.
Proof.
  cbv zeta. unfold adoptLegacyResources. set (st := GetAdoptStorageSource instance).
  set (nw := GetAdoptNetworkingSource instance). destruct (_ && _) eqn:Hempty.
  { apply andb_true_iff in Hempty as [Hst%bool_decide_eq_true Hnw%bool_decide_eq_true].
    split; [apply adoptionFrame_status, clearInvalid_same|]. split; [done|].
    rewrite bool_decide_true by (split; by left). intros res [= <-].
    split; [intros _ Hn|intros Hn]; by destruct Hn. }
  pose proof (validateAdoptionSources_run instance (status s) st nw) as Hv.
  unfold mbind at 1, M_bind. destruct (validateAdoptionSources now (status s) _ st nw) as [st1 valid].
  destruct Hv as [Hv Hst1]. rewrite (bool_decide_ext _ (valid = true)) by done.
  destruct valid; cbn [negb].
  2:{ destruct Hst1 as [Hc Ht]. split; [by apply (adoptionFrame_status _ _ (λ _, st1))|].
      split; [done|]. split; [done|]. split; [done|exact Ht]. }
  subst st1. rewrite bool_decide_true by done.
  set (s0 := withStatus (λ _, status s) s).
  rewrite (bindM_step _ _ _ _ _ (eq_refl : setStatus _ s0 = (withStatus _ s0, Ok tt))).
  set (s1 := withStatus _ s0).
  assert (Hc : sameButConditions [ConditionTypeAdoptionConfigInvalid] (status s) (status s1)) by apply clearInvalid_same.
  pose proof (adoptStorageSource_run instance s1) as Hs. cbv zeta in Hs. fold st in Hs.
  destruct (adoptStorageSource now instance st s1) as [s2 r2] eqn:E2. rewrite (bindM_step _ _ _ _ _ E2).
  destruct Hs as ((Hsv & Hin & Hpo) & Hcs & Hd & Hp & Hq & Hok).
  destruct r2 as [res|e].
  2:{ unfold adoptionFrame. split_and!; try done.
      - rewrite Hsv. apply rewrote_refl.
      - rewrite Hin. apply rewrote_refl.
      - split; [|by rewrite (proj2 Hcs), (proj2 Hc)]. intros t Ht. rewrite (proj1 Hcs), (proj1 Hc); set_solver. }
  pose proof (adoptNetworkingSource_run instance s2) as Hn. cbv zeta in Hn. fold nw in Hn.
  destruct (adoptNetworkingSource _ now instance nw s2) as [s3 r3] eqn:E3. rewrite (bindM_step _ _ _ _ _ E3).
  destruct Hn as ((Hpv & Hde & Hpo2) & Hcn & Hs & Hi & Hok2).
  assert (Hframe : adoptionFrame instance s s3).
  { unfold adoptionFrame. rewrite Hpv, Hde, Hpo2, Hpo. rewrite Hsv in Hs. rewrite Hin in Hi. split_and!; try done.
    split; [|by rewrite (proj2 Hcn), (proj2 Hcs), (proj2 Hc)].
    intros t Ht. rewrite (proj1 Hcn), (proj1 Hcs), (proj1 Hc); set_solver. }
  assert (Hq3 : stored (pvcs s3) (Meta_Namespace (Server_Meta instance), (st +:+ "-pvc")%string) ≠
                stored (pvcs s) (Meta_Namespace (Server_Meta instance), (st +:+ "-pvc")%string) →
                quiescent (Meta_Namespace (Server_Meta instance)) st s3).
  { rewrite Hpv. intros Hne. specialize (Hq Hne). unfold quiescent, noLegacyPods. by rewrite Hde, Hpo2. }
  destruct r3 as [[]|e]; [|done]. split_and!; [done..|].
  intros res' [= <-]. split; [|done]. intros Hr. destruct (requeue res) eqn:Hrq; [congruence|].
  unfold storageAdopted in *. fold st. intros Hne o Ho. rewrite Hpv in Ho. destruct (Hok eq_refl Hne o Ho) as [Hl Hcd].
  split; [done|]. unfold IsConditionTrue in *. by rewrite (proj1 Hcn) by decided.
Qed.
End adoption.
