(* ===== verification/AdoptionTheorems.v ===== *)
(** * The properties of adoption

    Ownership, the hand-over of the volume claim, the claim that the Deployment
    mounts, convergence, and cleaning up. *)

From Stdlib Require Import ZArith.
From S2P Require Import Prelude Value ApiProviders ApiServer Fmt Client Action Objects Status Common Adoption AdoptionFacts.

Section adoption.
Context {WV WS WI WD WP : Type}.
Context `{!Client WV (Object any), !ReadCache WV (Object any), !CachedLaws WV (Object any), !ManagedCache WV any,
          !Lister WV (Object any), !CachedListerLaws WV (Object any)}.
Context `{!Client WS (Object ServiceSpec), !ReadCache WS (Object ServiceSpec), !CachedLaws WS (Object ServiceSpec), !ManagedCache WS ServiceSpec,
          !Lister WS (Object ServiceSpec), !CachedListerLaws WS (Object ServiceSpec)}.
Context `{!Client WI (Object any), !ReadCache WI (Object any), !CachedLaws WI (Object any), !ManagedCache WI any,
          !Lister WI (Object any), !CachedListerLaws WI (Object any)}.
Context `{!Client WD (Object DeploymentSpec), !ReadCache WD (Object DeploymentSpec), !CachedLaws WD (Object DeploymentSpec), !ManagedCache WD DeploymentSpec,
          !Patcher WD (Object DeploymentSpec), !PatcherLaws WD (Object DeploymentSpec)}.
(** The cache holds every pod. *)
Context `{!Client WP (Object any), !ClientLaws WP (Object any), !Lister WP (Object any), !ListerLaws WP (Object any)}.
Context (SetControllerReference : OGXServer → Metadata → result Metadata) (now : Z).
#[local] Set Default Proof Using "Type*".

Abbreviation cluster := (state WV WS WI WD WP).
Abbreviation adopt := (adoptLegacyResources SetControllerReference now).
Implicit Types (s : cluster) (instance : OGXServer).

Abbreviation namespaceOf instance := (Meta_Namespace (Server_Meta instance)).
Abbreviation storageSource := GetAdoptStorageSource.
Abbreviation networkingSource := GetAdoptNetworkingSource.

(** The claim that the storage annotation names. *)
Definition legacyClaim instance : NamespacedName :=
  (namespaceOf instance, (storageSource instance +:+ "-pvc")%string).

(** ** Ownership *)



(** ** The claim that the Deployment mounts *)

(** A claim of the cache, labelled as adopted by the instance. *)
Definition adoptedClaim instance s (k : NamespacedName) : Prop :=
  k.1 = namespaceOf instance ∧
  ∃ o, seen (pvcs s) k = Some o ∧ is_Some (Obj_Labels (Obj_Meta o) !! AdoptedFromLabel) ∧
       Obj_Labels (Obj_Meta o) !! instanceLabelKey = Some (Server_Name instance).

(** The annotation is absent or not valid. *)
Definition noStorageSource instance : Prop :=
  storageSource instance = "" ∨ is_ok (ValidateAdoptionAnnotation (storageSource instance)) = false.

Lemma resolve_run instance s :
  noStorageSource instance →
  let '(s', r) := resolveEffectivePVCName now instance s in
  sameStores s s' ∧
  match r with
  | Ok name =>
      (∀ k, ¬ adoptedClaim instance s k) ∧ name = (Server_Name instance +:+ "-pvc")%string ∨
      ∃ k, adoptedClaim instance s k ∧ (∀ k', adoptedClaim instance s k' → k' = k) ∧ name = k.2
  | Err (terminalError _) => ∃ k k', k ≠ k' ∧ adoptedClaim instance s k ∧ adoptedClaim instance s k'
  | Err _ => True
  end.
Proof.
  intros Hno. unfold resolveEffectivePVCName. destruct (negb _ && _) eqn:Hv.
  { apply andb_true_iff in Hv as [Hne%negb_true_iff%bool_decide_eq_false Hok]. destruct Hno as [?|Hno]; congruence. }
  unfold inPVCs, listObjects. rewrite (bindM_step _ _ _ _ _ (zoom_run _ _ _ _)). cbn [fst snd].
  match goal with |- context [List (pvcs s) ?ns ?p] => pose proof (List_cached (pvcs s) ns p) as Hl; set (sel := p) in * end.
  assert (Hself : {| pvcs := pvcs s; services := services s; ingresses := ingresses s;
                     deployments := deployments s; pods := pods s; status := status s |} = s) by by destruct s.
  rewrite Hself. destruct (List (pvcs s) _ sel) as [e|items]; cbn.
  { done. }
  destruct Hl as [Hnd Hl].
  assert (Hclaim : ∀ o, o ∈ items → adoptedClaim instance s (objectKey o)).
  { intros o (Hns & Hsel & Ho)%Hl. apply andb_true_iff in Hsel as [Ha%bool_decide_eq_true Hi%bool_decide_eq_true].
    split; [done|]. eauto. }
  assert (Hitem : ∀ k, adoptedClaim instance s k → ∃ o, o ∈ items ∧ objectKey o = k).
  { intros k (Hns & o & Ho & Ha & Hi). pose proof Ho as [Hk%stored_key _]%seen_Some. exists o. split; [|done].
    apply Hl. rewrite Hk. split; [done|]. split; [|done]. apply andb_true_iff.
    split; by apply bool_decide_eq_true. }
  destruct items as [|o1 [|o2 items]]; cbn.
  - split; [done|]. left. split; [|done]. intros k Hk. destruct (Hitem k Hk) as (o & Ho & _). by apply not_elem_of_nil in Ho.
  - split; [done|]. right. exists (objectKey o1). split; [apply Hclaim; by left|]. split; [|done].
    intros k Hk. destruct (Hitem k Hk) as (o & Ho & <-). by apply list_elem_of_singleton in Ho as ->.
  - split; [done|]. exists (objectKey o1), (objectKey o2).
    assert (Hin1 : o1 ∈ o1 :: o2 :: items) by left. assert (Hin2 : o2 ∈ o1 :: o2 :: items) by (right; left).
    split; [|by split; apply Hclaim]. intros Heq. pose proof (proj1 (Hl o1) Hin1) as (_ & _ & H1').
    pose proof (proj1 (Hl o2) Hin2) as (_ & _ & H2'). rewrite Heq in H1'.
    assert (o1 = o2) by congruence. subst. apply NoDup_cons in Hnd as [Hn _]. apply Hn. by left.
Qed.

(** The claim survives the annotation: once a free legacy claim of the cache has
    been adopted, the Deployment mounts it by the annotation, and, when the
    annotation is removed, by its labels, as long as the instance has adopted
    no other claim; a terminal error is then impossible. *)
Theorem adopted_pvc_survives instance instance' s s' o :
  setsController SetControllerReference →
  storageSource instance ≠ "" →
  validSource instance (storageSource instance) → validSource instance (networkingSource instance) →
  seen (pvcs s) (legacyClaim instance) = Some o →
  Obj_Labels (Obj_Meta o) !! AdoptedFromLabel ≠ Some (storageSource instance) →
  (∀ k, adoptedClaim instance s k → k = legacyClaim instance) →
  adopt instance s = (s', Ok noRequeue) →
  namespaceOf instance' = namespaceOf instance → Server_Name instance' = Server_Name instance →
  noStorageSource instance' →
  (resolveEffectivePVCName now instance s').2 = Ok (legacyClaim instance).2 ∧
  match (resolveEffectivePVCName now instance' s').2 with
  | Ok name => name = (legacyClaim instance).2
  | Err (terminalError _) => False
  | Err _ => True
  end.
Proof.
  intros HS Hne Hv1 Hv2 Ho Hfresh Honly E Hns Hname Hno.
  pose proof (adoptLegacyResources_run now _ HS instance s) as H. cbv zeta in H. rewrite E in H.
  destruct H as ((_ & _ & Hp & _) & _ & H). rewrite bool_decide_true in H by done.
  destruct (H _ eq_refl) as [Hst _]. specialize (Hst eq_refl Hne).
  destruct Hp as [Hother Hclaim]. fold (legacyClaim instance) in *.
  assert (Hnew : adoptedClaim instance' s' (legacyClaim instance)).
  { split; [done|]. destruct Hclaim as [Hsame|(o1 & o2 & Ho1 & Ho2 & Hc)].
    - rewrite (seen_same _ _ _ Hsame) in Hst. destruct (Hst o Ho) as [? _]. congruence.
    - destruct Hc as [_ Hc]. exists o2. pose proof (claimedPVC_managed _ _ _ _ _ Hc) as Hm. split.
      { apply seen_managed. split; [done|]. by rewrite Hm; destruct Hc as [[? _] _]. }
      destruct Hc as (_ & [_ Ha] & _ & _ & Hl & _). split; [by eexists|].
      rewrite Hl, Hname. apply lookup_insert_eq. }
  assert (Huniq : ∀ k, adoptedClaim instance' s' k → k = legacyClaim instance).
  { intros k (Hk & o' & Ho' & Ha & Hi). destruct (decide (k = legacyClaim instance)) as [->|Hk']; [done|].
    apply Honly. rewrite (seen_same _ _ _ (Hother _ Hk')) in Ho'. rewrite Hname in Hi. rewrite Hns in Hk. split; [done|]. eauto. }
  split.
  - unfold resolveEffectivePVCName. rewrite bool_decide_false by done. destruct Hv1 as [?|[_ Hok]]; [done|].
    by rewrite Hok.
  - pose proof (resolve_run instance' s' Hno) as Hr.
    destruct (resolveEffectivePVCName now instance' s') as [s'' r]. destruct Hr as [_ Hr]. cbn.
    destruct r as [name|[]]; try done.
    + destruct Hr as [[Hn _]|(k & Hk & _ & ->)]; [by destruct (Hn _ Hnew)|]. by rewrite (Huniq k Hk).
    + destruct Hr as (k & k' & Hkk & H1 & H2). apply Hkk. by rewrite (Huniq k H1), (Huniq k' H2).
Qed.

(** ** Progress *)

Lemma adoptStorage_stable instance src s :
  (∀ o, seen (pvcs s) (namespaceOf instance, (src +:+ "-pvc")%string) = Some o →
        Obj_Labels (Obj_Meta o) !! AdoptedFromLabel = Some src) →
  sameStores s (adoptStorage now instance src s).1.
Proof.
  intros Hready. unfold adoptStorage, inPVCs. cbv zeta.
  edestruct (getIn_run (pvcs : cluster → WV)) as (r & E & Hr); [|rewrite (bindM_step _ _ _ _ _ E)]; [by destruct s|].
  destruct r as [[pvc|]|e]; [|done..]. by rewrite bool_decide_true by auto.
Qed.

Section progress.
Context `{!Reliable WV (Object any), !Reliable WS (Object ServiceSpec), !Reliable WI (Object any),
          !Reliable WD (Object DeploymentSpec), !ReliablePatcher WD (Object DeploymentSpec),
          !ReliableLister WP (Object any)}.

(** A free object can be given a controller. *)
Definition acceptsController : Prop :=
  ∀ instance m, GetControllerOf m = None → is_ok (SetControllerReference instance m) = true.

Lemma getIn_reliable {T O} `{!APIObject O, !Client T O, !ReadCache T O, !CachedLaws T O, !Reliable T O}
    (view : cluster → T) set fmt args key s :
  set (view s) s = s → zoom view set (getIfExists fmt args key) s = (s, Ok (seen (view s) key)).
Proof using Type. intros Hset. rewrite zoom_run, getIfExists_cached_reliable. cbn. by rewrite Hset. Qed.

Lemma scaleDown_progress ns src s :
  ∃ b, (scaleDownLegacyDeployment ns src s).2 = Ok b ∧ (noLegacyPods ns src s → b = false).
Proof.
  unfold scaleDownLegacyDeployment, inDeployments, inPods.
  assert (Hget : ∀ fmt args, zoom deployments (λ w s, {| pvcs := pvcs s; services := services s; ingresses := ingresses s;
      deployments := w; pods := pods s; status := status s |}) (getIfExists fmt args (ns, src)) s =
      (s, Ok (seen (deployments s) (ns, src)))) by (intros; apply getIn_reliable; by destruct s).
  rewrite (bindM_step _ _ _ _ _ (Hget _ _)). destruct (seen (deployments s) (ns, src)) as [d|] eqn:Hd.
  2:{ by exists false. }
  apply seen_Some in Hd as [Hd _].
  assert (Hpods : ∀ s1 : cluster, pods s1 = pods s → ∃ b,
     ((podList ← wrapM "failed to list pods for legacy Deployment %s: %w" [src]
        (zoom pods (λ w s, {| pvcs := pvcs s; services := services s; ingresses := ingresses s;
           deployments := deployments s; pods := w; status := status s |})
          (λ w, (w, match List w ns (MatchingLabels instanceLabelKey src) with
                    | inr l => Ok l | inl e => Err (apiErr e) end)));
       mret (0 <? length podList)%nat) s1).2 = Ok b ∧ (noLegacyPods ns src s → b = false)).
  { intros s1 Hs1. rewrite bindM_run, wrapM_run, zoom_run. cbn [fst snd]. rewrite Hs1.
    destruct (List_reliable (pods s) ns (MatchingLabels instanceLabelKey src)) as [l Hl]. rewrite Hl. cbn.
    eexists. split; [done|]. intros Hno. destruct l as [|p l]; [done|]. exfalso.
    pose proof (List_spec (pods s) ns (MatchingLabels instanceLabelKey src)) as Hspec. rewrite Hl in Hspec.
    destruct Hspec as [_ Hin]. destruct (proj1 (Hin p) ltac:(left)) as (Hns & Hm & Hp).
    apply (Hno _ _ Hp Hns). exact (proj1 (bool_decide_eq_true _) Hm). }
  case_bool_decide as Hz.
  - apply (Hpods s eq_refl).
  - rewrite (bindM_step _ _ _ _ _ (zoom_run _ _ _ _)). unfold writing.
    pose proof (stored_key _ _ _ Hd) as Hk.
    pose proof (Patch_reliable (deployments s) d (atReplicas (Some 0%Z) d)) as Hp.
    destruct (Patch _ d _) as [w' e]. cbn [fst snd] in *. rewrite Hp; [|by rewrite Hk, Hd|done].
    by apply Hpods.
Qed.

Lemma adoptStorage_progress instance src s :
  (∀ o, seen (pvcs s) (namespaceOf instance, (src +:+ "-pvc")%string) = Some o →
        takeable src (Obj_Meta o) ∨ Obj_Labels (Obj_Meta o) !! AdoptedFromLabel = Some src) →
  ∃ res, (adoptStorage now instance src s).2 = Ok res ∧
         (noLegacyPods (namespaceOf instance) src s → res = noRequeue).
Proof.
  intros Hready. unfold adoptStorage, inPVCs.
  assert (Hget : ∀ fmt args key, zoom pvcs (λ w s, {| pvcs := w; services := services s; ingresses := ingresses s;
      deployments := deployments s; pods := pods s; status := status s |}) (getIfExists fmt args key) s =
      (s, Ok (seen (pvcs s) key))) by (intros; apply getIn_reliable; by destruct s).
  rewrite (bindM_step _ _ _ _ _ (Hget _ _ _)). set (k := (_, _)) in *.
  destruct (seen (pvcs s) k) as [pvc|] eqn:Hp; [|by exists noRequeue].
  case_bool_decide as Hl; [by exists noRequeue|].
  destruct (Hready pvc eq_refl) as [Ht|?]; [|done]. apply seen_Some in Hp as [Hp _].
  pose proof (scaleDown_run (namespaceOf instance) src s) as Hsd.
  destruct (scaleDown_progress (namespaceOf instance) src s) as (b & Hb & Hno).
  destruct (scaleDownLegacyDeployment _ src s) as [s1 r1] eqn:E1. cbn in Hb. subst r1.
  rewrite (bindM_step _ _ _ _ _ E1). destruct b; [eexists; split; [done|]; intros H; by specialize (Hno H)|].
  destruct Hsd as (_ & Hpv & _). unfold detachAndLabelPVC.
  rewrite (bindM_step _ _ _ _ _ (zoom_run _ _ _ _)), bindM_run. cbn [pureM fst snd].
  rewrite (proj2 (checkLegacyOwner_Ok _ _) Ht). unfold writing.
  pose proof (stored_key _ _ _ Hp) as Hk. unfold objectKey in Hk. cbn in Hk.
  match goal with |- context [Update ?w ?o] => pose proof (Update_reliable w o) as Hu; destruct (Update w o) as [w' e] end.
  cbn [fst snd] in *. rewrite Hu; [by exists noRequeue|]. unfold objectKey. cbn. rewrite Hk, Hpv, Hp. done.
Qed.

Lemma adoptOwned_progress {W Spec} `{!Client W (Object Spec), !ReadCache W (Object Spec), !CachedLaws W (Object Spec), !Reliable W (Object Spec)}
    kindName (prepare : Spec → Spec) suffix instance src (w : W) :
  setsController SetControllerReference → acceptsController →
  (∀ o, seen w (namespaceOf instance, (src +:+ suffix)%string) = Some o →
        takeable src (Obj_Meta o) ∨ IsControlledBy (Obj_Meta o) instance = true) →
  is_ok (adoptOwned SetControllerReference now kindName prepare suffix instance src w).2 = true.
Proof using Type.
  intros HS Hacc Hready. unfold adoptOwned. rewrite (bindM_step _ _ _ _ _ (getIfExists_cached_reliable _ _ _ _)).
  set (k := (_, _)) in *. destruct (seen w k) as [o|] eqn:Ho; [|done].
  destruct (IsControlledBy (Obj_Meta o) instance) eqn:Hc; [done|].
  destruct (Hready o eq_refl) as [Ht|?]; [|congruence]. apply seen_Some in Ho as [Ho _].
  unfold transferOwnership. rewrite bindM_run, bindM_run. cbn [pureM fst snd Obj_Meta withSpec].
  rewrite (proj2 (checkLegacyOwner_Ok _ _) Ht), bindM_run, wrapM_run. cbn [pureM fst snd].
  set (m := audit now src (dropController (Obj_Meta o))).
  assert (Hm : is_ok (SetControllerReference instance m) = true) by apply Hacc, withoutController_none.
  destruct (SetControllerReference instance m) as [m'|e] eqn:Em; [|done]. cbn [wrap].
  destruct (HS _ _ _ Em) as (Hm' & _ & _). unfold writing.
  pose proof (stored_key _ _ _ Ho) as Hk. unfold objectKey in Hk. cbn in Hk.
  match goal with |- context [Update ?w ?o] => pose proof (Update_reliable w o) as Hu; destruct (Update w o) as [w' e] end.
  cbn [fst snd] in *. rewrite Hu; [done|]. unfold objectKey. cbn. rewrite Hm'. cbn. by rewrite Hk, Ho.
Qed.

Lemma adoptOwned_stable {W Spec} `{!Client W (Object Spec), !ReadCache W (Object Spec), !CachedLaws W (Object Spec)}
    kindName (prepare : Spec → Spec) suffix instance src (w : W) :
  (∀ o, seen w (namespaceOf instance, (src +:+ suffix)%string) = Some o →
        IsControlledBy (Obj_Meta o) instance = true) →
  (adoptOwned SetControllerReference now kindName prepare suffix instance src w).1 = w.
Proof using Type.
  intros Hready. unfold adoptOwned. set (k := (_, _)) in *.
  destruct (getIfExists_cached ("failed to get legacy " +:+ kindName +:+ " %s: %w") [(src +:+ suffix)%string] k w)
    as (r & E & Hr). rewrite (bindM_step _ _ _ _ _ E).
  destruct r as [[o|]|e]; [|done..]. by rewrite Hready.
Qed.

(** Nothing else controls the objects of the cache that the annotations name. *)
Definition adoptable instance s : Prop :=
  (∀ o, seen (pvcs s) (legacyClaim instance) = Some o →
        takeable (storageSource instance) (Obj_Meta o) ∨
        Obj_Labels (Obj_Meta o) !! AdoptedFromLabel = Some (storageSource instance)) ∧
  (∀ o, seen (services s) (namespaceOf instance, (networkingSource instance +:+ "-service")%string) = Some o →
        takeable (networkingSource instance) (Obj_Meta o) ∨ IsControlledBy (Obj_Meta o) instance = true) ∧
  (∀ o, seen (ingresses s) (namespaceOf instance, (networkingSource instance +:+ "-ingress")%string) = Some o →
        takeable (networkingSource instance) (Obj_Meta o) ∨ IsControlledBy (Obj_Meta o) instance = true).

Definition validSources instance : Prop :=
  validSource instance (storageSource instance) ∧ validSource instance (networkingSource instance).

Lemma validateAdoptionSources_valid instance st :
  validSources instance →
  validateAdoptionSources now st (Server_Name instance) (storageSource instance) (networkingSource instance) = (st, true).
Proof using Type.
  intros Hv. pose proof (validateAdoptionSources_run now instance st (storageSource instance) (networkingSource instance)) as H.
  destruct (validateAdoptionSources _ _ _ _ _) as [st' v]. destruct H as [Hb H].
  rewrite (proj2 Hb Hv) in *. by rewrite H.
Qed.

(** The pass on valid annotations, as the source composes it. *)
Lemma adopt_valid instance s :
  validSources instance →
  ∃ st, sameButConditions [ConditionTypeAdoptionConfigInvalid] (status s) st ∧
    adopt instance s =
    (storageResult ← adoptStorageSource now instance (storageSource instance);
     _ ← adoptNetworkingSource SetControllerReference now instance (networkingSource instance);
     mret (if requeue storageResult then storageResult else noRequeue)) (withStatus (λ _, st) s).
Proof using Type.
  intros Hv. unfold adoptLegacyResources. destruct (_ && _) eqn:He.
  - apply andb_true_iff in He as [Hst%bool_decide_eq_true Hnw%bool_decide_eq_true].
    unfold adoptStorageSource, adoptNetworkingSource. rewrite Hst, Hnw.
    exists (clearAdoptionConfigInvalidCondition now (status s)). split; [apply clearInvalid_same|done].
  - exists (clearAdoptionConfigInvalidCondition now (status s)). split; [apply clearInvalid_same|].
    unfold mbind at 1, M_bind.
    by rewrite validateAdoptionSources_valid.
Qed.

Lemma adopt_progress instance s :
  setsController SetControllerReference → acceptsController → validSources instance → adoptable instance s →
  ∃ res, (adopt instance s).2 = Ok res ∧
         (noLegacyPods (namespaceOf instance) (storageSource instance) s → res = noRequeue).
Proof.
  intros HS Hacc Hv (Hp & Hsv & Hin). destruct (adopt_valid instance s Hv) as (st & _ & ->).
  set (s0 := withStatus _ s).
  assert (H1 : ∃ res, (adoptStorageSource now instance (storageSource instance) s0).2 = Ok res ∧
                 (noLegacyPods (namespaceOf instance) (storageSource instance) s → res = noRequeue)).
  { unfold adoptStorageSource. case_bool_decide as He; [by exists noRequeue|]. rewrite wrapM_run.
    destruct (adoptStorage_progress instance (storageSource instance) s0 Hp) as (res & E & Hno).
    exists res. cbn [snd]. by rewrite E. }
  pose proof (adoptStorageSource_run now instance s0) as Hst. cbv zeta in Hst.
  destruct H1 as (res & E & Hno). destruct (adoptStorageSource now instance _ s0) as [s1 r1] eqn:E1.
  rewrite (bindM_step _ _ _ _ _ E1). cbn in E. subst r1. destruct Hst as ((Hs1 & Hi1 & _) & _).
  assert (H2 : is_ok (adoptNetworkingSource SetControllerReference now instance (networkingSource instance) s1).2 = true).
  { unfold adoptNetworkingSource. case_bool_decide; [done|]. rewrite wrapM_run. cbn [snd]. rewrite wrap_is_ok.
    unfold adoptNetworking, adoptLegacyService, adoptLegacyIngress, inServices, inIngresses.
    pose proof (adoptOwned_progress "Service" (routeTo instance) "-service" instance (networkingSource instance)
                  (services s1) HS Hacc) as Ha. rewrite Hs1 in Ha. specialize (Ha Hsv).
    rewrite (bindM_step _ _ _ _ _ (zoom_run _ _ _ _)), Hs1.
    destruct (adoptOwned _ _ "Service" _ _ _ _ _) as [w1 [b1|]]; [|done]. cbn [fst snd].
    pose proof (adoptOwned_progress "Ingress" id "-ingress" instance (networkingSource instance)
                  (ingresses s1) HS Hacc) as Hb. rewrite Hi1 in Hb. specialize (Hb Hin).
    rewrite (bindM_step _ _ _ _ _ (zoom_run _ _ _ _)). cbn [ingresses]. rewrite Hi1.
    destruct (adoptOwned _ _ "Ingress" _ _ _ _ _) as [w2 [b2|]]; [|done]. cbn [fst snd].
    by destruct (b1 || b2). }
  rewrite bindM_run. destruct (adoptNetworkingSource _ _ _ _ s1) as [s2 [[]|e]]; [|done]. cbn.
  exists (if requeue res then res else noRequeue). split; [done|]. intros Hn. by rewrite (Hno Hn).
Qed.

Lemma adopt_stable instance s :
  validSources instance →
  (∀ o, storageSource instance ≠ "" → seen (pvcs s) (legacyClaim instance) = Some o →
        Obj_Labels (Obj_Meta o) !! AdoptedFromLabel = Some (storageSource instance)) →
  (networkingSource instance ≠ "" →
   (∀ o, seen (services s) (namespaceOf instance, (networkingSource instance +:+ "-service")%string) = Some o →
         IsControlledBy (Obj_Meta o) instance = true) ∧
   (∀ o, seen (ingresses s) (namespaceOf instance, (networkingSource instance +:+ "-ingress")%string) = Some o →
         IsControlledBy (Obj_Meta o) instance = true)) →
  sameStores s (adopt instance s).1.
Proof.
  intros Hv Hp Hn. destruct (adopt_valid instance s Hv) as (st & _ & ->).
  set (s0 := withStatus _ s).
  assert (H1 : sameStores s (adoptStorageSource now instance (storageSource instance) s0).1).
  { unfold adoptStorageSource. case_bool_decide as He; [done|]. rewrite wrapM_run. cbn [fst].
    apply (adoptStorage_stable instance (storageSource instance) s0). intros o. by apply Hp. }
  destruct (adoptStorageSource now instance _ s0) as [s1 r1] eqn:E1. rewrite (bindM_step _ _ _ _ _ E1).
  destruct r1 as [res|e]; [|done]. cbn in H1. destruct H1 as (Hpv & Hsv & Hin & Hde & Hpo).
  unfold adoptNetworkingSource. case_bool_decide as He; [done|]. destruct (Hn He) as [Hs Hi].
  rewrite bindM_run, wrapM_run. unfold adoptNetworking, adoptLegacyService, adoptLegacyIngress, inServices, inIngresses.
  rewrite (bindM_step _ _ _ _ _ (zoom_run _ _ _ _)).
  pose proof (adoptOwned_stable "Service" (routeTo instance) "-service" instance (networkingSource instance) (services s1)) as Ha.
  rewrite Hsv in *. specialize (Ha Hs).
  destruct (adoptOwned _ _ "Service" _ _ _ _ _) as [w1 [b1|]]; cbn [fst snd] in *; subst w1; [|done].
  rewrite (bindM_step _ _ _ _ _ (zoom_run _ _ _ _)). cbn [ingresses].
  pose proof (adoptOwned_stable "Ingress" id "-ingress" instance (networkingSource instance) (ingresses s1)) as Hb.
  rewrite Hin in *. specialize (Hb Hi).
  destruct (adoptOwned _ _ "Ingress" _ _ _ _ _) as [w2 [b2|]]; cbn [fst snd] in *; subst w2; [|done].
  by destruct (b1 || b2).
Qed.

Lemma adoptable_next instance s :
  setsController SetControllerReference → adoptable instance s → adoptable instance (adopt instance s).1.
Proof.
  intros HS (Hp & Hs & Hi).
  pose proof (adoptLegacyResources_run now _ HS instance s) as H. cbv zeta in H.
  destruct (adopt instance s) as [s1 r1]. destruct H as ((_ & _ & Hrp & Hrs & Hri & _) & _).
  split_and!; intros o Ho; cbn [fst] in Ho.
  - destruct Hrp as [_ [E|(o1 & o2 & E1 & E2 & Hc)]]; [apply Hp; unfold legacyClaim; by rewrite <- (seen_same _ _ _ E)|].
    right. apply seen_Some in Ho as [Ho _]. unfold legacyClaim in Ho. rewrite E2 in Ho. injection Ho as <-. apply Hc.
  - destruct Hrs as [_ [E|(o1 & o2 & E1 & E2 & Hc)]]; [apply Hs; by rewrite <- (seen_same _ _ _ E)|].
    right. apply seen_Some in Ho as [Ho _]. rewrite E2 in Ho. injection Ho as <-. apply Hc.
  - destruct Hri as [_ [E|(o1 & o2 & E1 & E2 & Hc)]]; [apply Hi; by rewrite <- (seen_same _ _ _ E)|].
    right. apply seen_Some in Ho as [Ho _]. rewrite E2 in Ho. injection Ho as <-. apply Hc.
Qed.

(** What becomes of the object at [k]: one that carries the operator's label is
    there and satisfies [P], any other is as it was. *)
Definition adoptedIfManaged {W Spec} `{!Client W (Object Spec)} (k : NamespacedName) (P : Object Spec → Prop) (w w' : W) : Prop :=
  ∀ o, stored w k = Some o →
       if managed (Obj_Meta o) then ∃ o', stored w' k = Some o' ∧ P o' else stored w' k = Some o.

Lemma rewrote_managed {W Spec} `{!Client W (Object Spec)} k (R : Object Spec → Object Spec → Prop) (w w' : W) o :
  (∀ o o', R o o' → managed (Obj_Meta o) = true ∧ managed (Obj_Meta o') = managed (Obj_Meta o)) →
  rewrote k R w w' → stored w k = Some o →
  ∃ o', stored w' k = Some o' ∧ managed (Obj_Meta o') = managed (Obj_Meta o) ∧ (managed (Obj_Meta o) = false → o' = o).
Proof using Type.
  intros HR [_ [E|(o1 & o2 & E1 & E2 & Hr)]] Ho; [exists o; by rewrite E|].
  rewrite Ho in E1. injection E1 as <-. destruct (HR _ _ Hr) as [H1 H2]. exists o2.
  split_and!; [done..|]. congruence.
Qed.

Lemma adopted_rewrote {W Spec} `{!Client W (Object Spec), !ReadCache W (Object Spec), !ManagedCache W Spec}
    k (R : Object Spec → Object Spec → Prop) P (w w1 w2 w3 : W) :
  (∀ o o', R o o' → managed (Obj_Meta o) = true ∧ managed (Obj_Meta o') = managed (Obj_Meta o)) →
  w2 = w1 → rewrote k R w w1 → rewrote k R w2 w3 → (∀ o, seen w3 k = Some o → P o) → adoptedIfManaged k P w w3.
Proof using Type.
  intros HR -> H1 H2 HP o Ho. destruct (rewrote_managed k R w w1 o HR H1 Ho) as (o1 & Ho1 & Hm1 & He1).
  destruct (rewrote_managed k R w1 w3 o1 HR H2 Ho1) as (o3 & Ho3 & Hm3 & He3). rewrite Hm1 in *.
  destruct (managed (Obj_Meta o)).
  - exists o3. split; [done|]. apply HP, seen_managed. by split.
  - by rewrite Ho3, He3, He1.
Qed.

End progress.

(** ** Cleaning up *)

(** Cleaning up deletes nothing but Services and Ingresses of the
    namespace that the instance controls and has adopted, and does nothing while
    the annotation is there or when no adoption was reported; when it succeeds,
    the cache holds none of them that is not being deleted, and the condition is
    false. *)
Theorem cleanup_spec instance s :
  let '(s', r) := cleanupAdoptedNetworking now instance s in
  (∀ k, stored (services s') k = stored (services s) k ∨
        (∃ o, stored (services s) k = Some o ∧ ownAdopted instance o) ∧ gone k (services s')) ∧
  (∀ k, stored (ingresses s') k = stored (ingresses s) k ∨
        (∃ o, stored (ingresses s) k = Some o ∧ ownAdopted instance o) ∧ gone k (ingresses s')) ∧
  (pvcs s' = pvcs s ∧ deployments s' = deployments s ∧ pods s' = pods s) ∧
  (if bool_decide (networkingSource instance = "") &&
      IsConditionTrue (Some (status s)) ConditionTypeNetworkingAdopted
   then r = Ok tt →
     (∀ k o, seen (services s') k = Some o → ownAdopted instance o → Obj_Deleting (Obj_Meta o) = true) ∧
     (∀ k o, seen (ingresses s') k = Some o → ownAdopted instance o → Obj_Deleting (Obj_Meta o) = true) ∧
     IsConditionTrue (Some (status s')) ConditionTypeNetworkingAdopted = false
   else s' = s ∧ r = Ok tt).
Proof.
  unfold cleanupAdoptedNetworking. case_bool_decide as Hsrc; cbn [negb andb]; [|by split_and!; try (intros; left)].
  unfold gets. rewrite bindM_run. cbn [fst snd].
  destruct (IsConditionTrue _ _) eqn:Hc; cbn [negb]; [|by split_and!; try (intros; left)].
  unfold cleanupAdoptedServices, cleanupAdoptedIngresses, inServices, inIngresses.
  pose proof (cleanupAdopted_run "Service" "services" instance (services s)) as H1'.
  rewrite (bindM_step _ _ _ _ _ (zoom_run _ _ _ _)).
  destruct (cleanupAdopted "Service" _ _ (services s)) as [w1 r1]. cbn [fst snd]. destruct H1' as [Hf1 Hg1].
  destruct r1 as [[]|e]; [|split_and!; try done; intros k; by left].
  pose proof (cleanupAdopted_run "Ingress" "ingresses" instance (ingresses s)) as H2'.
  rewrite (bindM_step _ _ _ _ _ (zoom_run _ _ _ _)). cbn [ingresses].
  destruct (cleanupAdopted "Ingress" _ _ (ingresses s)) as [w2 r2]. cbn [fst snd]. destruct H2' as [Hf2 Hg2].
  destruct r2 as [[]|e]; [|by split_and!].
  split_and!; try done. intros _. split_and!; [by apply Hg1|by apply Hg2|apply IsConditionTrue_flag].
Qed.

(** ** Two ways in which adoption goes wrong *)

(** A partial adoption is not undone: when the Service can be adopted and
    the Ingress of that name belongs to someone else, the pass fails after the
    Service has changed hands and reports nothing; from then on, removing the
    annotation does not clean up, and the instance keeps the Service. *)
Theorem adopted_service_leaks instance s svc ing owner :
  setsController SetControllerReference → acceptsController →
  Reliable WS (Object ServiceSpec) → Reliable WI (Object any) →
  validSources instance → storageSource instance = "" → networkingSource instance ≠ "" →
  seen (services s) (namespaceOf instance, (networkingSource instance +:+ "-service")%string) = Some svc →
  takeable (networkingSource instance) (Obj_Meta svc) → IsControlledBy (Obj_Meta svc) instance = false →
  seen (ingresses s) (namespaceOf instance, (networkingSource instance +:+ "-ingress")%string) = Some ing →
  GetControllerOf (Obj_Meta ing) = Some owner →
  isExpectedLegacyOwnerRef (Some owner) (networkingSource instance) = false →
  Owner_UID owner ≠ Meta_UID (Server_Meta instance) →
  IsConditionTrue (Some (status s)) ConditionTypeNetworkingAdopted = false →
  let s' := (adopt instance s).1 in
  is_ok (adopt instance s).2 = false ∧
  (∃ svc', stored (services s') (namespaceOf instance, (networkingSource instance +:+ "-service")%string) = Some svc' ∧
           ownAdopted instance svc') ∧
  ∀ instance', networkingSource instance' = "" → cleanupAdoptedNetworking now instance' s' = (s', Ok tt).
Proof.
  intros HS Hacc HRs HRi Hv Hst Hnw Hsvc Htake Hfree Hing Hown Hexp Huid Hcond. cbv zeta.
  destruct (adopt_valid instance s Hv) as (st & Hconds & E).
  assert (Herr : let '(s', r) := adopt instance s in is_ok r = false ∧ status s' = st ∧ ∃ svc',
            stored (services s') (namespaceOf instance, (networkingSource instance +:+ "-service")%string) = Some svc' ∧
            ownAdopted instance svc').
  { rewrite E. unfold adoptStorageSource. rewrite Hst, bool_decide_true by done.
    set (s0 := withStatus _ s).
    rewrite (bindM_step _ _ s0 s0 (Ok noRequeue) eq_refl), bindM_run.
    unfold adoptNetworkingSource. rewrite bool_decide_false, wrapM_run by done.
    unfold adoptNetworking, adoptLegacyService, adoptLegacyIngress, inServices, inIngresses.
    pose proof (adoptOwned_progress "Service" (routeTo instance) "-service" instance (networkingSource instance)
                  (services s0) HS Hacc) as Hok.
    pose proof (adoptOwned_run _ now "Service" (routeTo instance) "-service" instance (networkingSource instance)
                  (services s0) HS) as Hs.
    rewrite (bindM_step _ _ _ _ _ (zoom_run _ _ _ _)). change (services s0) with (services s) in *.
    pose proof Hsvc as [Hsvc' _]%seen_Some. pose proof Hing as [Hing' _]%seen_Some.
    rewrite Hsvc in Hok. specialize (Hok ltac:(intros o [= <-]; by left)).
    destruct (adoptOwned _ _ "Service" _ _ _ _ (services s)) as [w1 [b1|]]; [|done]. cbn [fst snd].
    destruct Hs as [Hrw1 Hr1].
    pose proof (adoptOwned_run _ now "Ingress" id "-ingress" instance (networkingSource instance)
                  (ingresses s) HS) as Hi.
    rewrite (bindM_step _ _ _ _ _ (zoom_run _ _ _ _)). cbn [ingresses]. change (ingresses s0) with (ingresses s).
    destruct (adoptOwned _ _ "Ingress" _ _ _ _ (ingresses s)) as [w2 r2]. destruct Hi as [[_ Hrw2] Hr2].
    assert (Hsame : stored w2 (namespaceOf instance, (networkingSource instance +:+ "-ingress")%string) = Some ing).
    { destruct Hrw2 as [->|(o & o' & Ho & _ & Ht & _)]; [done|]. rewrite Hing' in Ho. injection Ho as <-.
      rewrite (proj2 Ht _ Hown) in Hexp. done. }
    destruct r2 as [[|]|e]; [|by destruct Hr2; congruence|].
    { destruct Hr2 as (o & Ho & Hc). rewrite Hsame in Ho. injection Ho as <-.
      unfold IsControlledBy in Hc. rewrite Hown in Hc. by apply bool_decide_eq_true in Hc. }
    cbn. split_and!; [done..|].
    destruct Hrw1 as [_ [Hsame1|(o & o' & Ho & Ho' & Hc)]].
    - destruct b1; [destruct Hr1 as (o & Ho & Hc)|destruct Hr1 as [Hn _]]; congruence.
    - exists o'. split; [done|]. destruct Hc as (_ & [_ Hl] & _ & Hctl & _).
      pose proof (stored_key _ _ _ Ho') as Hk. split; [by injection Hk|]. split; [done|]. by eexists. }
  destruct (adopt instance s) as [s' r]. destruct Herr as (Hr & Hstatus & Hsvc'). split_and!; [done..|].
  intros instance' Hno. unfold cleanupAdoptedNetworking. rewrite bool_decide_true by done. cbn [negb].
  unfold gets. rewrite bindM_run. cbn [fst snd]. rewrite Hstatus.
  unfold IsConditionTrue in *. rewrite (proj1 Hconds) by decided. by rewrite Hcond.
Qed.

(** A claim that another instance has adopted from the same source is taken for
    one's own: the pass reports the storage as adopted and mounts the claim, but
    the claim keeps the other instance's label, so without the annotation the
    instance falls back to another claim. *)
Theorem foreign_claim_shared instance s s' o other :
  setsController SetControllerReference →
  validSources instance → storageSource instance ≠ "" →
  seen (pvcs s) (legacyClaim instance) = Some o →
  Obj_Labels (Obj_Meta o) !! AdoptedFromLabel = Some (storageSource instance) →
  Obj_Labels (Obj_Meta o) !! instanceLabelKey = Some other → other ≠ Server_Name instance →
  adopt instance s = (s', Ok noRequeue) →
  IsConditionTrue (Some (status s')) ConditionTypeStorageAdopted = true ∧
  pvcs s' = pvcs s ∧
  (resolveEffectivePVCName now instance s').2 = Ok (legacyClaim instance).2 ∧
  ¬ adoptedClaim instance s' (legacyClaim instance).
Proof.
  intros HS Hv Hne Ho Hl Hi Hother E.
  pose proof (adoptLegacyResources_run now _ HS instance s) as H. cbv zeta in H. rewrite E in H.
  destruct H as (_ & _ & H). rewrite bool_decide_true in H by done.
  destruct (H _ eq_refl) as [Hst _]. specialize (Hst eq_refl Hne).
  assert (Hp : pvcs s' = pvcs s).
  { destruct (adopt_valid instance s Hv) as (st & _ & E'). rewrite E in E'.
    destruct (adoptStorageSource now instance (storageSource instance) (withStatus (λ _, st) s)) as [s1 r1] eqn:E1.
    assert (Hs1 : sameStores s s1).
    { replace s1 with (adoptStorageSource now instance (storageSource instance) (withStatus (λ _, st) s)).1 by by rewrite E1.
      unfold adoptStorageSource. rewrite bool_decide_false, wrapM_run by done. cbn [fst].
      apply (adoptStorage_stable instance (storageSource instance) (withStatus (λ _, st) s)).
      intros o' Ho'. unfold legacyClaim in Ho. cbn in Ho'. rewrite Ho in Ho'. by injection Ho' as <-. }
    rewrite (bindM_step _ _ _ _ _ E1) in E'. destruct r1 as [res|]; [|done].
    pose proof (adoptNetworkingSource_run now _ HS instance s1) as Hn. cbv zeta in Hn. rewrite bindM_run in E'.
    destruct (adoptNetworkingSource _ _ _ _ s1) as [s2 [[]|]]; [|done]. injection E' as ->.
    destruct Hn as ((-> & _) & _). apply Hs1. }
  split_and!.
  - rewrite Hp in Hst. by apply (Hst o).
  - done.
  - unfold resolveEffectivePVCName. rewrite bool_decide_false by done.
    destruct (proj1 Hv) as [?|[_ Hok]]; [done|]. by rewrite Hok.
  - rewrite <- Hp in Ho. intros (_ & o' & Ho' & _ & Hi'). congruence.
Qed.
End adoption.
