(* ===== verification/Migration.v ===== *)
(** * The Praxis migration Job

    The file [controllers/migration_job.go]: the preflight checks, the attempt
    key, the Job, and how one reconciliation moves the migration status.  The
    Job is reached through the interface [Client]; the Secrets and ConfigMaps
    are read from a snapshot, and [SetControllerReference] is a parameter. *)

From Stdlib Require Import Ascii ZArith.
From S2P Require Import Prelude Value ApiProviders ApiServer Secret Hash Fmt Client Status Common Preflight.

#[local] Open Scope Z_scope.

(** ** Constants *)

Definition migrationJobNameSuffix : string := "-praxis-migration".
Definition migrationAttemptAnnotation : string := "ogx.io/migration-attempt".
Definition migrationComponentLabelKey : string := "app.kubernetes.io/component".
Definition migrationComponentLabelValue : string := "praxis-migration".
Definition migrationContainerName : string := "ogx-praxis-migration".
Definition praxisDatabaseURLEnv : string := "PRAXIS_DATABASE_URL".
Definition migrationActiveDeadlineSecs : Z := 3600.
Definition migrationJobBackoffLimit : Z := 2.

Definition ReasonMigrationPreflightPassed : string := "MigrationPreflightPassed".
Definition ReasonMigrationPreflightFailed : string := "MigrationPreflightFailed".
Definition ReasonMigrationNotRequested : string := "MigrationNotRequested".
Definition ReasonMigrationJobRunning : string := "MigrationJobRunning".
Definition ReasonMigrationJobSucceeded : string := "MigrationJobSucceeded".
Definition ReasonMigrationJobFailed : string := "MigrationJobFailed".
Definition ReasonMigrationJobPending : string := "MigrationJobPending".
Definition ReasonMigrationValidated : string := "MigrationValidated".
Definition ReasonMigrationValidationPending : string := "MigrationValidationPending".
Definition ReasonMigrationValidationFailed : string := "MigrationValidationFailed".
Definition ReasonPraxisCutoverReady : string := "PraxisCutoverReady".
Definition ReasonPraxisCutoverNotReady : string := "PraxisCutoverNotReady".
Definition ReasonSoftRollbackOnly : string := "SoftRollbackOnly".

Definition SoftRollbackWarningMessage : string :=
  "Soft rollback only restores the pre-enablement OGX Responses/Conversations serving posture. Responses/Conversations writes made through Praxis after cutover do not flow back to OGX, ABAC flattening is not restored, and data loss is possible.".

(** ** Objects *)

(** The bytes of [Data] are a string. *)
Record SecretObject := { Secret_Labels : gmap string string; Secret_Data : gmap string string }.

Record ConfigMap := {
  CM_Labels : gmap string string;
  CM_Data : gmap string string;
  CM_BinaryData : gmap string string;
}.

(** Volume mounts and resources are kept as JSON. *)
Record Container := {
  Ctr_Name : string;
  Ctr_Image : string;
  Ctr_ImagePullPolicy : string;
  Ctr_Command : list string;
  Ctr_Args : list string;
  Ctr_Env : list EnvVar;
  Ctr_VolumeMounts : list any;
  Ctr_Resources : option ResourceRequirements;
}.

Record PodSpec := {
  Pod_ServiceAccountName : string;
  Pod_RestartPolicy : string;
  Pod_RunAsNonRoot : option bool;
  Pod_SeccompProfile : string;
  Pod_Containers : list Container;
  Pod_Volumes : list Volume;
}.

Record JobCondition := {
  JC_Type : string;
  JC_Status : string;
  JC_Reason : string;
  JC_Message : string;
}.

Record Job := {
  Job_Namespace : string;
  Job_Name : string;
  Job_Labels : gmap string string;
  Job_Annotations : gmap string string;
  Job_Controller : option string;
  Job_Deleting : bool;
  Job_BackoffLimit : Z;
  Job_Completions : Z;
  Job_Parallelism : Z;
  Job_ActiveDeadlineSeconds : Z;
  Job_TemplateLabels : gmap string string;
  Job_PodSpec : PodSpec;
  Job_Conditions : list JobCondition;
  Job_Active : Z;
}.

#[export] Instance Job_object : APIObject Job := {
  objectKey := λ j, (Job_Namespace j, Job_Name j);
  persists := λ j j',
    Job_Labels j' = Job_Labels j ∧ Job_Annotations j' = Job_Annotations j ∧
    Job_Controller j' = Job_Controller j ∧ Job_PodSpec j' = Job_PodSpec j;
  deleting := Job_Deleting;
}.

(** What one reconciliation reads besides the instance and the Job. *)
Record environment := {
  GetSecret : NamespacedName → apiError + SecretObject;
  GetConfigMap : NamespacedName → apiError + ConfigMap;
  DistributionImages : gmap string string;
  ImageMappingOverrides : gmap string string;
  now : Z;
}.

(** ** Quoting and the command line *)

Fixpoint replaceQuotes (l : list ascii) : list ascii :=
  match l with
  | [] => []
  | c :: l =>
      if Ascii.eqb c "'" then chars "'" ++ quoteMark :: chars "'" ++ quoteMark :: chars "'" ++ replaceQuotes l
      else c :: replaceQuotes l
  end.

Definition shellQuote (value : string) : string :=
  ("'" +:+ of_chars (replaceQuotes (chars value)) +:+ "'")%string.

Definition migrationFlags (spec : option MigrationJobSpec) : string :=
  match spec with
  | None => ""
  | Some spec =>
      (if bool_decide (MJ_FallbackTenant spec = "") then ""
       else " --fallback-tenant " +:+ shellQuote (MJ_FallbackTenant spec)) +:+
      (if bool_decide (MJ_FallbackOwnerSubject spec = "") then ""
       else " --fallback-owner-subject " +:+ shellQuote (MJ_FallbackOwnerSubject spec))
  end%string.

(** The argument that names the configuration, in double quotes. *)
Definition configArgument : string := of_chars (quoteMark :: chars "$OGX_CONFIG" ++ [quoteMark]).

Definition migrationJobShell (spec : option MigrationJobSpec) : string :=
  let flags := migrationFlags spec in
  ("set -eu; " +:+
   "ogx migrate praxis --dry-run" +:+ flags +:+ " " +:+ configArgument +:+ " && " +:+
   "ogx migrate praxis" +:+ flags +:+ " " +:+ configArgument)%string.

(** ** What the instance asks for *)

Definition migrationJobSpec (instance : OGXServer) : option MigrationJobSpec :=
  Spec_PraxisMode (Server_Spec instance) ≫= Praxis_MigrationJob.

Definition isMigrationRequested (instance : OGXServer) : bool :=
  if negb (IsPraxisModeEnabled (Server_Spec instance)) then false
  else
    match migrationJobSpec instance with
    | None => false
    | Some mj => default true (MJ_Enabled mj)
    end.

Definition migrationTargetSecretRef (instance : OGXServer) : option SecretKeyRef :=
  migrationJobSpec instance ≫= MJ_TargetConnectionString.

Definition migrationSourceSecretRef (instance : OGXServer) : result SecretKeyRef :=
  match Spec_Storage (Server_Spec instance) ≫= Storage_SQL with
  | None => Err (New "failed to pass migration preflight: spec.storage.sql must be configured")
  | Some sql =>
      if negb (bool_decide (SQL_Type sql = "postgres")) then
        Err (New "failed to pass migration preflight: migration requires spec.storage.sql.type=postgres")
      else
        match SQL_ConnectionString sql with
        | None => Err (New "failed to pass migration preflight: spec.storage.sql.connectionString is required")
        | Some ref => Ok ref
        end
  end.

Definition requireMigrationTargetSecretRef (instance : OGXServer) : result SecretKeyRef :=
  match migrationTargetSecretRef instance with
  | None => Err (New "failed to pass migration preflight: spec.praxisMode.migrationJob.targetConnectionString is required")
  | Some ref => Ok ref
  end.

Definition migrationJobName (instanceName : string) : string :=
  (instanceName +:+ migrationJobNameSuffix)%string.

Definition migrationConfigSource (runtimeConfig : option runtimeConfigRef) : string :=
  match runtimeConfig with None => ogxConfigPath | Some rc => RC_ConfigMapName rc end.

(** ** Preflight *)

Section reads.
Context (env : environment).

Definition resolveImage : DistributionSpec → result string :=
  Common.resolveImage (DistributionImages env) (ImageMappingOverrides env).

(** The keys of the bundle; [Ok []] also when there is no such ConfigMap. *)
Definition detectODHTrustedCABundle `{MapRange} (instance : OGXServer) : result (list string) :=
  match GetConfigMap env (Meta_Namespace (Server_Meta instance), odhTrustedCABundleConfigMap) with
  | inl e =>
      if IsNotFound e then Ok []
      else Err (Wrapf "failed to check for ODH trusted CA bundle ConfigMap %s/%s: %w"
                  [Meta_Namespace (Server_Meta instance); odhTrustedCABundleConfigMap] (apiErr e))
  | inr cm => Ok ((range (CM_Data cm)).*1)
  end.

Definition hasAnyCABundle `{MapRange} (instance : OGXServer) : bool :=
  match Spec_TLS (Server_Spec instance) ≫= TLSClient_Trust with
  | Some trust => negb (length (Trust_CACertificates trust) =? 0)%nat
  | None => false
  end ||
  match detectODHTrustedCABundle instance with
  | Ok keys => negb (length keys =? 0)%nat
  | Err _ => false
  end.

Definition ensureSecretKeyExists (namespace : string) (ref : SecretKeyRef) : result unit :=
  let missing := Errorf "failed to find Secret %q (must exist and carry label %s=%s)"
                   [SKR_Name ref; WatchLabelKey; WatchLabelValue] in
  match GetSecret env (namespace, SKR_Name ref) with
  | inl e => if IsNotFound e then Err missing
             else Err (Wrapf "failed to get Secret %q: %w" [SKR_Name ref] (apiErr e))
  | inr secret =>
      if negb (bool_decide (default "" (Secret_Labels secret !! WatchLabelKey) = WatchLabelValue)) then Err missing
      else
        match Secret_Data secret !! SKR_Key ref with
        | None => Err (Errorf "failed to find key %q in Secret %q" [SKR_Key ref; SKR_Name ref])
        | Some _ => Ok tt
        end
  end.

Definition ensureConfigMapKeyExists (namespace : string) (rc : runtimeConfigRef) : result unit :=
  match GetConfigMap env (namespace, RC_ConfigMapName rc) with
  | inl e =>
      if IsNotFound e then
        Err (Errorf "failed to find ConfigMap %q (must exist and carry label %s=%s)"
               [RC_ConfigMapName rc; WatchLabelKey; WatchLabelValue])
      else Err (Wrapf "failed to get ConfigMap %q: %w" [RC_ConfigMapName rc] (apiErr e))
  | inr cm =>
      match CM_Data cm !! RC_ConfigMapKey rc, CM_BinaryData cm !! RC_ConfigMapKey rc with
      | None, None => Err (Errorf "failed to find key %q in ConfigMap %q" [RC_ConfigMapKey rc; RC_ConfigMapName rc])
      | _, _ => Ok tt
      end
  end.

(** The first eight bytes of the SHA-256, in hexadecimal. *)
Definition fingerprintBytes (b : string) : string := EncodeToString (take 8 (Sum256 b)).

Definition secretKeyFingerprint (namespace : string) (ref : SecretKeyRef) : result string :=
  match GetSecret env (namespace, SKR_Name ref) with
  | inl e => Err (Wrapf "failed to fingerprint Secret %q: %w" [SKR_Name ref] (apiErr e))
  | inr secret => Ok (fingerprintBytes (default "" (Secret_Data secret !! SKR_Key ref)))
  end.

Definition configMapKeyFingerprint (namespace : string) (rc : runtimeConfigRef) : result string :=
  match GetConfigMap env (namespace, RC_ConfigMapName rc) with
  | inl e => Err (Wrapf "failed to fingerprint ConfigMap %q: %w" [RC_ConfigMapName rc] (apiErr e))
  | inr cm =>
      match CM_BinaryData cm !! RC_ConfigMapKey rc with
      | Some raw => Ok (fingerprintBytes raw)
      | None => Ok (fingerprintBytes (default "" (CM_Data cm !! RC_ConfigMapKey rc)))
      end
  end.

Definition ensureDistinctMigrationDatabases (namespace : string) (sourceRef targetRef : SecretKeyRef) : result unit :=
  if bool_decide (SKR_Name sourceRef = SKR_Name targetRef) && bool_decide (SKR_Key sourceRef = SKR_Key targetRef) then
    Err (New "failed to pass migration preflight: targetConnectionString must not reference the same Secret key as spec.storage.sql.connectionString")
  else
    srcFP ← wrap "failed to pass migration preflight for OGX DB secret: %w" []
              (secretKeyFingerprint namespace sourceRef);
    dstFP ← wrap "failed to pass migration preflight for Praxis DB secret: %w" []
              (secretKeyFingerprint namespace targetRef);
    if bool_decide (srcFP = dstFP) then
      Err (New "failed to pass migration preflight: OGX and Praxis connection strings must not be the same database")
    else Ok tt.

Definition ensureMigrationRuntimeConfig (namespace : string) (runtimeConfig : option runtimeConfigRef) : result unit :=
  match runtimeConfig with
  | None => Ok tt
  | Some rc => wrap "failed to pass migration preflight for runtime config: %w" []
                 (ensureConfigMapKeyExists namespace rc)
  end.

Definition ensureMigrationCABundle `{MapRange} (instance : OGXServer) : result unit :=
  if negb (hasAnyCABundle instance) then Ok tt
  else
    let caName := getManagedCABundleConfigMapName instance in
    match GetConfigMap env (Meta_Namespace (Server_Meta instance), caName) with
    | inl e =>
        if IsNotFound e then
          Err (Errorf "failed to pass migration preflight: CA bundle ConfigMap %q is required when TLS trust is configured" [caName])
        else Err (Wrapf "failed to pass migration preflight for CA bundle ConfigMap: %w" [] (apiErr e))
    | inr _ => Ok tt
    end.

Definition runMigrationPreflight `{MapRange} (instance : OGXServer) (runtimeConfig : option runtimeConfigRef)
    : result unit :=
  let namespace := Meta_Namespace (Server_Meta instance) in
  sourceRef ← migrationSourceSecretRef instance;
  _ ← wrap "failed to pass migration preflight for OGX DB secret: %w" []
        (ensureSecretKeyExists namespace sourceRef);
  targetRef ← requireMigrationTargetSecretRef instance;
  _ ← wrap "failed to pass migration preflight for Praxis DB secret: %w" []
        (ensureSecretKeyExists namespace targetRef);
  _ ← ensureDistinctMigrationDatabases namespace sourceRef targetRef;
  _ ← ensureMigrationRuntimeConfig namespace runtimeConfig;
  _ ← ensureMigrationCABundle instance;
  _ ← wrap "failed to pass migration preflight: %w" [] (resolveImage (Spec_Distribution (Server_Spec instance)));
  Ok tt.

(** ** The attempt key *)

Definition attemptSecret (namespace : string) (ref : option SecretKeyRef) : result string :=
  match ref with
  | None => Ok ""
  | Some ref =>
      fp ← secretKeyFingerprint namespace ref;
      Ok (SKR_Name ref +:+ "/" +:+ SKR_Key ref +:+ "@" +:+ fp)%string
  end.

Definition attemptConfig (namespace : string) (runtimeConfig : option runtimeConfigRef) : result string :=
  match runtimeConfig with
  | None => Ok ogxConfigPath
  | Some rc =>
      fp ← configMapKeyFingerprint namespace rc;
      Ok (RC_ConfigMapName rc +:+ "/" +:+ RC_ConfigMapKey rc +:+ "@" +:+ fp)%string
  end.

Definition attemptFallback (spec : option MigrationJobSpec) : string :=
  match spec with
  | None => ""
  | Some spec =>
      (if bool_decide (MJ_FallbackTenant spec = "") then ""
       else ";fallbackTenant=" +:+ Quote (MJ_FallbackTenant spec)) +:+
      (if bool_decide (MJ_FallbackOwnerSubject spec = "") then ""
       else ";fallbackOwnerSubject=" +:+ Quote (MJ_FallbackOwnerSubject spec))
  end%string.

Definition sourceConnectionString (instance : OGXServer) : option SecretKeyRef :=
  match Spec_Storage (Server_Spec instance) ≫= Storage_SQL with
  | Some sql => SQL_ConnectionString sql
  | None => None
  end.

(** The text whose hash is the attempt key. *)
Definition attemptText (instance : OGXServer) (runtimeConfig : option runtimeConfigRef) : result string :=
  let namespace := Meta_Namespace (Server_Meta instance) in
  src ← attemptSecret namespace (sourceConnectionString instance);
  dst ← attemptSecret namespace (migrationTargetSecretRef instance);
  cfg ← attemptConfig namespace runtimeConfig;
  image ← wrap "failed to resolve migration image for attempt key: %w" []
            (resolveImage (Spec_Distribution (Server_Spec instance)));
  Ok ("src=" +:+ src +:+ ";dst=" +:+ dst +:+ ";cfg=" +:+ cfg +:+ ";image=" +:+ image +:+
      attemptFallback (migrationJobSpec instance))%string.

Definition migrationAttemptKey (instance : OGXServer) (runtimeConfig : option runtimeConfigRef) : result string :=
  fingerprintBytes <$> attemptText instance runtimeConfig.

(** ** The Job *)

Definition migrationJobEnv `{MapRange} (instance : OGXServer) : list EnvVar :=
  CollectSecretRefs (Server_Spec instance) ++
  [plainEnv "OGX_CONFIG" ogxConfigPath; plainEnv "RUN_CONFIG_PATH" ogxConfigPath] ++
  match migrationTargetSecretRef instance with
  | None => []
  | Some ref =>
      [{| Env_Name := praxisDatabaseURLEnv; Env_Value := "";
          Env_ValueFrom := Some
            {| Src_SecretKeyRef := Some {| Sel_Name := SKR_Name ref; Sel_Key := SKR_Key ref |};
               Src_Other := None |} |}]
  end.

Definition migrationJobPodInputs `{MapRange} (instance : OGXServer) (runtimeConfig : option runtimeConfigRef)
    (image : string) : Container * list Volume :=
  let bundle := hasAnyCABundle instance in
  ({| Ctr_Name := migrationContainerName; Ctr_Image := image; Ctr_ImagePullPolicy := "IfNotPresent";
      Ctr_Command := ["/bin/sh"; "-c"]; Ctr_Args := [migrationJobShell (migrationJobSpec instance)];
      Ctr_Env := migrationJobEnv instance ++
                 (if bundle then [plainEnv "SSL_CERT_FILE" ManagedCABundleFilePath] else []);
      Ctr_VolumeMounts :=
        match runtimeConfig with Some _ => [volumeMount "user-config" "/etc/ogx/"] | None => [] end ++
        (if bundle then [volumeMount CABundleVolumeName ManagedCABundleMountPath] else []);
      Ctr_Resources := None |},
   match runtimeConfig with
   | None => []
   | Some rc => [{| Vol_Name := "user-config";
                    Vol_Source := configMapSource (RC_ConfigMapName rc) (RC_ConfigMapKey rc) "config.yaml" |}]
   end ++
   (if bundle then [createCABundleVolume (getManagedCABundleConfigMapName instance)] else [])).

Definition newMigrationJob (instance : OGXServer) (jobName attemptKey : string) (container : Container)
    (volumes : list Volume) : Job :=
  let labels : gmap string string :=
    <[managedByLabelKey := managedByLabelVal]>
    (<[migrationComponentLabelKey := migrationComponentLabelValue]>
    (<[DefaultLabelKey := DefaultLabelValue]> {["app.kubernetes.io/instance" := Server_Name instance]})) in
  {| Job_Namespace := Meta_Namespace (Server_Meta instance); Job_Name := jobName;
     Job_Labels := labels; Job_Annotations := {[migrationAttemptAnnotation := attemptKey]};
     Job_Controller := None; Job_Deleting := false;
     Job_BackoffLimit := migrationJobBackoffLimit; Job_Completions := 1; Job_Parallelism := 1;
     Job_ActiveDeadlineSeconds := migrationActiveDeadlineSecs;
     Job_TemplateLabels := labels;
     Job_PodSpec := {| Pod_ServiceAccountName := ""; Pod_RestartPolicy := "OnFailure";
                       Pod_RunAsNonRoot := None; Pod_SeccompProfile := "";
                       Pod_Containers := [container]; Pod_Volumes := volumes |};
     Job_Conditions := []; Job_Active := 0 |}.

(** Changes the first container. *)
Definition mapFirst (f : Container → Container) (l : list Container) : list Container :=
  match l with [] => [] | c :: l => f c :: l end.

Definition addMounts (mounts : list any) (c : Container) : Container :=
  {| Ctr_Name := Ctr_Name c; Ctr_Image := Ctr_Image c; Ctr_ImagePullPolicy := Ctr_ImagePullPolicy c;
     Ctr_Command := Ctr_Command c; Ctr_Args := Ctr_Args c; Ctr_Env := Ctr_Env c;
     Ctr_VolumeMounts := Ctr_VolumeMounts c ++ mounts; Ctr_Resources := Ctr_Resources c |}.

Definition setResources (r : ResourceRequirements) (c : Container) : Container :=
  {| Ctr_Name := Ctr_Name c; Ctr_Image := Ctr_Image c; Ctr_ImagePullPolicy := Ctr_ImagePullPolicy c;
     Ctr_Command := Ctr_Command c; Ctr_Args := Ctr_Args c; Ctr_Env := Ctr_Env c;
     Ctr_VolumeMounts := Ctr_VolumeMounts c; Ctr_Resources := Some r |}.

Definition configurePodOverrides (instance : OGXServer) (p : PodSpec) : PodSpec :=
  let overrides := Spec_Workload (Server_Spec instance) ≫= WL_Overrides in
  let account := match overrides with Some o => WO_ServiceAccountName o | None => "" end in
  {| Pod_ServiceAccountName :=
       if bool_decide (account = "") then (Server_Name instance +:+ "-sa")%string else account;
     Pod_RestartPolicy := Pod_RestartPolicy p; Pod_RunAsNonRoot := Pod_RunAsNonRoot p;
     Pod_SeccompProfile := Pod_SeccompProfile p;
     Pod_Containers := match overrides with
                       | Some o => mapFirst (addMounts (WO_VolumeMounts o)) (Pod_Containers p)
                       | None => Pod_Containers p
                       end;
     Pod_Volumes := Pod_Volumes p ++ match overrides with Some o => WO_Volumes o | None => [] end |}.

Definition applyMigrationPodDefaults (instance : OGXServer) (p : PodSpec) : PodSpec :=
  let p := configurePodOverrides instance
    {| Pod_ServiceAccountName := Pod_ServiceAccountName p; Pod_RestartPolicy := Pod_RestartPolicy p;
       Pod_RunAsNonRoot := Some true; Pod_SeccompProfile := "RuntimeDefault";
       Pod_Containers := Pod_Containers p; Pod_Volumes := Pod_Volumes p |} in
  match Spec_Workload (Server_Spec instance) ≫= WL_Resources with
  | None => p
  | Some r =>
      {| Pod_ServiceAccountName := Pod_ServiceAccountName p; Pod_RestartPolicy := Pod_RestartPolicy p;
         Pod_RunAsNonRoot := Pod_RunAsNonRoot p; Pod_SeccompProfile := Pod_SeccompProfile p;
         Pod_Containers := mapFirst (setResources r) (Pod_Containers p); Pod_Volumes := Pod_Volumes p |}
  end.

Definition withPodSpec (j : Job) (p : PodSpec) : Job :=
  {| Job_Namespace := Job_Namespace j; Job_Name := Job_Name j; Job_Labels := Job_Labels j;
     Job_Annotations := Job_Annotations j; Job_Controller := Job_Controller j;
     Job_Deleting := Job_Deleting j; Job_BackoffLimit := Job_BackoffLimit j;
     Job_Completions := Job_Completions j; Job_Parallelism := Job_Parallelism j;
     Job_ActiveDeadlineSeconds := Job_ActiveDeadlineSeconds j;
     Job_TemplateLabels := Job_TemplateLabels j; Job_PodSpec := p;
     Job_Conditions := Job_Conditions j; Job_Active := Job_Active j |}.
End reads.

(** ** Looking at a Job *)

Definition jobHasCondition (job : Job) (condType : string) : bool :=
  existsb (λ c, bool_decide (JC_Type c = condType) && bool_decide (JC_Status c = "True")) (Job_Conditions job).

Definition JobComplete : string := "Complete".
Definition JobFailed : string := "Failed".

Definition attemptOf (job : Job) : string := default "" (Job_Annotations job !! migrationAttemptAnnotation).

Definition migrationJobIsCurrent (job : Job) (attemptKey : string) : bool :=
  if Job_Deleting job then false else bool_decide (attemptOf job = attemptKey).

Definition IsControlledBy (job : Job) (instance : OGXServer) : bool :=
  bool_decide (Job_Controller job = Some (Meta_UID (Server_Meta instance))).

Definition assertOwnedMigrationJob (instance : OGXServer) (job : Job) : result unit :=
  if IsControlledBy job instance then Ok tt
  else Err (Errorf "failed to reconcile migration Job %s/%s: Job is not owned by OGXServer %s/%s"
              [Job_Namespace job; Job_Name job; Meta_Namespace (Server_Meta instance); Server_Name instance]).

(** ** One reconciliation *)

Section reconcile.
Context {MR : MapRange} {W : Type} `{Client W Job}.
Context (SetControllerReference : OGXServer → Job → result Job).

(** The cluster, the status of the instance, and the events recorded so far,
    each with its type, reason and message; [None] is a reconciler without
    recorder. *)
Record state := {
  cluster : W;
  status : OGXServerStatus;
  recorded : option (list (string * string * string));
}.

Definition withCluster (s : state) (w : W) : state :=
  {| cluster := w; status := status s; recorded := recorded s |}.

Definition withStatus (s : state) (st : OGXServerStatus) : state :=
  {| cluster := cluster s; status := st; recorded := recorded s |}.

Definition emitMigrationEvent (type reason message : string) (s : state) : state :=
  match recorded s with
  | None => s
  | Some l => {| cluster := cluster s; status := status s; recorded := Some (l ++ [(type, reason, message)]) |}
  end.

Definition withMigration (st : OGXServerStatus) (m : option MigrationStatus) : OGXServerStatus :=
  {| Status_Phase := Status_Phase st; Status_Version := Status_Version st;
     Status_DistributionConfig := Status_DistributionConfig st;
     Status_ResolvedDistribution := Status_ResolvedDistribution st;
     Status_ConfigGeneration := Status_ConfigGeneration st;
     Status_Migration := m; Status_Conditions := Status_Conditions st;
     Status_AvailableReplicas := Status_AvailableReplicas st;
     Status_ServiceURL := Status_ServiceURL st; Status_ExternalURL := Status_ExternalURL st |}.

Definition emptyMigration : MigrationStatus :=
  {| MS_Phase := MigrationPhaseUnset; MS_ObservedGeneration := 0; MS_AttemptKey := "";
     MS_JobName := ""; MS_Message := ""; MS_SoftRollbackWarning := "" |}.

Definition withWarning (m : MigrationStatus) (warning : string) : MigrationStatus :=
  {| MS_Phase := MS_Phase m; MS_ObservedGeneration := MS_ObservedGeneration m;
     MS_AttemptKey := MS_AttemptKey m; MS_JobName := MS_JobName m; MS_Message := MS_Message m;
     MS_SoftRollbackWarning := warning |}.

Definition ensureSoftRollbackWarning (t : Z) (st : OGXServerStatus) : OGXServerStatus :=
  let m := default emptyMigration (Status_Migration st) in
  SetSoftRollbackAvailableCondition t (withMigration st (Some (withWarning m SoftRollbackWarningMessage)))
    true ReasonSoftRollbackOnly SoftRollbackWarningMessage.

Definition isPraxisMigrationCondition (type : string) : bool :=
  bool_decide (type ∈ [ConditionTypeMigrationPreflightReady; ConditionTypeMigrationJobSucceeded;
    ConditionTypeMigrationValidated; ConditionTypePraxisCutoverReady; ConditionTypeSoftRollbackAvailable]).

Definition hasMigrationHistory (st : OGXServerStatus) : bool :=
  match Status_Migration st with
  | Some mig =>
      negb (bool_decide (MS_SoftRollbackWarning mig = "")) || negb (bool_decide (MS_JobName mig = "")) ||
      negb (bool_decide (MS_AttemptKey mig = "")) ||
      match MS_Phase mig with MigrationPhaseUnset | MigrationPhasePending => false | _ => true end
  | None => false
  end ||
  existsb (λ c, isPraxisMigrationCondition (Cond_Type c)) (Status_Conditions st).

Definition clearMigrationState (t : Z) (message : string) (st : OGXServerStatus) : OGXServerStatus :=
  let priorWarning := match Status_Migration st with Some m => MS_SoftRollbackWarning m | None => "" end in
  let '(priorPhase, priorAttemptKey) :=
    match Status_Migration st with
    | Some m => match MS_Phase m with
                | MigrationPhaseValidated => (MS_Phase m, MS_AttemptKey m)
                | _ => (MigrationPhasePending, "")
                end
    | None => (MigrationPhasePending, "")
    end in
  let st := withMigration st (Some
    {| MS_Phase := priorPhase; MS_ObservedGeneration := 0; MS_AttemptKey := priorAttemptKey;
       MS_JobName := ""; MS_Message := message; MS_SoftRollbackWarning := priorWarning |}) in
  let st := SetMigrationPreflightReadyCondition t st false ReasonMigrationNotRequested message in
  let st := SetMigrationJobSucceededCondition t st false ReasonMigrationNotRequested message in
  let st := SetMigrationValidatedCondition t st false ReasonMigrationNotRequested message in
  let st := SetPraxisCutoverReadyCondition t st false ReasonPraxisCutoverNotReady message in
  if bool_decide (priorWarning = "")
  then SetSoftRollbackAvailableCondition t st false ReasonMigrationNotRequested message
  else st.

Definition warnSoftRollbackOnPraxisDisable (t : Z) (st : OGXServerStatus) : OGXServerStatus :=
  match Status_Migration st with
  | None => st
  | Some mig =>
      SetSoftRollbackAvailableCondition t (withMigration st (Some (withWarning mig SoftRollbackWarningMessage)))
        true ReasonSoftRollbackOnly SoftRollbackWarningMessage
  end.

Definition cutoverBlocked : string := "Cutover is blocked until the migration Job completes successfully".

Definition applyPreflightFailure (t : Z) (instance : OGXServer) (preflightErr : error) (st : OGXServerStatus)
    : OGXServerStatus :=
  let msg := Error preflightErr in
  let st := withMigration st (Some
    {| MS_Phase := MigrationPhasePreflightFailed; MS_ObservedGeneration := Meta_Generation (Server_Meta instance);
       MS_AttemptKey := ""; MS_JobName := ""; MS_Message := msg;
       MS_SoftRollbackWarning := SoftRollbackWarningMessage |}) in
  let st := SetMigrationPreflightReadyCondition t st false ReasonMigrationPreflightFailed msg in
  let st := SetMigrationJobSucceededCondition t st false ReasonMigrationPreflightFailed msg in
  let st := SetMigrationValidatedCondition t st false ReasonMigrationValidationPending msg in
  let st := SetPraxisCutoverReadyCondition t st false ReasonPraxisCutoverNotReady cutoverBlocked in
  SetSoftRollbackAvailableCondition t st true ReasonSoftRollbackOnly SoftRollbackWarningMessage.

(** *** Following the Job *)

Definition trackedStatus (instance : OGXServer) (phase : MigrationPhase) (attemptKey jobName message : string)
    : MigrationStatus :=
  {| MS_Phase := phase; MS_ObservedGeneration := Meta_Generation (Server_Meta instance);
     MS_AttemptKey := attemptKey; MS_JobName := jobName; MS_Message := message;
     MS_SoftRollbackWarning := SoftRollbackWarningMessage |}.

(** The three conditions of a Job that has not finished. *)
Definition unfinished (t : Z) (reason message : string) (st : OGXServerStatus) : OGXServerStatus :=
  let st := SetMigrationJobSucceededCondition t st false reason message in
  let st := SetMigrationValidatedCondition t st false ReasonMigrationValidationPending message in
  SetPraxisCutoverReadyCondition t st false ReasonPraxisCutoverNotReady cutoverBlocked.

Definition markMigrationWaiting (t : Z) (instance : OGXServer) (job : Job) (attemptKey message : string)
    (st : OGXServerStatus) : OGXServerStatus :=
  let st := withMigration st
    (Some (trackedStatus instance MigrationPhaseRunning attemptKey (Job_Name job) message)) in
  SetSoftRollbackAvailableCondition t (unfinished t ReasonMigrationJobPending message st)
    true ReasonSoftRollbackOnly SoftRollbackWarningMessage.

Definition applyMigrationJobComplete (t : Z) (message : string) (s : state) : state :=
  let st := status s in
  let alreadyReady :=
    IsConditionTrue (Some st) ConditionTypePraxisCutoverReady &&
    match GetCondition (Some st) ConditionTypePraxisCutoverReady with
    | Some c => bool_decide (Cond_Reason c = ReasonPraxisCutoverReady)
    | None => false
    end in
  let st := SetMigrationJobSucceededCondition t st true ReasonMigrationJobSucceeded message in
  let st := SetMigrationValidatedCondition t st true ReasonMigrationValidated message in
  let st := SetPraxisCutoverReadyCondition t st true ReasonPraxisCutoverReady
              "Migration Job completed; cutover may proceed" in
  let s := withStatus s st in
  if negb alreadyReady then emitMigrationEvent "Normal" ReasonPraxisCutoverReady message s else s.

(** The message of a failed Job: its name, then the reason and the message of its
    first Failed condition. *)
Definition failureMessage (job : Job) : string :=
  let detail :=
    match List.find (λ c, bool_decide (JC_Type c = JobFailed) && bool_decide (JC_Status c = "True"))
            (Job_Conditions job) with
    | None => ""
    | Some c => (if bool_decide (JC_Reason c = "") then "" else ": " +:+ JC_Reason c) +:+
                (if bool_decide (JC_Message c = "") then "" else " (" +:+ JC_Message c +:+ ")")
    end%string in
  (Sprintf "Migration Job %q failed" [Job_Name job] +:+ detail +:+
   Sprintf "; inspect logs with `oc logs job/%s`. Delete the Job to retry" [Job_Name job])%string.

Definition applyMigrationJobFailed (t : Z) (message : string) (s : state) : state :=
  let st := status s in
  let alreadyFailed :=
    match GetCondition (Some st) ConditionTypeMigrationJobSucceeded with
    | Some c => bool_decide (Cond_Reason c = ReasonMigrationJobFailed)
    | None => false
    end in
  let st := SetMigrationJobSucceededCondition t st false ReasonMigrationJobFailed message in
  let st := SetMigrationValidatedCondition t st false ReasonMigrationValidationFailed message in
  let st := SetPraxisCutoverReadyCondition t st false ReasonPraxisCutoverNotReady
              "Cutover is blocked because the migration Job did not succeed" in
  let s := withStatus s st in
  if negb alreadyFailed then emitMigrationEvent "Warning" ReasonMigrationJobFailed message s else s.

(** [status.migration] is assigned last. *)
Definition observeMigrationJob (t : Z) (instance : OGXServer) (job : Job) (attemptKey : string) (s : state) : state :=
  let s := withStatus s (SetSoftRollbackAvailableCondition t (status s) true ReasonSoftRollbackOnly
                           SoftRollbackWarningMessage) in
  let '(s, phase, message) :=
    if jobHasCondition job JobComplete then
      let message := Sprintf "Migration Job %q completed" [Job_Name job] in
      (applyMigrationJobComplete t message s, MigrationPhaseValidated, message)
    else if jobHasCondition job JobFailed then
      (applyMigrationJobFailed t (failureMessage job) s, MigrationPhaseFailed, failureMessage job)
    else if 0 <? Job_Active job then
      let message := Sprintf "Migration Job %q is active" [Job_Name job] in
      (withStatus s (unfinished t ReasonMigrationJobRunning message (status s)), MigrationPhaseRunning, message)
    else
      let message := Sprintf "Migration Job %q created; waiting for completion" [Job_Name job] in
      (withStatus s (unfinished t ReasonMigrationJobPending message (status s)), MigrationPhaseRunning, message) in
  withStatus s (withMigration (status s)
    (Some (trackedStatus instance phase attemptKey (Job_Name job) message))).

(** *** The Job in the cluster *)

(** [Ok None] is a Job that does not exist. *)
Definition getMigrationJob (s : state) (key : NamespacedName) : result (option Job) :=
  match Get (cluster s) key with
  | inr job => Ok (Some job)
  | inl e => if IsNotFound e then Ok None
             else Err (Wrapf "failed to get migration Job %s/%s: %w" [key.1; key.2] (apiErr e))
  end.

(** Deletion in the foreground. *)
Definition deleteMigrationJobObject (s : state) (job : Job) : state * result unit :=
  let '(w, e) := Delete (cluster s) (objectKey job) in
  (withCluster s w,
   match e with
   | Some e => if IsNotFound e then Ok tt
               else Err (Wrapf "failed to delete migration Job %s/%s: %w" [Job_Namespace job; Job_Name job] (apiErr e))
   | None => Ok tt
   end).

Definition jobKey (instance : OGXServer) : NamespacedName :=
  (Meta_Namespace (Server_Meta instance), migrationJobName (Server_Name instance)).

Definition deleteMigrationJob (s : state) (instance : OGXServer) : state * result unit :=
  match getMigrationJob s (jobKey instance) with
  | Err e => (s, Err e)
  | Ok None => (s, Ok tt)
  | Ok (Some job) =>
      if Job_Deleting job then (s, Ok tt)
      else
        match assertOwnedMigrationJob instance job with
        | Err e => (s, Err e)
        | Ok _ => deleteMigrationJobObject s job
        end
  end.

Definition handleMigrationNotRequested (env : environment) (s : state) (instance : OGXServer) : state * result unit :=
  let '(s, r) := deleteMigrationJob s instance in
  match r with
  | Err e => (s, Err e)
  | Ok _ =>
      if negb (hasMigrationHistory (status s)) then (s, Ok tt)
      else
        (withStatus s
           (clearMigrationState (now env)
              "Migration is not opted in (requires praxisMode.enabled and praxisMode.migrationJob)"
              (warnSoftRollbackOnPraxisDisable (now env) (status s))), Ok tt)
  end.

Definition migrationAlreadyValidated (st : OGXServerStatus) : bool :=
  match Status_Migration st with
  | Some m => match MS_Phase m with MigrationPhaseValidated => true | _ => false end
  | None => false
  end.

Definition migrationAttemptAlreadySucceeded (st : OGXServerStatus) (attemptKey : string) : bool :=
  migrationAlreadyValidated st &&
  match Status_Migration st with Some m => bool_decide (MS_AttemptKey m = attemptKey) | None => false end.

Definition reconcileExistingMigrationJob (s : state) (instance : OGXServer) (existing : Job) (attemptKey : string)
    : state * result (option Job) :=
  match assertOwnedMigrationJob instance existing with
  | Err e => (s, Err e)
  | Ok _ =>
      if Job_Deleting existing then (s, Ok (Some existing))
      else if negb (bool_decide (attemptOf existing = attemptKey)) then
        if jobHasCondition existing JobComplete then (s, Ok (Some existing))
        else
          let '(s, r) := deleteMigrationJobObject s existing in
          match r with Err e => (s, Err e) | Ok _ => (s, Ok (Some existing)) end
      else (s, Ok (Some existing))
  end.

Definition buildMigrationJob (env : environment) (instance : OGXServer) (runtimeConfig : option runtimeConfigRef)
    (jobName attemptKey : string) : result Job :=
  image ← wrap "failed to resolve migration Job image: %w" []
            (resolveImage env (Spec_Distribution (Server_Spec instance)));
  let '(container, volumes) := migrationJobPodInputs env instance runtimeConfig image in
  let job := newMigrationJob instance jobName attemptKey container volumes in
  wrap "failed to set owner reference on migration Job: %w" []
    (SetControllerReference instance
       (withPodSpec job (applyMigrationPodDefaults instance (Job_PodSpec job)))).

Definition createMigrationJob (env : environment) (s : state) (instance : OGXServer)
    (runtimeConfig : option runtimeConfigRef) (attemptKey : string) : state * result (option Job) :=
  let jobName := migrationJobName (Server_Name instance) in
  match buildMigrationJob env instance runtimeConfig jobName attemptKey with
  | Err e => (s, Err e)
  | Ok job =>
      let '(w, e) := Create (cluster s) job in
      let s := withCluster s w in
      match e with
      | None =>
          (emitMigrationEvent "Normal" ReasonMigrationJobPending
             (Sprintf "Created migration Job %q for attempt %s" [jobName; attemptKey]) s, Ok (Some job))
      | Some e =>
          if IsAlreadyExists e then
            match getMigrationJob s (jobKey instance) with
            | Err e => (s, Err e)
            | Ok None =>
                (s, Err (Errorf "failed to create migration Job %s/%s: already exists but could not be read"
                           [Meta_Namespace (Server_Meta instance); jobName]))
            | Ok (Some existing) =>
                match assertOwnedMigrationJob instance existing with
                | Err e => (s, Err e)
                | Ok _ => (s, Ok (Some existing))
                end
            end
          else (s, Err (Wrapf "failed to create migration Job %s/%s: %w"
                          [Meta_Namespace (Server_Meta instance); jobName] (apiErr e)))
      end
  end.

Definition ensureMigrationJob (env : environment) (s : state) (instance : OGXServer)
    (runtimeConfig : option runtimeConfigRef) (attemptKey : string) : state * result (option Job) :=
  match getMigrationJob s (jobKey instance) with
  | Err e => (s, Err e)
  | Ok (Some existing) => reconcileExistingMigrationJob s instance existing attemptKey
  | Ok None =>
      if migrationAttemptAlreadySucceeded (status s) attemptKey then (s, Ok None)
      else if migrationAlreadyValidated (status s) then (s, Ok None)
      else createMigrationJob env s instance runtimeConfig attemptKey
  end.

(** What is recorded of the Job that [ensureMigrationJob] returned. *)
Definition trackMigrationJob (t : Z) (s : state) (instance : OGXServer) (job : Job) (attemptKey : string) : state :=
  if negb (migrationJobIsCurrent job attemptKey) then
    if negb (Job_Deleting job) && jobHasCondition job JobComplete then
      observeMigrationJob t instance job (attemptOf job) s
    else
      withStatus s (markMigrationWaiting t instance job attemptKey
        "Waiting for the previous migration Job to finish terminating before starting a new attempt" (status s))
  else observeMigrationJob t instance job attemptKey s.

Definition reconcileMigration (env : environment) (s : state) (instance : OGXServer)
    (runtimeConfig : option runtimeConfigRef) : state * result unit :=
  if negb (isMigrationRequested instance) then handleMigrationNotRequested env s instance
  else
    let s := withStatus s (ensureSoftRollbackWarning (now env) (status s)) in
    match runMigrationPreflight env instance runtimeConfig with
    | Err preflightErr =>
        (emitMigrationEvent "Warning" ReasonMigrationPreflightFailed (Error preflightErr)
           (withStatus s (applyPreflightFailure (now env) instance preflightErr (status s))), Ok tt)
    | Ok _ =>
        let s := withStatus s (SetMigrationPreflightReadyCondition (now env) (status s) true
                   ReasonMigrationPreflightPassed "Migration preflight checks passed") in
        match migrationAttemptKey env instance runtimeConfig with
        | Err e => (s, Err e)
        | Ok attemptKey =>
            let '(s, r) := ensureMigrationJob env s instance runtimeConfig attemptKey in
            match r with
            | Err e => (s, Err e)
            | Ok None => (s, Ok tt)
            | Ok (Some job) => (trackMigrationJob (now env) s instance job attemptKey, Ok tt)
            end
        end
    end.

Definition migrationNeedsRequeue (st : OGXServerStatus) : bool :=
  match Status_Migration st with
  | Some m => match MS_Phase m with MigrationPhaseRunning => true | _ => false end
  | None => false
  end.
End reconcile.
