(* ===== verification/MigrationFacts.v ===== *)
(** * The migration state machine

    What one reconciliation of [Migration] does to the Job and to the status,
    and what holds of every sequence of reconciliations, Job changes and spec
    changes. *)

From Stdlib Require Import Ascii ZArith.
From S2P Require Import Prelude Value ApiProviders ApiServer Secret Hash Fmt Client Status Common Preflight Migration.

(** ** The observable part of the status *)

Definition migrationPhase (st : OGXServerStatus) : option MigrationPhase := MS_Phase <$> Status_Migration st.

Abbreviation conditionTrue st t := (IsConditionTrue (Some st) t) (only parsing).

Definition cutoverReady (st : OGXServerStatus) : bool := conditionTrue st ConditionTypePraxisCutoverReady.

Lemma conditionTrue_set t st type flag reason message T :
  conditionTrue (SetCondition st (flagCondition t type flag reason message)) T =
  if bool_decide (T = type) then flag else conditionTrue st T.
Proof.
  case_bool_decide as HT; [subst T; apply IsConditionTrue_flag|].
  by apply IsConditionTrue_SetCondition_ne.
Qed.

Lemma conditionTrue_migration st m T : conditionTrue (withMigration st m) T = conditionTrue st T.
Proof. done. Qed.

Lemma migrationPhase_set st c : migrationPhase (SetCondition st c) = migrationPhase st.
Proof. done. Qed.

(** Reads a condition through the setters. *)
Ltac read_conditions :=
  unfold SetMigrationPreflightReadyCondition, SetMigrationJobSucceededCondition,
    SetMigrationValidatedCondition, SetPraxisCutoverReadyCondition, SetSoftRollbackAvailableCondition in *;
  repeat first
    [ rewrite conditionTrue_set
    | rewrite conditionTrue_migration
    | rewrite bool_decide_true by reflexivity
    | rewrite bool_decide_false by discriminate ].

(** The three conditions of the Job have one value. *)
Definition jobConditionsAre (b : bool) (st : OGXServerStatus) : Prop :=
  conditionTrue st ConditionTypeMigrationJobSucceeded = b ∧
  conditionTrue st ConditionTypeMigrationValidated = b ∧
  conditionTrue st ConditionTypePraxisCutoverReady = b.

Lemma applyPreflightFailure_spec t instance e st :
  migrationPhase (applyPreflightFailure t instance e st) = Some MigrationPhasePreflightFailed ∧
  jobConditionsAre false (applyPreflightFailure t instance e st).
Proof.
  split; [done|]. unfold applyPreflightFailure.
  cbv zeta. split_and!; by read_conditions.
Qed.

Lemma ensureSoftRollbackWarning_spec t st :
  migrationPhase (ensureSoftRollbackWarning t st) = Some (default MigrationPhaseUnset (migrationPhase st)) ∧
  ∀ T, T ≠ ConditionTypeSoftRollbackAvailable → conditionTrue (ensureSoftRollbackWarning t st) T = conditionTrue st T.
Proof.
  split; [unfold migrationPhase, ensureSoftRollbackWarning; cbn; by destruct (Status_Migration st)|].
  intros T HT. unfold ensureSoftRollbackWarning. unfold SetSoftRollbackAvailableCondition.
  by rewrite conditionTrue_set, bool_decide_false.
Qed.

Lemma clearMigrationState_spec t message st :
  migrationPhase (clearMigrationState t message st) =
    Some (if migrationAlreadyValidated st then MigrationPhaseValidated else MigrationPhasePending) ∧
  jobConditionsAre false (clearMigrationState t message st).
Proof.
  unfold clearMigrationState, migrationAlreadyValidated.
  destruct (Status_Migration st) as [m|]; [destruct (MS_Phase m)|];
    cbv zeta; case_bool_decide; (split; [done|]); unfold jobConditionsAre; split_and!; by read_conditions.
Qed.

(** ** Preflight *)

Section preflight.
Context {MR : MapRange} (env : environment).

(** A Secret of the namespace that carries the watch label holds [v] under the
    key of the reference. *)
Definition holds (namespace : string) (ref : SecretKeyRef) (v : string) : Prop :=
  ∃ secret, GetSecret env (namespace, SKR_Name ref) = inr secret ∧
    Secret_Labels secret !! WatchLabelKey = Some WatchLabelValue ∧ Secret_Data secret !! SKR_Key ref = Some v.

(** The ConfigMap that the Job mounts exists and has the key. *)
Definition configMounted (namespace : string) (rc : runtimeConfigRef) : Prop :=
  ∃ cm, GetConfigMap env (namespace, RC_ConfigMapName rc) = inr cm ∧
    (is_Some (CM_Data cm !! RC_ConfigMapKey rc) ∨ is_Some (CM_BinaryData cm !! RC_ConfigMapKey rc)).

(** The conditions under which migration may start. *)
Record preflightReady (instance : OGXServer) (rc : option runtimeConfigRef) : Prop := {
  ready_databases : ∃ sql src dst v1 v2,
    Spec_Storage (Server_Spec instance) ≫= Storage_SQL = Some sql ∧ SQL_Type sql = "postgres" ∧
    SQL_ConnectionString sql = Some src ∧ migrationTargetSecretRef instance = Some dst ∧
    holds (Meta_Namespace (Server_Meta instance)) src v1 ∧
    holds (Meta_Namespace (Server_Meta instance)) dst v2 ∧ fingerprintBytes v1 ≠ fingerprintBytes v2;
  ready_config : ∀ c, rc = Some c → configMounted (Meta_Namespace (Server_Meta instance)) c;
  ready_bundle : hasAnyCABundle env instance = true →
    ∃ cm, GetConfigMap env (Meta_Namespace (Server_Meta instance),
                            getManagedCABundleConfigMapName instance) = inr cm;
  ready_image : ∃ image, resolveImage env (Spec_Distribution (Server_Spec instance)) = Ok image;
}.

Lemma ensureSecretKeyExists_ok ns ref :
  ensureSecretKeyExists env ns ref = Ok tt ↔ ∃ v, holds ns ref v.
Proof.
  unfold ensureSecretKeyExists, holds. destruct (GetSecret env _) as [e|secret].
  { destruct (IsNotFound e); split; try done; by intros (? & ? & ? & _). }
  assert (Hl : default "" (Secret_Labels secret !! WatchLabelKey) = WatchLabelValue ↔
               Secret_Labels secret !! WatchLabelKey = Some WatchLabelValue).
  { destruct (Secret_Labels secret !! WatchLabelKey); cbn; split; try congruence; discriminate. }
  case_bool_decide as Hw; cbn [negb].
  - destruct (Secret_Data secret !! SKR_Key ref) as [v|] eqn:Hv; split; try done.
    + intros _. exists v, secret. by apply Hl in Hw.
    + intros (v & secret' & [= <-] & _ & Hv'). congruence.
  - split; [done|]. intros (v & secret' & [= <-] & Hw' & _). by apply Hl in Hw'.
Qed.

Lemma secretKeyFingerprint_holds ns ref v :
  holds ns ref v → secretKeyFingerprint env ns ref = Ok (fingerprintBytes v).
Proof.
  intros (secret & Hs & _ & Hv). unfold secretKeyFingerprint. by rewrite Hs, Hv.
Qed.

Lemma ensureDistinct_ok ns src dst v1 v2 :
  holds ns src v1 → holds ns dst v2 →
  ensureDistinctMigrationDatabases env ns src dst = Ok tt ↔ fingerprintBytes v1 ≠ fingerprintBytes v2.
Proof.
  intros H1 H2. unfold ensureDistinctMigrationDatabases.
  rewrite (secretKeyFingerprint_holds _ _ _ H1), (secretKeyFingerprint_holds _ _ _ H2). cbn [wrap mbind result_bind].
  destruct (_ && _) eqn:He.
  - apply andb_true_iff in He as [Hn%bool_decide_eq_true Hk%bool_decide_eq_true]. split; [done|].
    destruct H1 as (s1 & H1 & _ & Hv1), H2 as (s2 & H2 & _ & Hv2). congruence.
  - clear He. case_bool_decide; split; intros; done || congruence.
Qed.

Lemma ensureConfigMapKeyExists_ok ns rc :
  ensureConfigMapKeyExists env ns rc = Ok tt ↔ configMounted ns rc.
Proof.
  unfold ensureConfigMapKeyExists, configMounted. destruct (GetConfigMap env _) as [e|cm].
  { destruct (IsNotFound e); split; try done; by intros (? & ? & _). }
  transitivity (is_Some (CM_Data cm !! RC_ConfigMapKey rc) ∨ is_Some (CM_BinaryData cm !! RC_ConfigMapKey rc)).
  - destruct (CM_Data cm !! _), (CM_BinaryData cm !! _); split; eauto; try done. by intros [[]|[]].
  - split; [eauto|]. by intros (cm' & [= <-] & ?).
Qed.

Lemma ensureMigrationCABundle_ok instance :
  ensureMigrationCABundle env instance = Ok tt ↔
  (hasAnyCABundle env instance = true →
   ∃ cm, GetConfigMap env (Meta_Namespace (Server_Meta instance),
                           getManagedCABundleConfigMapName instance) = inr cm).
Proof.
  unfold ensureMigrationCABundle. destruct (hasAnyCABundle env instance); cbn [negb]; [|by split].
  destruct (GetConfigMap env _) as [e|cm]; [|by split; eauto].
  split; [by destruct (IsNotFound e)|]. intros Hx. by destruct (Hx eq_refl).
Qed.

Lemma runMigrationPreflight_ok instance rc :
  runMigrationPreflight env instance rc = Ok tt ↔ preflightReady instance rc.
Proof.
  unfold runMigrationPreflight. set (ns := Meta_Namespace (Server_Meta instance)). split.
  - intros Hrun. repeat (apply bind_Ok in Hrun as (? & ? & Hrun)). res_inv.
    repeat match goal with u : unit |- _ => destruct u end.
    unfold migrationSourceSecretRef in *. unfold requireMigrationTargetSecretRef in *.
    destruct (Spec_Storage _ ≫= Storage_SQL) as [sql|] eqn:Hsql; [|discriminate].
    case_bool_decide as Ht; cbn [negb] in *; [|discriminate].
    destruct (SQL_ConnectionString sql) as [src|] eqn:Hc; [|discriminate].
    destruct (migrationTargetSecretRef instance) as [dst|] eqn:Hd; [|discriminate]. res_inv.
    repeat match goal with Hx : ensureSecretKeyExists _ _ _ = Ok _ |- _ =>
      apply ensureSecretKeyExists_ok in Hx as [? ?] end.
    match goal with Hx : ensureDistinctMigrationDatabases _ _ ?a ?b = Ok _,
                    Ha : holds _ ?a _, Hb : holds _ ?b _ |- _ =>
      apply (ensureDistinct_ok _ _ _ _ _ Ha Hb) in Hx end.
    split; [by eauto 15| | |by eauto].
    + intros c ->. unfold ensureMigrationRuntimeConfig in *. res_inv. by apply ensureConfigMapKeyExists_ok.
    + by apply ensureMigrationCABundle_ok.
  - intros [(sql & src & dst & v1 & v2 & Hsql & Ht & Hc & Hd & H1 & H2 & Hne) Hcfg Hb [image Hi]].
    unfold migrationSourceSecretRef. rewrite Hsql, bool_decide_true by done. cbn [negb]. rewrite Hc.
    cbn [mbind result_bind]. rewrite (proj2 (ensureSecretKeyExists_ok ns src)) by eauto.
    cbn [wrap mbind result_bind]. unfold requireMigrationTargetSecretRef. rewrite Hd. cbn [mbind result_bind].
    rewrite (proj2 (ensureSecretKeyExists_ok ns dst)) by eauto. cbn [wrap mbind result_bind].
    rewrite (proj2 (ensureDistinct_ok ns src dst v1 v2 H1 H2) Hne). cbn [wrap mbind result_bind].
    rewrite (proj2 (ensureMigrationCABundle_ok instance) Hb), Hi.
    unfold ensureMigrationRuntimeConfig. destruct rc as [c|]; [|done].
    by rewrite (proj2 (ensureConfigMapKeyExists_ok ns c) (Hcfg c eq_refl)).
Qed.

(** The attempt key can be computed whenever the preflight checks pass. *)
Lemma preflight_attemptKey instance rc :
  runMigrationPreflight env instance rc = Ok tt → ∃ key, migrationAttemptKey env instance rc = Ok key.
Proof.
  intros Hp. apply runMigrationPreflight_ok in Hp.
  destruct Hp as [(sql & src & dst & v1 & v2 & Hsql & _ & Hc & Hd & H1 & H2 & _) Hcfg _ [image Hi]].
  unfold migrationAttemptKey, attemptText, sourceConnectionString. rewrite Hsql, Hc, Hd, Hi.
  unfold attemptSecret. rewrite (secretKeyFingerprint_holds _ _ _ H1), (secretKeyFingerprint_holds _ _ _ H2).
  cbn [mbind result_bind wrap]. unfold attemptConfig. destruct rc as [c|]; [|by eexists].
  destruct (Hcfg c eq_refl) as (cm & Hcm & _). unfold configMapKeyFingerprint. rewrite Hcm.
  destruct (CM_BinaryData cm !! _); by eexists.
Qed.
End preflight.

(** ** What the reconciler sees of the Job

    [Stale] is a Job of another attempt, complete or not; [Current] one of the
    wanted attempt. *)

Inductive jobView :=
| NoJob
| Foreign
| Deleting
| Stale (complete : bool)
| Current (outcome : MigrationPhase).

(** The phase of an instance whose Job is observed. *)
Definition outcomePhase (job : Job) : MigrationPhase :=
  if jobHasCondition job JobComplete then MigrationPhaseValidated
  else if jobHasCondition job JobFailed then MigrationPhaseFailed
  else MigrationPhaseRunning.

Definition viewJob (instance : OGXServer) (key : string) (job : option Job) : jobView :=
  match job with
  | None => NoJob
  | Some job =>
      if negb (IsControlledBy job instance) then Foreign
      else if Job_Deleting job then Deleting
      else if bool_decide (attemptOf job = key) then Current (outcomePhase job)
      else Stale (jobHasCondition job JobComplete)
  end.

(** ** Following a Job *)


Section facts.
Context {MR : MapRange} {W : Type} `{AC : Client W Job} `{!ClientLaws W Job}.
Context (SetControllerReference : OGXServer → Job → result Job).
#[local] Set Default Proof Using "Type*".

Implicit Types (s : state (W := W)) (instance : OGXServer) (job : Job).

Lemma observeMigrationJob_spec t instance job key s :
  let s' := observeMigrationJob t instance job key s in
  cluster s' = cluster s ∧ migrationPhase (status s') = Some (outcomePhase job) ∧
  jobConditionsAre (jobHasCondition job JobComplete) (status s') ∧
  MS_AttemptKey <$> Status_Migration (status s') = Some key.
Proof.
  cbv zeta. unfold observeMigrationJob, outcomePhase, jobConditionsAre.
  unfold applyMigrationJobComplete, applyMigrationJobFailed, emitMigrationEvent, unfinished.
  cbv zeta. destruct (jobHasCondition job JobComplete); [|destruct (jobHasCondition job JobFailed)].
  3: destruct (0 <? Job_Active job)%Z.
  all: repeat (case_match; cbn [cluster status recorded withStatus] in *; try discriminate);
    (split; [done|split; [done|]]); (split; [split_and!; cbn [status withStatus]; by read_conditions|done]).
Qed.

Lemma markMigrationWaiting_spec t instance job key message st :
  let st' := markMigrationWaiting t instance job key message st in
  migrationPhase st' = Some MigrationPhaseRunning ∧ jobConditionsAre false st'.
Proof.
  cbv zeta. split; [done|]. unfold markMigrationWaiting, unfinished, jobConditionsAre.
  split_and!; by read_conditions.
Qed.

Lemma trackMigrationJob_spec t s instance job key :
  let s' := trackMigrationJob t s instance job key in
  cluster s' = cluster s ∧
  migrationPhase (status s') = Some
    (if Job_Deleting job then MigrationPhaseRunning
     else if bool_decide (attemptOf job = key) then outcomePhase job
     else if jobHasCondition job JobComplete then MigrationPhaseValidated else MigrationPhaseRunning) ∧
  jobConditionsAre (negb (Job_Deleting job) && jobHasCondition job JobComplete) (status s').
Proof.
  cbv zeta. unfold trackMigrationJob, migrationJobIsCurrent.
  destruct (Job_Deleting job); cbn [negb andb]; [split; [done|apply markMigrationWaiting_spec]|].
  case_bool_decide as Hk; cbn [negb].
  - destruct (observeMigrationJob_spec t instance job key s) as (? & ? & ? & _). done.
  - destruct (jobHasCondition job JobComplete) eqn:Hc; [|split; [done|apply markMigrationWaiting_spec]].
    destruct (observeMigrationJob_spec t instance job (attemptOf job) s) as (? & Hp & Hj & _).
    unfold outcomePhase in Hp. rewrite Hc in Hp, Hj. done.
Qed.

(** ** The Job in the cluster *)

(** No object differs. *)
Definition sameJobs (w w' : W) : Prop := ∀ k, stored w' k = stored w k.

(** Only the object [k] may differ. *)
Definition sameBut (k : NamespacedName) (w w' : W) : Prop := ∀ k', k' ≠ k → stored w' k' = stored w k'.

(** What is left of a deleted Job is marked. *)
Definition removed (job : Job) (k : NamespacedName) (w : W) : Prop :=
  ∀ j, stored w k = Some j → Job_Deleting j = true ∧ persists job j.

Lemma getMigrationJob_Ok s k oj : getMigrationJob s k = Ok oj → stored (cluster s) k = oj.
Proof.
  unfold getMigrationJob. pose proof (Get_spec (cluster s) k) as Hg.
  destruct (Get (cluster s) k) as [[e|e|e|e|e]|j]; cbn; by intros [= <-].
Qed.

Lemma deleteMigrationJobObject_spec s job k s' r :
  stored (cluster s) k = Some job → deleteMigrationJobObject s job = (s', r) →
  status s' = status s ∧ sameBut k (cluster s) (cluster s') ∧
  (if is_ok r then removed job k (cluster s') else sameJobs (cluster s) (cluster s')).
Proof.
  intros Hk. unfold deleteMigrationJobObject. rewrite (stored_key _ _ _ Hk).
  pose proof (Delete_spec (cluster s) k) as Hd. destruct (Delete (cluster s) k) as [w e].
  destruct Hd as (Hf & Hok & Hnf). intros [= <- <-]. split; [done|]. split; [intros k' ?; apply Hf; by left|].
  destruct e as [e|]; [destruct (IsNotFound e) eqn:He|]; cbn.
  - destruct e; try discriminate He. intros j Hj. rewrite Hf in Hj by auto. by rewrite (Hnf _ eq_refl) in Hj.
  - intros k'. apply Hf. by right.
  - intros j (? & j0 & ? & ?)%(Hok eq_refl). by simplify_eq.
Qed.

(** [SetControllerReference] makes the instance the controller and changes
    nothing else that is used here. *)
Definition setsController : Prop := ∀ instance job job',
  SetControllerReference instance job = Ok job' →
  Job_Controller job' = Some (Meta_UID (Server_Meta instance)) ∧
  objectKey job' = objectKey job ∧ Job_Annotations job' = Job_Annotations job ∧
  Job_Deleting job' = Job_Deleting job ∧ Job_Conditions job' = Job_Conditions job ∧
  Job_PodSpec job' = Job_PodSpec job.

(** A new Job of the attempt. *)
Definition freshJob (instance : OGXServer) (key : string) (job : Job) : Prop :=
  IsControlledBy job instance = true ∧ objectKey job = jobKey instance ∧ attemptOf job = key ∧
  Job_Deleting job = false ∧ Job_Conditions job = [].

Lemma buildMigrationJob_fresh env instance rc key job :
  setsController →
  buildMigrationJob SetControllerReference env instance rc (migrationJobName (Server_Name instance)) key = Ok job →
  freshJob instance key job.
Proof.
  intros Hs. unfold buildMigrationJob. intros Hb. res_inv.
  destruct (migrationJobPodInputs _ _ _ _) as [c vs]. res_inv.
  match goal with Hset : SetControllerReference _ _ = Ok _ |- _ => apply Hs in Hset as (Hc & Hk & Ha & Hd & Hj & _) end.
  unfold freshJob, IsControlledBy, attemptOf. rewrite Hc, Hk, Ha, Hd, Hj.
  split_and!; [by apply bool_decide_eq_true|reflexivity| |reflexivity..].
  cbn [Job_Annotations withPodSpec newMigrationJob]. by rewrite lookup_singleton_eq.
Qed.

(** ** Ensuring the Job *)

(** What [ensureMigrationJob] does: [w] and [w'] are the cluster before and after,
    [oj] the Job it returns. *)
Definition ensured instance key (validated : bool) (w w' : W) (oj : option Job) : Prop :=
  let k := jobKey instance in
  match viewJob instance key (stored w k) with
  | NoJob =>
      if validated then oj = None ∧ sameJobs w w'
      else ∃ job j, oj = Some job ∧ freshJob instance key job ∧ sameBut k w w' ∧
                    stored w' k = Some j ∧ persists job j
  | Foreign => False
  | Deleting | Stale true | Current _ => oj = stored w k ∧ sameJobs w w'
  | Stale false => oj = stored w k ∧ sameBut k w w' ∧ ∀ job, oj = Some job → removed job k w'
  end.

Lemma createMigrationJob_spec env s instance rc key s' r :
  setsController → stored (cluster s) (jobKey instance) = None →
  createMigrationJob SetControllerReference env s instance rc key = (s', r) →
  status s' = status s ∧
  match r with
  | Err _ => sameJobs (cluster s) (cluster s')
  | Ok oj => ensured instance key false (cluster s) (cluster s') oj
  end.
Proof.
  intros Hs Hn. unfold createMigrationJob, ensured. rewrite Hn. cbn [viewJob].
  destruct (buildMigrationJob _ _ _ _ _ _) as [job|e] eqn:Hb; [|by intros [= <- <-]].
  apply buildMigrationJob_fresh in Hb; [|done]. pose proof Hb as (_ & Hk & _).
  pose proof (Create_spec (cluster s) job) as Hc. destruct (Create (cluster s) job) as [w e].
  rewrite Hk in Hc. destruct Hc as [Hframe Hok]. destruct e as [e|].
  - assert (Hsame : sameJobs (cluster s) w) by (intros k; apply Hframe; by right).
    destruct (IsAlreadyExists e); [|by intros [= <- <-]].
    destruct (getMigrationJob _ _) as [[j|]|e'] eqn:Hg; try by intros [= <- <-].
    apply getMigrationJob_Ok in Hg. cbn in Hg. rewrite Hsame, Hn in Hg. discriminate Hg.
  - intros [= <- <-]. unfold emitMigrationEvent.
    destruct (Hok eq_refl) as (_ & j & Hj & Hp).
    assert (Hbut : sameBut (jobKey instance) (cluster s) w) by (intros k ?; apply Hframe; by left).
    destruct (recorded _); cbn [cluster status withCluster];
      (split; [done|]); exists job, j; auto 10.
Qed.

Lemma ensureMigrationJob_spec env s instance rc key s' r :
  setsController → ensureMigrationJob SetControllerReference env s instance rc key = (s', r) →
  status s' = status s ∧
  match r with
  | Err _ => sameJobs (cluster s) (cluster s')
  | Ok oj => ensured instance key (migrationAlreadyValidated (status s)) (cluster s) (cluster s') oj
  end.
Proof.
  intros Hs. unfold ensureMigrationJob.
  destruct (getMigrationJob s (jobKey instance)) as [[job|]|e] eqn:Hg; [| |by intros [= <- <-]];
    apply getMigrationJob_Ok in Hg.
  - unfold reconcileExistingMigrationJob, assertOwnedMigrationJob, ensured. rewrite Hg. cbn [viewJob].
    destruct (IsControlledBy job instance); cbn [negb]; [|by intros [= <- <-]].
    destruct (Job_Deleting job); [by intros [= <- <-]|].
    case_bool_decide; cbn [negb]; [by intros [= <- <-]|].
    destruct (jobHasCondition job JobComplete); [by intros [= <- <-]|].
    destruct (deleteMigrationJobObject s job) as [s1 r1] eqn:Hd.
    apply (deleteMigrationJobObject_spec _ _ _ _ _ Hg) in Hd as (Hst & Hbut & Hr).
    destruct r1 as [[]|e]; cbn in Hr; intros [= <- <-]; [|done].
    split; [done|]. split; [done|]. split; [done|]. by intros job' [= <-].
  - unfold migrationAttemptAlreadySucceeded.
    destruct (migrationAlreadyValidated (status s)); cbn [andb].
    + intros Hr. assert (s' = s ∧ r = Ok None) as [-> ->] by (case_match; by simplify_eq).
      split; [done|]. unfold ensured. by rewrite Hg.
    + apply createMigrationJob_spec; done.
Qed.

(** ** One reconciliation *)

(** The state after the warning and the preflight condition: nothing that the
    migration decides on has changed. *)
Definition prepared s s0 : Prop :=
  cluster s0 = cluster s ∧ migrationPhase (status s0) = Some (default MigrationPhaseUnset (migrationPhase (status s))) ∧
  ∀ T, T ≠ ConditionTypeSoftRollbackAvailable → T ≠ ConditionTypeMigrationPreflightReady →
       conditionTrue (status s0) T = conditionTrue (status s) T.

Lemma prepared_validated s s0 :
  prepared s s0 → migrationAlreadyValidated (status s0) = migrationAlreadyValidated (status s).
Proof.
  intros (_ & Hp & _). revert Hp. unfold migrationPhase, migrationAlreadyValidated.
  destruct (Status_Migration (status s0)), (Status_Migration (status s)); cbn; intros [= ->]; done.
Qed.

Lemma reconcileMigration_inv env s instance rc s' r :
  isMigrationRequested instance = true → runMigrationPreflight env instance rc = Ok tt →
  reconcileMigration SetControllerReference env s instance rc = (s', r) →
  ∃ key s0 s1 r1, prepared s s0 ∧ migrationAttemptKey env instance rc = Ok key ∧
    ensureMigrationJob SetControllerReference env s0 instance rc key = (s1, r1) ∧
    match r1 with
    | Err e => s' = s1 ∧ r = Err e
    | Ok None => s' = s1 ∧ r = Ok tt
    | Ok (Some job) => s' = trackMigrationJob (now env) s1 instance job key ∧ r = Ok tt
    end.
Proof.
  intros Hreq Hpre. unfold reconcileMigration. rewrite Hreq, Hpre. cbn [negb].
  destruct (preflight_attemptKey env instance rc Hpre) as [key Hkey]. rewrite Hkey.
  set (s0 := withStatus _ _). intros Hrun. exists key, s0.
  destruct (ensureMigrationJob _ _ _ _ _ _) as [s1 r1]. exists s1, r1.
  destruct (ensureSoftRollbackWarning_spec (now env) (status s)) as [Hp Hc].
  split; [|split; [done|split; [done|]]].
  - split; [done|]. split; [exact Hp|]. intros T H1 H2.
    unfold s0, SetMigrationPreflightReadyCondition. cbn [status withStatus].
    rewrite conditionTrue_set, bool_decide_false by done. by apply Hc.
  - destruct r1 as [[job|]|e]; by simplify_eq.
Qed.

(** The abstract machine: the phase and the readiness after a reconciliation. *)
Definition nextPhase (v : jobView) (before : option MigrationPhase) : MigrationPhase :=
  match v with
  | NoJob => match before with Some MigrationPhaseValidated => MigrationPhaseValidated | _ => MigrationPhaseRunning end
  | Stale true => MigrationPhaseValidated
  | Current outcome => outcome
  | Foreign | Deleting | Stale false => MigrationPhaseRunning
  end.

Definition nextReady (v : jobView) (validated ready : bool) : bool :=
  match v with
  | NoJob => validated && ready
  | Stale true | Current MigrationPhaseValidated => true
  | _ => false
  end.

(** The abstract effect on the Job. *)
Definition jobEffect instance key (v : jobView) (validated : bool) (w w' : W) : Prop :=
  let k := jobKey instance in
  match v with
  | NoJob =>
      if validated then sameJobs w w'
      else sameBut k w w' ∧ ∃ job, stored w' k = Some job ∧ IsControlledBy job instance = true ∧ attemptOf job = key
  | Foreign => False
  | Deleting | Stale true | Current _ => sameJobs w w'
  | Stale false => sameBut k w w' ∧ ∀ job, stored w k = Some job → removed job k w'
  end.

Lemma phase_validated (st : OGXServerStatus) :
  migrationAlreadyValidated st = match migrationPhase st with Some MigrationPhaseValidated => true | _ => false end.
Proof. unfold migrationAlreadyValidated, migrationPhase. by destruct (Status_Migration st). Qed.

Lemma view_NoJob instance key oj : viewJob instance key oj = NoJob → oj = None.
Proof.
  unfold viewJob. destruct oj as [j|]; [|done]. destruct (IsControlledBy j instance); [|done]. cbn [negb].
  destruct (Job_Deleting j); [done|]. by case_bool_decide.
Qed.

Lemma view_owned instance key oj :
  viewJob instance key oj ≠ NoJob → viewJob instance key oj ≠ Foreign →
  ∃ job, oj = Some job ∧ IsControlledBy job instance = true.
Proof.
  unfold viewJob. destruct oj as [j|]; [|done]. destruct (IsControlledBy j instance) eqn:Ho; [|done]. eauto.
Qed.

(** An existing Job that the reconciler leaves to be followed. *)
Lemma track_existing t s instance key job :
  IsControlledBy job instance = true →
  let v := viewJob instance key (Some job) in
  let s' := trackMigrationJob t s instance job key in
  cluster s' = cluster s ∧ migrationPhase (status s') = Some (nextPhase v None) ∧
  (∀ validated ready, jobConditionsAre (nextReady v validated ready) (status s')).
Proof.
  intros Hown. cbv zeta. destruct (trackMigrationJob_spec t s instance job key) as (Hcl & Hp & Hc).
  rewrite Hcl, Hp. unfold viewJob. rewrite Hown. cbn [negb].
  revert Hc. destruct (Job_Deleting job); cbn [negb andb]; intros Hc; [by split_and!|].
  case_bool_decide; cbn [nextPhase nextReady].
  - split; [done|]. split; [done|]. intros _ _. revert Hc. unfold outcomePhase.
    destruct (jobHasCondition job JobComplete); [done|]. destruct (jobHasCondition job JobFailed); done.
  - destruct (jobHasCondition job JobComplete); by split_and!.
Qed.

(** The same for the Job that [ensureMigrationJob] returned. *)
Lemma follow_existing env s1 s' (r : result unit) instance key oj v :
  viewJob instance key oj = v → v ≠ NoJob → v ≠ Foreign →
  match oj with
  | Some job => s' = trackMigrationJob (now env) s1 instance job key ∧ r = Ok tt
  | None => s' = s1 ∧ r = Ok tt
  end →
  r = Ok tt ∧ cluster s' = cluster s1 ∧ (∀ before, migrationPhase (status s') = Some (nextPhase v before)) ∧
  ∀ validated ready, jobConditionsAre (nextReady v validated ready) (status s').
Proof.
  intros Hv H1 H2 Hr. destruct (view_owned instance key oj) as (job & -> & Hown); [by rewrite Hv..|].
  destruct Hr as [-> ->]. destruct (track_existing (now env) s1 instance key job Hown) as (Hc & Hp & Hj).
  rewrite Hv in Hp, Hj. split_and!; try done. intros before. rewrite Hp. by destruct v.
Qed.

Lemma reconcileMigration_step env s instance rc s' r :
  setsController → isMigrationRequested instance = true → runMigrationPreflight env instance rc = Ok tt →
  reconcileMigration SetControllerReference env s instance rc = (s', r) →
  ∃ key, migrationAttemptKey env instance rc = Ok key ∧
  let v := viewJob instance key (stored (cluster s) (jobKey instance)) in
  let validated := migrationAlreadyValidated (status s) in
  match r with
  | Ok _ =>
      migrationPhase (status s') = Some (nextPhase v (migrationPhase (status s))) ∧
      jobEffect instance key v validated (cluster s) (cluster s') ∧
      (v = NoJob ∧ validated = true ∧
         (∀ T, T ≠ ConditionTypeSoftRollbackAvailable → T ≠ ConditionTypeMigrationPreflightReady →
               conditionTrue (status s') T = conditionTrue (status s) T) ∨
       ∀ ready, jobConditionsAre (nextReady v validated ready) (status s'))
  | Err _ => sameJobs (cluster s) (cluster s') ∧
      migrationPhase (status s') = Some (default MigrationPhaseUnset (migrationPhase (status s))) ∧
      ∀ T, T ≠ ConditionTypeSoftRollbackAvailable → T ≠ ConditionTypeMigrationPreflightReady →
           conditionTrue (status s') T = conditionTrue (status s) T
  end.
Proof.
  intros Hset Hreq Hpre Hrun.
  destruct (reconcileMigration_inv _ _ _ _ _ _ Hreq Hpre Hrun) as (key & s0 & s1 & r1 & Hs0 & Hkey & He & Hr).
  exists key. split; [done|]. cbv zeta.
  pose proof (prepared_validated _ _ Hs0) as Hval. destruct Hs0 as (Hcl & Hph & Hcond).
  apply ensureMigrationJob_spec in He as [Hst He]; [|done]. rewrite Hcl, Hval in He.
  destruct r1 as [oj|e]; [|destruct Hr as [-> ->]; by rewrite Hst].
  unfold ensured in He.
  destruct (viewJob instance key (stored (cluster s) (jobKey instance))) as [| | |complete|outcome] eqn:Hv.
  - assert (Hn : stored (cluster s) (jobKey instance) = None).
    { by apply view_NoJob in Hv. }
    destruct (migrationAlreadyValidated (status s)) eqn:Hvd.
    + destruct He as [-> Hsame]. destruct Hr as [-> ->]. rewrite Hst, Hph.
      rewrite phase_validated in Hvd. cbn [nextPhase].
      destruct (migrationPhase (status s)) as [[]|]; try discriminate Hvd.
      split; [done|]. split; [exact Hsame|]. by left.
    + destruct He as (job & j & -> & Hfresh & Hbut & Hj & Hp). destruct Hr as [-> ->].
      pose proof Hfresh as (Hown & Hk & Ha & Hd & Hjc).
      destruct (trackMigrationJob_spec (now env) s1 instance job key) as (Hc1 & Hp1 & Hc2).
      rewrite Hd, Ha, bool_decide_true in Hp1 by done. unfold outcomePhase, jobHasCondition in Hp1.
      unfold jobHasCondition in Hc2. rewrite Hjc in Hp1, Hc2. cbn [existsb andb negb] in Hp1, Hc2.
      rewrite andb_false_r in Hc2. rewrite Hc1, Hp1. cbn [nextPhase nextReady andb].
      split; [|split; [|by right]].
      * rewrite phase_validated in Hvd. by destruct (migrationPhase (status s)) as [[]|].
      * split; [done|]. exists j. split; [done|]. destruct Hp as (_ & Han & Hct & _).
        unfold IsControlledBy, attemptOf. rewrite Hct, Han. split; [exact Hown|exact Ha].
  - done.
  - destruct He as [-> He]. destruct (follow_existing _ _ _ _ _ _ _ _ Hv ltac:(done) ltac:(done) Hr) as (-> & -> & Hp & Hc).
    split; [apply Hp|]. split; [exact He|]. right. intros ready. apply Hc.
  - assert (Hoj : oj = stored (cluster s) (jobKey instance)) by (destruct complete; apply He).
    rewrite Hoj in Hr.
    destruct (follow_existing _ _ _ _ _ _ _ _ Hv ltac:(done) ltac:(done) Hr) as (-> & Hcl1 & Hp & Hc).
    split; [apply Hp|]. rewrite Hcl1. split; [|right; intros ready; apply Hc].
    destruct complete; [apply He|]. destruct He as (_ & ? & Hrm). split; [done|]. intros job Hj. apply Hrm. by rewrite Hoj.
  - destruct He as [-> He]. destruct (follow_existing _ _ _ _ _ _ _ _ Hv ltac:(done) ltac:(done) Hr) as (-> & -> & Hp & Hc).
    split; [apply Hp|]. split; [exact He|]. right. intros ready. apply Hc.
Qed.

(** ** The other two branches *)

Lemma reconcileMigration_preflightFailed env s instance rc e :
  isMigrationRequested instance = true → runMigrationPreflight env instance rc = Err e →
  ∃ s', reconcileMigration SetControllerReference env s instance rc = (s', Ok tt) ∧
    cluster s' = cluster s ∧ migrationPhase (status s') = Some MigrationPhasePreflightFailed ∧
    jobConditionsAre false (status s').
Proof.
  intros Hreq Hpre. unfold reconcileMigration. rewrite Hreq, Hpre. cbn [negb].
  eexists. split; [reflexivity|]. unfold emitMigrationEvent.
  destruct (recorded _); cbn [cluster status withStatus]; (split; [done|]); apply applyPreflightFailure_spec.
Qed.

(** What happens to the Job of an instance that does not ask for a migration. *)
Definition disabledEffect instance (w w' : W) : Prop :=
  match stored w (jobKey instance) with
  | None => sameJobs w w'
  | Some job =>
      if Job_Deleting job then sameJobs w w'
      else IsControlledBy job instance = true ∧ sameBut (jobKey instance) w w' ∧ removed job (jobKey instance) w'
  end.

Lemma deleteMigrationJob_spec s instance s' r :
  deleteMigrationJob s instance = (s', r) →
  status s' = status s ∧
  match r with
  | Err _ => sameJobs (cluster s) (cluster s')
  | Ok _ => disabledEffect instance (cluster s) (cluster s')
  end.
Proof.
  unfold deleteMigrationJob, disabledEffect.
  destruct (getMigrationJob s (jobKey instance)) as [[job|]|e] eqn:Hg; [| |by intros [= <- <-]];
    apply getMigrationJob_Ok in Hg; rewrite Hg; [|by intros [= <- <-]].
  destruct (Job_Deleting job); [by intros [= <- <-]|].
  unfold assertOwnedMigrationJob. destruct (IsControlledBy job instance); [|by intros [= <- <-]].
  intros (? & ? & Hr)%(deleteMigrationJobObject_spec _ _ _ _ _ Hg). split; [done|]. by destruct r.
Qed.

Lemma reconcileMigration_disabled env s instance rc s' r :
  isMigrationRequested instance = false →
  reconcileMigration SetControllerReference env s instance rc = (s', r) →
  match r with
  | Err _ => status s' = status s ∧ sameJobs (cluster s) (cluster s')
  | Ok _ =>
      disabledEffect instance (cluster s) (cluster s') ∧
      if hasMigrationHistory (status s) then
        migrationPhase (status s') =
          Some (if migrationAlreadyValidated (status s) then MigrationPhaseValidated else MigrationPhasePending) ∧
        jobConditionsAre false (status s')
      else status s' = status s
  end.
Proof.
  intros Hreq. unfold reconcileMigration, handleMigrationNotRequested. rewrite Hreq. cbn [negb].
  destruct (deleteMigrationJob s instance) as [s1 r1] eqn:Hd.
  apply deleteMigrationJob_spec in Hd as [Hst Hd].
  destruct r1 as [[]|e]; [|by intros [= <- <-]]. rewrite Hst.
  destruct (hasMigrationHistory (status s)); cbn [negb]; intros [= <- <-]; [|done].
  split; [done|]. cbn [status withStatus]. set (st := warnSoftRollbackOnPraxisDisable _ _).
  replace (migrationAlreadyValidated (status s)) with (migrationAlreadyValidated st); [apply clearMigrationState_spec|].
  unfold st, warnSoftRollbackOnPraxisDisable, migrationAlreadyValidated.
  by destruct (Status_Migration (status s)) eqn:E; cbn; rewrite ?E.
Qed.

(** ** Every run *)

(** The instance's Job has completed. *)
Definition completed instance (w : W) : Prop :=
  ∃ job, stored w (jobKey instance) = Some job ∧ IsControlledBy job instance = true ∧
         Job_Deleting job = false ∧ jobHasCondition job JobComplete = true.

Lemma nextReady_completed instance key w validated ready :
  nextReady (viewJob instance key (stored w (jobKey instance))) validated ready = true →
  ready = true ∧ validated = true ∧ viewJob instance key (stored w (jobKey instance)) = NoJob ∨ completed instance w.
Proof.
  destruct (viewJob instance key (stored w (jobKey instance))) as [| | |c|o] eqn:Hv; cbn; try done.
  - intros [-> ->]%andb_true_iff. by left.
  - intros Hc. right.
    destruct (view_owned instance key (stored w (jobKey instance))) as (job & Hj & Hown); [by rewrite Hv..|].
    exists job. rewrite Hj in Hv. unfold viewJob in Hv. rewrite Hown in Hv. cbn [negb] in Hv.
    destruct (Job_Deleting job); [done|]. case_bool_decide; [done|]. injection Hv as ->.
    destruct c; done.
  - intros Hc. right.
    destruct (view_owned instance key (stored w (jobKey instance))) as (job & Hj & Hown); [by rewrite Hv..|].
    exists job. rewrite Hj in Hv. unfold viewJob in Hv. rewrite Hown in Hv. cbn [negb] in Hv.
    destruct (Job_Deleting job); [done|]. case_bool_decide; [|done]. injection Hv as <-.
    unfold outcomePhase in Hc. destruct (jobHasCondition job JobComplete); [done|].
    by destruct (jobHasCondition job JobFailed).
Qed.

(** The readiness for cutover is backed by the phase and by the two conditions
    before it. *)
Definition backed (st : OGXServerStatus) : Prop :=
  cutoverReady st = true →
  migrationPhase st = Some MigrationPhaseValidated ∧
  conditionTrue st ConditionTypeMigrationValidated = true ∧
  conditionTrue st ConditionTypeMigrationJobSucceeded = true.

Lemma reconcileMigration_ready env s instance rc s' r :
  setsController → reconcileMigration SetControllerReference env s instance rc = (s', r) →
  (backed (status s) → backed (status s')) ∧
  (cutoverReady (status s') = true → cutoverReady (status s) = true ∨ completed instance (cluster s)).
Proof.
  intros Hset Hrun. unfold backed, cutoverReady. destruct (isMigrationRequested instance) eqn:Hreq.
  - destruct (runMigrationPreflight env instance rc) as [[]|e] eqn:Hpre.
    + destruct (reconcileMigration_step _ _ _ _ _ _ Hset Hreq Hpre Hrun) as (key & _ & Hr). cbv zeta in Hr.
      destruct r as [[]|e].
      * destruct Hr as (Hp & _ & [(Hv & Hval & Hc)|Hc]).
        -- rewrite !Hc by done. rewrite Hp, Hv. rewrite phase_validated in Hval. cbn [nextPhase].
           destruct (migrationPhase (status s)) as [[]|]; try discriminate Hval. auto.
        -- destruct (Hc (cutoverReady (status s))) as (H1 & H2 & H3). rewrite H1, H2, H3, Hp. split.
           ++ intros Hb Hn. split; [|done]. f_equal.
              destruct (nextReady_completed _ _ _ _ _ Hn) as [(_ & Hval & Hv)|_].
              ** rewrite Hv. cbn. rewrite phase_validated in Hval. by destruct (migrationPhase (status s)) as [[]|].
              ** revert Hn. destruct (viewJob _ _ _) as [| | |[]|[]]; cbn; try done.
                 intros [Hval _]%andb_true_iff. rewrite phase_validated in Hval.
                 by destruct (migrationPhase (status s)) as [[]|].
           ++ intros [(? & _)|?]%nextReady_completed; auto.
      * destruct Hr as (_ & Hp & Hc). rewrite !Hc by done. rewrite Hp.
        split; [|auto]. intros Hb Hn. destruct (Hb Hn) as (-> & ? & ?). done.
    + destruct (reconcileMigration_preflightFailed env s instance rc e Hreq Hpre) as (s1 & Hr & _ & _ & _ & _ & Hc).
      rewrite Hrun in Hr. injection Hr as -> ->. by rewrite Hc.
  - apply (reconcileMigration_disabled _ _ _ _ _ _ Hreq) in Hrun. destruct r as [u|e].
    + destruct Hrun as [_ Hrun]. destruct (hasMigrationHistory _).
      * destruct Hrun as (_ & _ & _ & Hc). by rewrite Hc.
      * rewrite Hrun. auto.
    + destruct Hrun as [-> _]. auto.
Qed.

(** Reconciliations of one object: its name, namespace and UID do not change, its
    spec may. *)
Definition sameObject (i1 i2 : OGXServer) : Prop :=
  jobKey i1 = jobKey i2 ∧ Meta_UID (Server_Meta i1) = Meta_UID (Server_Meta i2).

Lemma sameObject_completed me instance w : sameObject me instance → completed instance w → completed me w.
Proof.
  intros [Hk Hu] (job & Hj & Ho & Hd & Hc). exists job. rewrite Hk. split; [done|]. split; [|done].
  revert Ho. unfold IsControlledBy. by rewrite Hu.
Qed.

(** The status fields and conditions that only the migration writes. *)
Definition sameMigration (st st' : OGXServerStatus) : Prop :=
  Status_Migration st' = Status_Migration st ∧
  ∀ T, isPraxisMigrationCondition T = true → GetCondition (Some st') T = GetCondition (Some st) T.

(** A step of the world: a reconciliation, with any spec and any reads, whose
    status update may get lost; any change of the cluster by others; any change
    of the rest of the status. *)
Inductive step (me : OGXServer) : state → state → Prop :=
| step_reconcile env instance rc s s' r :
    sameObject me instance →
    reconcileMigration SetControllerReference env s instance rc = (s', r) → step me s s'
| step_lost env instance rc s s' r :
    sameObject me instance →
    reconcileMigration SetControllerReference env s instance rc = (s', r) →
    step me s (withStatus s' (status s))
| step_cluster s w : step me s (withCluster s w)
| step_status s st : sameMigration (status s) st → step me s (withStatus s st).

(** The states reachable from a status without cutover, with the clusters seen on
    the way, the latest first. *)
Inductive reachable (me : OGXServer) : list W → state → Prop :=
| reachable_start s : cutoverReady (status s) = false → reachable me [cluster s] s
| reachable_step h s s' : reachable me h s → step me s s' → reachable me (cluster s' :: h) s'.

Lemma sameMigration_condition st st' T :
  sameMigration st st' → isPraxisMigrationCondition T = true → conditionTrue st' T = conditionTrue st T.
Proof. intros [_ Hc] HT. unfold IsConditionTrue. by rewrite Hc. Qed.

Lemma step_ready me s s' :
  setsController → step me s s' →
  (backed (status s) → backed (status s')) ∧
  (cutoverReady (status s') = true → cutoverReady (status s) = true ∨ completed me (cluster s)).
Proof.
  intros Hset [env instance rc s1 s1' r Hme Hrun|env instance rc s1 s1' r Hme Hrun|s1 w|s1 st Hst]; cbn; auto.
  - destruct (reconcileMigration_ready _ _ _ _ _ _ Hset Hrun) as [Hb Hc]. split; [done|].
    intros [?|?]%Hc; [auto|]. right. by eapply sameObject_completed.
  - unfold backed, cutoverReady. rewrite !(sameMigration_condition _ _ _ Hst) by reflexivity.
    unfold migrationPhase. destruct Hst as [-> _]. auto.
Qed.

Lemma reachable_head me h s : reachable me h s → cluster s ∈ h.
Proof. destruct 1; left. Qed.

(** C15. Cutover is sound: whatever the sequence of reconciliations, spec changes,
    lost status updates and changes of the cluster by others, PraxisCutoverReady
    is True only when the phase is Validated, MigrationValidated and
    MigrationJobSucceeded are True, and at some earlier moment the migration Job
    of this very object had completed. *)
Theorem cutover_sound me h s :
  setsController → reachable me h s → cutoverReady (status s) = true →
  migrationPhase (status s) = Some MigrationPhaseValidated ∧
  conditionTrue (status s) ConditionTypeMigrationValidated = true ∧
  conditionTrue (status s) ConditionTypeMigrationJobSucceeded = true ∧
  ∃ w, w ∈ h ∧ completed me w.
Proof.
  intros Hset Hr. assert (Hinv : backed (status s) ∧ (cutoverReady (status s) = true → ∃ w, w ∈ h ∧ completed me w)).
  { induction Hr as [s Hs|h s s' Hr [IHb IHc] Hstep]; [unfold backed; rewrite Hs; done|].
    destruct (step_ready me s s' Hset Hstep) as [Hb Hc]. split; [auto|].
    intros [Hready|Hdone]%Hc.
    - destruct (IHc Hready) as (w & Hw & ?). exists w. split; [by right|done].
    - exists (cluster s). split; [right; by eapply reachable_head|done]. }
  destruct Hinv as [Hb Hc]. intros Hready. destruct (Hb Hready) as (? & ? & ?). auto.
Qed.

(** ** Theorems about one reconciliation *)

(** C16. A reconciliation refines the abstract machine: when the preflight checks
    pass and it succeeds, the new phase, the readiness for cutover and the
    effect on the Job are those of the machine at the view of the Job, which is
    never one that another object controls. *)
Theorem reconcileMigration_refines env s instance rc s' :
  setsController → isMigrationRequested instance = true → preflightReady env instance rc →
  reconcileMigration SetControllerReference env s instance rc = (s', Ok tt) →
  ∃ key, migrationAttemptKey env instance rc = Ok key ∧
  let v := viewJob instance key (stored (cluster s) (jobKey instance)) in
  let validated := migrationAlreadyValidated (status s) in
  v ≠ Foreign ∧
  migrationPhase (status s') = Some (nextPhase v (migrationPhase (status s))) ∧
  cutoverReady (status s') = nextReady v validated (cutoverReady (status s)) ∧
  jobEffect instance key v validated (cluster s) (cluster s').
Proof.
  intros Hset Hreq Hpre%runMigrationPreflight_ok Hrun.
  destruct (reconcileMigration_step _ _ _ _ _ _ Hset Hreq Hpre Hrun) as (key & Hkey & Hr).
  exists key. split; [done|]. cbv zeta in *. destruct Hr as (Hp & He & Hc).
  split; [intros Hf; by rewrite Hf in He|]. split; [done|]. split; [|done].
  destruct Hc as [(Hv & Hval & Hc)|Hc]; [|apply Hc]. rewrite Hv, Hval. cbn. unfold cutoverReady. by rewrite Hc.
Qed.

(** The preflight checks: they pass exactly when the two databases are
    configured, readable from watched Secrets and different, the mounted
    configuration and the CA bundle exist, and the image resolves. *)
Theorem runMigrationPreflight_spec env instance rc :
  runMigrationPreflight env instance rc = Ok tt ↔ preflightReady env instance rc.
Proof. apply runMigrationPreflight_ok. Qed.

(** Ownership of Jobs: a reconciliation touches no Job but the instance's own,
    leaves a Job of that name that another object controls, changes nothing when
    it fails, and, while the migration is requested, keeps a completed Job and
    the Job, failed or not, of the current attempt. *)
Theorem migration_job_ownership env s instance rc s' r :
  setsController → reconcileMigration SetControllerReference env s instance rc = (s', r) →
  sameBut (jobKey instance) (cluster s) (cluster s') ∧
  (is_ok r = false → sameJobs (cluster s) (cluster s')) ∧
  ∀ job, stored (cluster s) (jobKey instance) = Some job →
    IsControlledBy job instance = false ∨
    isMigrationRequested instance = true ∧
      (jobHasCondition job JobComplete = true ∨ migrationAttemptKey env instance rc = Ok (attemptOf job)) →
    stored (cluster s') (jobKey instance) = Some job.
Proof.
  intros Hset Hrun.
  assert (Hsame : ∀ P : Job → Prop, sameJobs (cluster s) (cluster s') →
    sameBut (jobKey instance) (cluster s) (cluster s') ∧
    (is_ok r = false → sameJobs (cluster s) (cluster s')) ∧
    ∀ job, stored (cluster s) (jobKey instance) = Some job → P job → stored (cluster s') (jobKey instance) = Some job).
  { intros P Hs. split; [intros k _; apply Hs|]. split; [done|]. intros job Hj _. by rewrite Hs. }
  destruct (isMigrationRequested instance) eqn:Hreq.
  - destruct (runMigrationPreflight env instance rc) as [[]|e] eqn:Hpre.
    + destruct (reconcileMigration_step _ _ _ _ _ _ Hset Hreq Hpre Hrun) as (key & Hkey & Hr). cbv zeta in Hr.
      destruct r as [u|e]; [destruct Hr as (_ & He & _)|apply Hsame, Hr].
      destruct (viewJob _ _ _) as [| | |[]|] eqn:Hv; cbn [jobEffect] in He; try by apply Hsame.
      * destruct (migrationAlreadyValidated _); [by apply Hsame|]. destruct He as [Hb _].
        split; [done|]. split; [done|]. apply view_NoJob in Hv. intros job Hj. congruence.
      * destruct He as [Hb _]. split; [done|]. split; [done|]. intros job Hj Hcase. exfalso. revert Hv. rewrite Hj.
        unfold viewJob. destruct (IsControlledBy job instance); cbn [negb]; [|done].
        destruct (Job_Deleting job); [done|]. case_bool_decide; [done|]. intros [= Hc].
        destruct Hcase as [?|[_ [?|?]]]; congruence.
    + destruct (reconcileMigration_preflightFailed env s instance rc e Hreq Hpre) as (s1 & Hr & Hcl & _).
      rewrite Hrun in Hr. injection Hr as -> ->. apply Hsame. intros k. by rewrite Hcl.
  - apply (reconcileMigration_disabled _ _ _ _ _ _ Hreq) in Hrun. destruct r as [u|e]; [|by apply Hsame, Hrun].
    destruct Hrun as [He _]. unfold disabledEffect in He.
    destruct (stored (cluster s) (jobKey instance)) as [job|] eqn:Hj; [|by apply Hsame].
    destruct (Job_Deleting job); [by apply Hsame|]. destruct He as (Hown & Hb & _).
    split; [done|]. split; [done|]. intros job' [= <-] [?|[? _]]; congruence.
Qed.

(** Between two reconciliations the cluster removes the Jobs that are marked for
    deletion, and nobody else makes one under the instance's name. *)
Definition collected instance (w w1 : W) : Prop :=
  ∀ job, stored w1 (jobKey instance) = Some job → stored w (jobKey instance) = Some job ∧ Job_Deleting job = false.

(** C17. Convergence.  A successful reconciliation that finds the instance's Job of
    an outdated attempt, not completed, deletes it: under the instance's name
    there is no Job afterwards but one that is marked for deletion.  Once the
    cluster has removed what is marked, the next successful reconciliation makes a
    Job of the current attempt that the instance controls.  And once that Job has
    completed, the next one reports the migration validated and the cutover ready. *)
Theorem migration_converges env s instance rc key job s1 :
  setsController → isMigrationRequested instance = true → preflightReady env instance rc →
  migrationAttemptKey env instance rc = Ok key →
  stored (cluster s) (jobKey instance) = Some job → IsControlledBy job instance = true →
  attemptOf job ≠ key → jobHasCondition job JobComplete = false →
  reconcileMigration SetControllerReference env s instance rc = (s1, Ok tt) →
  (∀ job', stored (cluster s1) (jobKey instance) = Some job' → Job_Deleting job' = true) ∧
  ∀ w1 s2, collected instance (cluster s1) w1 →
    reconcileMigration SetControllerReference env (withCluster s1 w1) instance rc = (s2, Ok tt) →
    ∃ job1, stored (cluster s2) (jobKey instance) = Some job1 ∧ IsControlledBy job1 instance = true ∧ attemptOf job1 = key ∧
    ∀ w2 job2 s3,
      stored w2 (jobKey instance) = Some job2 → Job_Controller job2 = Job_Controller job1 →
      Job_Annotations job2 = Job_Annotations job1 → Job_Deleting job2 = false →
      jobHasCondition job2 JobComplete = true →
      reconcileMigration SetControllerReference env (withCluster s2 w2) instance rc = (s3, Ok tt) →
      migrationPhase (status s3) = Some MigrationPhaseValidated ∧ cutoverReady (status s3) = true.
Proof.
  intros Hset Hreq Hpre%runMigrationPreflight_ok Hkey Hj Hown Hne Hnc H1.
  destruct (reconcileMigration_step _ _ _ _ _ _ Hset Hreq Hpre H1) as (k1 & Hk1 & Hp1 & He1 & _).
  rewrite Hkey in Hk1. injection Hk1 as <-.
  assert (Hview : viewJob instance key (stored (cluster s) (jobKey instance)) =
                  if Job_Deleting job then Deleting else Stale false).
  { unfold viewJob. rewrite Hj, Hown. cbn [negb]. by rewrite bool_decide_false, Hnc. }
  assert (Hmarked : ∀ job', stored (cluster s1) (jobKey instance) = Some job' → Job_Deleting job' = true).
  { intros job' Hj'. rewrite Hview in He1. destruct (Job_Deleting job) eqn:Hdel.
    - rewrite He1, Hj in Hj'. by injection Hj' as <-.
    - destruct He1 as [_ Hrm]. by apply (Hrm job Hj job'). }
  split; [done|]. intros w1 s2 Hgc H2.
  assert (Hgone : stored w1 (jobKey instance) = None).
  { destruct (stored w1 (jobKey instance)) as [job'|] eqn:E; [|done]. apply Hgc in E as [E Hf]. by rewrite (Hmarked job' E) in Hf. }
  assert (Hrun : migrationAlreadyValidated (status s1) = false).
  { rewrite phase_validated, Hp1, Hview. by destruct (Job_Deleting job). }
  destruct (reconcileMigration_step _ _ _ _ _ _ Hset Hreq Hpre H2) as (k2 & Hk2 & _ & He & _).
  rewrite Hkey in Hk2. injection Hk2 as <-. cbn [cluster status withCluster] in He.
  rewrite Hgone, Hrun in He. destruct He as (_ & job1 & Hj1 & Hown1 & Ha1). exists job1. split_and!; [done..|].
  intros w2 job2 s3 Hj2 Hc Ha Hd Hdone H3.
  destruct (reconcileMigration_step _ _ _ _ _ _ Hset Hreq Hpre H3) as (k3 & Hk3 & Hp3 & _ & Hc3).
  rewrite Hkey in Hk3. injection Hk3 as <-. cbn [cluster status withCluster] in Hp3, Hc3.
  assert (Hv : viewJob instance key (stored w2 (jobKey instance)) = Current MigrationPhaseValidated).
  { rewrite Hj2, <- Ha1. unfold viewJob, IsControlledBy, attemptOf. rewrite Hc, Ha. unfold IsControlledBy in Hown1.
    rewrite Hown1, Hd. cbn [negb]. rewrite bool_decide_true by done. unfold outcomePhase. by rewrite Hdone. }
  rewrite Hv in Hp3, Hc3. split; [done|].
  destruct Hc3 as [[? _]|Hc3]; [done|]. by destruct (Hc3 true) as (_ & _ & ?).
Qed.

(** A finished migration is forgotten: the phase Validated keeps the Job from
    being created again after it is gone, but a preflight failure in between,
    even one from a transient read error, replaces the phase, and the next
    reconciliation runs the migration a second time. *)
Theorem validation_forgotten env1 env2 s instance rc e s0 s1 s2 :
  setsController → isMigrationRequested instance = true → migrationAlreadyValidated (status s) = true →
  stored (cluster s) (jobKey instance) = None →
  preflightReady env2 instance rc → runMigrationPreflight env1 instance rc = Err e →
  reconcileMigration SetControllerReference env2 s instance rc = (s0, Ok tt) →
  reconcileMigration SetControllerReference env1 s instance rc = (s1, Ok tt) →
  reconcileMigration SetControllerReference env2 s1 instance rc = (s2, Ok tt) →
  stored (cluster s0) (jobKey instance) = None ∧
  migrationPhase (status s1) = Some MigrationPhasePreflightFailed ∧
  migrationPhase (status s2) = Some MigrationPhaseRunning ∧
  ∃ job, stored (cluster s2) (jobKey instance) = Some job ∧ IsControlledBy job instance = true.
Proof.
  intros Hset Hreq Hval Hn Hpre2%runMigrationPreflight_ok Hpre1 H0 H1 H2.
  destruct (reconcileMigration_preflightFailed env1 s instance rc e Hreq Hpre1) as (s1' & Hr & Hcl & Hp & _).
  rewrite H1 in Hr. injection Hr as <-.
  destruct (reconcileMigration_step _ _ _ _ _ _ Hset Hreq Hpre2 H0) as (k0 & _ & _ & He0 & _).
  rewrite Hn, Hval in He0. cbn in He0.
  destruct (reconcileMigration_step _ _ _ _ _ _ Hset Hreq Hpre2 H2) as (k2 & _ & Hp2 & He2 & _).
  rewrite Hcl, Hn, (phase_validated (status s1)), Hp in He2. rewrite Hcl, Hn, Hp in Hp2.
  destruct He2 as (_ & job & Hj & Hown & _). split; [by rewrite He0|]. split; [done|]. split; [done|]. eauto.
Qed.

(** Validated, without cutover and without Job. *)
Definition stuck instance s : Prop :=
  migrationAlreadyValidated (status s) = true ∧ cutoverReady (status s) = false ∧
  stored (cluster s) (jobKey instance) = None.

(** The reconciliations of a list of reads, each with its result ignored. *)
Definition reconcileAll instance (runs : list (environment * option runtimeConfigRef)) s : state :=
  foldl (λ s run, (reconcileMigration SetControllerReference run.1 s instance run.2).1) s runs.

Lemma stuck_step env s instance rc :
  setsController → isMigrationRequested instance = true → preflightReady env instance rc →
  stuck instance s → stuck instance (reconcileMigration SetControllerReference env s instance rc).1.
Proof.
  intros Hset Hreq Hpre%runMigrationPreflight_ok (Hval & Hready & Hn).
  destruct (reconcileMigration _ _ _ _ _) as [s' r] eqn:Hrun.
  destruct (reconcileMigration_step _ _ _ _ _ _ Hset Hreq Hpre Hrun) as (key & _ & Hr). cbv zeta in Hr.
  rewrite Hn, Hval in Hr. unfold stuck, cutoverReady. cbn [fst]. rewrite phase_validated.
  rewrite phase_validated in Hval. destruct r as [u|e].
  - destruct Hr as (-> & Hs & Hc). cbn in Hs. rewrite Hs. split; [cbn; by destruct (migrationPhase (status s)) as [[]|]|].
    split; [|done]. destruct Hc as [(_ & _ & Hc)|Hc]; [by rewrite Hc|]. by destruct (Hc false) as (_ & _ & ?).
  - destruct Hr as (Hs & -> & Hc). rewrite Hs, Hc by done. split; [|done]. by destruct (migrationPhase (status s)) as [[]|].
Qed.

(** Cutover does not come back: disabling a finished migration withdraws the
    readiness, deletes the Job and keeps the phase Validated; when the migration
    is enabled again, no number of successful preflight checks makes
    PraxisCutoverReady True, for no Job is created and none is observed. *)
Theorem reenabled_never_ready env0 s s0 disabled enabled rc0 w runs :
  setsController → isMigrationRequested disabled = false → isMigrationRequested enabled = true →
  sameObject disabled enabled → migrationAlreadyValidated (status s) = true →
  reconcileMigration SetControllerReference env0 s disabled rc0 = (s0, Ok tt) →
  stored w (jobKey disabled) = None →
  Forall (λ run, preflightReady run.1 enabled run.2) runs →
  let s' := reconcileAll enabled runs (withCluster s0 w) in
  migrationPhase (status s') = Some MigrationPhaseValidated ∧ cutoverReady (status s') = false ∧
  stored (cluster s') (jobKey enabled) = None.
Proof.
  intros Hset Hdis Hen [Hk _] Hval Hrun Hgone Hruns.
  assert (Hstuck : stuck enabled (withCluster s0 w)).
  { apply (reconcileMigration_disabled _ _ _ _ _ _ Hdis) in Hrun as [_ Hrun].
    rewrite (phase_validated (status s)) in *. unfold stuck, cutoverReady. cbn [status cluster withCluster].
    rewrite phase_validated, <- Hk. unfold hasMigrationHistory, migrationPhase in *.
    destruct (Status_Migration (status s)) as [m|]; cbn in Hval; [|done].
    destruct (MS_Phase m) eqn:Hm; try discriminate Hval. rewrite !orb_true_r in Hrun.
    destruct Hrun as (Hp & _ & _ & Hc). cbn in Hp. rewrite Hm in Hp. by rewrite Hp, Hc. }
  assert (Hall : stuck enabled (reconcileAll enabled runs (withCluster s0 w))).
  { revert Hstuck. generalize (withCluster s0 w). unfold reconcileAll.
    induction Hruns as [|[env rc] runs Hpre _ IH]; intros s1 Hs1; [done|]. cbn [foldl].
    apply IH. by apply stuck_step. }
  destruct Hall as (Hv & ? & ?). split; [|done]. rewrite phase_validated in Hv.
  by destruct (migrationPhase _) as [[]|].
Qed.
End facts.
