(* ===== verification/MigrationJobFacts.v ===== *)
(** * The command and the credentials of the migration Job

    User text reaches a shell command line; a small model of how a POSIX shell
    splits words shows what the CLI receives.  And the environment of the Job
    names its Secrets instead of holding them. *)

From Stdlib Require Import Ascii ZArith.
From S2P Require Import Prelude Value ApiProviders ApiServer Secret Hash Fmt Client Status Common Preflight Migration MigrationFacts.

(** ** Words of a shell

    The quoting of the POSIX shell command language: single quotes keep every
    byte; double quotes keep every byte but the dollar, the backquote and the
    backslash, which the model does not expand; outside quotes a blank ends a
    word and only letters, digits and a few marks stand for themselves. *)

Inductive quoting := Unquoted | SingleQuoted | DoubleQuoted.

Definition plainChar (c : ascii) : bool :=
  in_range "a" "z" c || in_range "A" "Z" c || in_range "0" "9" c ||
  existsb (Ascii.eqb c) (chars "-_./=:,@%+").

Definition expandedChar (c : ascii) : bool :=
  Ascii.eqb c "$" || Ascii.eqb c "`" || Ascii.eqb c backslash.

(** [word] is the word being read, if there is one; [None] is text that the model
    gives no meaning. *)
Fixpoint shellSplit (q : quoting) (word : option (list ascii)) (l : list ascii) : option (list (list ascii)) :=
  match l, q with
  | [], Unquoted => Some (match word with Some w => [w] | None => [] end)
  | [], _ => None
  | c :: l, Unquoted =>
      if Ascii.eqb c "'" then shellSplit SingleQuoted (Some (default [] word)) l
      else if Ascii.eqb c quoteMark then shellSplit DoubleQuoted (Some (default [] word)) l
      else if Ascii.eqb c " " then
        words ← shellSplit Unquoted None l;
        Some (match word with Some w => w :: words | None => words end)
      else if plainChar c then shellSplit Unquoted (Some (default [] word ++ [c])) l
      else None
  | c :: l, SingleQuoted =>
      if Ascii.eqb c "'" then shellSplit Unquoted word l
      else shellSplit SingleQuoted (Some (default [] word ++ [c])) l
  | c :: l, DoubleQuoted =>
      if Ascii.eqb c quoteMark then shellSplit Unquoted word l
      else if expandedChar c then None
      else shellSplit DoubleQuoted (Some (default [] word ++ [c])) l
  end.

Definition shellWords (s : string) : option (list string) :=
  option_map (map of_chars) (shellSplit Unquoted None (chars s)).

Example shellWords_example :
  shellWords "a 'b c'd  e" = Some ["a"; "b cd"; "e"].
Proof. reflexivity. Qed.

Example shellWords_semicolon : shellWords "a; b" = None.
Proof. reflexivity. Qed.

(** ** Quoting is undone by the shell *)

Lemma replaceQuotes_split w v rest :
  shellSplit SingleQuoted (Some w) (replaceQuotes v ++ "'"%char :: rest) =
  shellSplit Unquoted (Some (w ++ v)) rest.
Proof.
  revert w. induction v as [|c v IH]; intros w; cbn [replaceQuotes].
  - cbn [app shellSplit]. by rewrite app_nil_r.
  - destruct (Ascii.eqb_spec c "'") as [->|Hc].
    + change (shellSplit SingleQuoted (Some ((w ++ ["'"%char]))) (replaceQuotes v ++ "'"%char :: rest) =
              shellSplit Unquoted (Some (w ++ "'"%char :: v)) rest).
      rewrite IH. by rewrite <- app_assoc.
    + cbn [app shellSplit]. rewrite (proj2 (Ascii.eqb_neq _ _) Hc). cbn [default from_option id].
      rewrite IH. by rewrite <- app_assoc.
Qed.

(** A quoted value continues the word with exactly its bytes. *)
Lemma shellQuote_split word v rest :
  shellSplit Unquoted word (chars (shellQuote v) ++ rest) =
  shellSplit Unquoted (Some (default [] word ++ chars v)) rest.
Proof.
  unfold shellQuote. rewrite !chars_app, chars_of_chars. cbn [chars app].
  change (shellSplit SingleQuoted (Some (default [] word)) ((replaceQuotes (chars v) ++ ["'"%char]) ++ rest) =
          shellSplit Unquoted (Some (default [] word ++ chars v)) rest).
  rewrite <- app_assoc. apply replaceQuotes_split.
Qed.

Lemma plainChar_spec c :
  plainChar c = true → Ascii.eqb c "'" = false ∧ Ascii.eqb c quoteMark = false ∧ Ascii.eqb c " " = false.
Proof.
  intros Hc. split_and!; apply Ascii.eqb_neq; intros ->; vm_compute in Hc; discriminate Hc.
Qed.

Lemma plain_split w l rest :
  forallb plainChar l = true → shellSplit Unquoted (Some w) (l ++ rest) = shellSplit Unquoted (Some (w ++ l)) rest.
Proof.
  revert w. induction l as [|c l IH]; intros w Hl; [by rewrite app_nil_r|].
  cbn [forallb] in Hl. apply andb_true_iff in Hl as [Hc Hl].
  destruct (plainChar_spec c Hc) as (H1 & H2 & H3). cbn [app shellSplit]. rewrite H1, H2, H3, Hc.
  cbn [default from_option id]. rewrite IH by done. by rewrite <- app_assoc.
Qed.

(** The text of a flag with its quoted value, after a blank. *)
Definition flagText (flag v : string) : list ascii :=
  " "%char :: chars flag ++ " "%char :: chars (shellQuote v).

Lemma flag_split flag v rest :
  forallb plainChar (chars flag) = true → flag ≠ "" →
  shellSplit Unquoted None (flagText flag v ++ rest) =
  option_map (cons (chars flag)) (shellSplit Unquoted (Some (chars v)) rest).
Proof.
  intros Hf Hne. destruct flag as [|c flag]; [done|].
  unfold flagText. cbn [app]. rewrite <- app_assoc. cbn [app shellSplit].
  change (shellSplit Unquoted None (chars (String c flag) ++ " "%char :: chars (shellQuote v) ++ rest))
    with (shellSplit Unquoted None (c :: (chars flag ++ " "%char :: chars (shellQuote v) ++ rest))).
  cbn [chars forallb] in Hf. apply andb_true_iff in Hf as [Hc Hf].
  destruct (plainChar_spec c Hc) as (H1 & H2 & H3). cbn [shellSplit Ascii.eqb]. rewrite H1, H2, H3, Hc.
  cbn [default from_option id app]. rewrite (plain_split [c]) by done. cbn [app].
  change (shellSplit Unquoted (Some (c :: chars flag)) (" "%char :: chars (shellQuote v) ++ rest))
    with (shellSplit Unquoted None (chars (shellQuote v) ++ rest) ≫= λ words, Some ((c :: chars flag) :: words)).
  rewrite shellQuote_split. cbn [default from_option id app].
  by destruct (shellSplit Unquoted (Some (chars v)) rest).
Qed.

(** A blank ends a word. *)
Lemma blank_split w l :
  shellSplit Unquoted (Some w) (" "%char :: l) = option_map (cons w) (shellSplit Unquoted None (" "%char :: l)).
Proof. cbn. by destruct (shellSplit Unquoted None l). Qed.

Lemma fallbackTenant_text v : chars (" --fallback-tenant " +:+ shellQuote v) = flagText "--fallback-tenant" v.
Proof. by rewrite chars_app. Qed.

Lemma fallbackOwnerSubject_text v :
  chars (" --fallback-owner-subject " +:+ shellQuote v) = flagText "--fallback-owner-subject" v.
Proof. by rewrite chars_app. Qed.

(** C18. No injection: whatever bytes the fallback values hold, the flags of the
    migration command are, for the shell, exactly the flag names and those
    values, each one word. *)
Theorem migrationFlags_words spec :
  shellWords (migrationFlags (Some spec)) = Some
    ((if bool_decide (MJ_FallbackTenant spec = "") then [] else ["--fallback-tenant"; MJ_FallbackTenant spec]) ++
     (if bool_decide (MJ_FallbackOwnerSubject spec = "") then []
      else ["--fallback-owner-subject"; MJ_FallbackOwnerSubject spec])).
Proof.
  unfold shellWords, migrationFlags.
  generalize (MJ_FallbackTenant spec) (MJ_FallbackOwnerSubject spec). intros tenant owner.
  assert (Hend : ∀ flag v, forallb plainChar (chars flag) = true → flag ≠ "" →
    shellSplit Unquoted None (flagText flag v) = Some [chars flag; chars v]).
  { intros flag v Hf Hne. rewrite <- (app_nil_r (flagText flag v)). by rewrite flag_split. }
  assert (Hboth : shellSplit Unquoted None (flagText "--fallback-tenant" tenant ++ flagText "--fallback-owner-subject" owner) =
    Some [chars "--fallback-tenant"; chars tenant; chars "--fallback-owner-subject"; chars owner]).
  { rewrite flag_split by done. unfold flagText at 1. rewrite blank_split.
    change (" "%char :: chars "--fallback-owner-subject" ++ " "%char :: chars (shellQuote owner))
      with (flagText "--fallback-owner-subject" owner). by rewrite Hend. }
  case_bool_decide; case_bool_decide; rewrite chars_app, ?fallbackTenant_text, ?fallbackOwnerSubject_text.
  - done.
  - cbn [chars app]. rewrite Hend by done. cbn [option_map map app]. by rewrite !of_chars_chars.
  - cbn [chars]. rewrite app_nil_r, Hend by done. cbn [option_map map app]. by rewrite !of_chars_chars.
  - rewrite Hboth. cbn [option_map map app]. by rewrite !of_chars_chars.
Qed.

(** ** The environment of the Job *)

Section job.
Context {MR : MapRange}.

(** A variable that names a Secret key and holds no text. *)
Definition secretVariable (e : EnvVar) : Prop :=
  Env_Value e = "" ∧ is_Some (Env_ValueFrom e ≫= Src_SecretKeyRef).

(** The variables that hold text: the paths of the configuration and of the
    certificates. *)
Definition pathVariable (e : EnvVar) : Prop :=
  e ∈ [plainEnv "OGX_CONFIG" ogxConfigPath; plainEnv "RUN_CONFIG_PATH" ogxConfigPath;
       plainEnv "SSL_CERT_FILE" ManagedCABundleFilePath].

Lemma secretEnv_variable e : secretEnv e → secretVariable e.
Proof. by destruct 1. Qed.

Lemma CollectSecretRefs_variables spec e : e ∈ CollectSecretRefs spec → secretVariable e.
Proof.
  rewrite elem_of_CollectSecretRefs. intros [Hin _]%firstNamed_Some. apply secretEnv_variable.
  pose proof (collectSecretRefsRaw_secretEnv spec) as Hall. rewrite Forall_forall in Hall. by apply Hall.
Qed.

Lemma migrationJobEnv_variables instance e :
  e ∈ migrationJobEnv instance → secretVariable e ∨ pathVariable e.
Proof.
  unfold migrationJobEnv. rewrite !elem_of_app. intros [He|[He|He]].
  - left. by eapply CollectSecretRefs_variables.
  - right. unfold pathVariable. set_solver.
  - left. destruct (migrationTargetSecretRef instance); [|by apply not_elem_of_nil in He].
    apply list_elem_of_singleton in He as ->. by split.
Qed.

(** The containers after the pod defaults: the overrides and the resources change
    only mounts and resources. *)
Lemma applyMigrationPodDefaults_containers instance p c :
  Pod_Containers p = [c] →
  ∃ c', Pod_Containers (applyMigrationPodDefaults instance p) = [c'] ∧
    Ctr_Image c' = Ctr_Image c ∧ Ctr_Command c' = Ctr_Command c ∧ Ctr_Args c' = Ctr_Args c ∧ Ctr_Env c' = Ctr_Env c.
Proof.
  intros Hc. unfold applyMigrationPodDefaults, configurePodOverrides. cbn [Pod_Containers]. rewrite Hc.
  destruct (_ ≫= WL_Overrides), (_ ≫= WL_Resources); cbn; by eexists.
Qed.

Context (SetControllerReference : OGXServer → Job → result Job).

(** The Job holds no credential: its one container runs the migration command
    with the resolved image as a non-root user; every variable of its
    environment names a Secret key, but for the paths of the configuration and
    of the certificates; and it has every secret of the spec and the connection
    string of the target. *)
Theorem migration_job_credentials env instance rc jobName key job :
  setsController SetControllerReference →
  buildMigrationJob SetControllerReference env instance rc jobName key = Ok job →
  ∃ c, Pod_Containers (Job_PodSpec job) = [c] ∧
    resolveImage env (Spec_Distribution (Server_Spec instance)) = Ok (Ctr_Image c) ∧
    Ctr_Command c = ["/bin/sh"; "-c"] ∧ Ctr_Args c = [migrationJobShell (migrationJobSpec instance)] ∧
    Pod_RunAsNonRoot (Job_PodSpec job) = Some true ∧
    (∀ e, e ∈ Ctr_Env c → secretVariable e ∨ pathVariable e) ∧
    (∀ e, e ∈ CollectSecretRefs (Server_Spec instance) → e ∈ Ctr_Env c) ∧
    (∀ ref, migrationTargetSecretRef instance = Some ref → ∃ e, e ∈ Ctr_Env c ∧ Env_Name e = praxisDatabaseURLEnv ∧
       Env_ValueFrom e ≫= Src_SecretKeyRef = Some {| Sel_Name := SKR_Name ref; Sel_Key := SKR_Key ref |}).
Proof.
  intros Hs. unfold buildMigrationJob. intros Hb. apply bind_Ok in Hb as (image & Hi & Hb). res_inv.
  unfold migrationJobPodInputs in Hb. cbv zeta in Hb. res_inv.
  apply Hs in Hb as (_ & _ & _ & _ & _ & ->). cbn [withPodSpec newMigrationJob Job_PodSpec].
  match goal with |- context [applyMigrationPodDefaults _ {| Pod_Containers := [?c] |}] => set (c0 := c) end.
  match goal with |- context [applyMigrationPodDefaults _ ?p] =>
    destruct (applyMigrationPodDefaults_containers instance p c0 eq_refl) as (c & Hc & Hci & Hcc & Hca & Hce) end.
  exists c. rewrite Hci, Hcc, Hca, Hce. cbn [c0 Ctr_Image Ctr_Command Ctr_Args Ctr_Env].
  split_and!; try done.
  - unfold applyMigrationPodDefaults. by destruct (_ ≫= WL_Resources).
  - intros e [He|He]%elem_of_app; [by eapply migrationJobEnv_variables|].
    destruct (hasAnyCABundle env instance); [|by apply not_elem_of_nil in He].
    right. apply list_elem_of_singleton in He as ->. unfold pathVariable. set_solver.
  - intros e He. unfold migrationJobEnv. set_solver.
  - intros ref Href. unfold migrationJobEnv. rewrite Href. eexists. rewrite !elem_of_app. split; [left; right; right; left|by split].
Qed.
End job.
