(* ===== verification/Watches.v ===== *)
(** * What wakes a reconciliation up

    The watches of [controllers/ogxserver_controller.go]: which events of user
    ConfigMaps and Secrets are let through, and which instances they are mapped
    to; the hash of the Secrets in the pod template; the operator's own
    ConfigMap.  The theorems relate the mapping to what a reconciliation reads. *)

From S2P Require Import Prelude Value ApiProviders ApiServer Secret Hash Common Fmt Client Action Objects ConfigMaps CABundle Workload Migration.

(** ** Predicates *)

(** Of the labels of a ConfigMap or of a Secret; nil labels are the empty map. *)
Definition isWatchLabeled (labels : gmap string string) : bool :=
  if bool_decide (labels = ∅) then false
  else if bool_decide (labels !! managedByLabelKey = Some managedByLabelVal) then false
  else bool_decide (default "" (labels !! WatchLabelKey) = WatchLabelValue).

Definition isWatchLabeledUserConfigMap (cm : ConfigMapObject) : bool := isWatchLabeled (Obj_Labels (CM_Meta cm)).

Definition isWatchLabeledUserSecret (labels : gmap string string) : bool := isWatchLabeled labels.

(** The four kinds of events, with the object that the handler sees. *)
Inductive watchEvent (O : Type) :=
| CreateEvent (object : O)
| UpdateEvent (old new : O)
| DeleteEvent (object : O)
| GenericEvent (object : O).
Arguments CreateEvent {_} _.
Arguments UpdateEvent {_} _ _.
Arguments DeleteEvent {_} _.
Arguments GenericEvent {_} _.

Definition eventObject {O} (e : watchEvent O) : O :=
  match e with CreateEvent o | UpdateEvent _ o | DeleteEvent o | GenericEvent o => o end.

Definition userConfigMapPredicate (e : watchEvent ConfigMapObject) : bool :=
  match e with
  | CreateEvent o => isWatchLabeledUserConfigMap o
  | UpdateEvent _ o => isWatchLabeledUserConfigMap o
  | DeleteEvent o => isWatchLabeledUserConfigMap o
  | GenericEvent o => isWatchLabeledUserConfigMap o
  end.

(** A Secret, by its labels. *)
Definition userSecretPredicate (e : watchEvent (gmap string string)) : bool :=
  match e with
  | CreateEvent o => isWatchLabeledUserSecret o
  | UpdateEvent _ o => isWatchLabeledUserSecret o
  | DeleteEvent o => isWatchLabeledUserSecret o
  | GenericEvent o => isWatchLabeledUserSecret o
  end.

(** ** References *)

Definition serverKey (instance : OGXServer) : NamespacedName :=
  (Meta_Namespace (Server_Meta instance), Server_Name instance).

Section references.
Context (operatorNamespace : string).

Implicit Types (instance : OGXServer).

Definition referencesCACertificateConfigMap instance (cmName cmNamespace : string) : bool :=
  if negb (hasCACertificates instance) || negb (bool_decide (cmNamespace = Meta_Namespace (Server_Meta instance)))
  then false
  else existsb (λ ref, bool_decide (CKR_Name ref = cmName)) (caCertificates instance).

Definition refersTo (ref : option ConfigMapKeyRef) (cmName : string) : bool :=
  match ref with Some ref => bool_decide (CKR_Name ref = cmName) | None => false end.

Definition instanceReferencesConfigMap instance (cmName cmNamespace : string) : bool :=
  let sameNamespace := bool_decide (Meta_Namespace (Server_Meta instance) = cmNamespace) in
  if HasOverrideConfig instance && refersTo (Spec_OverrideConfig (Server_Spec instance)) cmName && sameNamespace then true
  else if refersTo (Spec_BaseConfig (Server_Spec instance)) cmName && sameNamespace then true
  else if referencesCACertificateConfigMap instance cmName cmNamespace then true
  else if bool_decide (cmName = odhTrustedCABundleConfigMap) &&
          bool_decide (cmNamespace = Meta_Namespace (Server_Meta instance)) then true
  else bool_decide (cmName = operatorConfigData) && bool_decide (cmNamespace = operatorNamespace).

Definition instanceReferencesSecret `{MapRange} instance (secretName secretNamespace : string) : bool :=
  if negb (bool_decide (secretNamespace = Meta_Namespace (Server_Meta instance))) then false
  else if existsb (λ env, match envRef env with
                          | Some sel => bool_decide (Sel_Name sel = secretName)
                          | None => false
                          end) (CollectSecretRefs (Server_Spec instance)) then true
  else
    match Spec_PraxisMode (Server_Spec instance) ≫= Praxis_MigrationJob with
    | Some mj => match MJ_TargetConnectionString mj with
                 | Some ref => bool_decide (SKR_Name ref = secretName)
                 | None => false
                 end
    | None => false
    end.

(** ** The mapping *)

(** [client.List] of the instances, in one namespace or in all. *)
Context (ListServers : option string → apiError + list OGXServer).

Definition mapConfigMapToReconcileRequests (cm : ConfigMapObject) : list NamespacedName :=
  let meta := CM_Meta cm in
  if bool_decide (Obj_Labels meta !! managedByLabelKey = Some managedByLabelVal) then []
  else
    match ListServers (if bool_decide (Obj_Name meta = operatorConfigData) then None else Some (Obj_Namespace meta)) with
    | inl _ => []
    | inr items =>
        serverKey <$> filter (λ i, instanceReferencesConfigMap i (Obj_Name meta) (Obj_Namespace meta) = true) items
    end.

Definition mapSecretToReconcileRequests `{MapRange} (secret : NamespacedName) : list NamespacedName :=
  match ListServers (Some secret.1) with
  | inl _ => []
  | inr items => serverKey <$> filter (λ i, instanceReferencesSecret i secret.2 secret.1 = true) items
  end.

(** ** What is mapped *)

(** The lists are those of the instances of the cluster. *)
Definition listsServers (servers : list OGXServer) : Prop :=
  ∀ ns, ∃ items, ListServers ns = inr items ∧
    ∀ i, i ∈ items ↔ i ∈ servers ∧ ∀ n, ns = Some n → Meta_Namespace (Server_Meta i) = n.

(** Only the operator's own ConfigMap is referred to from other namespaces. *)
Lemma referenced_namespace instance name ns :
  instanceReferencesConfigMap instance name ns = true → name ≠ operatorConfigData →
  Meta_Namespace (Server_Meta instance) = ns.
Proof.
  unfold instanceReferencesConfigMap, referencesCACertificateConfigMap. intros H Hn.
  destruct (decide (Meta_Namespace (Server_Meta instance) = ns)) as [|Hne]; [done|].
  rewrite !(bool_decide_eq_false_2 (Meta_Namespace _ = ns)), !(bool_decide_eq_false_2 (ns = _)) in H by done.
  rewrite (bool_decide_eq_false_2 (name = operatorConfigData)), !andb_false_r, orb_true_r in H by done. done.
Qed.

Lemma configmap_requests_iff servers cm r :
  listsServers servers → Obj_Labels (CM_Meta cm) !! managedByLabelKey ≠ Some managedByLabelVal →
  r ∈ mapConfigMapToReconcileRequests cm ↔
  ∃ instance, instance ∈ servers ∧ r = serverKey instance ∧
    (instanceReferencesConfigMap instance (Obj_Name (CM_Meta cm)) (Obj_Namespace (CM_Meta cm)) = true).
Proof.
  intros Hl Hm. unfold mapConfigMapToReconcileRequests. rewrite bool_decide_eq_false_2 by done.
  destruct (Hl (if bool_decide (Obj_Name (CM_Meta cm) = operatorConfigData) then None else Some (Obj_Namespace (CM_Meta cm))))
    as (items & -> & Hi).
  rewrite list_elem_of_fmap. setoid_rewrite list_elem_of_filter. setoid_rewrite Hi. split.
  - intros (i & -> & Href & Hin & _). by exists i.
  - intros (i & Hin & -> & Href). exists i. split_and!; try done. intros n.
    case_bool_decide as Hn; [done|]. intros [= <-]. by apply (referenced_namespace _ _ _ Href).
Qed.

(** Which instances a user ConfigMap wakes up, in every cluster whose instances
    can be listed: exactly those, of any namespace, that refer to it; the
    operator's own ConfigMap wakes up all of them. *)
Theorem configmap_requests servers cm r :
  listsServers servers → Obj_Labels (CM_Meta cm) !! managedByLabelKey ≠ Some managedByLabelVal →
  r ∈ mapConfigMapToReconcileRequests cm ↔
  ∃ instance, instance ∈ servers ∧ r = serverKey instance ∧
    (instanceReferencesConfigMap instance (Obj_Name (CM_Meta cm)) (Obj_Namespace (CM_Meta cm)) = true).
Proof. apply configmap_requests_iff. Qed.
End references.

(** ** The hash of the Secrets *)

Section hash.
Context (GetSecret : NamespacedName → apiError + SecretObject).

(** The loop over the variables: an entry for each that refers to a Secret. *)
Fixpoint secretEntries (namespace : string) (envVars : list EnvVar) : result (list string) :=
  match envVars with
  | [] => Ok []
  | env :: envVars =>
      match envRef env with
      | None => secretEntries namespace envVars
      | Some sel =>
          match GetSecret (namespace, Sel_Name sel) with
          | inl e => Err (Wrapf "failed to resolve secret %s/%s for env %s: %w" [namespace; Sel_Name sel; Env_Name env] (apiErr e))
          | inr secret =>
              entries ← secretEntries namespace envVars;
              Ok (Sprintf "%s=%s/%s@%s" [Env_Name env; Sel_Name sel; Sel_Key sel;
                    fingerprintBytes (default "" (Secret_Data secret !! Sel_Key sel))] :: entries)
          end
      end
  end.

Definition resolveSecretRefsHash (instance : OGXServer) (runtimeConfig : option runtimeConfigRef) (envVars : list EnvVar)
    : result string :=
  match runtimeConfig with
  | None => Ok ""
  | Some rc =>
      if negb (RC_Generated rc) || (length envVars =? 0)%nat then Ok ""
      else
        entries ← secretEntries (Meta_Namespace (Server_Meta instance)) envVars;
        if (length entries =? 0)%nat then Ok ""
        else Ok (fingerprintBytes (joinWith "|" (sort_strings entries)))
  end.
End hash.

(** ** What is read is watched: Secrets *)

Section secrets.
Context {MR : MapRange} (instance : OGXServer).

Abbreviation namespace := (Meta_Namespace (Server_Meta instance)).

(** Two states of the cluster agree on the Secrets whose events wake the instance up. *)
Definition sameWatchedSecrets (G G' : NamespacedName → apiError + SecretObject) : Prop :=
  ∀ name, instanceReferencesSecret instance name namespace = true → G (namespace, name) = G' (namespace, name).

Lemma collected_referenced env sel :
  env ∈ CollectSecretRefs (Server_Spec instance) → envRef env = Some sel →
  instanceReferencesSecret instance (Sel_Name sel) namespace = true.
Proof.
  intros Hin Href. unfold instanceReferencesSecret. rewrite bool_decide_eq_true_2 by done. cbn [negb].
  replace (existsb _ _) with true; [done|]. symmetry. apply existsb_exists. exists env.
  rewrite <- list_elem_of_In. split; [done|]. rewrite Href. by apply bool_decide_eq_true.
Qed.

Lemma target_referenced ref :
  migrationTargetSecretRef instance = Some ref → instanceReferencesSecret instance (SKR_Name ref) namespace = true.
Proof.
  unfold migrationTargetSecretRef, migrationJobSpec, instanceReferencesSecret.
  rewrite bool_decide_eq_true_2 by done. cbn [negb]. destruct (existsb _ _); [done|].
  destruct (Spec_PraxisMode _ ≫= _) as [mj|]; [|done]. cbn. intros ->. by apply bool_decide_eq_true.
Qed.

(** Of two variables of one name, the collected one refers to the same key. *)
Lemma source_referenced ref :
  consistent (collectSecretRefsRaw (Server_Spec instance)) →
  sourceConnectionString instance = Some ref → instanceReferencesSecret instance (SKR_Name ref) namespace = true.
Proof.
  unfold sourceConnectionString. intros Hc Hs.
  set (env := {| Env_Name := storageSQLConnectionEnv; Env_Value := ""; Env_ValueFrom := secretSource ref |}).
  assert (env ∈ collectSecretRefsRaw (Server_Spec instance)) as Hin.
  { unfold collectSecretRefsRaw. apply elem_of_app. right.
    destruct (Spec_Storage _) as [st|]; [|done]. cbn in Hs |- *. unfold collectStorageSecrets. apply elem_of_app. right.
    destruct (Storage_SQL st) as [sql|]; [|done]. cbn. rewrite Hs. cbn. by left. }
  destruct (firstNamed_is_Some _ _ Hin) as [env' He']. pose proof (firstNamed_Some _ _ _ He') as [Hin' Hn].
  assert (env' ∈ CollectSecretRefs (Server_Spec instance)) as Hcol.
  { apply elem_of_CollectSecretRefs. by rewrite Hn. }
  apply (collected_referenced env' {| Sel_Name := SKR_Name ref; Sel_Key := SKR_Key ref |} Hcol).
  by rewrite (Hc env' env Hin' Hin Hn).
Qed.
Lemma secretEntries_same G G' l :
  sameWatchedSecrets G G' → l ⊆ CollectSecretRefs (Server_Spec instance) →
  secretEntries G namespace l = secretEntries G' namespace l.
Proof.
  intros Hs. induction l as [|env l IH]; intros Hl; cbn [secretEntries]; [done|].
  assert (secretEntries G namespace l = secretEntries G' namespace l) as -> by (apply IH; intros x Hx; apply Hl; by right).
  destruct (envRef env) as [sel|] eqn:Href; [|done].
  rewrite (Hs (Sel_Name sel)); [done|]. apply (collected_referenced env); [apply Hl; by left|done].
Qed.

(** The Secrets of the migration, by the fingerprint and by the check. *)
Lemma fingerprint_same env env' ref :
  sameWatchedSecrets (GetSecret env) (GetSecret env') →
  instanceReferencesSecret instance (SKR_Name ref) namespace = true →
  secretKeyFingerprint env namespace ref = secretKeyFingerprint env' namespace ref ∧
  ensureSecretKeyExists env namespace ref = ensureSecretKeyExists env' namespace ref.
Proof. intros Hs Href. unfold secretKeyFingerprint, ensureSecretKeyExists. by rewrite (Hs _ Href). Qed.

Lemma sourceRef_connection ref : migrationSourceSecretRef instance = Ok ref → sourceConnectionString instance = Some ref.
Proof.
  unfold migrationSourceSecretRef, sourceConnectionString. destruct (_ ≫= Storage_SQL) as [sql|]; [|done].
  destruct (negb _); [done|]. by destruct (SQL_ConnectionString sql) as [r|]; [intros [= ->]|].
Qed.

(** C13. Every Secret that decides whether and how pods are rolled out or a migration
    runs is watched: when no two variables of the spec share a name with
    different sources, two states of the cluster that agree on the Secrets
    mapped to the instance, and on what else is read, give the same hash in the
    pod template, the same verdict of the migration's preflight and the same
    key of the migration attempt. *)
Theorem secrets_watched env env' runtimeConfig :
  consistent (collectSecretRefsRaw (Server_Spec instance)) →
  GetConfigMap env = GetConfigMap env' → DistributionImages env = DistributionImages env' →
  ImageMappingOverrides env = ImageMappingOverrides env' →
  sameWatchedSecrets (GetSecret env) (GetSecret env') →
  resolveSecretRefsHash (GetSecret env) instance runtimeConfig (CollectSecretRefs (Server_Spec instance)) =
    resolveSecretRefsHash (GetSecret env') instance runtimeConfig (CollectSecretRefs (Server_Spec instance)) ∧
  runMigrationPreflight env instance runtimeConfig = runMigrationPreflight env' instance runtimeConfig ∧
  migrationAttemptKey env instance runtimeConfig = migrationAttemptKey env' instance runtimeConfig.
Proof.
  intros Hc Hcm Hd Hi Hs.
  assert (∀ d, resolveImage env d = resolveImage env' d) as Himg by (intros d; unfold resolveImage; by rewrite Hd, Hi).
  split_and!.
  - unfold resolveSecretRefsHash. destruct runtimeConfig as [rc|]; [|done].
    by rewrite (secretEntries_same _ _ _ Hs (λ x H, H)).
  - unfold runMigrationPreflight.
    destruct (migrationSourceSecretRef instance) as [src|e] eqn:Hsrc; cbn; [|done].
    pose proof (source_referenced _ Hc (sourceRef_connection _ Hsrc)) as Hsr.
    destruct (fingerprint_same env env' src Hs Hsr) as [Hf1 ->].
    destruct (wrap _ [] (ensureSecretKeyExists env' _ src)) as [[]|e]; cbn; [|done].
    unfold requireMigrationTargetSecretRef. destruct (migrationTargetSecretRef instance) as [dst|] eqn:Hdst; cbn; [|done].
    destruct (fingerprint_same env env' dst Hs (target_referenced _ Hdst)) as [Hf2 ->].
    destruct (wrap _ [] (ensureSecretKeyExists env' _ dst)) as [[]|e]; cbn; [|done].
    unfold ensureDistinctMigrationDatabases, ensureMigrationRuntimeConfig, ensureConfigMapKeyExists, ensureMigrationCABundle,
      hasAnyCABundle, detectODHTrustedCABundle. by rewrite Hf1, Hf2, Hcm, Himg.
  - unfold migrationAttemptKey, attemptText, attemptConfig, configMapKeyFingerprint. rewrite Hcm, Himg.
    assert (attemptSecret env namespace (sourceConnectionString instance) = attemptSecret env' namespace (sourceConnectionString instance)) as ->.
    { destruct (sourceConnectionString instance) as [src|] eqn:Hsrc; [|done]. cbn.
      by destruct (fingerprint_same env env' src Hs (source_referenced _ Hc Hsrc)) as [-> _]. }
    assert (attemptSecret env namespace (migrationTargetSecretRef instance) = attemptSecret env' namespace (migrationTargetSecretRef instance)) as ->; [|done].
    destruct (migrationTargetSecretRef instance) as [dst|] eqn:Hdst; [|done]. cbn.
    by destruct (fingerprint_same env env' dst Hs (target_referenced _ Hdst)) as [-> _].
Qed.
End secrets.

(** ** What is read is watched: ConfigMaps *)

Section readers.
Context {W : Type} `{!Client W ConfigMapObject}.

(** [m] changes nothing, and its result depends on the objects at the keys of [P]. *)
Definition readsOnly (P : NamespacedName → Prop) {A} (m : M W A) : Prop :=
  ∀ w w', (∀ k, P k → Get w k = Get w' k) → (m w).1 = w ∧ (m w').1 = w' ∧ (m w).2 = (m w').2.

Implicit Types (P : NamespacedName → Prop).

Lemma reads_ret P {A} (a : A) : readsOnly P (mret a).
Proof. done. Qed.

Lemma reads_raise P {A} e : readsOnly P (raise (A := A) e).
Proof. done. Qed.

Lemma reads_pure P {A} (r : result A) : readsOnly P (pureM r).
Proof. done. Qed.

Lemma reads_get P k : P k → readsOnly P (getConfigMap k).
Proof. intros Hk w w' H. unfold getConfigMap. cbn. by rewrite (H k Hk). Qed.

Lemma reads_bind P {A B} (m : M W A) (f : A → M W B) :
  readsOnly P m → (∀ a, readsOnly P (f a)) → readsOnly P (m ≫= f).
Proof.
  intros Hm Hf w w' H. rewrite !bindM_run. destruct (Hm w w' H) as (-> & -> & ->).
  destruct (m w').2 as [a|e]; [by apply Hf|done].
Qed.

Lemma reads_wrap P {A} fmt args (m : M W A) : readsOnly P m → readsOnly P (wrapM fmt args m).
Proof. intros Hm w w' H. rewrite !wrapM_run. cbn. by destruct (Hm w w' H) as (-> & -> & ->). Qed.
End readers.

(** Follows the structure of a reader down to its reads. *)
Ltac reads_step :=
  first [ apply reads_bind; [|intros] | apply reads_wrap | apply reads_ret | apply reads_raise | apply reads_pure
        | progress case_match | apply reads_get ].

Section configMaps.
Context {W : Type} `{!Client W ConfigMapObject} {MR : MapRange}.
Context (Decode : string → option (Block * string)) (EncodeToMemory : Block → option string)
        (ParseCertificate : string → result unit).
Context (operatorNamespace : string) (instance : OGXServer).

Abbreviation namespace := (Meta_Namespace (Server_Meta instance)).

(** The ConfigMaps whose events wake the instance up. *)
Definition watched (k : NamespacedName) : Prop :=
  instanceReferencesConfigMap operatorNamespace instance k.2 k.1 = true.

Lemma references_watched ref : ref ∈ references instance → watched (namespace, CKR_Name ref).
Proof.
  unfold references, watched, instanceReferencesConfigMap. cbn [fst snd]. rewrite bool_decide_eq_true_2 by done.
  rewrite !andb_true_r, !elem_of_app. intros Hin.
  destruct (HasOverrideConfig instance && _) eqn:E1; [done|]. destruct (refersTo (Spec_BaseConfig _) _) eqn:E2; [done|].
  destruct (referencesCACertificateConfigMap _ _ _) eqn:E3; [done|]. exfalso. destruct Hin as [Hin|[Hin|Hin]].
  - destruct (Spec_BaseConfig _); [|by apply not_elem_of_nil in Hin]. apply list_elem_of_singleton in Hin as ->.
    cbn in E2. by rewrite bool_decide_eq_true_2 in E2.
  - destruct (HasOverrideConfig instance); [|by apply not_elem_of_nil in Hin].
    destruct (Spec_OverrideConfig _); [|by apply not_elem_of_nil in Hin]. apply list_elem_of_singleton in Hin as ->.
    cbn in E1. by rewrite bool_decide_eq_true_2 in E1.
  - unfold referencesCACertificateConfigMap in E3. rewrite (bool_decide_eq_true_2 (_ = namespace)) in E3 by done.
    destruct (hasCACertificates instance) eqn:Hca; [|rewrite (hasCACertificates_none _ Hca) in Hin; by apply not_elem_of_nil in Hin].
    cbn in E3. apply not_true_iff_false in E3. apply E3, existsb_exists. exists ref. rewrite <- list_elem_of_In.
    split; [done|by apply bool_decide_eq_true].
Qed.

Lemma odh_watched : watched (namespace, odhTrustedCABundleConfigMap).
Proof.
  unfold watched, instanceReferencesConfigMap. cbn [fst snd]. 
  rewrite (bool_decide_eq_true_2 (odhTrustedCABundleConfigMap = _)), (bool_decide_eq_true_2 (namespace = _)) by done.
  cbn [andb]. by repeat case_match.
Qed.
Lemma checkCACertificates_reads refs :
  refs ⊆ references instance → readsOnly watched (checkCACertificates namespace refs).
Proof.
  induction refs as [|ref refs IH]; intros Hin; cbn [checkCACertificates]; [apply reads_ret|].
  pose proof (references_watched ref (Hin ref ltac:(by left))) as Hw.
  repeat reads_step; try done; apply IH; intros x Hx; apply Hin; by right.
Qed.

Lemma readKey_reads ref : ref ∈ references instance → readsOnly watched (readReferencedConfigMapKey namespace ref).
Proof. intros Hin. unfold readReferencedConfigMapKey. repeat reads_step; by apply references_watched. Qed.

Lemma caCertificates_references : caCertificates instance ⊆ references instance.
Proof. intros ref H. unfold references. by rewrite !elem_of_app; right; right. Qed.

Lemma detect_reads : readsOnly watched (CABundle.detectODHTrustedCABundle instance).
Proof. unfold CABundle.detectODHTrustedCABundle. repeat reads_step. apply odh_watched. Qed.

Lemma base_reference ref : Spec_BaseConfig (Server_Spec instance) = Some ref → ref ∈ references instance.
Proof. intros H. unfold references. rewrite H. cbn. by left. Qed.

Lemma override_reference ref :
  HasOverrideConfig instance = true → Spec_OverrideConfig (Server_Spec instance) = Some ref → ref ∈ references instance.
Proof. intros Ho H. unfold references. rewrite Ho, H, !elem_of_app. right. left. cbn. by left. Qed.

Lemma checks_reads : readsOnly watched (reconcileOverrideAndCABundleConfigMaps instance).
Proof.
  unfold reconcileOverrideAndCABundleConfigMaps, reconcileBaseConfigMap, reconcileOverrideConfigMap, reconcileCABundleConfigMap.
  apply reads_bind; [|intros; apply reads_bind; [|intros]].
  - case_bool_decide; [|apply reads_ret]. apply reads_wrap. destruct (Spec_BaseConfig _) as [ref|] eqn:E; [|apply reads_ret].
    apply reads_bind; [by apply readKey_reads, base_reference|]. intros. repeat reads_step.
  - destruct (HasOverrideConfig instance) eqn:Ho; [|apply reads_ret].
    destruct (Spec_OverrideConfig _) as [ref|] eqn:E; repeat reads_step.
    by apply references_watched, override_reference.
  - destruct (hasCACertificates instance); repeat reads_step. apply checkCACertificates_reads, caCertificates_references.
Qed.

Lemma overrideHash_reads : readsOnly watched (getConfigMapHash instance).
Proof.
  unfold getConfigMapHash. destruct (HasOverrideConfig instance) eqn:Ho; [|apply reads_ret].
  destruct (Spec_OverrideConfig _) as [ref|] eqn:E; repeat reads_step. by apply references_watched, override_reference.
Qed.

Lemma gatherExplicit_reads refs c :
  refs ⊆ references instance → readsOnly watched (gatherExplicit Decode EncodeToMemory ParseCertificate namespace refs c).
Proof.
  revert c. induction refs as [|ref refs IH]; intros c Hin; cbn [gatherExplicit]; [apply reads_ret|].
  pose proof (references_watched ref (Hin ref ltac:(by left))) as Hw.
  repeat reads_step; try done. apply IH. intros x Hx. apply Hin. by right.
Qed.

Lemma gather_reads : readsOnly watched (gatherCABundleData Decode EncodeToMemory ParseCertificate instance).
Proof.
  unfold gatherCABundleData, gatherExplicitCABundle, gatherODHCABundle.
  apply reads_bind; [|intros; apply reads_bind; [apply reads_bind; [apply detect_reads|]|]]; intros; repeat reads_step.
  apply gatherExplicit_reads, caCertificates_references.
Qed.

Lemma anyBundle_reads : readsOnly watched (Workload.hasAnyCABundle instance).
Proof. unfold Workload.hasAnyCABundle. case_match; [apply reads_ret|]. apply reads_bind; [apply detect_reads|intros; apply reads_ret]. Qed.

(** C14. Every user ConfigMap that a reconciliation reads is watched: in two states of
    the cluster that agree on the ConfigMaps mapped to the instance, the checks
    of the references, the base configuration, the hash of the override, the
    certificates and the decision to mount a bundle come out the same. *)
Theorem configMaps_watched w w' :
  (∀ k, watched k → Get w k = Get w' k) →
  (reconcileOverrideAndCABundleConfigMaps instance w).2 = (reconcileOverrideAndCABundleConfigMaps instance w').2 ∧
  (∀ ref, Spec_BaseConfig (Server_Spec instance) = Some ref →
    (readReferencedConfigMapKey namespace ref w).2 = (readReferencedConfigMapKey namespace ref w').2) ∧
  (getConfigMapHash instance w).2 = (getConfigMapHash instance w').2 ∧
  (gatherCABundleData Decode EncodeToMemory ParseCertificate instance w).2 =
    (gatherCABundleData Decode EncodeToMemory ParseCertificate instance w').2 ∧
  (Workload.hasAnyCABundle instance w).2 = (Workload.hasAnyCABundle instance w').2.
Proof.
  intros H. split_and!.
  - apply (checks_reads w w' H).
  - intros ref Href. apply (readKey_reads ref (base_reference ref Href) w w' H).
  - apply (overrideHash_reads w w' H).
  - apply (gather_reads w w' H).
  - apply (anyBundle_reads w w' H).
Qed.
End configMaps.
