(* ===== verification/OperatorConfig.v ===== *)
(** * The operator's own configuration

    The ConfigMap [ogx-operator-config] of
    [controllers/ogxserver_controller.go]: it is created or marked at startup,
    and its image overrides are read again in every reconciliation; and the
    namespace of the operator, from [pkg/deploy/utils.go]. *)

From S2P Require Import Prelude ApiProviders ApiServer Common Client Action Objects ConfigMaps Watches.

(** [os.LookupEnv] and [os.ReadFile] are the arguments. *)
Definition GetOperatorNamespace (env : option string) (file : string * option error) : result string :=
  match env with
  | Some ns => if bool_decide (ns = "") then match file.2 with None => Ok file.1 | Some e => Err e end else Ok ns
  | None => match file.2 with None => Ok file.1 | Some e => Err e end
  end.

Section config.
(** [yaml.Unmarshal] into a map of strings, and [name.ParseReference]. *)
Context (yaml_strings : string → result (gmap string string)) (ParseReference : string → result unit).

(** The loop ranges over a map, and writes one entry per key: it is a filter. *)
Definition ParseImageMappingOverrides (configMapData : gmap string string) : gmap string string :=
  match configMapData !! "image-overrides" with
  | None => ∅
  | Some overridesYAML =>
      match yaml_strings overridesYAML with
      | Err _ => ∅
      | Ok overrides => filter (λ x, is_ok (ParseReference x.2) = true) overrides
      end
  end.

Context {W : Type} `{!Client W ConfigMapObject}.

(** The fields of the reconciler that a reconciliation changes. *)
Record reconciler := {
  operatorNamespace : string;
  ImageMappingOverrides : gmap string string;
}.

Definition refreshOperatorConfig (namespaceOfPod : result string) (r : reconciler) : M W reconciler := λ w,
  (w,
   let read ns r :=
     match Get w (ns, operatorConfigData) with
     | inl _ => r
     | inr cm => {| operatorNamespace := operatorNamespace r;
                    ImageMappingOverrides := ParseImageMappingOverrides (CM_Data cm) |}
     end in
   Ok (if bool_decide (operatorNamespace r = "") then
         match namespaceOfPod with
         | Err _ => r
         | Ok ns => read ns {| operatorNamespace := ns; ImageMappingOverrides := ImageMappingOverrides r |}
         end
       else read (operatorNamespace r) r)).

Definition addWatchLabel (cm : ConfigMapObject) : ConfigMapObject :=
  withCMMeta (SetLabels (<[WatchLabelKey := WatchLabelValue]> (Obj_Labels (CM_Meta cm))) (CM_Meta cm)) cm.

Definition newOperatorConfigMap (ns : string) : ConfigMapObject :=
  {| CM_Meta := {| Obj_Namespace := ns; Obj_Name := operatorConfigData;
                   Obj_Labels := {[WatchLabelKey := WatchLabelValue]}; Obj_Annotations := ∅;
                   Obj_OwnerReferences := []; Obj_Deleting := false |};
     CM_Data := ∅; CM_Immutable := None; CM_ResourceVersion := ""; CM_CreationTimestamp := 0 |}.

(** The result is the object that was written; the server's copy may differ in
    what the server owns. *)
Definition InitializeOperatorConfigMap (ns : string) : M W ConfigMapObject :=
  found ← getConfigMap (ns, operatorConfigData);
  match found with
  | inr cm =>
      if negb (bool_decide (Obj_Labels (CM_Meta cm) !! WatchLabelKey = Some WatchLabelValue)) then
        let cm := addWatchLabel cm in
        _ ← writing "failed to add watch label to operator config ConfigMap: %w" [] (λ w, Update w cm);
        mret cm
      else mret cm
  | inl e =>
      if negb (IsNotFound e) then raise (Wrapf "failed to get ConfigMap: %w" [] (apiErr e))
      else
        let cm := newOperatorConfigMap ns in
        _ ← writing "failed to create ConfigMap: %w" [] (λ w, Create w cm);
        mret cm
  end.

(** ** What they achieve *)

Context `{CL : !ClientLaws W ConfigMapObject}.
#[local] Set Default Proof Using "Type*".

(** The operator's ConfigMap carries the watch label, and what it said before. *)
Definition initialized (ns : string) (w w' : W) : Prop :=
  ∃ cm, stored w' (ns, operatorConfigData) = Some cm ∧
    Obj_Labels (CM_Meta cm) !! WatchLabelKey = Some WatchLabelValue ∧
    CM_Data cm = match stored w (ns, operatorConfigData) with Some old => CM_Data old | None => ∅ end ∧
    ∀ l, l ≠ WatchLabelKey → Obj_Labels (CM_Meta cm) !! l =
      match stored w (ns, operatorConfigData) with Some old => Obj_Labels (CM_Meta old) !! l | None => None end.

Lemma initialize_put ns w w' r :
  InitializeOperatorConfigMap ns w = (w', r) →
  (∀ k, k ≠ (ns, operatorConfigData) ∨ is_ok r = false → stored w' k = stored w k) ∧
  (is_ok r = true → initialized ns w w').
Proof.
  unfold InitializeOperatorConfigMap, initialized. rewrite bindM_run. cbn [getConfigMap fst snd].
  pose proof (Get_spec w (ns, operatorConfigData)) as Hg.
  destruct (Get w (ns, operatorConfigData)) as [e|cm].
  - destruct (IsNotFound e) eqn:He; cbn [negb]; [|by intros [= <- <-]]. destruct e; try done.
    rewrite bindM_run. unfold writing. set (new := newOperatorConfigMap ns).
    pose proof (Create_spec w new) as Hc. destruct (Create w new) as [w1 [e1|]]; cbn.
    + intros [= <- <-]. split; [|done]. intros k _. apply Hc. by right.
    + destruct Hc as [Hf Hs]. intros [= <- <-]. split; [intros k [Hk|[=]]; apply Hf; by left|]. intros _.
      destruct (Hs eq_refl) as (_ & cm & Hcm & Hl & _ & _ & Hd & _). exists cm.
      rewrite Hg, Hl, Hd. split_and!; try done. intros l Hne. by apply lookup_singleton_ne.
  - pose proof (stored_key _ _ _ Hg) as Hk. case_bool_decide as Hlab; cbn [negb].
    + intros [= <- <-]. split; [done|]. intros _. exists cm. by rewrite Hg.
    + rewrite bindM_run. unfold writing. set (new := addWatchLabel cm).
      assert (objectKey new = (ns, operatorConfigData)) as Hkn by exact Hk.
      pose proof (Update_spec w new) as Hu. rewrite Hkn in Hu. destruct (Update w new) as [w1 [e1|]]; cbn.
      * intros [= <- <-]. split; [|done]. intros k _. apply Hu. by right.
      * destruct Hu as [Hf Hs]. intros [= <- <-]. split; [intros k [Hne|[=]]; apply Hf; by left|]. intros _.
        destruct (Hs eq_refl) as (cm' & Hcm' & Hl & _ & _ & Hd & _). exists cm'.
        rewrite Hg, Hl, Hd. split_and!; try done.
        -- apply lookup_insert_eq.
        -- intros l Hne. by apply lookup_insert_ne.
Qed.

(** Initialising the operator's configuration, in every run and whatever fails: no
    other ConfigMap changes, a failure changes nothing, and after a success the
    ConfigMap exists, keeps its data and its other labels, and wakes up every
    instance of the cluster whenever it changes (unless someone has marked it as
    managed by the operator, which the watch takes for a child). *)
Theorem operator_config_wakes_all ns w w' r ListServers servers :
  InitializeOperatorConfigMap ns w = (w', r) → listsServers ListServers servers →
  (∀ k, k ≠ (ns, operatorConfigData) ∨ is_ok r = false → stored w' k = stored w k) ∧
  (is_ok r = true →
   initialized ns w w' ∧
   ∀ cm, stored w' (ns, operatorConfigData) = Some cm →
     Obj_Labels (CM_Meta cm) !! managedByLabelKey ≠ Some managedByLabelVal →
     isWatchLabeledUserConfigMap cm = true ∧
     ∀ instance, instance ∈ servers → serverKey instance ∈ mapConfigMapToReconcileRequests ns ListServers cm).
Proof.
  intros Hrun Hl. destruct (initialize_put _ _ _ _ Hrun) as [Hf Hi]. split; [done|]. intros Hok.
  specialize (Hi Hok). split; [done|]. destruct Hi as (cm & Hcm & Hlab & _). intros cm' Hcm' Hm.
  rewrite Hcm in Hcm'. injection Hcm' as <-. split.
  - unfold isWatchLabeledUserConfigMap, isWatchLabeled. rewrite Hlab, (bool_decide_eq_false_2 (_ = Some managedByLabelVal)) by done.
    rewrite (bool_decide_eq_false_2 (_ = ∅)); [done|]. intros E. by rewrite E in Hlab.
  - pose proof (stored_key _ _ _ Hcm) as [= Hns Hname]. intros instance Hin.
    apply (proj2 (configmap_requests_iff ns ListServers servers cm (serverKey instance) Hl Hm)). exists instance. split_and!; [done|done|].
    unfold instanceReferencesConfigMap. rewrite Hname, Hns.
    rewrite (bool_decide_eq_true_2 (operatorConfigData = operatorConfigData)), (bool_decide_eq_true_2 (ns = ns)) by done.
    by repeat case_match.
Qed.
End config.
