(* ===== verification/StatusUpdate.v ===== *)
(** * Reporting the state of a server

    The status half of [controllers/ogxserver_controller.go]: what the phase, the
    conditions and the addresses say, and how they are written back.  The state
    is that of [Adoption] (the stores and the status being built) together with
    the stored custom resources; the other reads come from a snapshot. *)

From Stdlib Require Import ZArith.
From stdpp Require Import pretty.
From S2P Require Import Prelude Value ApiProviders ApiServer Fmt Client Action Objects Status Common NetworkPolicy Preflight Workload Adoption NetworkResources.

#[local] Open Scope Z_scope.

(** ** Parts of the status *)

Definition withPhase (phase : OGXServerPhase) (s : OGXServerStatus) : OGXServerStatus :=
  {| Status_Phase := phase; Status_Version := Status_Version s;
     Status_DistributionConfig := Status_DistributionConfig s;
     Status_ResolvedDistribution := Status_ResolvedDistribution s;
     Status_ConfigGeneration := Status_ConfigGeneration s; Status_Migration := Status_Migration s;
     Status_Conditions := Status_Conditions s; Status_AvailableReplicas := Status_AvailableReplicas s;
     Status_ServiceURL := Status_ServiceURL s; Status_ExternalURL := Status_ExternalURL s |}.

Definition withVersion (f : VersionInfo → VersionInfo) (s : OGXServerStatus) : OGXServerStatus :=
  {| Status_Phase := Status_Phase s; Status_Version := f (Status_Version s);
     Status_DistributionConfig := Status_DistributionConfig s;
     Status_ResolvedDistribution := Status_ResolvedDistribution s;
     Status_ConfigGeneration := Status_ConfigGeneration s; Status_Migration := Status_Migration s;
     Status_Conditions := Status_Conditions s; Status_AvailableReplicas := Status_AvailableReplicas s;
     Status_ServiceURL := Status_ServiceURL s; Status_ExternalURL := Status_ExternalURL s |}.

Definition withDistribution (f : DistributionConfig → DistributionConfig) (s : OGXServerStatus) : OGXServerStatus :=
  {| Status_Phase := Status_Phase s; Status_Version := Status_Version s;
     Status_DistributionConfig := f (Status_DistributionConfig s);
     Status_ResolvedDistribution := Status_ResolvedDistribution s;
     Status_ConfigGeneration := Status_ConfigGeneration s; Status_Migration := Status_Migration s;
     Status_Conditions := Status_Conditions s; Status_AvailableReplicas := Status_AvailableReplicas s;
     Status_ServiceURL := Status_ServiceURL s; Status_ExternalURL := Status_ExternalURL s |}.

Definition withAvailableReplicas (n : Z) (s : OGXServerStatus) : OGXServerStatus :=
  {| Status_Phase := Status_Phase s; Status_Version := Status_Version s;
     Status_DistributionConfig := Status_DistributionConfig s;
     Status_ResolvedDistribution := Status_ResolvedDistribution s;
     Status_ConfigGeneration := Status_ConfigGeneration s; Status_Migration := Status_Migration s;
     Status_Conditions := Status_Conditions s; Status_AvailableReplicas := n;
     Status_ServiceURL := Status_ServiceURL s; Status_ExternalURL := Status_ExternalURL s |}.

Definition withURLs (service : string) (external : option string) (s : OGXServerStatus) : OGXServerStatus :=
  {| Status_Phase := Status_Phase s; Status_Version := Status_Version s;
     Status_DistributionConfig := Status_DistributionConfig s;
     Status_ResolvedDistribution := Status_ResolvedDistribution s;
     Status_ConfigGeneration := Status_ConfigGeneration s; Status_Migration := Status_Migration s;
     Status_Conditions := Status_Conditions s; Status_AvailableReplicas := Status_AvailableReplicas s;
     Status_ServiceURL := service; Status_ExternalURL := external |}.

Definition withOperatorVersion (v : string) : OGXServerStatus → OGXServerStatus :=
  withVersion (λ i, {| VI_OperatorVersion := v; VI_ServerVersion := VI_ServerVersion i; VI_LastUpdated := VI_LastUpdated i |}).

Definition withServerVersion (v : string) : OGXServerStatus → OGXServerStatus :=
  withVersion (λ i, {| VI_OperatorVersion := VI_OperatorVersion i; VI_ServerVersion := v; VI_LastUpdated := VI_LastUpdated i |}).

Definition withLastUpdated (t : Z) : OGXServerStatus → OGXServerStatus :=
  withVersion (λ i, {| VI_OperatorVersion := VI_OperatorVersion i; VI_ServerVersion := VI_ServerVersion i; VI_LastUpdated := t |}).

Definition withProviders (l : list ProviderInfo) : OGXServerStatus → OGXServerStatus :=
  withDistribution (λ d, {| DC_ActiveDistribution := DC_ActiveDistribution d; DC_Providers := l;
                            DC_AvailableDistributions := DC_AvailableDistributions d |}).

(** ** Messages *)

Definition MessageDeploymentPending : string := "Deployment is pending".
Definition ClaimBound : string := "Bound".

(** ** The address *)

(** [getServerURL(...).String()]: the host is escaped, and the paths used here
    need no escaping. *)
Definition getServerURL (instance : OGXServer) (path : string) : string :=
  let host := (GetServiceName instance +:+ "." +:+ Meta_Namespace (Server_Meta instance) +:+ ".svc.cluster.local:" +:+
               pretty (GetServicePort instance))%string in
  ("http://" +:+ of_chars (escapeHost (chars host)) +:+ path)%string.

(** ** Asking the server *)

Section http.
Context {Request Response : Type} (NewRequest : string → result Request) (Do : Request → result Response)
  (StatusCode : Response → Z) (ReadAll : Response → result string)
  (unmarshalProviders : string → result (list ProviderInfo)) (unmarshalVersion : string → result string).

Definition StatusOK : Z := 200.

Definition getProviderInfo (instance : OGXServer) : result (list ProviderInfo) :=
  req ← wrap "failed to create providers request: %w" [] (NewRequest (getServerURL instance "/v1/providers"));
  resp ← wrap "failed to make providers request: %w" [] (Do req);
  if negb (StatusCode resp =? StatusOK) then
    Err (Errorf "failed to query providers endpoint: returned status code %d" [pretty (StatusCode resp)])
  else
    body ← wrap "failed to read providers response: %w" [] (ReadAll resp);
    wrap "failed to unmarshal providers response: %w" [] (unmarshalProviders body).

Definition getVersionInfo (instance : OGXServer) : result string :=
  req ← wrap "failed to create version request: %w" [] (NewRequest (getServerURL instance "/v1/version"));
  resp ← wrap "failed to make version request: %w" [] (Do req);
  if negb (StatusCode resp =? StatusOK) then
    Err (Errorf "failed to query version endpoint: returned status code %d" [pretty (StatusCode resp)])
  else
    body ← wrap "failed to read version response: %w" [] (ReadAll resp);
    wrap "failed to unmarshal version response: %w" [] (unmarshalVersion body).
End http.

(** ** The stored resource *)

Record ServerObject := { SO_Server : OGXServer; SO_Status : OGXServerStatus; SO_ResourceVersion : string }.

Definition serverKey (instance : OGXServer) : NamespacedName :=
  (Meta_Namespace (Server_Meta instance), Server_Name instance).

Class StatusWriter (WO : Type) := {
  storedServer : WO → NamespacedName → option ServerObject;
  GetServer : WO → NamespacedName → apiError + ServerObject;
  UpdateStatus : WO → ServerObject → WO * option apiError;
}.

(** The status subresource: an update writes the status of its object and nothing
    else, and one that fails changes nothing. *)
Class StatusWriterLaws (WO : Type) `{StatusWriter WO} : Prop := {
  storedServer_key : ∀ w k o, storedServer w k = Some o → serverKey (SO_Server o) = k;
  GetServer_spec : ∀ w k,
    match GetServer w k with
    | inr o => storedServer w k = Some o
    | inl (NotFound _) => storedServer w k = None
    | inl _ => True
    end;
  UpdateStatus_spec : ∀ w o,
    let '(w', e) := UpdateStatus w o in
    (∀ k, k ≠ serverKey (SO_Server o) ∨ e ≠ None → storedServer w' k = storedServer w k) ∧
    (e = None → ∃ before after, storedServer w (serverKey (SO_Server o)) = Some before ∧
       storedServer w' (serverKey (SO_Server o)) = Some after ∧
       SO_Server after = SO_Server before ∧ SO_Status after = SO_Status o);
}.

(** [retry.RetryOnConflict]: an attempt that ends in a conflict may be repeated,
    any other outcome is final. *)
Inductive retried {W} (attempt : W → W * option apiError) : W → W * option apiError → Prop :=
| retried_last w : retried attempt w (attempt w)
| retried_again w w' e out : attempt w = (w', Some e) → IsConflict e = true → retried attempt w' out →
    retried attempt w out.

(** ** The report *)

(** What is read besides the state. *)
Record statusEnvironment := {
  OPERATOR_VERSION : string;
  ReadyReplicas : NamespacedName → apiError + Z;     (* of a Deployment *)
  ClaimPhase : NamespacedName → apiError + string;   (* of a volume claim *)
  GetService : NamespacedName → option apiError;
  GetTLSSecret : NamespacedName → option apiError;
  DistributionImages : gmap string string;
  clock : Z;
}.

Section update.
Context {Request Response : Type} (NewRequest : string → result Request) (Do : Request → result Response)
  (StatusCode : Response → Z) (ReadAll : Response → result string)
  (unmarshalProviders : string → result (list ProviderInfo)) (unmarshalVersion : string → result string).
Context {Selector : Type} (LabelSelectorAsSelector : LabelSelector → result Selector)
  (ListPods : string → Selector → result (list Pod)).
Context {WN : Type} `{!Client WN Ingress} (network : NetworkResources.cluster (W := WN)).
Context (env : statusEnvironment).

Context {WV WS WI WD WP WO : Type} `{CV : !Client WV (Object any), LV : !Lister WV (Object any), SW : !StatusWriter WO}.

Implicit Types (instance : OGXServer).

Record reporting := {
  adoption : Adoption.state WV WS WI WD WP;
  servers : WO;
}.

Abbreviation state := reporting.

Definition statusOf (s : state) : OGXServerStatus := status (adoption s).

Definition onAdoption {A} : M (Adoption.state WV WS WI WD WP) A → M state A :=
  zoom adoption (λ a s, {| adoption := a; servers := servers s |}).

Definition setting (f : OGXServerStatus → OGXServerStatus) : M state unit := onAdoption (setStatus f).

Definition updateDeploymentStatus instance : M state bool :=
  match ReadyReplicas env (serverKey instance) with
  | inl e =>
      if negb (IsNotFound e) then raise (Wrapf "failed to fetch deployment for status: %w" [] (apiErr e))
      else
        _ ← setting (withPhase OGXServerPhasePending);
        _ ← setting (λ st, SetDeploymentReadyCondition (clock env) st false MessageDeploymentPending);
        _ ← setting (withAvailableReplicas 0);
        mret false
  | inr readyReplicas =>
      let wanted := GetEffectiveReplicas instance in
      let scaling format :=
        λ st, SetDeploymentReadyCondition (clock env) st false (Sprintf format [pretty readyReplicas; pretty wanted]) in
      ready ←
        (if readyReplicas =? 0 then
           _ ← setting (withPhase OGXServerPhaseInitializing);
           _ ← setting (λ st, SetDeploymentReadyCondition (clock env) st false MessageDeploymentPending);
           mret false
         else if readyReplicas <? wanted then
           _ ← setting (withPhase OGXServerPhaseInitializing);
           _ ← setting (scaling "Deployment is scaling: %d/%d replicas ready");
           mret false
         else if wanted <? readyReplicas then
           _ ← setting (withPhase OGXServerPhaseInitializing);
           _ ← setting (scaling "Deployment is scaling down: %d/%d replicas ready");
           mret false
         else
           _ ← setting (withPhase OGXServerPhaseReady);
           _ ← setting (λ st, SetDeploymentReadyCondition (clock env) st true MessageDeploymentReady);
           mret true);
      _ ← setting (withAvailableReplicas readyReplicas);
      mret ready
  end.
(** The outcome of a call as a value, for a caller that goes on after a failure. *)
Definition outcome {S A} (m : M S A) : M S (result A) := λ s, ((m s).1, Ok (m s).2).

Definition setStorageReady (ready : bool) (message : string) : M state unit :=
  setting (λ st, SetStorageReadyCondition (clock env) st ready message).

Definition hasStorage instance : bool :=
  match Spec_Workload (Server_Spec instance) ≫= WL_Storage with Some _ => true | None => false end.

Definition updateStorageStatus instance : M state unit :=
  if negb (hasStorage instance) then mret tt
  else
    r ← outcome (onAdoption (resolveEffectivePVCName (clock env) instance));
    match r with
    | Err e => setStorageReady false (Sprintf "Failed to resolve PVC name: %v" [Error e])
    | Ok pvcName =>
        match ClaimPhase env (Meta_Namespace (Server_Meta instance), pvcName) with
        | inl e => setStorageReady false (Sprintf "Failed to get PVC: %v" [Error (apiErr e)])
        | inr phase =>
            let ready := bool_decide (phase = ClaimBound) in
            setStorageReady ready (if ready then MessageStorageReady else Sprintf "PVC is not bound: %s" [phase])
        end
    end.

Definition updateServiceStatus instance : M state unit :=
  match GetService env (Meta_Namespace (Server_Meta instance), (Server_Name instance +:+ "-service")%string) with
  | Some e => setting (λ st, SetServiceReadyCondition (clock env) st false (Sprintf "Failed to get Service: %v" [Error (apiErr e)]))
  | None =>
      let external := if IsPraxisModeEnabled (Server_Spec instance) then None else getIngressURL network instance in
      _ ← setting (withURLs (getServerURL instance "") external);
      setting (λ st, SetServiceReadyCondition (clock env) st true MessageServiceReady)
  end.

Definition activeDistribution instance : string :=
  let d := Spec_Distribution (Server_Spec instance) in
  if negb (bool_decide (Dist_Name d = "")) then Dist_Name d
  else if negb (bool_decide (Dist_Image d = "")) then "custom" else "".

Definition updateDistributionConfig instance : OGXServerStatus → OGXServerStatus :=
  withDistribution (λ d, {| DC_ActiveDistribution := activeDistribution instance; DC_Providers := DC_Providers d;
                            DC_AvailableDistributions := DistributionImages env |}).

(** What is reported of a server whose pods are ready. *)
Definition reportReady instance : M state unit :=
  _ ← setting (withPhase OGXServerPhaseReady);
  _ ← setting (withProviders
        match getProviderInfo NewRequest Do StatusCode ReadAll unmarshalProviders instance with
        | Ok providers => providers
        | Err _ => []
        end);
  _ ← match getVersionInfo NewRequest Do StatusCode ReadAll unmarshalVersion instance with
      | Ok version => setting (withServerVersion version)
      | Err _ => mret tt
      end;
  setting (λ st, SetHealthCheckCondition (clock env) st true MessageHealthCheckPassed).

Definition reportNotReady : M state unit :=
  _ ← setting (λ st, SetHealthCheckCondition (clock env) st false "Deployment not ready");
  setting (withProviders []).

(** The status checks after a reconciliation that succeeded. *)
Definition detailedStatus instance : M state unit :=
  deploymentReady ← updateDeploymentStatus instance;
  _ ← updateStorageStatus instance;
  _ ← updateServiceStatus instance;
  _ ← setting (updateDistributionConfig instance);
  _ ← (if IsPraxisModeEnabled (Server_Spec instance) then
         setting (updatePraxisPreflightStatus LabelSelectorAsSelector ListPods (GetTLSSecret env) (clock env) instance)
       else mret tt);
  if deploymentReady : bool then reportReady instance else reportNotReady.

(** One attempt to write the status: the latest object with the new status. *)
Definition writeStatus instance (desiredStatus : OGXServerStatus) : WO → WO * option apiError := λ w,
  match GetServer w (serverKey instance) with
  | inl e => (w, Some e)
  | inr latest =>
      UpdateStatus w {| SO_Server := SO_Server latest; SO_Status := desiredStatus;
                        SO_ResourceVersion := SO_ResourceVersion latest |}
  end.

Context (RetryOnConflict : (WO → WO * option apiError) → WO → WO * option apiError).

Definition persistStatus instance : M state unit := λ s,
  let '(w, e) := RetryOnConflict (writeStatus instance (statusOf s)) (servers s) in
  ({| adoption := adoption s; servers := w |},
   match e with Some e => Err (Wrapf "failed to update status: %w" [] (apiErr e)) | None => Ok tt end).

Definition updateStatus instance (reconcileErr : option error) : M state unit :=
  _ ← setting (withOperatorVersion (OPERATOR_VERSION env));
  _ ← match reconcileErr with
      | Some e =>
          _ ← setting (withPhase OGXServerPhaseFailed);
          setting (λ st, SetDeploymentReadyCondition (clock env) st false
                           (Sprintf "Resource reconciliation failed: %v" [Error e]))
      | None => detailedStatus instance
      end;
  _ ← setting (withLastUpdated (clock env));
  persistStatus instance.

(** ** What a report changes *)

Definition onlyStatus (f : OGXServerStatus → OGXServerStatus) (s : state) : state :=
  {| adoption := withStatus f (adoption s); servers := servers s |}.

(** Only the conditions [ts] and the addresses may differ. *)
Definition quiet (ts : list string) (st st' : OGXServerStatus) : Prop :=
  (∀ t, t ∉ ts → GetCondition (Some st') t = GetCondition (Some st) t) ∧
  Status_Phase st' = Status_Phase st ∧ Status_AvailableReplicas st' = Status_AvailableReplicas st ∧
  DC_Providers (Status_DistributionConfig st') = DC_Providers (Status_DistributionConfig st).

Definition reports (ts : list string) (s s' : state) : Prop :=
  (∃ f, s' = onlyStatus f s) ∧ quiet ts (statusOf s) (statusOf s').

#[local] Instance onlyStatus_trans ts : PreOrder (reports ts).
Proof.
  split.
  - intros s. split; [|done]. exists id. by destruct s as [[] ?].
  - intros s1 s2 s3 [[f ->] (H1 & ?)] [[g ->] (H2 & ?)]. split; [by exists (g ∘ f)|].
    split; [|intuition congruence]. intros t Ht. by rewrite H2, H1.
Qed.

Lemma quiet_same ts st st' : sameButConditions ts st st' → quiet ts st st'.
Proof.
  intros [H E]. split; [done|]. apply (f_equal (λ x, (Status_Phase x, (Status_AvailableReplicas x, Status_DistributionConfig x)))) in E.
  cbn in E. injection E as -> -> ->. done.
Qed.

Lemma setting_reports ts f : (∀ st, quiet ts st (f st)) → keeps (reports ts) (setting f).
Proof. intros H s. split; [by exists f|]. apply H. Qed.

Lemma quiet_condition ts t flag reason message st :
  t ∈ ts → quiet ts st (SetCondition st (flagCondition (clock env) t flag reason message)).
Proof.
  intros Ht. apply quiet_same. split; [|done]. intros t' Ht'. apply GetCondition_SetCondition_ne. cbn. by intros ->.
Qed.

Lemma readyCondition_flag t ready okR okM failR msg :
  ∃ reason message, readyCondition (clock env) t ready okR okM failR msg = flagCondition (clock env) t ready reason message.
Proof. destruct ready; do 2 eexists; reflexivity. Qed.

Lemma quiet_ready ts t ready okR okM failR msg st :
  t ∈ ts → quiet ts st (SetCondition st (readyCondition (clock env) t ready okR okM failR msg)).
Proof.
  intros Ht. destruct (readyCondition_flag t ready okR okM failR msg) as (reason & message & ->). by apply quiet_condition.
Qed.

Lemma IsConditionTrue_ready t ready okR okM failR msg st :
  IsConditionTrue (Some (SetCondition st (readyCondition (clock env) t ready okR okM failR msg))) t = ready.
Proof.
  destruct (readyCondition_flag t ready okR okM failR msg) as (reason & message & ->). apply IsConditionTrue_flag.
Qed.

Lemma resolve_only instance (a : Adoption.state WV WS WI WD WP) :
  ∃ f, (resolveEffectivePVCName (clock env) instance a).1 = withStatus f a ∧
       ∀ st, quiet [ConditionTypeAdoptionConfigInvalid] st (f st).
Proof.
  assert (a = withStatus id a) as Hid by by destruct a.
  unfold resolveEffectivePVCName. destruct (_ && _); [by exists id|]. unfold inPVCs.
  rewrite bindM_run, zoom_run. cbn [listObjects fst snd].
  assert ({| pvcs := pvcs a; services := services a; ingresses := ingresses a; deployments := deployments a;
             pods := pods a; status := status a |} = a) as -> by by destruct a.
  destruct (List _ _ _) as [e|items]; cbn [fst snd]; [by exists id|].
  destruct items as [|o [|o' items]]; [by exists id..|]. eexists. split; [reflexivity|]. intros st.
  apply quiet_condition. by left.
Qed.

Lemma updateStorageStatus_reports instance :
  keeps (reports [ConditionTypeStorageReady; ConditionTypeAdoptionConfigInvalid]) (updateStorageStatus instance).
Proof.
  unfold updateStorageStatus. apply keeps_if; [apply _|apply keeps_ret, _|].
  assert (∀ ready msg, keeps (reports [ConditionTypeStorageReady; ConditionTypeAdoptionConfigInvalid]) (setStorageReady ready msg)) as Hset.
  { intros ready msg. apply setting_reports. intros st. apply quiet_ready. by left. }
  apply keeps_bind; [apply _| |].
  - intros s. unfold outcome, onAdoption. rewrite zoom_run. cbn [fst snd].
    destruct (resolve_only instance (adoption s)) as (f & -> & Hf). split; [by exists f|].
    destruct (Hf (statusOf s)) as [Hc Hr]. split; [|done]. intros t Ht. apply Hc. by apply not_elem_of_cons in Ht as [_ Ht].
  - intros [name|e]; [|apply Hset]. destruct (ClaimPhase env _); apply Hset.
Qed.

Lemma updateServiceStatus_reports instance : keeps (reports [ConditionTypeServiceReady]) (updateServiceStatus instance).
Proof.
  unfold updateServiceStatus. destruct (GetService env _).
  - apply setting_reports. intros st. apply quiet_ready. by left.
  - apply keeps_bind; [apply _|by apply setting_reports|intros _].
    apply setting_reports. intros st. apply quiet_ready. by left.
Qed.

Lemma preflight_quiet instance st :
  quiet [ConditionTypePraxisReachable; ConditionTypeTLSConfigured] st
    (updatePraxisPreflightStatus LabelSelectorAsSelector ListPods (GetTLSSecret env) (clock env) instance st).
Proof.
  unfold updatePraxisPreflightStatus.
  destruct (praxisReachable_flag LabelSelectorAsSelector ListPods (clock env) instance st) as (f1 & r1 & m1 & -> & _).
  match goal with |- context [updateTLSConfiguredCondition _ _ _ ?st'] =>
    destruct (tlsConfigured_flag (GetTLSSecret env) (clock env) instance st') as (f2 & r2 & m2 & -> & _) end.
  apply quiet_same. split; [|done]. intros t Ht. unfold SetTLSConfiguredCondition, SetPraxisReachableCondition.
  apply not_elem_of_cons in Ht as [Ht1 Ht2]. apply not_elem_of_cons in Ht2 as [Ht2 _].
  by rewrite !GetCondition_SetCondition_ne.
Qed.

(** ** What is reported *)

(** [None]: the Deployment could not be read. *)
Definition deploymentPhase instance : option OGXServerPhase :=
  match ReadyReplicas env (serverKey instance) with
  | inl e => if IsNotFound e then Some OGXServerPhasePending else None
  | inr n => Some (if negb (n =? 0) && (n =? GetEffectiveReplicas instance) then OGXServerPhaseReady
                   else OGXServerPhaseInitializing)
  end.

Definition readyReplicas instance : Z :=
  match ReadyReplicas env (serverKey instance) with inl _ => 0 | inr n => n end.

Definition isReady (p : OGXServerPhase) : bool := match p with OGXServerPhaseReady => true | _ => false end.

Lemma setting_bind {A} f (m : M state A) s : (_ ← setting f; m) s = m (onlyStatus f s).
Proof. done. Qed.

Lemma updateDeploymentStatus_run instance s :
  let '(s', r) := updateDeploymentStatus instance s in
  (∃ f, s' = onlyStatus f s) ∧
  match deploymentPhase instance with
  | None => is_ok r = false
  | Some p =>
      r = Ok (isReady p) ∧ Status_Phase (statusOf s') = p ∧ Status_AvailableReplicas (statusOf s') = readyReplicas instance ∧
      IsConditionTrue (Some (statusOf s')) ConditionTypeDeploymentReady = isReady p
  end.
Proof.
  unfold updateDeploymentStatus, deploymentPhase, readyReplicas.
  destruct (ReadyReplicas env (serverKey instance)) as [e|n].
  - destruct (IsNotFound e); cbn [negb]; [|split; [exists id; by destruct s as [[] ?]|done]].
    rewrite !setting_bind. split; [by eexists (λ st, _)|]. split_and!; try done.
    apply (IsConditionTrue_ready ConditionTypeDeploymentReady).
  - set (wanted := GetEffectiveReplicas instance).
    assert (∀ p msg ready, ready = isReady p →
      let s' := onlyStatus (withAvailableReplicas n)
                  (onlyStatus (λ st, SetDeploymentReadyCondition (clock env) st ready msg) (onlyStatus (withPhase p) s)) in
      (∃ f, s' = onlyStatus f s) ∧
      (Ok ready = Ok (isReady p) ∧ Status_Phase (statusOf s') = p ∧ Status_AvailableReplicas (statusOf s') = n ∧
       IsConditionTrue (Some (statusOf s')) ConditionTypeDeploymentReady = isReady p)) as Hset.
    { intros p msg ready ->. split; [by eexists (λ st, _)|]. split_and!; try done.
      apply (IsConditionTrue_ready ConditionTypeDeploymentReady). }
    destruct (n =? 0) eqn:E0; cbn [negb andb]; [by apply Hset|].
    destruct (n <? wanted) eqn:E1.
    { assert ((n =? wanted) = false) as -> by lia. by apply Hset. }
    destruct (wanted <? n) eqn:E2.
    { assert ((n =? wanted) = false) as -> by lia. by apply Hset. }
    assert ((n =? wanted) = true) as -> by lia. by apply Hset.
Qed.

(** The claim that the pods use is bound. *)
Definition claimBound instance (s : state) : Prop :=
  ∃ name, (resolveEffectivePVCName (clock env) instance (adoption s)).2 = Ok name ∧
    ClaimPhase env (Meta_Namespace (Server_Meta instance), name) = inr ClaimBound.

Lemma resolve_status instance (a : Adoption.state WV WS WI WD WP) f :
  (resolveEffectivePVCName (clock env) instance (withStatus f a)).2 = (resolveEffectivePVCName (clock env) instance a).2.
Proof.
  unfold resolveEffectivePVCName. destruct (_ && _); [done|]. unfold inPVCs. rewrite !bindM_run, !zoom_run.
  cbn [listObjects fst snd withStatus pvcs]. destruct (List _ _ _) as [e|items]; cbn [snd]; [done|].
  by destruct items as [|o [|o' items]].
Qed.

Lemma claimBound_status instance f s : claimBound instance (onlyStatus f s) ↔ claimBound instance s.
Proof. unfold claimBound, onlyStatus. cbn [adoption]. by setoid_rewrite resolve_status. Qed.

Lemma setStorageReady_run ready message s :
  (setStorageReady ready message s).2 = Ok tt ∧
  IsConditionTrue (Some (statusOf (setStorageReady ready message s).1)) ConditionTypeStorageReady = ready.
Proof. split; [done|]. apply (IsConditionTrue_ready ConditionTypeStorageReady). Qed.

Lemma updateStorageStatus_condition instance s :
  hasStorage instance = true →
  (updateStorageStatus instance s).2 = Ok tt ∧
  (IsConditionTrue (Some (statusOf (updateStorageStatus instance s).1)) ConditionTypeStorageReady = true ↔
   claimBound instance s).
Proof.
  intros Hs. unfold updateStorageStatus. rewrite Hs. cbn [negb]. rewrite bindM_run.
  unfold outcome, onAdoption. rewrite zoom_run. cbn [fst snd]. unfold claimBound.
  destruct (resolveEffectivePVCName (clock env) instance (adoption s)) as [a [name|e]]; cbn [fst snd].
  - destruct (ClaimPhase env _) as [e|phase] eqn:Ec.
    + match goal with |- context [setStorageReady ?b ?m ?s0] => destruct (setStorageReady_run b m s0) as [-> ->] end.
      split; [done|]. split; [done|]. intros (name' & [= <-] & H). congruence.
    + match goal with |- context [setStorageReady ?b ?m ?s0] => destruct (setStorageReady_run b m s0) as [-> ->] end.
      split; [done|]. rewrite bool_decide_eq_true. split; [intros ->; by exists name|]. intros (name' & [= <-] & H). congruence.
  - match goal with |- context [setStorageReady ?b ?m ?s0] => destruct (setStorageReady_run b m s0) as [-> ->] end.
    split; [done|]. split; [done|]. by intros (name' & [=] & _).
Qed.

Definition serviceExists instance : bool :=
  match GetService env (Meta_Namespace (Server_Meta instance), (Server_Name instance +:+ "-service")%string) with
  | Some _ => false
  | None => true
  end.

Lemma updateServiceStatus_condition instance s :
  (updateServiceStatus instance s).2 = Ok tt ∧
  IsConditionTrue (Some (statusOf (updateServiceStatus instance s).1)) ConditionTypeServiceReady = serviceExists instance.
Proof.
  unfold updateServiceStatus, serviceExists. destruct (GetService env _).
  - split; [done|]. apply (IsConditionTrue_ready ConditionTypeServiceReady).
  - rewrite setting_bind. split; [done|]. apply (IsConditionTrue_ready ConditionTypeServiceReady).
Qed.

(** The last step: the phase, the health and the providers. *)
Definition reportedProviders instance (p : OGXServerPhase) : list ProviderInfo :=
  if isReady p then
    match getProviderInfo NewRequest Do StatusCode ReadAll unmarshalProviders instance with Ok l => l | Err _ => [] end
  else [].

Lemma lastReport_run instance (p : OGXServerPhase) s :
  Status_Phase (statusOf s) = p →
  let '(s', r) := (if isReady p then reportReady instance else reportNotReady) s in
  r = Ok tt ∧ (∃ f, s' = onlyStatus f s) ∧ Status_Phase (statusOf s') = p ∧
  Status_AvailableReplicas (statusOf s') = Status_AvailableReplicas (statusOf s) ∧
  DC_Providers (Status_DistributionConfig (statusOf s')) = reportedProviders instance p ∧
  IsConditionTrue (Some (statusOf s')) ConditionTypeHealthCheck = isReady p ∧
  ∀ t, t ≠ ConditionTypeHealthCheck → GetCondition (Some (statusOf s')) t = GetCondition (Some (statusOf s)) t.
Proof.
  intros Hp. unfold reportReady, reportNotReady, reportedProviders. destruct (isReady p) eqn:Er.
  - assert (p = OGXServerPhaseReady) as -> by by destruct p. rewrite !setting_bind.
    destruct (getVersionInfo _ _ _ _ _ _) as [v|e]; cbn; split_and!; try done; try by eexists (λ st, _).
    1,3: apply (IsConditionTrue_ready ConditionTypeHealthCheck).
    all: intros t Ht; (etransitivity; [by apply (GetCondition_SetCondition_ne _ (readyCondition _ _ _ _ _ _ _))|done]).
  - rewrite setting_bind. cbn. split_and!; try done; try by eexists (λ st, _).
    + apply (IsConditionTrue_ready ConditionTypeHealthCheck).
    + intros t Ht.
      change (GetCondition (Some (SetHealthCheckCondition (clock env) (statusOf s) false "Deployment not ready")) t =
              GetCondition (Some (statusOf s)) t).
      by apply GetCondition_SetCondition_ne.
Qed.

(** The middle steps leave the phase and the verdict on the Deployment alone. *)
Definition middleConditions : list string :=
  [ConditionTypeStorageReady; ConditionTypeAdoptionConfigInvalid; ConditionTypeServiceReady;
   ConditionTypePraxisReachable; ConditionTypeTLSConfigured].

Lemma quiet_mono ts ts' st st' : ts ⊆ ts' → quiet ts st st' → quiet ts' st st'.
Proof. intros Hs [H ?]. split; [|done]. intros t Ht. apply H. by intros ?%Hs. Qed.

Lemma reports_mono ts ts' s s' : ts ⊆ ts' → reports ts s s' → reports ts' s s'.
Proof. intros Hs [? ?]. split; [done|by apply (quiet_mono ts)]. Qed.

(** What [detailedStatus] reports. *)
Definition reported instance (p : OGXServerPhase) (s s' : state) : Prop :=
  let st := statusOf s' in
  Status_Phase st = p ∧ Status_AvailableReplicas st = readyReplicas instance ∧
  DC_Providers (Status_DistributionConfig st) = reportedProviders instance p ∧
  IsConditionTrue (Some st) ConditionTypeDeploymentReady = isReady p ∧
  IsConditionTrue (Some st) ConditionTypeHealthCheck = isReady p ∧
  IsConditionTrue (Some st) ConditionTypeServiceReady = serviceExists instance ∧
  (hasStorage instance = true → IsConditionTrue (Some st) ConditionTypeStorageReady = true ↔ claimBound instance s).

Lemma IsConditionTrue_ext st st' t : GetCondition (Some st') t = GetCondition (Some st) t →
  IsConditionTrue (Some st') t = IsConditionTrue (Some st) t.
Proof. unfold IsConditionTrue. by intros ->. Qed.

(** Decides that a condition type is not in a list of them. *)
Ltac not_listed := solve [apply (bool_decide_unpack _); vm_compute; exact I].

Lemma detailedStatus_run instance s :
  let '(s', r) := detailedStatus instance s in
  (∃ f, s' = onlyStatus f s) ∧
  match deploymentPhase instance with
  | None => is_ok r = false
  | Some p => r = Ok tt ∧ reported instance p s s'
  end.
Proof.
  unfold detailedStatus. rewrite bindM_run. pose proof (updateDeploymentStatus_run instance s) as Hd.
  destruct (updateDeploymentStatus instance s) as [s1 r1]. cbn [fst snd]. destruct Hd as [[f1 ->] Hd].
  destruct (deploymentPhase instance) as [p|]; [|by destruct r1; [done|split; [by eexists|]]].
  destruct Hd as (-> & Hp & Hr & Hc). set (s1 := onlyStatus f1 s) in *.
  rewrite bindM_run. pose proof (updateStorageStatus_reports instance s1) as Hst.
  assert ((updateStorageStatus instance s1).2 = Ok tt ∧
    (hasStorage instance = true → IsConditionTrue (Some (statusOf (updateStorageStatus instance s1).1)) ConditionTypeStorageReady = true ↔
     claimBound instance s)) as [Hok2 Hc2].
  { destruct (hasStorage instance) eqn:Hh; [|split; [unfold updateStorageStatus; by rewrite Hh|done]].
    destruct (updateStorageStatus_condition instance s1 Hh) as [-> H2]. split; [done|]. intros _.
    rewrite H2. apply claimBound_status. }
  destruct (updateStorageStatus instance s1) as [s2 r2]. cbn [fst snd] in *. subst r2.
  rewrite bindM_run. pose proof (updateServiceStatus_reports instance s2) as Hsv.
  destruct (updateServiceStatus_condition instance s2) as [Hok3 Hc3].
  destruct (updateServiceStatus instance s2) as [s3 r3]. cbn [fst snd] in *. subst r3.
  rewrite setting_bind. set (s4 := onlyStatus (updateDistributionConfig instance) s3).
  set (pre := if IsPraxisModeEnabled (Server_Spec instance) then _ else _).
  assert (keeps (reports [ConditionTypePraxisReachable; ConditionTypeTLSConfigured]) pre) as Hpre.
  { subst pre. destruct (IsPraxisModeEnabled _); [|by apply keeps_ret, _]. apply setting_reports, preflight_quiet. }
  assert ((pre s4).2 = Ok tt) as Hok4 by (subst pre; by destruct (IsPraxisModeEnabled _)).
  rewrite bindM_run. specialize (Hpre s4). destruct (pre s4) as [s5 r5]. cbn [fst snd] in *. subst r5.
  assert (reports middleConditions s1 s5) as [[f5 E5] (Hcs & Hp5 & Hr5 & _)].
  { unfold middleConditions. etransitivity; [eapply reports_mono; [|exact Hst]; set_solver|].
    etransitivity; [eapply reports_mono; [|exact Hsv]; set_solver|].
    etransitivity; [|eapply reports_mono; [|exact Hpre]; set_solver]. split; [by eexists|done]. }
  assert (reports [ConditionTypeServiceReady; ConditionTypePraxisReachable; ConditionTypeTLSConfigured] s2 s5) as [_ (Hcs2 & _)].
  { etransitivity; [eapply reports_mono; [|exact Hsv]; set_solver|].
    etransitivity; [|eapply reports_mono; [|exact Hpre]; set_solver]. split; [by eexists|done]. }
  assert (reports [ConditionTypePraxisReachable; ConditionTypeTLSConfigured] s3 s5) as [_ (Hcs3 & _)].
  { etransitivity; [|exact Hpre]. split; [by eexists|done]. }
  rewrite Hp in Hp5. pose proof (lastReport_run instance p s5 Hp5) as Hl.
  destruct ((if isReady p then reportReady instance else reportNotReady) s5) as [s6 r6].
  destruct Hl as (-> & [f6 ->] & Hp6 & Hr6 & Hpr6 & Hh6 & Hc6).
  split; [subst s5; by eexists (λ st, _)|]. split; [done|]. unfold reported. split_and!; try done; [congruence|..].
  - rewrite (IsConditionTrue_ext (statusOf s5)) by by apply Hc6.
    rewrite (IsConditionTrue_ext (statusOf s1)); [done|]. apply Hcs. not_listed.
  - rewrite (IsConditionTrue_ext (statusOf s5)) by by apply Hc6.
    rewrite (IsConditionTrue_ext (statusOf s3)); [done|]. apply Hcs3. not_listed.
  - intros Hh. rewrite (IsConditionTrue_ext (statusOf s5)) by by apply Hc6.
    rewrite (IsConditionTrue_ext (statusOf s2)); [by apply Hc2|]. apply Hcs2. not_listed.
Qed.

(** ** What is written *)

Context `{SL : !StatusWriterLaws WO}.
Context (HR : ∀ attempt w, retried attempt w (RetryOnConflict attempt w)).

Implicit Types (w : WO).

(** The status is the one computed here, and nothing else is written. *)
Definition written instance (desired : OGXServerStatus) w w' : Prop :=
  (∀ k, k ≠ serverKey instance → storedServer w' k = storedServer w k) ∧
  ∃ before after, storedServer w (serverKey instance) = Some before ∧ storedServer w' (serverKey instance) = Some after ∧
    SO_Server after = SO_Server before ∧ SO_Status after = desired.

Lemma writeStatus_run instance desired w :
  let '(w', e) := writeStatus instance desired w in
  match e with
  | Some _ => ∀ k, storedServer w' k = storedServer w k
  | None => written instance desired w w'
  end.
Proof using SL.
  unfold writeStatus. pose proof (GetServer_spec w (serverKey instance)) as Hg.
  destruct (GetServer w (serverKey instance)) as [e|latest]; [done|]. pose proof (storedServer_key _ _ _ Hg) as Hk.
  match goal with |- context [UpdateStatus w ?o] => pose proof (UpdateStatus_spec w o) as Hu; destruct (UpdateStatus w o) as [w' e] end.
  cbn [SO_Server SO_Status] in Hu. rewrite Hk in Hu. destruct Hu as [Hf Hs].
  destruct e as [e|]; [intros k; apply Hf; by right|].
  split; [intros k Hne; apply Hf; by left|]. by apply Hs.
Qed.

Lemma retried_written instance desired w out :
  retried (writeStatus instance desired) w out →
  match out.2 with
  | Some _ => ∀ k, storedServer out.1 k = storedServer w k
  | None => written instance desired w out.1
  end.
Proof using SL.
  induction 1 as [w|w w' e out Hrun _ _ IH].
  - pose proof (writeStatus_run instance desired w) as H. by destruct (writeStatus instance desired w).
  - pose proof (writeStatus_run instance desired w) as H. rewrite Hrun in H. destruct out as [w2 [e2|]]; cbn [fst snd] in *.
    + intros k. by rewrite IH.
    + destruct IH as (Hf & before & after & Hb & IH). split; [intros k Hne; by rewrite Hf, H|].
      exists before, after. by rewrite <- H.
Qed.

Lemma persistStatus_run instance s :
  let '(s', r) := persistStatus instance s in
  adoption s' = adoption s ∧
  if is_ok r then written instance (statusOf s) (servers s) (servers s')
  else ∀ k, storedServer (servers s') k = storedServer (servers s) k.
Proof using HR SL.
  unfold persistStatus. pose proof (retried_written instance (statusOf s) (servers s) _ (HR _ _)) as H.
  destruct (RetryOnConflict _ _) as [w [e|]]; by split.
Qed.

Lemma updateStatus_put instance s :
  let '(s', r) := updateStatus instance None s in
  (∃ f, adoption s' = withStatus f (adoption s)) ∧
  (if is_ok r then written instance (statusOf s') (servers s) (servers s')
   else ∀ k, storedServer (servers s') k = storedServer (servers s) k) ∧
  (is_ok r = true → ∃ p, deploymentPhase instance = Some p ∧ reported instance p s s').
Proof using HR SL.
  unfold updateStatus. rewrite setting_bind, bindM_run. set (s0 := onlyStatus _ s).
  pose proof (detailedStatus_run instance s0) as Hd. destruct (detailedStatus instance s0) as [s1 r1]. cbn [fst snd].
  destruct Hd as [[f ->] Hd]. destruct (deploymentPhase instance) as [p|].
  - destruct Hd as [-> Hrep]. rewrite setting_bind. set (s2 := onlyStatus _ (onlyStatus f s0)).
    pose proof (persistStatus_run instance s2) as Hp. destruct (persistStatus instance s2) as [s3 r3].
    destruct Hp as [Ha Hw]. assert (statusOf s3 = statusOf s2) as Hst by (unfold statusOf; by rewrite Ha).
    split; [rewrite Ha; by eexists (λ st, _)|]. split; [by rewrite Hst|]. intros _. exists p. split; [done|].
    unfold reported in *. rewrite Hst. subst s0. by setoid_rewrite claimBound_status in Hrep.
  - destruct r1; [done|]. split; [by eexists (λ st, _)|done].
Qed.

Lemma failedStatus_put instance e s :
  let '(s', r) := updateStatus instance (Some e) s in
  (∃ f, adoption s' = withStatus f (adoption s)) ∧
  (if is_ok r then written instance (statusOf s') (servers s) (servers s')
   else ∀ k, storedServer (servers s') k = storedServer (servers s) k) ∧
  Status_Phase (statusOf s') = OGXServerPhaseFailed ∧
  IsConditionTrue (Some (statusOf s')) ConditionTypeDeploymentReady = false ∧
  ∀ t, t ≠ ConditionTypeDeploymentReady → GetCondition (Some (statusOf s')) t = GetCondition (Some (statusOf s)) t.
Proof using HR SL.
  unfold updateStatus. rewrite setting_bind, bindM_run, setting_bind. cbn [fst snd]. rewrite setting_bind.
  set (s2 := onlyStatus (withLastUpdated _) _).
  pose proof (persistStatus_run instance s2) as Hp. destruct (persistStatus instance s2) as [s3 r3].
  destruct Hp as [Ha Hw]. assert (statusOf s3 = statusOf s2) as Hst by (unfold statusOf; by rewrite Ha).
  split; [rewrite Ha; by eexists (λ st, _)|]. rewrite Hst. split_and!; try done.
  - apply (IsConditionTrue_ready ConditionTypeDeploymentReady).
  - intros t Ht. set (st := withPhase OGXServerPhaseFailed (withOperatorVersion (OPERATOR_VERSION env) (statusOf s))).
    change (GetCondition (Some (SetDeploymentReadyCondition (clock env) st false
                                  (Sprintf "Resource reconciliation failed: %v" [Error e]))) t = GetCondition (Some st) t).
    by apply GetCondition_SetCondition_ne.
Qed.

(** C8. The report of a successful reconciliation.  The phase is Pending without a
    Deployment, Ready exactly when all wanted replicas (and at least one) are
    ready, and Initializing otherwise; DeploymentReady and HealthCheck are True
    exactly in phase Ready, ServiceReady when the Service can be read, and
    StorageReady, of a server with storage, when the claim that its pods use is
    bound; providers are listed only in phase Ready.  The custom resource gets
    this status and keeps the rest; no other resource and no object of the
    cluster is written; a report that fails writes nothing. *)
Theorem status_report instance s :
  let '(s', r) := updateStatus instance None s in
  (∃ f, adoption s' = withStatus f (adoption s)) ∧
  (if is_ok r then written instance (statusOf s') (servers s) (servers s')
   else ∀ k, storedServer (servers s') k = storedServer (servers s) k) ∧
  (is_ok r = true → ∃ p, deploymentPhase instance = Some p ∧ reported instance p s s').
Proof using HR SL. apply updateStatus_put. Qed.

(** A server whose number of ready replicas is not the one its spec names is
    never reported Ready, whatever the autoscaler has chosen in its bounds. *)
Lemma autoscaled_initializing instance s n :
  ReadyReplicas env (serverKey instance) = inr n → n ≠ GetEffectiveReplicas instance →
  let '(s', r) := updateStatus instance None s in
  is_ok r = true → Status_Phase (statusOf s') = OGXServerPhaseInitializing.
Proof using HR SL.
  intros Hn Hne. pose proof (updateStatus_put instance s) as H. destruct (updateStatus instance None s) as [s' r].
  destruct H as (_ & _ & H). intros Hok. destruct (H Hok) as (p & Hp & Hph & _). rewrite Hph.
  unfold deploymentPhase in Hp. rewrite Hn in Hp. injection Hp as <-.
  assert ((n =? GetEffectiveReplicas instance) = false) as -> by lia. by rewrite andb_false_r.
Qed.
End update.
