(* ===== verification/ManifestStep.v ===== *)
(** * From the spec to the applied manifests

    The step [reconcileAllManifestResources] of
    [controllers/ogxserver_controller.go]: the claim to use, the context of the
    manifests, the rendering, the kinds to leave out, the deletion of what an
    earlier reconciliation made of them, and the application. *)

From S2P Require Import Prelude Value ApiProviders ApiServer Secret Common Fmt Client Action Objects NetworkPolicy ConfigMaps CABundle Workload Pointer Kustomize Manifests Apply ApplyFacts Exclusion Migration Watches Adoption.

Definition manifestsBasePath : string := "manifests/base".

Section step.
Context {MR : MapRange} `{KU : Kustomize, JP : JSONPointer}.
(** Code outside the repository. *)
Context (IsZero : string → bool) (QuantityString : string → string) (IsDNS1123Label : string → list string)
  (Exists : string → bool) (Run : string → result (list Resource))
  (PodSpecToUnstructured : Workload.PodSpec → result object) (HPAToUnstructured : HPASpec → result object)
  (RESTMapping : string → string → string → result bool)
  (toDeployment : object → result DeploymentObject) (toService : object → result unit)
  (SetControllerReference : OGXServer → Metadata → result Metadata)
  (toUnstructured : Resource → result Unstructured).
(** What is read besides the state: the Secrets, and the namespace of the operator. *)
Context (DistributionImages ImageMappingOverrides : gmap string string)
  (GetSecret : NamespacedName → apiError + SecretObject) (operatorNS : result string) (now : Z).

Context {WV WS WI WD WP WC WU : Type} `{CV : !Client WV (Object any), LV : !Lister WV (Object any)}
  `{CC : !Client WC ConfigMapObject, CU : !Client WU Unstructured, AP : !Applier WU}.

Implicit Types (instance : OGXServer) (runtimeConfig : option runtimeConfigRef).

Record manifestState := {
  MS_adoption : Adoption.state WV WS WI WD WP;
  MS_configMaps : WC;
  MS_objects : WU;
}.

Definition inAdoption {A} : M (Adoption.state WV WS WI WD WP) A → M manifestState A :=
  zoom MS_adoption (λ a s, {| MS_adoption := a; MS_configMaps := MS_configMaps s; MS_objects := MS_objects s |}).

Definition inConfigMaps {A} : M WC A → M manifestState A :=
  zoom MS_configMaps (λ c s, {| MS_adoption := MS_adoption s; MS_configMaps := c; MS_objects := MS_objects s |}).

Definition inObjects {A} : M WU A → M manifestState A :=
  zoom MS_objects (λ u s, {| MS_adoption := MS_adoption s; MS_configMaps := MS_configMaps s; MS_objects := u |}).

Definition collectedSecrets instance runtimeConfig : list EnvVar :=
  match runtimeConfig with
  | Some rc => if RC_Generated rc then CollectSecretRefs (Server_Spec instance) else []
  | None => []
  end.

Definition buildManifestContext instance runtimeConfig (effectivePVCName : string) : M WC ManifestContext :=
  _ ← pureM (validateDistribution DistributionImages instance);
  resolvedImage ← pureM (Common.resolveImage DistributionImages ImageMappingOverrides (Spec_Distribution (Server_Spec instance)));
  let secretEnvVars := collectedSecrets instance runtimeConfig in
  container ← buildContainerSpec IsZero instance resolvedImage runtimeConfig secretEnvVars;
  podSpec ← configurePodStorage instance runtimeConfig container effectivePVCName;
  configMapHash ← resolveConfigMapHash instance runtimeConfig;
  caBundleHash ← resolveCABundleHash instance;
  secretHash ← pureM (resolveSecretRefsHash GetSecret instance runtimeConfig secretEnvVars);
  podSpecMap ← wrapM "failed to convert pod spec to map: %w" [] (pureM (PodSpecToUnstructured podSpec));
  mret {| MC_ResolvedImage := resolvedImage; MC_ConfigMapHash := configMapHash; MC_CABundleHash := caBundleHash;
          MC_SecretHash := secretHash; MC_ContainerSpec := None; MC_PodSpec := Some podSpecMap;
          MC_PodDisruptionBudgetSpec := buildPodDisruptionBudgetSpec instance; MC_HPASpec := buildHPASpec instance;
          MC_PraxisPeer := Some (BuildPraxisPeer instance); MC_PraxisMode := IsPraxisModeEnabled (Server_Spec instance) |}.

(** The kinds to leave out: those of the spec, and the monitoring kinds when
    their definitions are not installed. *)
Definition effectiveKindsToExclude instance (effectivePVCName : string) : M WU (list string) :=
  let kindsToExclude := determineKindsToExclude instance effectivePVCName in
  if bool_decide ("PrometheusRule" ∈ kindsToExclude) then mret kindsToExclude
  else
    monitoringAvailable ← wrapM "failed to check monitoring CRD availability: %w" [] MonitoringCRDsAvailable;
    mret (if negb monitoringAvailable then kindsToExclude ++ ["PrometheusRule"; "ServiceMonitor"] else kindsToExclude).

Abbreviation applyAll := (ApplyResources RESTMapping toDeployment toService SetControllerReference toUnstructured).

(** The last three steps, on the rendered manifests. *)
Definition excludeAndApply instance (effectivePVCName : string) (resMap : list Resource) : M WU unit :=
  kindsToExclude ← effectiveKindsToExclude instance effectivePVCName;
  filteredResMap ← wrapM "failed to filter manifests: %w" [] (pureM (FilterExcludeKinds resMap kindsToExclude));
  _ ← wrapM "failed to delete excluded resources: %w" [] (deleteExcludedResources instance kindsToExclude);
  wrapM "failed to apply manifests: %w" [] (applyAll instance filteredResMap).

Definition reconcileAllManifestResources instance runtimeConfig : M manifestState unit :=
  effectivePVCName ← wrapM "failed to resolve effective PVC name: %w" [] (inAdoption (resolveEffectivePVCName now instance));
  manifestCtx ← wrapM "failed to build manifest context: %w" []
                  (inConfigMaps (buildManifestContext instance runtimeConfig effectivePVCName));
  resMap ← wrapM "failed to render manifests: %w" []
             (pureM (RenderManifestWithContext IsDNS1123Label QuantityString Exists Run HPAToUnstructured
                       manifestsBasePath instance (Some manifestCtx) operatorNS));
  inObjects (excludeAndApply instance effectivePVCName resMap).

(** Building the context only reads. *)
Lemma buildManifestContext_reads instance runtimeConfig name (c : WC) :
  (buildManifestContext instance runtimeConfig name c).1 = c.
Proof.
  assert (H : readsOnly (λ _, True) (buildManifestContext instance runtimeConfig name)); [|by apply (H c c)].
  unfold buildManifestContext, buildContainerSpec, configureContainerEnvironment, addCABundleVolumeMount,
    configureContainerMounts, configurePodStorage, configureTLSCABundle, Workload.hasAnyCABundle,
    detectODHTrustedCABundle, resolveConfigMapHash, getConfigMapHash, getGeneratedConfigMapHashByName,
    resolveCABundleHash, getCABundleConfigMapHash.
  repeat reads_step; try done. unfold Workload.hasAnyCABundle, detectODHTrustedCABundle. by repeat reads_step.
Qed.

Lemma reconcileAll_configMaps instance runtimeConfig (s : manifestState) :
  MS_configMaps (reconcileAllManifestResources instance runtimeConfig s).1 = MS_configMaps s.
Proof.
  unfold reconcileAllManifestResources. rewrite bindM_run, wrapM_run. unfold inAdoption. rewrite zoom_run. cbn [fst snd].
  destruct (wrap _ _ _) as [name|e]; [|done]. rewrite bindM_run, wrapM_run. unfold inConfigMaps. rewrite zoom_run.
  cbn [fst snd MS_configMaps]. rewrite buildManifestContext_reads. destruct (wrap _ _ _) as [ctx|e]; [|done].
  rewrite bindM_run, wrapM_run. cbn [fst snd pureM]. destruct (wrap _ _ _) as [resMap|e]; [|done].
  unfold inObjects. by rewrite zoom_run.
Qed.

(** Of the objects that the adoption works on, resolving the claim changes none. *)
Lemma resolveEffectivePVCName_ingresses clock instance (a : Adoption.state WV WS WI WD WP) :
  ingresses (resolveEffectivePVCName clock instance a).1 = ingresses a.
Proof.
  unfold resolveEffectivePVCName, inPVCs, listObjects. destruct (_ && _); [done|]. rewrite bindM_run, zoom_run.
  cbn [fst snd]. destruct (List _ _ _) as [e|[|o1 [|o2 l]]]; done.
Qed.

Lemma reconcileAll_ingresses instance runtimeConfig (s : manifestState) :
  ingresses (MS_adoption (reconcileAllManifestResources instance runtimeConfig s).1) = ingresses (MS_adoption s).
Proof.
  unfold reconcileAllManifestResources. rewrite bindM_run, wrapM_run. unfold inAdoption. rewrite zoom_run. cbn [fst snd].
  destruct (wrap _ _ _) as [name|e]; [|apply resolveEffectivePVCName_ingresses].
  rewrite bindM_run, wrapM_run. unfold inConfigMaps. rewrite zoom_run. cbn [fst snd MS_adoption].
  destruct (wrap _ _ _) as [ctx|e]; [|apply resolveEffectivePVCName_ingresses].
  rewrite bindM_run, wrapM_run. cbn [fst snd pureM]. destruct (wrap _ _ _) as [resMap|e]; [|apply resolveEffectivePVCName_ingresses].
  unfold inObjects. rewrite zoom_run. apply resolveEffectivePVCName_ingresses.
Qed.

(** ** Whom the step affects *)

Context `{KL : !KustomizeLaws, CLU : !ClientLaws WU Unstructured, AL : !ApplierLaws WU}.
Context (HK : ∀ res u, toUnstructured res = Ok u → U_Kind u = kindOf (view res))
  (HS : setsController SetControllerReference) (HU : unserved (W := WU)).

#[local] Set Default Proof Using "Type*".

Implicit Types (w : WU).

Lemma effectiveKinds_spec instance name w :
  ∃ r, effectiveKindsToExclude instance name w = (w, r) ∧
    match r with Ok kinds => determineKindsToExclude instance name ⊆ kinds | Err _ => True end.
Proof.
  unfold effectiveKindsToExclude. case_bool_decide; [by exists (Ok (determineKindsToExclude instance name))|].
  rewrite bindM_run, wrapM_run. cbn [fst snd]. unfold MonitoringCRDsAvailable. rewrite allCRDsExist_reads.
  set (r := wrap _ _ (allCRDsExist _ w).2). destruct r as [b|e]; eexists; (split; [reflexivity|]); cbn beta iota; [|done].
  destruct b; cbn [negb]; [done|]. intros x Hx. apply elem_of_app. by left.
Qed.

(** No manifest of a kind that is left out is applied. *)
Lemma keysOf_filtered resMap kinds out group kind namespace name :
  FilterExcludeKinds resMap kinds = Ok out → kind ∈ kinds →
  keyOf group kind namespace name ∉ keysOf toUnstructured out.
Proof.
  intros ->%FilterExcludeKinds_Ok Hk Hin. unfold keysOf in Hin. apply list_elem_of_omap in Hin as (res & Hin & Hu).
  destruct (toUnstructured res) as [u|e] eqn:Eu; [|done]. apply (inj Some) in Hu.
  apply list_elem_of_filter in Hin as [Hn _]. apply keyOf_inj in Hu as (_ & Hkind & _).
  apply Hn. by rewrite <- (HK _ _ Eu), Hkind.
Qed.

(** What the deletions may touch is the instance's own, and no claim. *)
Lemma prunes_foreign instance kinds w w' k o :
  prunes instance (exclusionKeys instance kinds) w w' → stored w k = Some o → untouchable instance o →
  stored w' k = Some o.
Proof.
  intros H Ho Hu. destruct (H k) as [E|(Hk & (o' & Ho' & Hc) & _)]; [by rewrite E|].
  rewrite Ho in Ho'. injection Ho' as <-. destruct Hu as [Hu|Hu]; [by rewrite IsControlledBy_owned in Hu|].
  apply elem_of_exclusionKeys in Hk as (kind & group & suffix & Hx & _ & ->).
  apply stored_key, keyOf_inj in Ho as (_ & Hkind & _). destruct (excludable_not "PersistentVolumeClaim") with (group, suffix).
  - by apply (bool_decide_unpack _); vm_compute.
  - by rewrite <- Hu, Hkind.
Qed.

Lemma excludeAndApply_put instance name resMap w :
  let '(w', r) := excludeAndApply instance name resMap w in
  let kinds := determineKindsToExclude instance name in
  (∀ k o, stored w k = Some o → untouchable instance o → stored w' k = Some o) ∧
  ("PersistentVolumeClaim" ∈ kinds → ∀ group namespace n,
     stored w' (keyOf group "PersistentVolumeClaim" namespace n) = stored w (keyOf group "PersistentVolumeClaim" namespace n)) ∧
  (r = Ok tt → ∀ kind group suffix, (kind, (group, suffix)) ∈ excludable → kind ∈ kinds →
     (kind ∈ monitoringKinds → monitoringInstalled w) → relinquished instance w' (childKey instance kind group suffix)).
Proof.
  unfold excludeAndApply. rewrite bindM_run. destruct (effectiveKinds_spec instance name w) as (rk & -> & Hk). cbn [fst snd].
  destruct rk as [kinds|e]; [|done]. rewrite bindM_run, wrapM_run. cbn [pureM fst snd].
  destruct (FilterExcludeKinds resMap kinds) as [out|e] eqn:Ef; cbn [wrap]; [|done].
  rewrite bindM_run, wrapM_run. cbn [fst snd].
  pose proof (excludes_all instance HU kinds w) as Hd. destruct (deleteExcludedResources instance kinds w) as [w1 r1].
  destruct Hd as [Hp Hr]. cbn [fst snd] in *.
  assert (∀ group namespace n, stored w1 (keyOf group "PersistentVolumeClaim" namespace n) =
            stored w (keyOf group "PersistentVolumeClaim" namespace n)) as Hclaim.
  { intros group namespace n. apply (prunes_elsewhere _ _ _ _ _ _ _ _ Hp), excludable_not.
    by apply (bool_decide_unpack _); vm_compute. }
  destruct r1 as [[]|e]; cbn [wrap]; [|split_and!; [intros k o; by apply (prunes_foreign _ _ _ _ _ _ Hp)|intros _; apply Hclaim|done]].
  rewrite wrapM_run.
  pose proof (ApplyResources_respects RESTMapping toDeployment toService SetControllerReference toUnstructured instance
                HS (keysOf toUnstructured out) out (λ k Hk, Hk) w1) as [Hf Hu].
  destruct (applyAll instance out w1) as [w2 r2]. cbn [fst snd] in *. split_and!.
  - intros k o Ho Hn. apply Hu; [by apply (prunes_foreign _ _ _ _ _ _ Hp)|done].
  - intros Hin group namespace n. rewrite Hf; [apply Hclaim|]. apply (keysOf_filtered _ _ _ _ _ _ _ Ef). by apply Hk.
  - intros Hok kind group suffix Hx Hin Hmon o Ho Hc. unfold childKey in Ho.
    rewrite Hf in Ho by (apply (keysOf_filtered _ _ _ _ _ _ _ Ef), Hk, Hin).
    apply (Hr eq_refl kind group suffix Hx); [by apply (list_elem_of_fmap_2 fst) in Hx|by apply Hk|done|exact Ho|done].
Qed.

End step.
