(* ===== verification/Reconcile.v ===== *)
(** * Reconciling a server

    The composition of the components, as [Reconcile] and [reconcileResources]
    of [controllers/ogxserver_controller.go] compose them.  Each component works
    on its part of the state; what a component reads as a snapshot is read when
    it starts. *)

From Stdlib Require Import ZArith.
From stdpp Require Import pretty.
From S2P Require Import Prelude Value ApiProviders ApiServer Merge Generator Resolver Common Fmt Client Action Objects Status NetworkPolicy Preflight ConfigMaps CABundle CABundleFacts Workload GeneratedConfig GeneratedConfigFacts Pointer Kustomize Apply Migration Adoption AdoptionFacts NetworkResources Watches OperatorConfig StatusUpdate Exclusion ManifestStep.

#[local] Open Scope Z_scope.

(** Runs [f] on the error of [m], which it then returns. *)
Definition onFailure {S A} (f : error → S → S) (m : M S A) : M S A := λ s,
  match m s with (s', Err e) => (f e s', Err e) | (s', Ok a) => (s', Ok a) end.

(** [if err := ...; err != nil { log }] *)
Definition logged {S A} (m : M S A) : M S unit := λ s, ((m s).1, Ok tt).

Lemma keeps_modify {S} (R : relation S) (f : S → S) : (∀ s, R s (f s)) → keeps R (modify f).
Proof. intros H s. apply H. Qed.

Lemma keeps_logged {S A} (R : relation S) (m : M S A) : keeps R m → keeps R (logged m).
Proof. intros H s. apply H. Qed.

Lemma keeps_onFailure {S A} (R : relation S) `{!PreOrder R} f (m : M S A) :
  keeps R m → (∀ e s, R s (f e s)) → keeps R (onFailure f m).
Proof.
  intros Hm Hf s. unfold onFailure. specialize (Hm s). destruct (m s) as [s' [a|e]]; cbn in *; [done|]. by etransitivity.
Qed.

(** What a reconciliation reads besides its state. *)
Record reads := {
  R_GetDeployment : NamespacedName → apiError + GeneratedConfig.Workload;
  R_ListReplicaSets : string → (GeneratedConfig.Workload → bool) → apiError + list GeneratedConfig.Workload;
  R_GetSecret : NamespacedName → apiError + SecretObject;
  R_GetConfigMap : NamespacedName → apiError + Migration.ConfigMap;
  R_ReadyReplicas : NamespacedName → apiError + Z;
  R_ClaimPhase : NamespacedName → apiError + string;
  R_GetService : NamespacedName → option apiError;
  R_now : Z;
}.

(** Seconds, as in [ctrl.Result{RequeueAfter: ...}]; 0 is no requeue. *)
Definition initializingRequeueAfter : Z := 10.
Definition migrationRequeueAfter : Z := 15.
Definition defaultRequeueAfter : Z := 5 * 60.

Section reconcile.
Context {MR : MapRange} `{KU : Kustomize, JP : JSONPointer}.
(** Code outside the repository: serialisation, certificates, sorting. *)
Context (yaml_base : string → result BaseConfig) (yaml_map : string → result (option object))
  (yaml_marshal : object → result string) (json_object : string → result (option object))
  (yaml_strings : string → result (gmap string string)) (ParseReference : string → result unit)
  (Decode : string → option (Block * string)) (EncodeToMemory : Block → option string)
  (ParseCertificate : string → result unit)
  (sortSlice : list ConfigMapObject → list ConfigMapObject).
(** Kustomize and the conversions of Kubernetes objects. *)
Context (IsZero : string → bool) (QuantityString : string → string) (IsDNS1123Label : string → list string)
  (Exists : string → bool) (Run : string → result (list Resource))
  (PodSpecToUnstructured : Workload.PodSpec → result object) (HPAToUnstructured : HPASpec → result object)
  (RESTMapping : string → string → string → result bool)
  (toDeployment : object → result DeploymentObject) (toService : object → result unit)
  (toUnstructured : Resource → result Unstructured)
  (SetControllerReference : OGXServer → Metadata → result Metadata)
  (SetIngressController : OGXServer → Ingress → result Ingress)
  (SetJobController : OGXServer → Job → result Job).
(** The server's own API. *)
Context {Request Response : Type} (NewRequest : string → result Request) (Do : Request → result Response)
  (StatusCode : Response → Z) (ReadAll : Response → result string)
  (unmarshalProviders : string → result (list ProviderInfo)) (unmarshalVersion : string → result string).
(** The Praxis pods. *)
Context {Selector : Type} (LabelSelectorAsSelector : LabelSelector → result Selector)
  (ListPods : string → Selector → result (list Pod)).
(** The environment of the operator. *)
Context (OPERATOR_VERSION : string) (DistributionImages : gmap string string) (OCILabelFetcher : option labelFetcher)
  (operatorNS : result string).

(** One store per kind of objects.  Ingresses are read and written as objects with
    owners by the adoption, and as [Ingress] by the rest. *)
Context {WV WS WI WD WP WC WU WJ WO : Type}
  `{CV : !Client WV (Object any), LV : !Lister WV (Object any)}
  `{CS : !Client WS (Object ServiceSpec), LS : !Lister WS (Object ServiceSpec)}
  `{CI : !Client WI (Object any), LI : !Lister WI (Object any)}
  `{CD : !Client WD (Object DeploymentSpec), PD : !Patcher WD (Object DeploymentSpec)}
  `{LP : !Lister WP (Object any)}
  `{VI : !Conversion (Object any) Ingress}
  `{CC : !Client WC ConfigMapObject, PC : !Patcher WC ConfigMapObject, LC : !Lister WC ConfigMapObject}
  `{CU : !Client WU Unstructured, AP : !Applier WU}
  `{CJ : !Client WJ Job}
  `{SW : !StatusWriter WO}.
#[local] Instance ingressClient : Client WI Ingress := typed_client.
Context (RetryOnConflict : (WO → WO * option apiError) → WO → WO * option apiError).

(** The stores, the status that is being built (in [adoptionState]), the cache of
    the resolver (in [configState]), the events, and the fields of the reconciler. *)
Record state := {
  adoptionState : Adoption.state WV WS WI WD WP;
  serverStore : WO;
  ingressEvents : option (list string);
  configState : world WC;
  objectStore : WU;
  jobStore : WJ;
  jobEvents : option (list (string * string * string));
  fields : reconciler;
}.

Context (readAt : state → reads).

Implicit Types (instance : OGXServer) (s : state).

(** ** The parts of the state *)

Definition withAdoption (a : Adoption.state WV WS WI WD WP) s : state :=
  {| adoptionState := a; serverStore := serverStore s; ingressEvents := ingressEvents s; configState := configState s;
     objectStore := objectStore s; jobStore := jobStore s; jobEvents := jobEvents s; fields := fields s |}.

Definition withServers (w : WO) s : state :=
  {| adoptionState := adoptionState s; serverStore := w; ingressEvents := ingressEvents s; configState := configState s;
     objectStore := objectStore s; jobStore := jobStore s; jobEvents := jobEvents s; fields := fields s |}.

(** The store of the Ingresses, which the adoption works on too. *)
Definition ingressState s : NetworkResources.cluster (W := WI) :=
  {| NetworkResources.api := ingresses (adoptionState s); NetworkResources.events := ingressEvents s |}.

Definition withIngressStore (w : WI) (a : Adoption.state WV WS WI WD WP) : Adoption.state WV WS WI WD WP :=
  {| pvcs := pvcs a; services := services a; ingresses := w; deployments := deployments a; pods := pods a;
     Adoption.status := Adoption.status a |}.

Definition withIngresses (c : NetworkResources.cluster (W := WI)) s : state :=
  {| adoptionState := withIngressStore (NetworkResources.api c) (adoptionState s); serverStore := serverStore s;
     ingressEvents := NetworkResources.events c; configState := configState s;
     objectStore := objectStore s; jobStore := jobStore s; jobEvents := jobEvents s; fields := fields s |}.

Definition withConfig (c : world WC) s : state :=
  {| adoptionState := adoptionState s; serverStore := serverStore s; ingressEvents := ingressEvents s; configState := c;
     objectStore := objectStore s; jobStore := jobStore s; jobEvents := jobEvents s; fields := fields s |}.

Definition withObjects (u : WU) s : state :=
  {| adoptionState := adoptionState s; serverStore := serverStore s; ingressEvents := ingressEvents s;
     configState := configState s; objectStore := u; jobStore := jobStore s; jobEvents := jobEvents s; fields := fields s |}.

Definition withJobs (j : WJ) (events : option (list (string * string * string))) s : state :=
  {| adoptionState := adoptionState s; serverStore := serverStore s; ingressEvents := ingressEvents s;
     configState := configState s; objectStore := objectStore s; jobStore := j; jobEvents := events; fields := fields s |}.

Definition withFields (r : reconciler) s : state :=
  {| adoptionState := adoptionState s; serverStore := serverStore s; ingressEvents := ingressEvents s;
     configState := configState s; objectStore := objectStore s; jobStore := jobStore s; jobEvents := jobEvents s; fields := r |}.

Definition statusIn s : OGXServerStatus := Adoption.status (adoptionState s).

Definition withStatusIn (f : OGXServerStatus → OGXServerStatus) s : state :=
  withAdoption (Adoption.withStatus f (adoptionState s)) s.

Definition inAdoptionState {A} : M (Adoption.state WV WS WI WD WP) A → M state A := zoom adoptionState withAdoption.
Definition inIngressState {A} : M (NetworkResources.cluster (W := WI)) A → M state A := zoom ingressState withIngresses.
Definition inConfigState {A} : M (world WC) A → M state A := zoom configState withConfig.
Definition inConfigMapStore {A} (m : M WC A) : M state A := inConfigState (onConfigMaps m).

Definition inReport {A} : M (reporting (WV := WV) (WS := WS) (WI := WI) (WD := WD) (WP := WP) (WO := WO)) A → M state A :=
  zoom (λ s, {| adoption := adoptionState s; servers := serverStore s |})
    (λ r s, withServers (servers r) (withAdoption (adoption r) s)).

Definition inManifests {A} : M (manifestState (WV := WV) (WS := WS) (WI := WI) (WD := WD) (WP := WP) (WC := WC) (WU := WU)) A → M state A :=
  zoom (λ s, {| MS_adoption := adoptionState s; MS_configMaps := configMaps (configState s); MS_objects := objectStore s |})
    (λ m s, withObjects (MS_objects m)
              (withConfig {| configMaps := MS_configMaps m; resolver := resolver (configState s) |}
                (withAdoption (MS_adoption m) s))).

Definition inMigration {A} : M (Migration.state (W := WJ)) A → M state A :=
  zoom (λ s, {| Migration.cluster := jobStore s; Migration.status := statusIn s; Migration.recorded := jobEvents s |})
    (λ m s, withJobs (Migration.cluster m) (Migration.recorded m) (withStatusIn (λ _, Migration.status m) s)).

Definition nowAt s : Z := R_now (readAt s).

Definition overridesAt s : gmap string string := OperatorConfig.ImageMappingOverrides (fields s).

Definition configEnvironment s : GeneratedConfig.environment :=
  {| GeneratedConfig.GetDeployment := R_GetDeployment (readAt s);
     GeneratedConfig.ListReplicaSets := R_ListReplicaSets (readAt s);
     GeneratedConfig.DistributionImages := DistributionImages;
     GeneratedConfig.ImageMappingOverrides := overridesAt s;
     GeneratedConfig.OCILabelFetcher := OCILabelFetcher;
     GeneratedConfig.now := nowAt s |}.

Definition migrationEnvironment s : Migration.environment :=
  {| Migration.GetSecret := R_GetSecret (readAt s); Migration.GetConfigMap := R_GetConfigMap (readAt s);
     Migration.DistributionImages := DistributionImages; Migration.ImageMappingOverrides := overridesAt s;
     Migration.now := nowAt s |}.

Definition statusEnvironmentAt s : statusEnvironment :=
  {| StatusUpdate.OPERATOR_VERSION := OPERATOR_VERSION;
     ReadyReplicas := R_ReadyReplicas (readAt s); ClaimPhase := R_ClaimPhase (readAt s);
     GetService := R_GetService (readAt s);
     GetTLSSecret := λ k, match R_GetSecret (readAt s) k with inl e => Some e | inr _ => None end;
     StatusUpdate.DistributionImages := DistributionImages; clock := nowAt s |}.

(** A step with what it reads when it starts. *)
Definition reading {B A} (f : state → B) (m : B → M state A) : M state A := λ s, m (f s) s.

(** ** Conditions of the configuration *)

Definition setConfigCondition (success : bool) (reason message : string) s : state :=
  withStatusIn (λ st, setConfigGeneratedCondition (nowAt s) st success reason message) s.

Definition generationFailed (e : error) s : state := setConfigCondition false "ConfigGenerationFailed" (Error e) s.

Definition hasGenerated s : bool :=
  match Status_ConfigGeneration (statusIn s) with Some _ => true | None => false end.

(** ** The steps *)

Definition reconcileConfigMaps instance : M state (option GeneratedConfig) :=
  _ ← inConfigMapStore (reconcileOverrideAndCABundleConfigMaps instance);
  generated ← wrapM "failed to reconcile generated config: %w" []
    (reading configEnvironment (λ env, inConfigState
       (reconcileGeneratedConfig yaml_base yaml_map yaml_marshal json_object SetControllerReference env Error instance)));
  _ ← inConfigMapStore (reconcileManagedCABundle Decode EncodeToMemory ParseCertificate SetControllerReference instance);
  mret generated.

Definition manifestsOf instance (runtimeConfig : option runtimeConfigRef) : M state unit :=
  reading (λ s, (overridesAt s, (R_GetSecret (readAt s), nowAt s))) (λ '(overrides, (GetSecret, now)),
    inManifests (reconcileAllManifestResources IsZero QuantityString IsDNS1123Label Exists Run PodSpecToUnstructured
      HPAToUnstructured RESTMapping toDeployment toService SetControllerReference toUnstructured
      DistributionImages overrides GetSecret operatorNS now instance runtimeConfig)).

(** The name of the ConfigMap that was generated, if any. *)
Definition pendingName instance (generated : option GeneratedConfig) : string :=
  match generated with
  | Some g => generatedConfigMapName (Server_Name instance) (Gen_ContentHash g)
  | None => ""
  end.

Definition generationMessage (g : GeneratedConfig) : string :=
  Sprintf "Generated config.yaml with %d providers and %d resources" [pretty (Gen_ProviderCount g); pretty (Gen_ResourceCount g)].

(** What the status says of the configuration once the manifests are applied; a
    clean-up that fails is logged. *)
Definition reportGeneration instance (generated : option GeneratedConfig) : M state unit :=
  match generated with
  | Some g =>
      _ ← modify (setConfigCondition true "ConfigGenerationSucceeded" (generationMessage g));
      _ ← modify (λ s, withStatusIn (updateConfigGenerationStatus (configEnvironment s) instance (Some g)) s);
      logged (reading (λ s, (configEnvironment s, statusIn s)) (λ '(env, status),
        inConfigMapStore (cleanupOldGeneratedConfigMaps sortSlice env instance status (pendingName instance generated))))
  | None =>
      modify (λ s, withStatusIn (clearConfigGenerationStatus (configEnvironment s) "ConfigGenerationInactive"
                                   "Declarative config generation is not active") s)
  end.

Definition adopting instance : M state adoptionResult :=
  reading nowAt (λ now, inAdoptionState (adoptLegacyResources SetControllerReference now instance)).

(** After the adoption and the removal of unsafe exposure. *)
Definition reconcileRest instance : M state unit :=
  generated ← onFailure (λ e s, if HasDeclarativeConfig instance || hasGenerated s then generationFailed e s else s)
                (reconcileConfigMaps instance);
  let runtimeConfig := resolveRuntimeConfigRef instance (pendingName instance generated) in
  _ ← onFailure (λ e s, match generated with Some _ => generationFailed e s | None => s end)
        (manifestsOf instance runtimeConfig);
  _ ← reportGeneration instance generated;
  _ ← wrapM "failed to reconcile Ingress: %w" []
        (inIngressState (λ c, reconcileIngress SetIngressController c instance));
  _ ← wrapM "failed to clean up adopted networking: %w" []
        (reading nowAt (λ now, inAdoptionState (cleanupAdoptedNetworking now instance)));
  wrapM "failed to reconcile Praxis migration: %w" []
    (reading migrationEnvironment (λ env, inMigration (λ m, reconcileMigration SetJobController env m instance runtimeConfig))).

Definition reconcileResources instance : M state unit :=
  adoptResult ← wrapM "failed to adopt legacy resources: %w" [] (adopting instance);
  if requeue adoptResult then raise (requeueError (requeueAfter adoptResult))
  else
    _ ← wrapM "failed to clean up unsafe Ingress: %w" []
          (inIngressState (λ c, cleanupUnsafeOwnedIngress c instance));
    reconcileRest instance.

(** ** [Reconcile] *)

Definition fetchInstance (key : NamespacedName) : M state (option ServerObject) := λ s,
  (s, match GetServer (serverStore s) key with
      | inl e => if IsNotFound e then Ok None else Err (Wrapf "failed to fetch OGXServer: %w" [] (apiErr e))
      | inr o => Ok (Some o)
      end).

Definition refresh : M state unit :=
  reading fields (λ r,
    r' ← inConfigMapStore (refreshOperatorConfig yaml_strings ParseReference operatorNS r);
    modify (withFields r')).

Definition reportStatus instance (reconcileErr : option error) : M state unit :=
  reading (λ s, (statusEnvironmentAt s, ingressState s)) (λ '(env, network),
    inReport (updateStatus NewRequest Do StatusCode ReadAll unmarshalProviders unmarshalVersion LabelSelectorAsSelector ListPods
                network env RetryOnConflict instance reconcileErr)).

(** [None]: the error is not one of the two sentinels. *)
Definition handleSentinelErrors instance (reconcileErr : option error) : M state (option Z) :=
  match reconcileErr ≫= asRequeueError with
  | Some after => _ ← logged (reportStatus instance None); mret (Some after)
  | None =>
      match reconcileErr ≫= asTerminalError with
      | Some _ => _ ← logged (reportStatus instance None); mret (Some 0)
      | None => mret None
      end
  end.

(** When to reconcile next, by the status. *)
Definition nextRequeue (st : OGXServerStatus) : Z :=
  match Status_Phase st with
  | OGXServerPhaseInitializing => initializingRequeueAfter
  | _ => if migrationNeedsRequeue st then migrationRequeueAfter else defaultRequeueAfter
  end.

Definition errorOf {A} (r : result A) : option error := match r with Ok _ => None | Err e => Some e end.

(** The rest, once the instance is there. *)
Definition reconcileInstance instance : M state Z :=
  r ← outcome (reconcileResources instance);
  let reconcileErr := errorOf r in
  done_ ← handleSentinelErrors instance reconcileErr;
  match done_ with
  | Some after => mret after
  | None =>
      reported ← outcome (reportStatus instance reconcileErr);
      match reconcileErr, reported with
      | Some e, _ => raise e
      | None, Err e => raise e
      | None, Ok _ => gets (λ s, nextRequeue (statusIn s))
      end
  end.

Definition Reconcile (key : NamespacedName) : M state Z :=
  _ ← refresh;
  found ← fetchInstance key;
  match found with
  | None => mret 0
  | Some o =>
      _ ← modify (withStatusIn (λ _, SO_Status o));
      reconcileInstance (SO_Server o)
  end.

(** ** What the steps leave alone *)

(** Only the report writes custom resources. *)
Definition sameServers : relation state := λ s s', serverStore s' = serverStore s.

#[local] Instance sameServers_preorder : PreOrder sameServers.
Proof. split; [done|]. intros s1 s2 s3 H12 H23. unfold sameServers in *. congruence. Qed.

Lemma keeps_reading {B A} (R : relation state) (f : state → B) (m : B → M state A) :
  (∀ b, keeps R (m b)) → keeps R (reading f m).
Proof. intros H s. apply H. Qed.

(** Every step of a reconciliation. *)
Ltac step :=
  lazymatch goal with
  | |- keeps _ (_ ≫= _) => apply keeps_bind; [apply _| |intros]
  | |- keeps _ (mret _) => apply keeps_ret, _
  | |- keeps _ (raise _) => apply keeps_raise, _
  | |- keeps _ (gets _) => apply keeps_gets, _
  | |- keeps _ (pureM _) => apply keeps_pure, _
  | |- keeps _ (wrapM _ _ _) => apply keeps_wrap; [apply _|]
  | |- keeps _ (if _ then _ else _) => apply keeps_if; [apply _| |]
  | |- keeps _ (reading _ _) => apply keeps_reading; intros
  | |- keeps _ (logged _) => apply keeps_logged
  | |- keeps _ (onFailure _ _) => apply keeps_onFailure; [apply _| |intros]
  | |- keeps _ (modify _) => apply keeps_modify; intros
  | |- keeps _ (match ?x with _ => _ end) => destruct x
  end.
Ltac steps := repeat step.

Lemma zoomed_servers {T A} (view : state → T) set (m : M T A) :
  (∀ t s, serverStore (set t s) = serverStore s) → keeps sameServers (zoom view set m).
Proof. intros H s. unfold zoom. destruct (m (view s)). apply H. Qed.

Lemma reconcileResources_servers instance : keeps sameServers (reconcileResources instance).
Proof.
  unfold reconcileResources, adopting, reconcileRest, reconcileConfigMaps, manifestsOf, reportGeneration.
  steps; try (by apply zoomed_servers); try done; by case_match.
Qed.

Lemma refresh_run s : ∃ s', refresh s = (s', Ok tt) ∧ serverStore s' = serverStore s.
Proof. eexists. by split. Qed.

(** ** The exposure of the instance *)

(** The Ingresses as objects with owners and as [Ingress]: the same owner, the
    same labels. *)
Class IngressView : Prop := {
  view_controller : ∀ o : Object any, Ing_Controller (decode o) = Owner_UID <$> GetControllerOf (Obj_Meta o);
  view_labels : ∀ o : Object any, Ing_Labels (decode o) = Obj_Labels (Obj_Meta o);
}.

Section exposure.
(** The manager's client reads from its cache, which holds all pods and of the
    other kinds what carries the operator's label. *)
Context `{!ReadCache WV (Object any), !CachedLaws WV (Object any), !ManagedCache WV any, !CachedListerLaws WV (Object any)}.
Context `{!ReadCache WS (Object ServiceSpec), !CachedLaws WS (Object ServiceSpec), !ManagedCache WS ServiceSpec,
          !CachedListerLaws WS (Object ServiceSpec)}.
Context `{!ReadCache WI (Object any), !CachedLaws WI (Object any), !ManagedCache WI any, !CachedListerLaws WI (Object any)}.
Context `{!ReadCache WD (Object DeploymentSpec), !CachedLaws WD (Object DeploymentSpec), !ManagedCache WD DeploymentSpec,
          !PatcherLaws WD (Object DeploymentSpec)}.
Context `{!Client WP (Object any), !ClientLaws WP (Object any), !ListerLaws WP (Object any)}.
Context `{HView : !IngressView}.
Context (HS : Objects.setsController SetControllerReference) (HIng : NetworkResources.setsController SetIngressController).

#[local] Set Default Proof Using "Type*".

#[local] Instance ingressCache : ReadCache WI Ingress :=
  λ i, bool_decide (Ing_Labels i !! managedByLabelKey = Some managedByLabelVal).

Lemma ingressCache_view (o : Object any) : held WI (decode (T := Ingress) o) = held WI o.
Proof. unfold held at 1, ingressCache. by rewrite held_managed, view_labels. Qed.

#[local] Instance ingressLaws : CachedLaws WI Ingress.
Proof. apply typed_cached_laws; [apply ingressCache_view|apply _]. Qed.

Lemma seen_view (w : WI) k : seen w k = decode (T := Ingress) <$> (seen w k : option (Object any)).
Proof. apply typed_seen, ingressCache_view. Qed.

Lemma controlled_view (o : Object any) instance :
  NetworkResources.IsControlledBy (decode o) instance = Objects.IsControlledBy (Obj_Meta o) instance.
Proof.
  unfold NetworkResources.IsControlledBy, Objects.IsControlledBy. rewrite view_controller.
  destruct (GetControllerOf (Obj_Meta o)) as [r|]; cbn; [|by apply bool_decide_false]. apply bool_decide_ext. split; [by intros [= ->]|by intros ->].
Qed.

(** External access is asked for without what makes it safe. *)
Definition unsafeRequest instance : Prop :=
  IsPraxisModeEnabled (Server_Spec instance) = false ∧ externalAccessRequested instance = true ∧
  externalAccessIsSafeToExpose instance = false.

Abbreviation ingressStore s := (ingresses (adoptionState s)).
Abbreviation objectAt w k := (stored w k : option (Object any)).

(** The Ingress [k] is free for the instance to make, or already the instance's. *)
Definition ownIngress instance (w : WI) (k : NamespacedName) : Prop :=
  k = ingressKey instance ∧
  ∀ o, objectAt w k = Some o → Objects.IsControlledBy (Obj_Meta o) instance = true.

(** After the adoption: only the instance's own Ingress may differ, and Ingresses
    that it adopted and controls may be deleted. *)
Definition ownWrites instance (w w' : WI) : Prop :=
  ∀ k, objectAt w' k = objectAt w k ∨ ownIngress instance w k ∨
       (∃ o, objectAt w k = Some o ∧ ownAdopted instance o) ∧ gone (Spec := any) k w'.

#[local] Instance ownWrites_preorder instance : PreOrder (ownWrites instance).
Proof using Type.
  split; [intros w k; by left|]. intros w1 w2 w3 H12 H23 k. destruct (H12 k) as [E12|[O12|[A12 G12]]].
  - destruct (H23 k) as [E23|[[? O23]|[A23 G23]]].
    + left. congruence.
    + right; left. split; [done|]. intros o. rewrite <- E12. apply O23.
    + right; right. rewrite <- E12. done.
  - by right; left.
  - right. destruct (H23 k) as [E23|[[-> O23]|[_ G23]]].
    + right. split; [done|]. intros o. rewrite E23. apply G12.
    + left. split; [done|]. destruct A12 as (o & Ho & _ & Hc & _). intros o'. rewrite Ho. by intros [= <-].
    + by right.
Qed.

Lemma ownWrite_writes instance (w w' : WI) : ownWrite instance w w' → ownWrites instance w w'.
Proof.
  assert (Hread : ∀ i0, seen w (ingressKey instance) = Some i0 → NetworkResources.IsControlledBy i0 instance = true →
            ownIngress instance w (ingressKey instance)).
  { intros i0 Hi Hc. rewrite seen_view in Hi. apply fmap_Some in Hi as (o & [Ho _]%seen_Some & ->).
    split; [done|]. rewrite Ho. intros o' [= <-]. by rewrite <- controlled_view. }
  intros [|i Hk|i i0 Hk Hi Hc|i0 Hi Hc] k; [by left|..].
  - pose proof (Create_spec w (encode i)) as Hw. rewrite encode_key, Hk in Hw. cbn. destruct (Create w (encode i)) as [w1 e].
    destruct Hw as [Hf Hok]. destruct (decide (k = ingressKey instance)) as [->|]; [|left; auto].
    destruct e as [e|]; [left; apply Hf; by right|]. right; left. split; [done|]. destruct (Hok eq_refl) as [-> _]. done.
  - pose proof (Update_spec w (encode i)) as Hw. rewrite encode_key, Hk in Hw. cbn. destruct (Update w (encode i)) as [w1 e].
    destruct (decide (k = ingressKey instance)) as [->|]; [right; left; by eapply Hread|left; apply Hw; by left].
  - pose proof (Delete_spec (O := Object any) w (ingressKey instance)) as Hw. cbn. destruct (Delete w (ingressKey instance)) as [w1 e].
    destruct (decide (k = ingressKey instance)) as [->|]; [right; left; by eapply Hread|left; apply Hw; by left].
Qed.

(** An unsafe Ingress of the instance does not come back. *)
Definition staysSafe instance : relation state := λ s s',
  ownWrites instance (ingressStore s) (ingressStore s') ∧
  (unsafeRequest instance → noneControlled instance (ingressStore s) → noneControlled instance (ingressStore s')).

#[local] Instance staysSafe_preorder instance : PreOrder (staysSafe instance).
Proof using Type.
  split; [by split|]. intros s1 s2 s3 [H12 U12] [H23 U23]. split; [by etransitivity|auto].
Qed.

Lemma staysSafe_same instance s s' : ingressStore s' = ingressStore s → staysSafe instance s s'.
Proof using Type. unfold staysSafe. intros ->. by split. Qed.

Lemma zoomed_ingresses {T A} (view : state → T) set (m : M T A) instance :
  (∀ s, ingressStore (set (m (view s)).1 s) = ingressStore s) → keeps (staysSafe instance) (zoom view set m).
Proof using Type. intros H s. rewrite zoom_run. apply staysSafe_same, H. Qed.

Lemma reconcileIngress_staysSafe instance :
  keeps (staysSafe instance) (inIngressState (λ c, reconcileIngress SetIngressController c instance)).
Proof.
  intros s. unfold inIngressState, staysSafe. rewrite zoom_run. cbn [fst adoptionState ingresses withIngresses withIngressStore].
  split; [by apply ownWrite_writes, (reconcileIngress_writes SetIngressController (ingressState s))|].
  destruct (reconcileIngress_step SetIngressController (ingressState s) instance HIng) as [[Hown Hkeep] Hpost].
  intros (Hp & _ & Hs) Hnone. unfold posture, exposed in Hpost. rewrite Hp, Hs in Hpost.
  destruct (is_ok _); [by apply Hpost|]. intros i. rewrite (seen_same _ _ _ (Hkeep eq_refl _)). apply Hnone.
Qed.

Lemma cleanupUnsafe_staysSafe instance :
  keeps (staysSafe instance) (inIngressState (λ c, cleanupUnsafeOwnedIngress c instance)).
Proof.
  intros s. unfold inIngressState, staysSafe. rewrite zoom_run. cbn [fst adoptionState ingresses withIngresses withIngressStore].
  split; [by apply ownWrite_writes, (cleanupUnsafeOwnedIngress_writes (ingressState s))|].
  destruct (cleanupUnsafeOwnedIngress_step (ingressState s) instance) as [[Hown Hkeep] Hok].
  intros (Hp & Hr & Hs) Hnone.
  destruct (is_ok _); [by apply Hok|]. intros i. rewrite (seen_same _ _ _ (Hkeep eq_refl _)). apply Hnone.
Qed.

(** Cleaning up the adopted networking deletes only adopted Ingresses. *)
Lemma cleanupAdopted_writes now instance s :
  let s' := (inAdoptionState (cleanupAdoptedNetworking now instance) s).1 in
  ∀ k, objectAt (ingressStore s') k = objectAt (ingressStore s) k ∨
       (∃ o, objectAt (ingressStore s) k = Some o ∧ ownAdopted instance o) ∧ gone (Spec := any) k (ingressStore s').
Proof.
  unfold inAdoptionState. cbv zeta. rewrite zoom_run. cbn [fst adoptionState withAdoption].
  exact (cleanup_ingresses now instance (adoptionState s)).
Qed.

Lemma cleanupAdopted_none now instance s :
  noneControlled instance (ingressStore s) →
  noneControlled instance (ingressStore (inAdoptionState (cleanupAdoptedNetworking now instance) s).1).
Proof.
  pose proof (cleanupAdopted_writes now instance s) as H. cbv zeta in H. set (s' := (_ s).1) in *.
  intros Hnone i Hi. rewrite seen_view in Hi. apply fmap_Some in Hi as (o & Ho & ->).
  destruct (H (ingressKey instance)) as [E|[_ G]].
  - apply Hnone. by rewrite seen_view, <- (seen_same _ _ _ E), Ho.
  - right. change (deleting (decode (T := Ingress) o) = true). rewrite decode_deleting. apply G.
    by apply seen_Some in Ho as [Ho _].
Qed.

Lemma cleanupAdopted_staysSafe now instance :
  keeps (staysSafe instance) (inAdoptionState (cleanupAdoptedNetworking now instance)).
Proof.
  intros s. split; [|intros _; apply cleanupAdopted_none].
  intros k. destruct (cleanupAdopted_writes now instance s k); auto.
Qed.

Lemma cleanupAdopted_posture now instance s :
  posture instance (ingressStore s) →
  posture instance (ingressStore (inAdoptionState (cleanupAdoptedNetworking now instance) s).1).
Proof.
  intros Hp. pose proof (cleanupAdopted_writes now instance s) as H. cbv zeta in H. set (s' := (_ s).1) in *.
  unfold posture in *. destruct (exposed instance).
  - destruct Hp as (i & Hi & Hsafe). exists i. split; [|done]. cbn in Hi |- *.
    destruct (H (ingressKey instance)) as [->|[(o & Ho & _ & Hc & [l Hl]) _]]; [done|]. exfalso.
    rewrite Ho in Hi. injection Hi as <-. rewrite controlled_view in Hsafe. destruct Hsafe as [?|Hsafe]; [congruence|].
    destruct Hsafe as (_ & _ & _ & _ & _ & _ & _ & _ & _ & _ & Hlab). rewrite view_labels in Hlab.
    rewrite Hlab in Hl. discriminate Hl.
  - by apply (cleanupAdopted_none now instance s).
Qed.

Lemma manifestsOf_staysSafe instance runtimeConfig : keeps (staysSafe instance) (manifestsOf instance runtimeConfig).
Proof.
  apply keeps_reading. intros [overrides [GetSecret now]]. apply zoomed_ingresses. intros s.
  cbn [adoptionState withObjects withConfig withAdoption]. by rewrite reconcileAll_ingresses.
Qed.

Lemma reconcileRest_staysSafe instance : keeps (staysSafe instance) (reconcileRest instance).
Proof.
  unfold reconcileRest, reconcileConfigMaps, reportGeneration.
  steps; try (by apply manifestsOf_staysSafe); try (by apply reconcileIngress_staysSafe); try (by apply cleanupAdopted_staysSafe); try (by apply zoomed_ingresses);
    try (by apply staysSafe_same).
  all: repeat case_match; by apply staysSafe_same.
Qed.

(** The legacy Ingress that the annotation names. *)
Definition legacyIngress instance : NamespacedName :=
  (Meta_Namespace (Server_Meta instance), (GetAdoptNetworkingSource instance +:+ "-ingress")%string).

Lemma adopting_ingresses instance s :
  let w := ingressStore s in
  let w1 := ingressStore (adopting instance s).1 in
  rewrote (legacyIngress instance) (takenOver (nowAt s) id instance (GetAdoptNetworkingSource instance)) w w1 ∧
  objectAt w1 (ingressKey instance) = objectAt w (ingressKey instance).
Proof.
  cbv zeta. unfold adopting, reading, inAdoptionState. rewrite zoom_run. cbn [fst adoptionState withAdoption].
  pose proof (adoptLegacyResources_run (nowAt s) _ HS instance (adoptionState s)) as H. cbv zeta in H.
  destruct (adoptLegacyResources _ _ instance (adoptionState s)) as [a r]. cbn [fst snd].
  destruct H as ((_ & _ & _ & _ & [Hf Hi] & _) & _ & Hv). split.
  - split; [exact Hf|]. destruct Hi as [?|(o & o' & ? & ? & _ & ?)]; [by left|]. right. by exists o, o'.
  - destruct (decide (ingressKey instance = legacyIngress instance)) as [E|Hne]; [|by apply Hf].
    unfold legacyIngress in E. unfold ingressKey, IngressNameSuffix in *. rewrite E.
    destruct Hi as [?|(o & o' & Ho & Ho' & Hne & _)]; [done|]. case_bool_decide as Hval.
    + exfalso. injection E as E. by apply (legacy_name_differs instance _ "-ingress" Hne (proj2 Hval)).
    + destruct Hv as (_ & (_ & _ & -> & _) & _). done.
Qed.

(** After a success the Ingress is the one that the mode asks for. *)
Lemma reconcileRest_posture instance s :
  ends (reconcileRest instance) s (λ _ s', posture instance (ingressStore s')).
Proof.
  unfold reconcileRest. do 3 (eapply ends_bind with (Q := λ _ _, True); [done|intros ? ? _]).
  eapply ends_bind with (Q := λ _ s', posture instance (ingressStore s')).
  - intros s3 [] E. apply wrapM_Ok in E. unfold inIngressState in E. rewrite zoom_run in E. injection E as <- E.
    cbn [adoptionState withIngresses withIngressStore ingresses]. apply (reconcileIngress_step SetIngressController); [exact HIng|by rewrite E].
  - intros [] s1 H. eapply ends_bind with (Q := λ _ s', posture instance (ingressStore s')).
    + intros s4 [] E. apply wrapM_Ok in E. unfold reading in E. apply (cleanupAdopted_posture (nowAt s1) instance) in H. by rewrite E in H.
    + intros [] s2 H2 s4 [] E. apply wrapM_Ok in E. unfold reading, inMigration in E. rewrite zoom_run in E. by injection E as <- _.
Qed.

(** What else a reconciliation does to Ingresses: the legacy Ingress that the
    annotation names is handed over, and the Ingresses that the instance has
    adopted are deleted. *)
Definition handedOver instance (now : Z) (w w' : WI) (k : NamespacedName) : Prop :=
  ∃ o, objectAt w k = Some o ∧
    ((k = legacyIngress instance ∧ managed (Obj_Meta o) = true ∧ takeable (GetAdoptNetworkingSource instance) (Obj_Meta o) ∧
      ((∃ o', objectAt w' k = Some o' ∧ takenOver now id instance (GetAdoptNetworkingSource instance) o o') ∨
       gone (Spec := any) k w')) ∨
     (ownAdopted instance o ∧ gone (Spec := any) k w')).

Lemma adoption_then_rest instance now (w w1 w' : WI) k :
  rewrote (legacyIngress instance) (takenOver now id instance (GetAdoptNetworkingSource instance)) w w1 →
  objectAt w1 (ingressKey instance) = objectAt w (ingressKey instance) → ownWrites instance w1 w' →
  objectAt w' k = objectAt w k ∨ ownIngress instance w k ∨ handedOver instance now w w' k.
Proof using Type.
  intros [Hf Hi] Hown Hrest. destruct (Hrest k) as [E|[[-> O]|[(o1 & Ho1 & A) G]]].
  - rewrite E. destruct (decide (k = legacyIngress instance)) as [->|Hne]; [|left; by apply Hf].
    destruct Hi as [?|(o & o1 & Ho & Ho1 & T)]; [by left|]. right; right. exists o. split; [done|]. left.
    pose proof T as ([? ?] & _). split_and!; [done..|]. left. exists o1. by rewrite E.
  - right; left. split; [done|]. intros o. rewrite <- Hown. apply O.
  - right; right. destruct (decide (k = legacyIngress instance)) as [->|Hne].
    + destruct Hi as [E|(o & o2 & Ho & Ho2 & T)]; [exists o1; rewrite <- E; auto|].
      exists o. split; [done|]. left. pose proof T as ([? ?] & _). split_and!; auto.
    + exists o1. rewrite <- (Hf k Hne). auto.
Qed.

End exposure.

(** ** The generated configuration *)

Section generated.
(** The client reads ConfigMaps from a cache. *)
Context `{RCC : !ReadCache WC ConfigMapObject, CLC : !CachedLaws WC ConfigMapObject,
  LLC : !CachedListerLaws WC ConfigMapObject, PLC : !PatcherLaws WC ConfigMapObject}.
Context (HS : Objects.setsController SetControllerReference) (HSort : sortsByCreation sortSlice).

#[local] Set Default Proof Using "Type*".

#[local] Instance Metadata_eq_dec : EqDecision Metadata.
Proof. solve_decision. Defined.
#[local] Instance ConfigMapObject_eq_dec : EqDecision ConfigMapObject.
Proof. solve_decision. Defined.

Abbreviation storedMap s k := (stored (configMaps (configState s)) k).

(** The ConfigMap [k] stays as it is. *)
Definition staysAt (k : NamespacedName) : relation state := λ s s', storedMap s' k = storedMap s k.

#[local] Instance staysAt_preorder k : PreOrder (staysAt k).
Proof. split; [done|]. intros s1 s2 s3 H12 H23. unfold staysAt in *. congruence. Qed.

Lemma zoomed_configMaps {T A} (view : state → T) set (m : M T A) k :
  (∀ s, configMaps (configState (set (m (view s)).1 s)) = configMaps (configState s)) → keeps (staysAt k) (zoom view set m).
Proof. intros H s. unfold staysAt. rewrite zoom_run. cbn [fst]. by rewrite H. Qed.

(** The configuration and the managed CA bundle have different names. *)
Lemma generated_not_managed instance g : generatedKey instance (pendingName instance (Some g)) ≠ managedKey instance.
Proof.
  unfold generatedKey, managedKey, pendingName, generatedConfigMapName, getManagedCABundleConfigMapName.
  intros [= H]. revert H. induction (Server_Name instance) as [|c n IH]; [done|]. intros [= H]. by apply IH.
Qed.

Lemma manifestsOf_staysAt instance runtimeConfig k : keeps (staysAt k) (manifestsOf instance runtimeConfig).
Proof.
  apply keeps_reading. intros [overrides [GetSecret now]]. apply zoomed_configMaps. intros s.
  cbn [configState withObjects withConfig configMaps]. by rewrite reconcileAll_configMaps.
Qed.

Lemma checks_staysAt instance k : keeps (staysAt k) (inConfigMapStore (reconcileOverrideAndCABundleConfigMaps instance)).
Proof.
  unfold inConfigMapStore, inConfigState, onConfigMaps. apply zoomed_configMaps. intros s. rewrite zoom_run.
  cbn [fst configState withConfig configMaps].
  by destruct (checks_reads "" instance (configMaps (configState s)) (configMaps (configState s)) (λ k H, eq_refl)) as [-> _].
Qed.

(** Reconciling the managed CA bundle touches no other ConfigMap. *)
Lemma managedConfigMap_frame instance k (w : WC) : k ≠ managedKey instance →
  stored (reconcileManagedCABundleConfigMap Decode EncodeToMemory ParseCertificate SetControllerReference instance w).1 k = stored w k.
Proof.
  intros Hk. unfold reconcileManagedCABundleConfigMap. rewrite bindM_run, wrapM_run. cbn [fst snd].
  destruct (gather_reads Decode EncodeToMemory ParseCertificate "" instance w w (λ _ _, eq_refl)) as [-> _].
  destruct (wrap _ _ _) as [data|e]; [|done].
  destruct (getIfExists_cached "failed to get managed CA bundle ConfigMap: %w" [] (managedKey instance) w) as (f & Ef & Hf).
  unfold managedKey in *. rewrite (bindM_step _ _ _ _ _ Ef). destruct f as [found|e]; [|done].
  rewrite bindM_run, wrapM_run. cbn [pureM fst snd]. destruct (SetControllerReference instance _) as [meta|e] eqn:Em; [|done].
  cbn [wrap]. destruct (HS _ _ _ Em) as (Hmeta & _). set (desired := withCMMeta meta _).
  destruct found as [existing|].
  - apply seen_Some in Hf as [Hf%stored_key _]. destruct (negb _); [|done]. unfold patching.
    set (patched := withCMMeta _ _). pose proof (Patch_spec w existing patched eq_refl) as Hp.
    rewrite Hf in Hp. destruct (Patch w existing patched). apply Hp. by left.
  - unfold writing. pose proof (Create_spec w desired) as Hc.
    replace (objectKey desired) with (Meta_Namespace (Server_Meta instance), getManagedCABundleConfigMapName instance) in Hc
      by (cbn; by rewrite Hmeta).
    destruct (Create w desired). apply Hc. by left.
Qed.

Lemma managed_frame instance k (w : WC) : k ≠ managedKey instance →
  stored (reconcileManagedCABundle Decode EncodeToMemory ParseCertificate SetControllerReference instance w).1 k = stored w k.
Proof.
  intros Hk. unfold reconcileManagedCABundle. rewrite bindM_run.
  assert (Hr : ∀ b : bool, ((if b then mret true else hasODHTrustedCABundle instance) w).1 = w).
  { intros []; [done|]. unfold hasODHTrustedCABundle. rewrite bindM_run.
    destruct (detect_reads "" instance w w (λ _ _, eq_refl)) as [-> _]. by destruct (CABundle.detectODHTrustedCABundle instance w).2. }
  rewrite Hr. match goal with |- context [match ?r with Ok _ => _ | Err _ => _ end] => destruct r as [odh|e] end; [|done].
  destruct (negb odh); [|rewrite wrapM_run; by apply managedConfigMap_frame].
  rewrite bindM_run. unfold getConfigMap. cbn [fst snd]. fold (managedKey instance).
  pose proof (Get_cached w (managedKey instance)) as Hg. destruct (Get w (managedKey instance)) as [e|existing].
  - by destruct (IsNotFound e).
  - apply seen_Some in Hg as [->%stored_key _]. pose proof (Delete_spec w (managedKey instance)) as Hd.
    destruct (Delete w (managedKey instance)). apply Hd. by left.
Qed.

Lemma managed_staysAt instance k : k ≠ managedKey instance →
  keeps (staysAt k) (inConfigMapStore (reconcileManagedCABundle Decode EncodeToMemory ParseCertificate SetControllerReference instance)).
Proof.
  intros Hk s. unfold inConfigMapStore, inConfigState, onConfigMaps, staysAt. rewrite !zoom_run.
  cbn [fst configState withConfig configMaps]. by apply managed_frame.
Qed.

Lemma cleanup_staysAt env instance status name :
  keeps (staysAt (generatedKey instance name)) (inConfigMapStore (cleanupOldGeneratedConfigMaps sortSlice env instance status name)).
Proof.
  intros s. unfold inConfigMapStore, inConfigState, onConfigMaps, staysAt. rewrite !zoom_run.
  cbn [fst configState withConfig configMaps].
  destruct (cleanupOldGeneratedConfigMaps _ _ _ _ _ _) as [w' r] eqn:E. cbn [fst].
  destruct (decide (stored w' (generatedKey instance name) = storedMap s (generatedKey instance name))) as [|Hne]; [done|].
  destruct (cleanup_protects_put _ _ _ _ _ _ _ _ _ HSort E Hne) as (_ & _ & _ & _ & []). by left.
Qed.

(** The ConfigMap of the configuration carries it. *)
Definition inPlace instance (g : GeneratedConfig) s : Prop :=
  ∃ cm : ConfigMapObject, storedMap s (generatedKey instance (pendingName instance (Some g))) = Some cm ∧
    default "" (ConfigMaps.CM_Data cm !! generatedConfigKeyName) = Gen_ConfigYAML g.

Lemma staysAt_inPlace instance g s s' :
  staysAt (generatedKey instance (pendingName instance (Some g))) s s' → inPlace instance g s → inPlace instance g s'.
Proof. unfold staysAt, inPlace. by intros ->. Qed.

Abbreviation wantsGenerated instance := (shouldGenerateConfig instance (IsPraxisModeEnabled (Server_Spec instance))).

(** The configuration is generated from the base that is resolved in [c]. *)
Definition generatedFrom instance (c : world WC) (g : GeneratedConfig) : Prop :=
  ∃ s base, (resolveBaseConfig (configEnvironment s) Error instance c).2 = Ok base ∧
    generate yaml_base yaml_map yaml_marshal json_object instance base = Ok g.

(** The read in [c] did not find the ConfigMap of the configuration, and creating it
    there was answered with AlreadyExists: it is there, with a content that nobody
    looked at. *)
Definition unverified instance (c : world WC) (g : GeneratedConfig) : Prop :=
  ∃ w' : WC, acceptedUnread instance (pendingName instance (Some g)) (configMaps c) w'.

(** What is known when the ConfigMaps are reconciled. *)
Definition generatedFor instance (c : world WC) (generated : option GeneratedConfig) s : Prop :=
  match generated with
  | Some g => wantsGenerated instance = true ∧ generatedFrom instance c g ∧ (inPlace instance g s ∨ unverified instance c g)
  | None => wantsGenerated instance = false
  end.

Lemma generates instance s :
  ends (reading configEnvironment (λ env, inConfigState
    (reconcileGeneratedConfig yaml_base yaml_map yaml_marshal json_object SetControllerReference env Error instance)))
    s (generatedFor instance (configState s)).
Proof.
  intros s' generated E. unfold reading, inConfigState in E. rewrite zoom_run in E. injection E as <- E.
  destruct (reconcileGeneratedConfig _ _ _ _ _ _ _ _ _) as [c r] eqn:Eg. cbn [snd] in E. subst r.
  eapply reconcileGeneratedConfig_spec_put in Eg as [_ H]; [|done..].
  destruct generated as [g|]; [|done]. destruct H as (Hw & _ & (base & Hb & Hg) & _ & Hc).
  split; [done|]. split; [by exists s, base|]. destruct Hc as [(cm & Hcm & Hd & _)|Hu]; [left; by exists cm|].
  right. by eexists.
Qed.

Lemma checks_configState instance s :
  configState (inConfigMapStore (reconcileOverrideAndCABundleConfigMaps instance) s).1 = configState s.
Proof.
  unfold inConfigMapStore, inConfigState, onConfigMaps. rewrite !zoom_run. cbn [fst configState withConfig].
  destruct (checks_reads "" instance (configMaps (configState s)) (configMaps (configState s)) (λ k H, eq_refl)) as [-> _].
  by destruct (configState s).
Qed.

Lemma generatedFor_staysAt instance c generated s s' :
  staysAt (generatedKey instance (pendingName instance generated)) s s' →
  generatedFor instance c generated s → generatedFor instance c generated s'.
Proof.
  destruct generated as [g|]; [|done]. intros Hs (? & ? & [H|H]); (split; [done|]; split; [done|]); [left|by right].
  by apply (staysAt_inPlace _ _ _ _ Hs).
Qed.

Lemma reconcileConfigMaps_generates instance s :
  ends (reconcileConfigMaps instance) s (generatedFor instance (configState s)).
Proof.
  unfold reconcileConfigMaps. eapply ends_bind with (Q := λ _ s1, configState s1 = configState s).
  { intros s1 [] E. rewrite <- (checks_configState instance s). by rewrite E. }
  intros _ s1 <-. eapply ends_bind with (Q := generatedFor instance (configState s1)).
  { intros s' generated E%wrapM_Ok. by apply generates in E. }
  intros generated s2 H s' r. rewrite bindM_run. 
  destruct generated as [g|].
  - pose proof (managed_staysAt instance _ (generated_not_managed instance g) s2) as Hs.
    destruct (inConfigMapStore _ s2) as [s3 [[]|e]]; intros [= <- <-]. by apply (generatedFor_staysAt _ _ (Some g) _ _ Hs).
  - by destruct (inConfigMapStore _ s2) as [s3 [[]|e]]; intros [= <- <-].
Qed.

(** What follows leaves the ConfigMap of the configuration alone. *)
Lemma reportGeneration_staysAt instance generated :
  keeps (staysAt (generatedKey instance (pendingName instance generated))) (reportGeneration instance generated).
Proof.
  unfold reportGeneration. steps; try (unfold staysAt; reflexivity). apply cleanup_staysAt.
Qed.

Lemma networking_staysAt instance runtimeConfig k : keeps (staysAt k) (
  _ ← wrapM "failed to reconcile Ingress: %w" []
        (inIngressState (λ c, reconcileIngress SetIngressController c instance));
  _ ← wrapM "failed to clean up adopted networking: %w" []
        (reading nowAt (λ now, inAdoptionState (cleanupAdoptedNetworking now instance)));
  wrapM "failed to reconcile Praxis migration: %w" []
    (reading migrationEnvironment (λ env, inMigration (λ m, reconcileMigration SetJobController env m instance runtimeConfig)))).
Proof. steps; by apply zoomed_configMaps. Qed.

Lemma onFailure_Ok {A} f (m : M state A) s s' a : onFailure f m s = (s', Ok a) ↔ m s = (s', Ok a).
Proof. unfold onFailure. destruct (m s) as [s1 [b|e]]; split; intros [= <- <-] || intros [=]; done. Qed.

(** In a successful run the manifests of the pods are built and applied with the
    reference to the configuration, when the configuration is known to be in
    place, and it stays. *)
Lemma reconcileRest_generates instance s :
  ends (reconcileRest instance) s (λ _ s', ∃ generated s1 s2,
    generatedFor instance (configState s) generated s1 ∧
    manifestsOf instance (resolveRuntimeConfigRef instance (pendingName instance generated)) s1 = (s2, Ok tt) ∧
    staysAt (generatedKey instance (pendingName instance generated)) s1 s').
Proof.
  unfold reconcileRest. eapply ends_bind with (Q := generatedFor instance (configState s)).
  { intros s1 generated E%onFailure_Ok. by apply reconcileConfigMaps_generates in E. }
  intros generated s1 H s' [] E. apply bindM_Ok in E as (s2 & [] & E2%onFailure_Ok & E). exists generated, s1, s2.
  split; [done|]. split; [done|]. transitivity s2.
  - pose proof (manifestsOf_staysAt instance (resolveRuntimeConfigRef instance (pendingName instance generated))
      (generatedKey instance (pendingName instance generated)) s1) as Hs. by rewrite E2 in Hs.
  - change s' with (s', Ok tt).1. rewrite <- E.
    apply keeps_bind; [apply _|apply reportGeneration_staysAt|intros _; apply networking_staysAt].
Qed.

Lemma runtimeConfig_generated instance g : wantsGenerated instance = true →
  resolveRuntimeConfigRef instance (pendingName instance (Some g)) =
    Some {| RC_ConfigMapName := pendingName instance (Some g); RC_ConfigMapKey := generatedConfigKeyName; RC_Generated := true |}.
Proof.
  apply generated_ref. by cbn; destruct (Server_Name instance).
Qed.

End generated.

(** ** The outcome of a reconciliation *)

Context `{SL : !StatusWriterLaws WO}.
Context (HR : ∀ attempt w, retried attempt w (RetryOnConflict attempt w)).

Implicit Types (w : WO).

Lemma reportStatus_run instance s :
  let '(s', r) := reportStatus instance None s in
  (if is_ok r then written instance (statusIn s') (serverStore s) (serverStore s')
   else ∀ k, storedServer (serverStore s') k = storedServer (serverStore s) k) ∧
  (is_ok r = true → deploymentPhase (statusEnvironmentAt s) instance = Some (Status_Phase (statusIn s'))).
Proof using HR SL.
  unfold reportStatus, reading, inReport, zoom.
  match goal with |- context [updateStatus ?a ?b ?c ?d ?e ?f ?g ?h ?n ?env ?rt instance None ?v] =>
    pose proof (updateStatus_put a b c d e f g h n env rt HR instance v) as H;
    destruct (updateStatus a b c d e f g h n env rt instance None v) as [v' r] end.
  cbn [servers adoption] in H. destruct H as (_ & Hw & Hp). split; [done|]. intros Hok.
  destruct (Hp Hok) as (p & -> & <- & _). done.
Qed.

Lemma reportFailed_run instance e s :
  let '(s', r) := reportStatus instance (Some e) s in
  (if is_ok r then written instance (statusIn s') (serverStore s) (serverStore s')
   else ∀ k, storedServer (serverStore s') k = storedServer (serverStore s) k) ∧
  Status_Phase (statusIn s') = OGXServerPhaseFailed.
Proof using HR SL.
  unfold reportStatus, reading, inReport, zoom.
  match goal with |- context [updateStatus ?a ?b ?c ?d ?e ?f ?g ?h ?n ?env ?rt instance (Some ?err) ?v] =>
    pose proof (failedStatus_put a b c d e f g h n env rt HR instance err v) as H;
    destruct (updateStatus a b c d e f g h n env rt instance (Some err) v) as [v' r] end.
  cbn [servers adoption] in H. by destruct H as (_ & Hw & Hp & _).
Qed.

(** The state in which the resources of the fetched instance are reconciled. *)
Definition started (o : ServerObject) s : state := withStatusIn (λ _, SO_Status o) (refresh s).1.

(** What is known of the custom resources after a report. *)
Definition statusWritten instance (reported : bool) s s' : Prop :=
  if reported then written instance (statusIn s') (serverStore s) (serverStore s')
  else ∀ k, storedServer (serverStore s') k = storedServer (serverStore s) k.

Definition settled instance s s' : Prop := ∃ reported, statusWritten instance reported s s'.

Lemma nextRequeue_bounds st : 10 <= nextRequeue st <= 300.
Proof. unfold nextRequeue. destruct (Status_Phase st); try destruct (migrationNeedsRequeue st); vm_compute; split; congruence. Qed.

Lemma logged_report instance s :
  (∃ s', logged (reportStatus instance None) s = (s', Ok tt) ∧ settled instance s s').
Proof using HR SL.
  unfold logged. pose proof (reportStatus_run instance s) as H. destruct (reportStatus instance None s) as [s' r].
  exists s'. split; [done|]. exists (is_ok r). apply H.
Qed.

(** The answer to the controller runtime, when [rr] is the outcome of
    [reconcileResources] in the state [s1]. *)
Definition answers instance (rr : result unit) s1 s' (r : result Z) : Prop :=
  match rr with
  | Err e =>
      settled instance s1 s' ∧
      match asRequeueError e, asTerminalError e with
      | Some after, _ => r = Ok after
      | None, Some _ => r = Ok 0
      | None, None => r = Err e ∧ Status_Phase (statusIn s') = OGXServerPhaseFailed
      end
  | Ok _ =>
      statusWritten instance (is_ok r) s1 s' ∧
      (is_ok r = true → r = Ok (nextRequeue (statusIn s')) ∧
       deploymentPhase (statusEnvironmentAt s1) instance = Some (Status_Phase (statusIn s')))
  end.

Lemma reconcileInstance_run instance s :
  let '(s1, rr) := reconcileResources instance s in
  let '(s', r) := reconcileInstance instance s in
  answers instance rr s1 s' r.
Proof using HR SL.
  unfold reconcileInstance, outcome. rewrite bindM_run. cbn [fst snd].
  destruct (reconcileResources instance s) as [s1 rr]. cbn [fst snd]. rewrite bindM_run. unfold handleSentinelErrors.
  destruct (logged_report instance s1) as (s2 & Hl & Hs). destruct rr as [[]|e].
  - change (errorOf (Ok tt) ≫= asRequeueError) with (@None Z). change (errorOf (Ok tt) ≫= asTerminalError) with (@None string).
    cbn [fst snd mret M_ret errorOf]. rewrite bindM_run. cbn [fst snd].
    pose proof (reportStatus_run instance s1) as H. destruct (reportStatus instance None s1) as [s3 r3].
    destruct H as [Hw Hp]. cbn [fst snd]. destruct r3 as [[]|e]; split; try done. intros _. split; [done|by apply Hp].
  - change (errorOf (Err e) ≫= asRequeueError) with (asRequeueError e).
    change (errorOf (Err e) ≫= asTerminalError) with (asTerminalError e). cbn [errorOf].
    unfold answers. destruct (asRequeueError e) as [after|].
    + rewrite (bindM_step _ _ _ _ _ Hl). by split.
    + destruct (asTerminalError e) as [msg|].
      * rewrite (bindM_step _ _ _ _ _ Hl). by split.
      * cbn [fst snd mret M_ret]. rewrite bindM_run. cbn [fst snd].
        pose proof (reportFailed_run instance e s1) as H. destruct (reportStatus instance (Some e) s1) as [s3 r3].
        destruct H as [Hw Hp]. split; [by exists (is_ok r3)|done].
Qed.

Lemma reconcile_put key s :
  let '(s', r) := Reconcile key s in
  match GetServer (serverStore s) key with
  | inl e => serverStore s' = serverStore s ∧ (if IsNotFound e then r = Ok 0 else is_ok r = false)
  | inr o => let '(s1, rr) := reconcileResources (SO_Server o) (started o s) in
             serverStore s1 = serverStore s ∧ answers (SO_Server o) rr s1 s' r
  end.
Proof using HR SL.
  unfold Reconcile. destruct (refresh_run s) as (s0 & E & Hs0). rewrite (bindM_step _ _ _ _ _ E), bindM_run.
  unfold fetchInstance. cbn [fst snd]. rewrite Hs0. unfold started. rewrite E. cbn [fst].
  destruct (GetServer (serverStore s) key) as [e|o]; [by destruct (IsNotFound e)|].
  rewrite bindM_run. cbn [modify fst snd]. set (s1 := withStatusIn _ s0).
  pose proof (reconcileInstance_run (SO_Server o) s1) as H. pose proof (reconcileResources_servers (SO_Server o) s1) as Hsame.
  destruct (reconcileResources (SO_Server o) s1) as [s2 rr]. destruct (reconcileInstance (SO_Server o) s1) as [s' r].
  split; [|done]. unfold sameServers in Hsame. cbn in Hsame. by rewrite Hsame.
Qed.

(** C1. What [Reconcile] answers, in every run.  An instance that is gone ends the
    reconciliation; one that cannot be fetched is an error.  Otherwise the
    resources are reconciled, which writes no custom resource, and: a request to
    wait is answered with its delay, a terminal error with no requeue, any other
    error with that error, the phase being Failed; a success whose status could
    be written asks to be run again after 10 seconds to 5 minutes, and the
    status says what the Deployment showed.  The status is all that is written
    of the instance, and nothing of other instances. *)
Theorem reconcile_answers key s :
  let '(s', r) := Reconcile key s in
  match GetServer (serverStore s) key with
  | inl e => serverStore s' = serverStore s ∧ (if IsNotFound e then r = Ok 0 else is_ok r = false)
  | inr o => let '(s1, rr) := reconcileResources (SO_Server o) (started o s) in
             serverStore s1 = serverStore s ∧ answers (SO_Server o) rr s1 s' r
  end ∧
  (∀ st, 10 <= nextRequeue st <= 300).
Proof using HR SL.
  pose proof (reconcile_put key s) as H. destruct (Reconcile key s) as [s' r]. split; [exact H|apply nextRequeue_bounds].
Qed.
End reconcile.
