(* ===== verification/EndToEnd.v ===== *)
(** * From the spec to the pods

    The components composed: the generated configuration of
    [GeneratedConfig.v], the environment and the volumes of [Workload.v], the
    context of [ManifestStep.v] and the rendering of [Manifests.v].  The
    theorem follows the configuration and the credentials of a spec to the
    rendered Deployment. *)

From Stdlib Require Import ZArith Ascii.
From stdpp Require Import pretty.
From S2P Require Import Prelude Value ApiProviders ApiServer Secret Storage Provider ProviderFacts Merge Generator GeneratorFacts Resolver Common Fmt Client Action Objects ConfigMaps CABundle Workload WorkloadFacts GeneratedConfig GeneratedConfigFacts NetworkPolicy Pointer Kustomize Manifests Migration Watches ManifestStep.

(** ** Lemmas on the environment *)

(** A variable that is named once has the value of its entry. *)
Lemma effective_unique l e : NoDup (Env_Name <$> l) → e ∈ l → effective l (Env_Name e) = Some e.
Proof.
  intros Hnd He. apply list_elem_of_split in He as (l1 & l2 & ->).
  rewrite fmap_app, fmap_cons in Hnd. apply NoDup_app in Hnd as (_ & _ & [Hn _]%NoDup_cons).
  rewrite effective_app. change (e :: l2) with ([e] ++ l2). rewrite effective_app.
  rewrite (proj2 (effective_None l2 _) Hn). unfold effective. cbn. by rewrite bool_decide_eq_true_2.
Qed.

Definition underscores (s : string) : nat := length (filter (λ c, c = "_"%char) (chars s)).

Lemma underscores_app s t : underscores (s +:+ t) = (underscores s + underscores t)%nat.
Proof. unfold underscores. by rewrite chars_app, filter_app, length_app. Qed.

(** The names of the secrets' variables: [OGX], an identifier and a field. *)
Lemma secretEnv_shape e : secretEnv e →
  (2 ≤ underscores (Env_Name e))%nat ∧ ∃ rest, Env_Name e = ("OGX" +:+ rest)%string.
Proof.
  intros [id field ref _|ref|ref]; [|split; [apply (bool_decide_unpack _); vm_compute; exact I|by eexists]..].
  cbn [secretToEnvVar Env_Name]. unfold buildEnvVarName, envVarPrefix. split; [|by eexists].
  rewrite !underscores_app. change (underscores "_") with 1%nat. lia.
Qed.

(** The configuration file's variables are none of the secrets'. *)
Lemma secrets_not_config {MR : MapRange} spec variable :
  variable ∈ ["RUN_CONFIG_PATH"; "OGX_CONFIG"] → effective (CollectSecretRefs spec) variable = None.
Proof.
  intros Hv. apply effective_None. intros (e & -> & He)%list_elem_of_fmap.
  apply elem_of_CollectSecretRefs, firstNamed_Some in He as [He _].
  pose proof (proj1 (Forall_forall _ _) (collectSecretRefsRaw_secretEnv spec) e He) as [Hu [rest Hr]]%secretEnv_shape.
  apply elem_of_cons in Hv as [Hv|Hv%list_elem_of_singleton].
  - rewrite Hv in Hr. discriminate Hr.
  - rewrite Hv in Hu. vm_compute in Hu. lia.
Qed.

(** The operator's own variables name the file of the configuration. *)
Lemma operatorEnv_config instance bundle rc variable :
  variable ∈ ["RUN_CONFIG_PATH"; "OGX_CONFIG"] →
  effective (operatorEnv instance bundle (Some rc)) variable = Some (plainEnv variable ("/etc/ogx/" +:+ "config.yaml")).
Proof.
  intros Hv. unfold operatorEnv. rewrite !effective_app.
  destruct (isMonitoringDisabled instance), (Spec_RegistryRefreshIntervalSeconds (Server_Spec instance)), bundle;
    by apply elem_of_cons in Hv as [->| ->%list_elem_of_singleton].
Qed.

(** ** The pods *)

Lemma generatedName_ne name hash : generatedConfigMapName name hash ≠ "".
Proof. by destruct name. Qed.

Section pods.
Context {MR : MapRange} `{KU : Kustomize, JP : JSONPointer} `{KL : !KustomizeLaws, JL : !JSONPointerLaws}.
(** Code outside the repository. *)
Context (yaml_base : string → result BaseConfig) (yaml_map : string → result (option object))
  (yaml_marshal : object → result string) (json_object : string → result (option object)).
Context (SetControllerReference : OGXServer → Metadata → result Metadata) (Error : error → string).
Context (IsZero : string → bool) (QuantityString : string → string) (IsDNS1123Label : string → list string)
  (Exists : string → bool) (Run : string → result (list Resource))
  (PodSpecToUnstructured : Workload.PodSpec → result object) (HPAToUnstructured : HPASpec → result object).
Context (env : GeneratedConfig.environment) (DistImages Overrides : gmap string string) (GetSecret : NamespacedName → apiError + SecretObject)
  (operatorNS : result string).
Context {W : Type} `{CC : !Client W ConfigMapObject, RC : !ReadCache W ConfigMapObject, CL : !CachedLaws W ConfigMapObject}.

Implicit Types (instance : OGXServer) (runtimeConfig : option runtimeConfigRef) (c : W).

Abbreviation buildContext := (buildManifestContext IsZero PodSpecToUnstructured DistImages Overrides GetSecret).

(** What a context that was built holds of the pod. *)
Lemma buildManifestContext_Ok instance runtimeConfig pvc c c' ctx :
  buildContext instance runtimeConfig pvc c = (c', Ok ctx) →
  ∃ image container podSpec tree,
    buildContainerSpec IsZero instance image runtimeConfig (collectedSecrets instance runtimeConfig) c = (c, Ok container) ∧
    configurePodStorage instance runtimeConfig container pvc c = (c, Ok podSpec) ∧
    PodSpecToUnstructured podSpec = Ok tree ∧ MC_PodSpec ctx = Some tree.
Proof.
  unfold buildManifestContext. cbv zeta. intros (c1 & [] & [= <- _] & H)%bindM_Ok.
  apply bindM_Ok in H as (c2 & image & [= <- _] & H). exists image.
  destruct (buildContainerSpec_run IsZero instance image runtimeConfig (collectedSecrets instance runtimeConfig) c)
    as (container & Hc & _). exists container.
  apply bindM_Ok in H as (c3 & container' & Hc' & H). rewrite Hc in Hc'. injection Hc' as <- <-.
  destruct (configurePodStorage_run instance runtimeConfig container pvc c) as (podSpec & Hp & _). exists podSpec.
  apply bindM_Ok in H as (c4 & podSpec' & Hp' & H). rewrite Hp in Hp'. injection Hp' as <- <-.
  do 3 apply bindM_Ok in H as (? & ? & _ & H).
  apply bindM_Ok in H as (c5 & tree & [= _ Ht]%wrapM_Ok & [= _ <-]). by exists tree.
Qed.

(** The server container and the volumes of a pod with a generated configuration. *)
Lemma pod_of_generated instance image name pvc c container podSpec :
  ValidateSecretRefEnvVarNames (Server_Spec instance) = Ok tt →
  let rc := {| RC_ConfigMapName := name; RC_ConfigMapKey := generatedConfigKeyName; RC_Generated := true |} in
  buildContainerSpec IsZero instance image (Some rc) (collectedSecrets instance (Some rc)) c = (c, Ok container) →
  configurePodStorage instance (Some rc) container pvc c = (c, Ok podSpec) →
  ∃ server, PodS_Containers podSpec = [server] ∧
    {| Vol_Name := "user-config"; Vol_Source := configMapSource name generatedConfigKeyName "config.yaml" |}
      ∈ PodS_Volumes podSpec ∧
    volumeMount "user-config" "/etc/ogx/" ∈ Ctn_VolumeMounts server ∧
    (∀ variable, variable ∈ ["RUN_CONFIG_PATH"; "OGX_CONFIG"] → effective (userEnv instance) variable = None →
       effective (Ctn_Env server) variable = Some (plainEnv variable ("/etc/ogx/" +:+ "config.yaml"))) ∧
    (∀ e, e ∈ collectSecretRefsRaw (Server_Spec instance) → effective (userEnv instance) (Env_Name e) = None →
       effective (Ctn_Env server) (Env_Name e) = Some e).
Proof.
  intros Hv rc Hc Hp.
  destruct (buildContainerSpec_run IsZero instance image (Some rc) (collectedSecrets instance (Some rc)) c)
    as (container' & Hc' & He & _ & _ & Hm). rewrite Hc in Hc'. injection Hc' as <-.
  destruct (configurePodStorage_run instance (Some rc) container pvc c) as (podSpec' & Hp' & Hcs & Hvs).
  rewrite Hp in Hp'. injection Hp' as <-. eexists. split; [exact Hcs|]. rewrite Hvs.
  change (collectedSecrets instance (Some rc)) with (CollectSecretRefs (Server_Spec instance)) in He.
  unfold appendMounts. cbn [Ctn_VolumeMounts Ctn_Env]. rewrite Hm, He. split_and!.
  - apply elem_of_app. right. apply elem_of_app. right. apply elem_of_app. left. apply list_elem_of_here.
  - apply elem_of_app. left. apply elem_of_app. right. apply elem_of_app. left. apply list_elem_of_here.
  - intros variable Hin Hu. rewrite effective_overridden, Hu, effective_app, secrets_not_config by done.
    by apply operatorEnv_config.
  - intros e Hin Hu. rewrite effective_overridden, Hu, effective_app.
    by rewrite (effective_unique _ e) by (apply CollectSecretRefs_NoDup || by apply CollectSecretRefs_complete).
Qed.

(** C10. A generated configuration and its credentials reach the pods.  When the
    configuration is generated, and the manifests are rendered from the context
    built for it, the pods of the Deployment hold one container; the ConfigMap
    of the generated text is mounted where the variables [RUN_CONFIG_PATH] and
    [OGX_CONFIG] point; each secret reference of the spec (of providers and of
    storage) is a variable of the container with that very reference as its
    value; only variables that the user sets in the overrides are the user's
    own; and each secret of a provider is read, under that name, by a provider
    entry of the text that was generated. *)
Theorem generated_config_reaches_pods instance (w w' : world W) g pvc c' ctx path out :
  Objects.setsController SetControllerReference →
  reconcileGeneratedConfig yaml_base yaml_map yaml_marshal json_object SetControllerReference env Error instance w = (w', Ok (Some g)) →
  let name := generatedConfigMapName (Server_Name instance) (Gen_ContentHash g) in
  buildContext instance (resolveRuntimeConfigRef instance name) pvc (configMaps w') = (c', Ok ctx) →
  Server_Name instance ≠ "" → Meta_Namespace (Server_Meta instance) ≠ "" → namespacedKinds → loadsBase Run →
  RenderManifestWithContext IsDNS1123Label QuantityString Exists Run HPAToUnstructured path instance (Some ctx) operatorNS = Ok out →
  let spec := Server_Spec instance in
  ∃ deployment podSpec tree server,
    out !! 4%nat = Some deployment ∧ PodSpecToUnstructured podSpec = Ok tree ∧
    (∀ k v, tree !! k = Some v → at_ deployment ["spec"; "template"; "spec"; k] = Some v) ∧
    PodS_Containers podSpec = [server] ∧
    {| Vol_Name := "user-config"; Vol_Source := configMapSource name generatedConfigKeyName "config.yaml" |}
      ∈ PodS_Volumes podSpec ∧
    volumeMount "user-config" "/etc/ogx/" ∈ Ctn_VolumeMounts server ∧
    (∀ variable, variable ∈ ["RUN_CONFIG_PATH"; "OGX_CONFIG"] → effective (userEnv instance) variable = None →
       effective (Ctn_Env server) variable = Some (plainEnv variable ("/etc/ogx/" +:+ "config.yaml"))) ∧
    (∀ e, e ∈ collectSecretRefsRaw spec → effective (userEnv instance) (Env_Name e) = None →
       effective (Ctn_Env server) (Env_Name e) = Some e) ∧
    (∀ p, Spec_Providers spec = Some p →
       ∃ cfg, yaml_marshal cfg = Ok (Gen_ConfigYAML g) ∧
         ∀ e, e ∈ collectProviderSecrets p → readsVariable cfg (Env_Name e)).
Proof using CL KL JL.
  intros HS Hg name Hctx Hn Hns Hk Hb Hout spec.
  destruct (reconcileGeneratedConfig_spec_put _ _ _ _ _ _ Error instance w w' _ HS Hg)
    as (_ & Hwants & Hv & (base & _ & Hgen) & _).
  rewrite (generated_ref _ _ name (generatedName_ne _ _) Hwants) in Hctx.
  destruct (buildManifestContext_Ok _ _ _ _ _ _ Hctx) as (image & container & podSpec & tree & Hc & Hp & Ht & Hm).
  destruct (pod_of_generated _ _ _ _ _ _ _ Hv Hc Hp) as (server & H1 & H2 & H3 & H4 & H5).
  destruct (deployment_pod_spec QuantityString IsDNS1123Label Exists Run HPAToUnstructured path instance ctx operatorNS out Hn Hns Hk Hb Hout) as (deployment & Hd & Hspec).
  rewrite Hm in Hspec. exists deployment, podSpec, tree, server.
  split; [done|]. split; [done|]. split; [intros k v Hkv; rewrite Hspec; unfold default in *; cbn; by rewrite Hkv|]. split_and!; [done..|]. intros p Hps.
  assert (HasDeclarativeConfig instance = true) as Hdec.
  { unfold HasDeclarativeConfig. fold spec. rewrite Hps. done. }
  unfold generate in Hgen. rewrite Hdec in Hgen. by apply (secrets_read _ _ _ _ _ _ _ _ Hgen).
Qed.
End pods.
