(* ===== verification/Startup.v ===== *)
(** * The start of the operator

    The files [main.go] and [pkg/cluster/cluster.go]: what is known about the
    cluster, the cleanup after an upgrade, the options of the manager, and the
    order in which the parts are set up.  The manager is a library: how its
    registrations and its run end are arguments. *)

From Stdlib Require Import ZArith.
From S2P Require Import Prelude Common Fmt Client Action Objects ConfigMaps Watches OperatorConfig TLS.

(** ** [pkg/cluster] *)

Record ClusterInfo := { OperatorNamespace : string; DistributionImages : gmap string string }.

Definition coreImageVariable : string := "RELATED_IMAGE_ODH_OGX_CORE_IMAGE".

(** The environment, the file with the namespace and the decoder of JSON are
    arguments; an unset variable is empty. *)
Definition NewClusterInfo (namespaceEnv : option string) (namespaceFile : string * option error) (Getenv : string → string)
    (json_strings : string → result (gmap string string)) (embeddedDistributions : string) : result ClusterInfo :=
  operatorNamespace ← wrap "failed to find operator namespace: %w" [] (GetOperatorNamespace namespaceEnv namespaceFile);
  let image := Getenv coreImageVariable in
  distributionImages ←
    (if negb (bool_decide (image = "")) then Ok (<["rh" := image]> {["rh-dev" := image]})
     else wrap "failed to parse embedded distributions JSON: %w" [] (json_strings embeddedDistributions));
  Ok {| OperatorNamespace := operatorNamespace; DistributionImages := distributionImages |}.

Record Subject := { Subject_Kind : string; Subject_Namespace : string }.

(** A cluster-wide object; its namespace is empty. *)
Abbreviation ClusterRoleBinding := (Object (list Subject)).

Definition shouldDeleteLegacyClusterRoleBinding (crb : ClusterRoleBinding) : bool :=
  if bool_decide (Obj_Labels (Obj_Meta crb) !! "app.kubernetes.io/managed-by" = Some "ogx-operator") then
    existsb (λ s, bool_decide (Subject_Kind s = "ServiceAccount") && negb (bool_decide (Subject_Namespace s = "")))
      (Obj_Spec crb)
  else false.

Section cleanup.
Context {W : Type} `{!Client W ClusterRoleBinding} (List : W → apiError + list ClusterRoleBinding).

(** The failures are logged; one that means that the binding is gone is not. *)
Fixpoint deleteBindings (l : list ClusterRoleBinding) (w : W) : W * list (NamespacedName * error) :=
  match l with
  | [] => (w, [])
  | crb :: l =>
      let '(w, e) := Delete w (objectKey crb) in
      let '(w, log) := deleteBindings l w in
      (w, match e with
          | Some e => if IsNotFound e then log else (objectKey crb, apiErr e) :: log
          | None => log
          end)
  end.

Definition cleanupLegacyClusterRoleBindings (w : W) : W * list (NamespacedName * error) :=
  match List w with
  | inl _ => (w, [])
  | inr items => deleteBindings (List.filter shouldDeleteLegacyClusterRoleBinding items) w
  end.

(** It never fails. *)
Definition PerformUpgradeCleanup (w : W) : W * result unit := ((cleanupLegacyClusterRoleBindings w).1, Ok tt).

Context `{CL : !ClientLaws W ClusterRoleBinding}.
#[local] Set Default Proof Using "Type*".

Definition gone (w : W) (k : NamespacedName) : Prop := ∀ crb, stored w k = Some crb → deleting crb = true.

Lemma deleteBindings_spec l w :
  let '(w', log) := deleteBindings l w in
  (∀ k, (∀ crb, crb ∈ l → objectKey crb ≠ k) → stored w' k = stored w k) ∧
  (∀ k, gone w k → gone w' k) ∧
  ∀ crb, crb ∈ l → gone w' (objectKey crb) ∨ objectKey crb ∈ log.*1.
Proof.
  revert w. induction l as [|crb l IH]; intros w; cbn [deleteBindings]; [split_and!; [done|done|set_solver]|].
  pose proof (Delete_spec w (objectKey crb)) as Hd. destruct (Delete w (objectKey crb)) as [w1 e].
  specialize (IH w1). destruct (deleteBindings l w1) as [w2 log]. destruct Hd as (Hf & Hs & Hn), IH as (IHf & IHg & IHl).
  assert (Hgone : ∀ k, gone w k → gone w1 k).
  { intros k Hk. destruct (decide (k = objectKey crb)) as [->|Hne]; [|intros o Ho; rewrite Hf in Ho by (by left); by apply Hk].
    destruct e as [e|]; [intros o Ho; rewrite Hf in Ho by (by right); by apply Hk|]. intros o Ho. by apply (Hs eq_refl o Ho). }
  split_and!.
  - intros k Hk. rewrite IHf by (intros o Ho; apply Hk; by right). apply Hf. left. intros ->. by apply (Hk crb); [left|].
  - intros k Hk. by apply IHg, Hgone.
  - intros o [->|Ho]%elem_of_cons.
    + destruct e as [e|]; [|left; apply IHg; intros o Ho; by apply (Hs eq_refl o Ho)].
      destruct e as [e0|e0|e0|e0|e0]; cbn [IsNotFound]; [|right; by left..].
      left. apply IHg. intros o Ho. rewrite Hf in Ho by (by right). by rewrite (Hn e0 eq_refl) in Ho.
    + destruct (IHl o Ho) as [H|H]; [by left|right]. destruct e as [e|]; [|done]. destruct (IsNotFound e); [done|by right].
Qed.

(** The API server refuses to delete the binding [crb], as it is. *)
Definition refuses (crb : ClusterRoleBinding) : Prop :=
  ∃ w0 w1 e, stored w0 (objectKey crb) = Some crb ∧ Delete w0 (objectKey crb) = (w1, Some e) ∧ IsNotFound e = false.

(** What the deletions do: of the listed bindings each stays as it is or is gone,
    and it is gone unless its deletion is refused. *)
Lemma deleteBindings_each l w :
  let w' := (deleteBindings l w).1 in
  (∀ k, stored w' k = stored w k ∨ gone w' k ∧ ∃ crb, crb ∈ l ∧ objectKey crb = k) ∧
  ∀ crb, crb ∈ l → stored w (objectKey crb) = Some crb → gone w' (objectKey crb) ∨ refuses crb.
Proof.
  cbv zeta. revert w. induction l as [|crb l IH]; intros w; cbn [deleteBindings]; [split; [by left|set_solver]|].
  pose proof (Delete_spec w (objectKey crb)) as Hd. destruct (Delete w (objectKey crb)) as [w1 e] eqn:Ed.
  destruct (IH w1) as [IHk IHl]. pose proof (deleteBindings_spec l w1) as Hsp.
  destruct (deleteBindings l w1) as [w2 log]. cbn [fst] in *. destruct Hd as (Hf & Hs & Hn), Hsp as (_ & IHg & _).
  assert (Hhead : stored w1 (objectKey crb) = stored w (objectKey crb) ∨ gone w1 (objectKey crb)).
  { destruct e as [e|]; [left; apply Hf; by right|]. right. intros o Ho. by apply (Hs eq_refl o Ho). }
  split.
  - intros k. destruct (IHk k) as [E|(G & o & Ho & Hk)]; [|right; split; [done|exists o; split; [by right|done]]].
    destruct (decide (k = objectKey crb)) as [->|Hne]; [|left; rewrite E; apply Hf; by left].
    destruct Hhead as [H|H]; [left; congruence|right; split; [by apply IHg|exists crb; split; [by left|done]]].
  - intros o Hin Ho. destruct (decide (objectKey o = objectKey crb)) as [Hk|Hne].
    + rewrite Hk in *. destruct e as [e|]; [|left; apply IHg; intros o' Ho'; by apply (Hs eq_refl o' Ho')].
      destruct (IsNotFound e) eqn:En; [destruct e; try discriminate En; by rewrite (Hn _ eq_refl) in Ho|].
      right. exists w, w1, e. by rewrite Hk.
    + apply elem_of_cons in Hin as [->|Hin]; [done|]. apply (IHl o Hin). rewrite Hf by (by left). done.
Qed.

(** The state of the bindings after the cleanup: the others are as they were, and
    when the bindings could be listed, each leftover is gone, or marked for
    deletion, unless the API server refuses to delete it. *)
Definition cleanedUp (w w' : W) : Prop :=
  (∀ k, stored w' k = stored w k ∨
        gone w' k ∧ ∃ crb, stored w k = Some crb ∧ shouldDeleteLegacyClusterRoleBinding crb = true) ∧
  ∀ items, List w = inr items → ∀ k crb, stored w k = Some crb → shouldDeleteLegacyClusterRoleBinding crb = true →
    gone w' k ∨ refuses crb.

Lemma PerformUpgradeCleanup_cleans w :
  (∀ items, List w = inr items → ∀ crb, crb ∈ items ↔ stored w (objectKey crb) = Some crb) →
  cleanedUp w (PerformUpgradeCleanup w).1.
Proof.
  intros Hlist. unfold PerformUpgradeCleanup, cleanupLegacyClusterRoleBindings, cleanedUp. cbn [fst].
  destruct (List w) as [e|items]; [split; [by left|done]|]. specialize (Hlist items eq_refl).
  set (l := List.filter _ items). destruct (deleteBindings_each l w) as [Hk Hl].
  assert (Hin : ∀ crb, crb ∈ l ↔ stored w (objectKey crb) = Some crb ∧ shouldDeleteLegacyClusterRoleBinding crb = true).
  { intros crb. unfold l. rewrite list_elem_of_In, filter_In, <- list_elem_of_In, Hlist. done. }
  split.
  - intros k. destruct (Hk k) as [?|(G & crb & Hc & <-)]; [by left|right]. split; [done|]. exists crb. by apply Hin.
  - intros items' _ k crb Ho Hs. pose proof (stored_key _ _ _ Ho) as <-. apply Hl; [by apply Hin|done].
Qed.

(** The cleanup after an upgrade touches only bindings that are labelled as the
    operator's and that name a service account of a namespace; when the bindings
    can be listed, each of these is gone afterwards, or marked for deletion, or
    named in the log, whatever happened to the others; and it never stops the
    start. *)
Theorem upgrade_cleanup w :
  (∀ items, List w = inr items → ∀ crb, crb ∈ items ↔ stored w (objectKey crb) = Some crb) →
  let '(w', log) := cleanupLegacyClusterRoleBindings w in
  (PerformUpgradeCleanup w).2 = Ok tt ∧ (PerformUpgradeCleanup w).1 = w' ∧
  (∀ k, stored w' k = stored w k ∨ ∃ crb, stored w k = Some crb ∧ shouldDeleteLegacyClusterRoleBinding crb = true) ∧
  (is_ok (match List w with inl e => Err (apiErr e) | inr items => Ok items end) = true →
   ∀ k crb, stored w k = Some crb → shouldDeleteLegacyClusterRoleBinding crb = true → gone w' k ∨ k ∈ log.*1).
Proof.
  intros Hlist. unfold PerformUpgradeCleanup, cleanupLegacyClusterRoleBindings.
  destruct (List w) as [e|items]; [split_and!; [done|done|by left|done]|]. specialize (Hlist items eq_refl).
  set (l := List.filter _ items). pose proof (deleteBindings_spec l w) as H. destruct (deleteBindings l w) as [w' log].
  destruct H as (Hf & _ & Hl).
  assert (Hin : ∀ crb, crb ∈ l ↔ stored w (objectKey crb) = Some crb ∧ shouldDeleteLegacyClusterRoleBinding crb = true).
  { intros crb. unfold l. rewrite list_elem_of_In, filter_In, <- list_elem_of_In, Hlist. done. }
  split_and!; [done|done| |].
  - intros k. destruct (stored w k) as [crb|] eqn:E.
    + destruct (shouldDeleteLegacyClusterRoleBinding crb) eqn:Es; [right; by exists crb|left].
      rewrite <- E. apply Hf. intros crb' [H1 H2]%Hin <-. rewrite H1 in E. congruence.
    + left. rewrite <- E. apply Hf. intros crb' [H1 _]%Hin <-. congruence.
  - intros _ k crb Hk Hs. pose proof (stored_key _ _ _ Hk) as <-. apply Hl. by apply Hin.
Qed.
End cleanup.

(** ** The manager of [main.go] *)

(** A filter has authentication and authorization. *)
Record MetricsOptions := {
  MO_BindAddress : string;
  MO_TLSOpts : list option_fn;
  MO_SecureServing : bool;
  MO_CertDir : string;
  MO_Filter : bool;
}.

Definition buildMetricsOptions (addr certPath : string) (tlsOpts : list option_fn) : MetricsOptions :=
  let secure := negb (bool_decide (certPath = "")) in
  {| MO_BindAddress := addr; MO_TLSOpts := tlsOpts; MO_SecureServing := secure;
     MO_CertDir := if secure then certPath else ""; MO_Filter := secure |}.

(** The label that an object of a kind must have for the cache to hold it: the
    objects of the other kinds are all held. *)
Definition managedByFilter : string * string := (managedByLabelKey, "ogx-operator"%string).
Definition watchFilter : string * string := (WatchLabelKey, WatchLabelValue).

Definition newCacheOptions (kind : string) : option (string * string) :=
  if bool_decide (kind ∈ ["ConfigMap"; "Secret"]) then Some watchFilter
  else if bool_decide (kind ∈ ["Deployment"; "PodDisruptionBudget"; "HorizontalPodAutoscaler"; "Service"; "Job";
                               "NetworkPolicy"; "Ingress"; "PersistentVolumeClaim"]) then Some managedByFilter
  else None.

(** What the operator reads through the client of its manager. *)
Definition cached (kind : string) (labels : gmap string string) : bool :=
  match newCacheOptions kind with
  | Some (key, value) => bool_decide (labels !! key = Some value)
  | None => true
  end.

Record ManagerOptions := {
  Mgr_Metrics : MetricsOptions;
  Mgr_HealthProbeBindAddress : string;
  Mgr_LeaderElection : bool;
  Mgr_LeaderElectionID : string;
  Mgr_WebhookTLSOpts : list option_fn;
}.

Definition errTLSProfileChanged : error := New "TLS profile changed, restarting".

Section main.
Context {MR : MapRange}.
Context (namespaceEnv : option string) (namespaceFile : string * option error) (Getenv : string → string)
  (json_strings : string → result (gmap string string)) (embeddedDistributions : string)
  (yaml_strings : string → result (gmap string string)) (ParseReference : string → result unit).
Context {WB WC : Type} `{!Client WB ClusterRoleBinding, !Client WC ConfigMapObject}.
Context (List : WB → apiError + list ClusterRoleBinding).
(** How the calls of the libraries end: the configuration, the clients and the
    manager; the webhook with the names of the distributions and the controller
    with its image overrides; the checks of health and readiness; the watcher. *)
Context (GetConfig newManager newClient : result unit) (SetupWebhookWithManager : list string → result unit)
  (SetupController : ClusterInfo → gmap string string → result unit) (healthz readyz registered : result unit).

(** The cluster, and the options of the manager once it is started. *)
Record state := { bindings : WB; configMaps : WC; started : option ManagerOptions }.

Definition onBindings {A} : M WB A → M state A :=
  zoom bindings (λ b s, {| bindings := b; configMaps := configMaps s; started := started s |}).
Definition onConfigMaps {A} : M WC A → M state A :=
  zoom configMaps (λ c s, {| bindings := bindings s; configMaps := c; started := started s |}).

Definition setupWebhook (info : ClusterInfo) : result unit :=
  SetupWebhookWithManager ((range (DistributionImages info)).*1).

Definition setupReconciler (info : ClusterInfo) : M state unit :=
  operatorNamespace ← wrapM "failed to get operator namespace: %w" [] (pureM (GetOperatorNamespace namespaceEnv namespaceFile));
  configMap ← wrapM "failed to initialize operator config: %w" [] (onConfigMaps (InitializeOperatorConfigMap operatorNamespace));
  wrapM "failed to create controller: %w" []
    (pureM (SetupController info (ParseImageMappingOverrides yaml_strings ParseReference (CM_Data configMap)))).

Definition setupHealthChecks : result unit :=
  _ ← wrap "failed to set up health check: %w" [] healthz;
  wrap "failed to set up ready check: %w" [] readyz.

Definition setupComponents : M state unit :=
  _ ← wrapM "failed to set up clients: %w" [] (pureM newClient);
  clusterInfo ← wrapM "failed to initialize cluster config: %w" []
                  (pureM (NewClusterInfo namespaceEnv namespaceFile Getenv json_strings embeddedDistributions));
  _ ← wrapM "failed to perform upgrade cleanup: %w" [] (onBindings (PerformUpgradeCleanup List));
  _ ← wrapM "failed to set up webhook: %w" [] (pureM (setupWebhook clusterInfo));
  _ ← wrapM "failed to set up reconciler: %w" [] (setupReconciler clusterInfo);
  pureM setupHealthChecks.

(** [mgr.Start] returns when the manager stops. *)
Definition startManager (opts : ManagerOptions) (stopped : result unit) : M state unit := λ s,
  ({| bindings := bindings s; configMaps := configMaps s; started := Some opts |}, stopped).

(** The result of [Resolve], and how the run of the manager ends: its error, and
    whether the context is done then. *)
Definition run (metricsAddr probeAddr metricsCertPath : string) (enableLeaderElection : bool)
    (tls : result Result) (stopped : result unit) (done : bool) : M state unit :=
  _ ← wrapM "failed to get kubeconfig: %w" [] (pureM GetConfig);
  tlsResult ← wrapM "failed to set up TLS: %w" [] (pureM tls);
  let opts :=
    {| Mgr_Metrics := buildMetricsOptions metricsAddr metricsCertPath (TLSOpts tlsResult);
       Mgr_HealthProbeBindAddress := probeAddr; Mgr_LeaderElection := enableLeaderElection;
       Mgr_LeaderElectionID := "54e06e98.ogx.io"; Mgr_WebhookTLSOpts := TLSOpts tlsResult |} in
  _ ← wrapM "failed to start manager: %w" [] (pureM newManager);
  _ ← setupComponents;
  _ ← pureM (default (Ok tt) (SetupWatcher registered (Some tlsResult)));
  _ ← startManager opts stopped;
  if done && HasOpenShiftConfigAPI tlsResult then raise errTLSProfileChanged else mret tt.

(** ** What holds once the manager runs *)

Context `{BL : !ClientLaws WB ClusterRoleBinding, CL : !ClientLaws WC ConfigMapObject}.
#[local] Set Default Proof Using "Type*".

Lemma setupReconciler_run info s :
  let '(s', r) := setupReconciler info s in
  bindings s' = bindings s ∧ started s' = started s ∧
  (is_ok r = true → ∃ ns, GetOperatorNamespace namespaceEnv namespaceFile = Ok ns ∧ initialized ns (configMaps s) (configMaps s')).
Proof.
  unfold setupReconciler. rewrite bindM_run, wrapM_run. cbn [pureM fst snd].
  destruct (GetOperatorNamespace namespaceEnv namespaceFile) as [ns|e]; cbn [wrap]; [|done]. rewrite bindM_run, wrapM_run. unfold onConfigMaps. rewrite zoom_run.
  cbn [fst snd]. destruct (InitializeOperatorConfigMap ns (configMaps s)) as [c r] eqn:E. cbn [fst snd].
  destruct (initialize_put _ _ _ _ E) as [_ Hi]. destruct r as [cm|e]; cbn [wrap]; [|done].
  rewrite wrapM_run. cbn. split_and!; [done|done|]. intros _. exists ns. split; [done|by apply Hi].
Qed.

Lemma setupComponents_run s :
  let '(s', r) := setupComponents s in
  started s' = started s ∧
  (is_ok r = true → bindings s' = (PerformUpgradeCleanup List (bindings s)).1 ∧
    ∃ ns, GetOperatorNamespace namespaceEnv namespaceFile = Ok ns ∧ initialized ns (configMaps s) (configMaps s')).
Proof.
  unfold setupComponents. rewrite bindM_run, wrapM_run. cbn [pureM fst snd].
  destruct newClient as [[]|e]; cbn [wrap]; [|done]. rewrite bindM_run, wrapM_run. cbn [pureM fst snd].
  destruct (NewClusterInfo _ _ _ _ _) as [info|e]; cbn [wrap]; [|done]. rewrite bindM_run, wrapM_run.
  unfold onBindings. rewrite zoom_run. cbn [PerformUpgradeCleanup fst snd wrap]. rewrite bindM_run, wrapM_run. cbn [pureM fst snd].
  destruct (setupWebhook info) as [[]|e]; cbn [wrap]; [|done]. rewrite bindM_run, wrapM_run.
  match goal with |- context [setupReconciler info ?s1] => pose proof (setupReconciler_run info s1) as H;
    destruct (setupReconciler info s1) as [s2 r] end.
  cbn [fst snd]. destruct H as (Hb & Hs & Hi). destruct r as [[]|e]; cbn [wrap]; [|done].
  cbn [pureM]. split; [done|]. intros _. split; [done|by apply Hi].
Qed.

End main.

(** A termination signal ends the context too: on a cluster with profiles an
    orderly stop is reported as a change of the profile, and the process fails. *)
Lemma sigterm_fails {MR : MapRange} {WB WC : Type} `{!Client WB ClusterRoleBinding, !Client WC ConfigMapObject}
    (List : WB → apiError + list ClusterRoleBinding) addr probe cert leader res
    namespaceEnv namespaceFile Getenv json_strings embedded yaml_strings ParseReference newClient webhook controller healthz readyz s :
  HasOpenShiftConfigAPI res = true →
  (setupComponents namespaceEnv namespaceFile Getenv json_strings embedded yaml_strings ParseReference List newClient webhook controller healthz readyz s).2 = Ok tt →
  (run namespaceEnv namespaceFile Getenv json_strings embedded yaml_strings ParseReference List (Ok tt) (Ok tt) newClient webhook controller healthz readyz
     (Ok tt) addr probe cert leader (Ok res) (Ok tt) true s).2 = Err errTLSProfileChanged.
Proof.
  intros Ha Hs. unfold run. rewrite bindM_run, wrapM_run. cbn [pureM fst snd wrap]. rewrite bindM_run, wrapM_run.
  cbn [pureM fst snd wrap]. cbv zeta. rewrite bindM_run, wrapM_run. cbn [pureM fst snd wrap]. rewrite bindM_run, Hs.
  rewrite bindM_run. cbn. by rewrite Ha.
Qed.
