(* ===== verification/Cache.v ===== *)
(** * What the operator sees

    The client of the manager reads from a cache that holds, of most kinds, only
    objects with a label ([newCacheOptions] of [main.go]).  Everything that the
    operator makes must carry the label of its kind, or it is not found again; and
    what others made without it is not found at all. *)

From Stdlib Require Import ZArith.
From S2P Require Import Prelude Value ApiProviders ApiServer Hash Fmt Common Client Action Objects Workload Pointer NetworkPolicy Kustomize KustomizeFacts Manifests ConfigMaps GeneratedConfig CABundle NetworkResources Migration Adoption OperatorConfig Startup.

#[local] Open Scope Z_scope.

(** ** Rendering keeps the labels *)

Section rendering.
Context `{KU : Kustomize} (QuantityString : string → string).
Context (instance : OGXServer) (Hname : Server_Name instance ≠ "") (Hns : Meta_Namespace (Server_Meta instance) ≠ "").
Context (Hkinds : namespacedKinds (KU := KU)) (ctx : ManifestContext) (operatorNS : result string).
Context (HPAToUnstructured : HPASpec → result object).
#[local] Set Default Proof Using "Type*".

(** Only the spec changes. *)
Definition specOnly (d d' : object) : Prop := ∀ k, k ≠ "spec" → d' !! k = d !! k.

Lemma specOnly_insert d x : specOnly d (<["spec" := x]> d).
Proof using Type. intros k Hk. by rewrite lookup_insert_ne. Qed.

Lemma specOnly_trans d1 d2 d3 : specOnly d1 d2 → specOnly d2 d3 → specOnly d1 d3.
Proof using Type. intros H12 H23 k Hk. by rewrite H23, H12. Qed.

Lemma policyView_spec config d d' : policyView config d = Some d' → specOnly d d'.
Proof using Type.
  unfold policyView. destruct (negb _); [by intros [= <-]|]. unfold transformData.
  destruct (index d "spec"); try discriminate; intros [= <-]; apply specOnly_insert.
Qed.

Lemma serviceView_spec config d d' : serviceView config d = Some d' → specOnly d d'.
Proof using Type.
  unfold serviceView. destruct (negb _); [by intros [= <-]|]. destruct (_ || _); [by intros [= <-]|].
  destruct (as_object _); [|by intros [= <-]]. destruct (as_list _); intros [= <-]; [apply specOnly_insert|done].
Qed.

Lemma replicasView_spec d d' : (if isAutoscalingEnabled instance then replicasView d else Some d) = Some d' → specOnly d d'.
Proof using Type.
  destruct (isAutoscalingEnabled instance); [|by intros [= <-]]. unfold replicasView. destruct (negb _); [by intros [= <-]|].
  destruct (as_object _) as [spec|]; [|by intros [= <-]]. destruct (spec !! _); intros [= <-]; [apply specOnly_insert|done].
Qed.

Lemma enhanceView_spec d d' : enhanceView HPAToUnstructured ctx d = Some d' → specOnly d d'.
Proof using Type.
  unfold enhanceView. repeat case_bool_decide.
  - unfold deploymentView. intros (t & _ & E)%bind_Some. cbv zeta in E.
    set (d1 := match MC_PodSpec ctx with Some _ => _ | None => d end) in E.
    assert (H1 : specOnly d d1) by (unfold d1; destruct (MC_PodSpec ctx); [apply specOnly_insert|done]).
    apply (specOnly_trans _ d1); [done|]. unfold addConfigMapAnnotations in E.
    destruct (as_object _); [|done]. destruct (as_object _); [|done]. injection E as <-. apply specOnly_insert.
  - unfold budgetView. destruct (MC_PodDisruptionBudgetSpec ctx); [|by intros [= <-]].
    intros (spec & _ & [= <-])%bind_Some. apply specOnly_insert.
  - unfold autoscalerView. destruct (MC_HPASpec ctx); [|by intros [= <-]].
    intros (spec & _ & [= <-])%bind_Some. apply specOnly_insert.
  - by intros [= <-].
Qed.

(** What no stage writes to: the paths that diverge from all that it does. *)
Definition untouched (path : list string) : Prop :=
  Forall (λ q, diverges path q = true)
    (["metadata"; "name"] :: ["metadata"; "namespace"] ::
     (pointerTokens ∘ TargetField <$> fieldMappings QuantityString instance (GetServicePort instance))).

Lemma labels_untouched path : path ∈ [["kind"]; ["metadata"; "labels"]] → untouched path.
Proof using Type.
  intros Hpath. unfold untouched, fieldMappings. destruct (workload instance ≫= WL_Storage);
    (repeat (apply elem_of_cons in Hpath as [->|Hpath]); [..|by apply not_elem_of_nil in Hpath]);
    repeat (apply Forall_cons; split; [vm_compute; reflexivity|]); apply Forall_nil; exact I.
Qed.

Lemma putIn_untouched path q x d d' : diverges path q = true → putIn q x d = Some d' →
  lookupAt path (AMap d') = lookupAt path (AMap d).
Proof using Type. intros Hd Hp%putIn_Some. by apply (lookupAt_putPath_ne _ _ _ _ _ Hd Hp). Qed.

Lemma mappingsView_untouched path l d d' :
  Forall (λ q, diverges path q = true) (pointerTokens ∘ TargetField <$> l) → mappingsView l d = Some d' →
  lookupAt path (AMap d') = lookupAt path (AMap d).
Proof using Type.
  revert d. induction l as [|m l IH]; intros d; [by intros _ [= <-]|]. cbn [fmap list_fmap mappingsView].
  intros [Hm Hl]%Forall_cons (d1 & H1 & H2)%bind_Some. rewrite (IH d1 Hl H2). unfold mappingView in H1. cbv zeta in H1.
  destruct (_ || _); [by injection H1 as <-|]. by apply (putIn_untouched _ _ _ _ _ Hm H1).
Qed.

Lemma stages_labels b d path : path ∈ [["kind"]; ["metadata"; "labels"]] →
  mapped QuantityString instance b = Some d → lookupAt path (AMap d) = lookupAt path (AMap b).
Proof using Type.
  intros Hpath Hd. pose proof (labels_untouched path Hpath) as Hu. unfold untouched in Hu.
  apply Forall_cons in Hu as [Hu1 Hu]. apply Forall_cons in Hu as [Hu2 Hu]. unfold mapped in Hd.
  apply bind_Some in Hd as (d1 & H1 & Hd). apply bind_Some in Hd as (d2 & H2 & H3).
  rewrite (mappingsView_untouched _ _ _ _ Hu H3), (putIn_untouched _ _ _ _ _ Hu2 H2). unfold prefixView in H1.
  destruct (_ || _); [by injection H1 as <-|]. by apply (putIn_untouched _ _ _ _ _ Hu1 H1).
Qed.

Lemma rendered_labels b d path : b ∈ baseManifests → path ∈ [["kind"]; ["metadata"; "labels"]] →
  renderView QuantityString HPAToUnstructured instance (Some ctx) operatorNS b = Some d →
  lookupAt path (AMap d) = lookupAt path (AMap b).
Proof.
  intros Hb Hpath Hd. unfold renderView in Hd. rewrite pluginsView_mapped in Hd by done.
  apply bind_Some in Hd as (d3 & Hd3 & Hd). apply bind_Some in Hd3 as (d0 & H0 & Hd3).
  rewrite <- (stages_labels b d0 path Hpath H0). apply bind_Some in Hd3 as (d1 & H1%policyView_spec & Hd3). apply bind_Some in Hd3 as (d2 & H2%serviceView_spec & H3%replicasView_spec).
  apply enhanceView_spec in Hd.
  assert (specOnly d0 d) as Hs by (repeat (eapply specOnly_trans; [done|]); done).
  destruct path as [|k path]; [by set_unfold in Hpath; naive_solver|]. cbn [lookupAt child]. rewrite Hs; [done|].
  intros ->. set_unfold in Hpath. naive_solver.
Qed.
(** Evaluates the first stages on a base manifest: the name, the namespace and the
    sizes are empty or not. *)
Ltac evaluateStages :=
  unfold mapped, fieldMappings, buildFieldMappings;
  generalize (GetServicePort instance), (getStorageSize QuantityString instance), (QuantityString DefaultStorageSize);
  intros port size size';
  destruct (Server_Name instance) as [|c n]; [try done|..]; destruct (Meta_Namespace (Server_Meta instance)) as [|c' ns]; try done;
  destruct (workload instance ≫= WL_Storage), size, size';
  unfold prefixView; first [rewrite prefix_dash by (vm_compute; reflexivity)|destruct (String.prefix _ _)]; vm_compute; reflexivity.

Lemma pvc_kind : field (mapped QuantityString instance pvcManifest) ["kind"] = Some (AString "PersistentVolumeClaim").
Proof. evaluateStages. Qed.

Lemma hpa_kind : field (mapped QuantityString instance hpaManifest) ["kind"] = Some (AString "HorizontalPodAutoscaler").
Proof. evaluateStages. Qed.
Lemma rule_kind : field (mapped QuantityString instance prometheusRuleManifest) ["kind"] = Some (AString "PrometheusRule").
Proof. evaluateStages. Qed.

Lemma monitor_kind : field (mapped QuantityString instance serviceMonitorManifest) ["kind"] = Some (AString "ServiceMonitor").
Proof. evaluateStages. Qed.

Abbreviation tree b := (renderView QuantityString HPAToUnstructured instance (Some ctx) operatorNS b).

Lemma field_defined b path x : rendered QuantityString instance ctx operatorNS HPAToUnstructured b path = Some x → is_Some (tree b).
Proof using Type. unfold rendered, field. destruct (tree b); [by eexists|done]. Qed.

Lemma plain_defined b : b ∈ baseManifests →
  kindOf b ∉ ["Service"; "NetworkPolicy"; "Deployment"; "PodDisruptionBudget"; "HorizontalPodAutoscaler"] →
  field (mapped QuantityString instance b) ["kind"] = Some (AString (kindOf b)) → is_Some (tree b).
Proof. intros Hb Hk Hf. apply (field_defined b ["kind"] (AString (kindOf b))). by rewrite rendered_mapped. Qed.

Lemma autoscaler_defined :
  (∀ spec, MC_HPASpec ctx = Some spec → is_ok (HPAToUnstructured spec) = true) → is_Some (tree hpaManifest).
Proof.
  intros Hok. unfold renderView. rewrite pluginsView_mapped by (done || inBase). pose proof hpa_kind as Hk.
  destruct (mapped QuantityString instance hpaManifest) as [d|]; [|done].
  assert (kindOf d = "HorizontalPodAutoscaler") as Hd by (unfold kindOf, textAt; cbn [field mbind option_bind] in Hk; by rewrite Hk).
  cbn [mbind option_bind]. rewrite policyView_other by by rewrite Hd. cbn [mbind option_bind].
  rewrite serviceView_other by by rewrite Hd. cbn [mbind option_bind].
  rewrite (scaling_other instance) by by rewrite Hd. cbn [mbind option_bind]. unfold enhanceView. rewrite Hd.
  rewrite !(bool_decide_eq_false_2 (_ = _)), (bool_decide_eq_true_2 (_ = _)) by done. unfold autoscalerView.
  destruct (MC_HPASpec ctx) as [spec|] eqn:E; [|by eexists]. specialize (Hok spec eq_refl).
  destruct (HPAToUnstructured spec); [by eexists|done].
Qed.

Lemma tree_defined b : b ∈ baseManifests →
  (∀ spec, MC_HPASpec ctx = Some spec → is_ok (HPAToUnstructured spec) = true) → is_Some (tree b).
Proof.
  intros Hb Hok. unfold baseManifests in Hb. repeat (apply elem_of_cons in Hb as [->|Hb]); [..|by apply not_elem_of_nil in Hb].
  - apply plain_defined; [inBase|vm_compute; set_solver|exact pvc_kind].
  - apply plain_defined; [inBase|vm_compute; set_solver|]. rewrite (serviceAccount_mapped QuantityString instance Hname Hns) by set_solver. done.
  - eapply field_defined. apply (rendered_service QuantityString instance Hname Hns Hkinds).
  - eapply field_defined. apply (rendered_policy QuantityString instance Hname Hns Hkinds).
  - eapply field_defined. apply (rendered_deployment QuantityString instance Hname Hns Hkinds).
  - by apply autoscaler_defined.
  - eapply field_defined. apply (rendered_budget QuantityString instance Hname Hns Hkinds).
  - apply plain_defined; [inBase|vm_compute; set_solver|]. rewrite (roleBinding_mapped QuantityString instance Hname Hns) by set_solver. done.
  - apply plain_defined; [inBase|vm_compute; set_solver|exact rule_kind].
  - apply plain_defined; [inBase|vm_compute; set_solver|exact monitor_kind].
Qed.
End rendering.

(** ** The operator sees what it makes *)

(** The label by which the cache holds a manifest of its kind. *)
Definition visible `{KU : Kustomize} (r : Resource) : Prop :=
  match newCacheOptions (kindOf (view r)) with
  | Some (key, value) => at_ r ["metadata"; "labels"; key] = Some (AString value)
  | None => True
  end.

Definition visibleTree (d : object) : Prop :=
  match newCacheOptions (kindOf d) with
  | Some (key, value) => lookupAt ["metadata"; "labels"; key] (AMap d) = Some (AString value)
  | None => True
  end.

Lemma base_visible : Forall visibleTree baseManifests.
Proof. repeat (apply Forall_cons; split; [vm_compute; (reflexivity || exact I)|]). apply Forall_nil. exact I. Qed.

Section cache.
Context `{KL : KustomizeLaws, JL : JSONPointerLaws} (QuantityString : string → string).
Context (IsDNS1123Label : string → list string).
Context (Exists : string → bool) (Run : string → result (list Resource)) (HPAToUnstructured : HPASpec → result object).
#[local] Set Default Proof Using "Type*".

Lemma manifests_visible path instance ctx operatorNS out :
  Server_Name instance ≠ "" → Meta_Namespace (Server_Meta instance) ≠ "" → namespacedKinds → loadsBase Run →
  (∀ spec, MC_HPASpec ctx = Some spec → is_ok (HPAToUnstructured spec) = true) →
  RenderManifestWithContext IsDNS1123Label QuantityString Exists Run HPAToUnstructured path instance (Some ctx) operatorNS = Ok out →
  Forall visible out.
Proof.
  intros Hn Hns Hk Hb Hok Hout. destruct (render_refine _ _ _ _ _ _ _ _ _ _ Hout) as (base & Hrun & Hall).
  assert (view <$> base = baseManifests) as Hbase by by destruct Hrun as [Hrun|Hrun]; apply Hb in Hrun.
  apply Forall_forall. intros r (i & Hi)%list_elem_of_lookup_1. destruct (Forall2_lookup_r _ _ _ _ _ Hall Hi) as (b & Hbi & Hr).
  assert (view b ∈ baseManifests) as Hin by (rewrite <- Hbase; apply list_elem_of_fmap_2; by eapply list_elem_of_lookup_2).
  destruct (tree_defined QuantityString instance Hn Hns Hk ctx operatorNS HPAToUnstructured (view b) Hin Hok) as [d Hd].
  rewrite <- (Hr d Hd) in Hd. pose proof base_visible as Hv. rewrite Forall_forall in Hv. specialize (Hv (view b) Hin).
  assert (∀ path, path ∈ [["kind"]; ["metadata"; "labels"]] → lookupAt path (AMap (view r)) = lookupAt path (AMap (view b))) as Hlabels.
  { intros p Hp. by eapply rendered_labels. }
  assert (kindOf (view r) = kindOf (view b)) as Hkind.
  { unfold kindOf, textAt. by rewrite (Hlabels ["kind"] ltac:(set_solver)). }
  unfold visible, visibleTree, at_ in *. rewrite Hkind. destruct (newCacheOptions (kindOf (view b))) as [[key value]|]; [|done].
  change ["metadata"; "labels"; key] with (["metadata"; "labels"] ++ [key]) in *. rewrite lookupAt_app in *.
  by rewrite (Hlabels ["metadata"; "labels"] ltac:(set_solver)).
Qed.

(** C5. Whatever the operator makes, it sees again: each object that it builds has the
    label by which the cache of its manager holds the objects of that kind.  This
    is so for every manifest of an instance, however it is rendered, for the
    managed CA bundle, the generated configuration and the operator's own
    ConfigMap, and for the Job of the migration and the Ingress. *)
Theorem own_objects_cached path instance ctx operatorNS out :
  Server_Name instance ≠ "" → Meta_Namespace (Server_Meta instance) ≠ "" → namespacedKinds → loadsBase Run →
  (∀ spec, MC_HPASpec ctx = Some spec → is_ok (HPAToUnstructured spec) = true) →
  RenderManifestWithContext IsDNS1123Label QuantityString Exists Run HPAToUnstructured path instance (Some ctx) operatorNS = Ok out →
  Forall visible out ∧
  (∀ data, cached "ConfigMap" (Obj_Labels (CM_Meta (desiredCABundle instance data))) = true) ∧
  (∀ name data, cached "ConfigMap" (Obj_Labels (CM_Meta (buildGeneratedConfigMap instance name data))) = true) ∧
  (∀ ns, cached "ConfigMap" (Obj_Labels (CM_Meta (newOperatorConfigMap ns))) = true) ∧
  (∀ job attempt container volumes, cached "Job" (Job_Labels (newMigrationJob instance job attempt container volumes)) = true) ∧
  (∀ SetControllerReference ing, NetworkResources.setsController SetControllerReference →
     buildIngress SetControllerReference instance = Ok ing → cached "Ingress" (Ing_Labels ing) = true).
Proof.
  intros Hn Hns Hk Hb Hok Hout. split; [by eapply manifests_visible|].
  assert (Hlookup : ∀ kind (labels : gmap string string) key value, newCacheOptions kind = Some (key, value) →
    labels !! key = Some value → cached kind labels = true).
  { intros kind labels key value H1 H2. unfold cached. rewrite H1. by apply bool_decide_eq_true. }
  split_and!.
  - intros data. apply (Hlookup _ _ WatchLabelKey WatchLabelValue); [reflexivity|]. cbn. by rewrite !lookup_insert_ne, lookup_insert_eq by done.
  - intros name data. apply (Hlookup _ _ WatchLabelKey WatchLabelValue); [reflexivity|]. cbn. by rewrite !lookup_insert_ne, lookup_insert_eq by done.
  - intros ns. apply (Hlookup _ _ WatchLabelKey WatchLabelValue); [reflexivity|]. cbn. apply lookup_insert_eq.
  - intros job attempt container volumes. apply (Hlookup _ _ managedByLabelKey "ogx-operator"%string); [reflexivity|]. cbn. apply lookup_insert_eq.
  - intros set ing Hset E. apply (Hlookup _ _ managedByLabelKey "ogx-operator"%string); [reflexivity|].
    unfold buildIngress in E. destruct (externalAccessIsSafeToExpose instance); [|done].
    destruct (externalAccess instance); [|done]. apply wrap_Ok, Hset in E as ->. cbn. apply lookup_insert_eq.
Qed.
End cache.

(** ** What it does not see *)

(** The label of the operator before its rename (specs/003-ogx-rename). *)
Definition legacyManagedBy : string := "llama-stack-operator".

(** Nothing of these kinds that still carries it is in the cache. *)
Lemma legacy_invisible kind labels :
  kind ∈ ["Deployment"; "Service"; "Ingress"; "PersistentVolumeClaim"] →
  labels !! managedByLabelKey = Some legacyManagedBy → cached kind labels = false.
Proof.
  intros Hk Hl. unfold cached. assert (newCacheOptions kind = Some managedByFilter) as ->.
  { repeat (apply elem_of_cons in Hk as [->|Hk]; [vm_compute; reflexivity|]). by apply not_elem_of_nil in Hk. }
  cbn. apply bool_decide_eq_false. by rewrite Hl.
Qed.

(** The storage of a server is adopted by name; when the claim is not seen, the
    adoption is over, with nothing adopted and nothing said. *)
Lemma hidden_claim_skipped {WV WS WI WD WP : Type}
    `{!Client WV (Object any), !Lister WV (Object any), !Client WS (Object ServiceSpec), !Lister WS (Object ServiceSpec),
      !Client WI (Object any), !Lister WI (Object any), !Client WD (Object DeploymentSpec), !Patcher WD (Object DeploymentSpec),
      !Client WP (Object any), !Lister WP (Object any)}
    now instance legacyName (s : @Adoption.state WV WS WI WD WP) e :
  Get (pvcs s) (Meta_Namespace (Server_Meta instance), legacyName +:+ "-pvc")%string = inl (NotFound e) →
  adoptStorage now instance legacyName s = (s, Ok noRequeue).
Proof.
  intros Hg. unfold adoptStorage. rewrite bindM_run. unfold inPVCs. rewrite zoom_run. unfold getIfExists. cbn [fst snd].
  rewrite Hg. cbn. by destruct s.
Qed.
