(* ===== verification/Wiring.v ===== *)
(** * Whom events wake up

    The method [SetupWithManager] of [controllers/ogxserver_controller.go]: the
    kinds of objects whose events reach the controller, for its own objects by
    their owner.  Events come from the cache of the manager, so an object without
    the label of its kind has none. *)

From S2P Require Import Prelude Value ApiProviders ApiServer Common Fmt Client Action Objects ConfigMaps Workload Pointer NetworkPolicy Kustomize KustomizeFacts Manifests Apply ApplyFacts Watches OperatorConfig Startup Cache.

(** ** The watches *)

(** [Owns(...)] *)
Definition ownedKinds : list string :=
  ["Deployment"; "PodDisruptionBudget"; "HorizontalPodAutoscaler"; "Service"; "ConfigMap"; "Job"; "NetworkPolicy";
   "Ingress"; "PersistentVolumeClaim"].

(** The event of an object of some type: it is a server, or it is not. *)
Definition ogxServerUpdatePredicate (old new : option OGXServer) : bool :=
  match old with
  | None => false
  | Some _ => match new with None => false | Some _ => true end
  end.

Definition apiGroup : string := "ogx.io".

(** [handler.EnqueueRequestForOwner] with [OnlyControllerOwner]: the group is the
    part of the API version before the slash. *)
Definition ownerRequest (meta : Metadata) : list NamespacedName :=
  match GetControllerOf meta with
  | Some r =>
      if String.prefix (apiGroup +:+ "/") (Owner_APIVersion r) && bool_decide (Owner_Kind r = OGXServerKind)
      then [(Obj_Namespace meta, Owner_Name r)] else []
  | None => []
  end.

(** An update is looked at before and after. *)
Definition ownerRequests (e : watchEvent Metadata) : list NamespacedName :=
  match e with
  | UpdateEvent old new => ownerRequest old ++ ownerRequest new
  | CreateEvent o | DeleteEvent o | GenericEvent o => ownerRequest o
  end.

(** The requests of an event of an object of this kind, through [Owns]. *)
Definition ownedRequests (kind : string) (e : watchEvent Metadata) : list NamespacedName :=
  if cached kind (Obj_Labels (eventObject e)) && bool_decide (kind ∈ ownedKinds) then ownerRequests e else [].

(** The states of the object that an event is about. *)
Definition eventObjects {O} (e : watchEvent O) : list O :=
  match e with UpdateEvent old new => [old; new] | CreateEvent o | DeleteEvent o | GenericEvent o => [o] end.

Lemma eventObject_in {O} (e : watchEvent O) : eventObject e ∈ eventObjects e.
Proof. destruct e; set_solver. Qed.

Lemma ownerRequests_objects e : ownerRequests e = eventObjects e ≫= ownerRequest.
Proof. by destruct e; cbn; rewrite app_nil_r. Qed.

(** ** The manifests *)

(** The manifests that are not watched: a change of one is only repaired by the next
    reconciliation. *)
Lemma unwatched_manifests :
  filter (λ d, kindOf d ∉ ownedKinds) baseManifests =
  [serviceAccountManifest; roleBindingManifest; prometheusRuleManifest; serviceMonitorManifest].
Proof. vm_compute. reflexivity. Qed.

Section namespaces.
Context `{KL : KustomizeLaws, JL : JSONPointerLaws} (QuantityString : string → string).
Context (IsDNS1123Label : string → list string).
Context (Exists : string → bool) (Run : string → result (list Resource)) (HPAToUnstructured : HPASpec → result object).
Context (instance : OGXServer) (Hname : Server_Name instance ≠ "") (Hns : Meta_Namespace (Server_Meta instance) ≠ "").
Context (Hkinds : namespacedKinds (KU := H)) (ctx : ManifestContext) (operatorNS : result string).
#[local] Set Default Proof Using "Type*".

Definition namespacePath : list string := ["metadata"; "namespace"].

(** No field of the spec is written to the namespace, and no later stage writes there. *)
Lemma mapped_namespace b d : mapped QuantityString instance b = Some d →
  lookupAt namespacePath (AMap d) = Some (AString (Meta_Namespace (Server_Meta instance))).
Proof using Type.
  unfold mapped. intros (d1 & _ & Hd)%bind_Some. apply bind_Some in Hd as (d2 & H2 & H3).
  rewrite (mappingsView_untouched namespacePath (fieldMappings QuantityString instance (GetServicePort instance)) d2 d); [| |exact H3].
  - apply putIn_Some in H2. by apply lookupAt_putPath in H2.
  - unfold fieldMappings. destruct (workload instance ≫= WL_Storage);
      repeat (apply Forall_cons; split; [vm_compute; reflexivity|]); apply Forall_nil; exact I.
Qed.

Lemma rendered_namespace b d : b ∈ baseManifests →
  renderView QuantityString HPAToUnstructured instance (Some ctx) operatorNS b = Some d →
  lookupAt namespacePath (AMap d) = Some (AString (Meta_Namespace (Server_Meta instance))).
Proof.
  intros Hb Hd. unfold renderView in Hd. rewrite pluginsView_mapped in Hd by done.
  apply bind_Some in Hd as (d3 & Hd3 & Hd). apply bind_Some in Hd3 as (d0 & Hd0 & Hd3).
  rewrite <- (mapped_namespace b d0 Hd0). apply bind_Some in Hd3 as (d1 & H1%policyView_spec & Hd3).
  apply bind_Some in Hd3 as (d2 & H2%serviceView_spec & H3%replicasView_spec). apply enhanceView_spec in Hd.
  assert (specOnly d0 d) as Hs by (repeat (eapply specOnly_trans; [done|]); done).
  unfold namespacePath. cbn [lookupAt child]. by rewrite Hs.
Qed.

Lemma manifests_namespaced path out :
  loadsBase Run → (∀ spec, MC_HPASpec ctx = Some spec → is_ok (HPAToUnstructured spec) = true) →
  RenderManifestWithContext IsDNS1123Label QuantityString Exists Run HPAToUnstructured path instance (Some ctx) operatorNS = Ok out →
  Forall (λ r, at_ r namespacePath = Some (AString (Meta_Namespace (Server_Meta instance)))) out.
Proof.
  intros Hb Hok Hout. destruct (render_refine _ _ _ _ _ _ _ _ _ _ Hout) as (base & Hrun & Hall).
  assert (view <$> base = baseManifests) as Hbase by by destruct Hrun as [Hrun|Hrun]; apply Hb in Hrun.
  apply Forall_forall. intros r (i & Hi)%list_elem_of_lookup_1. destruct (Forall2_lookup_r _ _ _ _ _ Hall Hi) as (b & Hbi & Hr).
  assert (view b ∈ baseManifests) as Hin by (rewrite <- Hbase; apply list_elem_of_fmap_2; by eapply list_elem_of_lookup_2).
  destruct (tree_defined QuantityString instance Hname Hns Hkinds ctx operatorNS HPAToUnstructured (view b) Hin Hok) as [d Hd].
  unfold at_. rewrite (Hr d Hd). by apply (rendered_namespace (view b)).
Qed.
End namespaces.

(** ** Events of what was created *)

Section events.
Context `{KL : KustomizeLaws, JL : JSONPointerLaws} (QuantityString : string → string).
Context (IsDNS1123Label : string → list string).
Context (Exists : string → bool) (Run : string → result (list Resource)) (HPAToUnstructured : HPASpec → result object).
Context {W : Type} `{!Client W Unstructured, CL : !ClientLaws W Unstructured}.
Context (RESTMapping : string → string → string → result bool)
  (SetControllerReference : OGXServer → Metadata → result Metadata) (toUnstructured : Resource → result Unstructured).
#[local] Set Default Proof Using "Type*".

(** The object that is read from a rendered resource: its kind, its namespace and its
    labels are those of the tree, and it has no owner. *)
Definition faithful : Prop :=
  ∀ r u, toUnstructured r = Ok u →
    U_Kind u = kindOf (view r) ∧ Obj_OwnerReferences (U_Meta u) = [] ∧
    (∀ ns, at_ r ["metadata"; "namespace"] = Some (AString ns) → Obj_Namespace (U_Meta u) = ns) ∧
    (∀ k v, at_ r ["metadata"; "labels"; k] = Some (AString v) → Obj_Labels (U_Meta u) !! k = Some v).

(** An object without owners gets the server as its one owner, by kind and name. *)
Definition namesOwner : Prop :=
  ∀ instance m m', SetControllerReference instance m = Ok m' → Obj_OwnerReferences m = [] →
    ∃ r, Obj_OwnerReferences m' = [r] ∧ isController r = true ∧ Owner_Kind r = OGXServerKind ∧
      String.prefix (apiGroup +:+ "/") (Owner_APIVersion r) = true ∧ Owner_Name r = Server_Name instance.

(** An object with the namespace, the labels and the owners of another one. *)
Definition sameMetadata (m m' : Metadata) : Prop :=
  Obj_Namespace m' = Obj_Namespace m ∧ Obj_Labels m' = Obj_Labels m ∧ Obj_OwnerReferences m' = Obj_OwnerReferences m.

Lemma ownerRequest_controlled m r instance :
  Obj_OwnerReferences m = [r] → isController r = true → Owner_Kind r = OGXServerKind →
  String.prefix (apiGroup +:+ "/") (Owner_APIVersion r) = true → Owner_Name r = Server_Name instance →
  Obj_Namespace m = Meta_Namespace (Server_Meta instance) → ownerRequest m = [serverKey instance].
Proof using Type.
  intros Ho Hc Hk Hp Hn Hns. unfold ownerRequest, GetControllerOf. rewrite Ho. cbn [List.find].
  rewrite Hc, Hp, bool_decide_eq_true_2 by done. cbn [andb]. unfold serverKey. by rewrite Hns, Hn.
Qed.

Lemma createResource_namespaced u instance w w' :
  RESTMapping (U_Group u) (U_Version u) (U_Kind u) = Ok false →
  createResource RESTMapping SetControllerReference u instance w = (w', Ok tt) →
  ∃ u', Create w u' = (w', None) ∧
    if bool_decide (U_Kind u = "PersistentVolumeClaim") then u' = u
    else ∃ m, SetControllerReference instance (U_Meta u) = Ok m ∧ u' = withUMeta (λ _, m) u.
Proof using Type.
  intros Hs. unfold createResource, isClusterScoped. rewrite Hs. rewrite bindM_run. cbn [pureM wrap fst snd orb].
  assert (∀ u', calling (λ w, Create w u') w = (w', Ok tt) → Create w u' = (w', None)) as Hcall.
  { intros u'. unfold calling. destruct (Create w u') as [w1 [e|]]; intros [= <-]; done. }
  rewrite bindM_run. cbn [pureM fst snd]. case_bool_decide; [intros Hc%Hcall; by exists u|].
  destruct (SetControllerReference instance (U_Meta u)) as [m|e] eqn:Em; cbn; [|done].
  intros Hc%Hcall. eexists. split; [exact Hc|]. by exists m.
Qed.

(** C6. Once a manifest of an instance has been created, every event of the object, as
    long as it keeps the labels and the owners that it was created with, wakes its
    instance up, and no other one, exactly when it is of a watched kind.  Volume
    claims are the exception: they are created without an owner, so that their
    events, which the controller asks for, reach no instance. *)
Theorem created_objects_wake path instance ctx operatorNS out r u w w' :
  Server_Name instance ≠ "" → Meta_Namespace (Server_Meta instance) ≠ "" → namespacedKinds → loadsBase Run →
  (∀ spec, MC_HPASpec ctx = Some spec → is_ok (HPAToUnstructured spec) = true) →
  setsController SetControllerReference → namesOwner → faithful →
  RenderManifestWithContext IsDNS1123Label QuantityString Exists Run HPAToUnstructured path instance (Some ctx) operatorNS = Ok out →
  r ∈ out → toUnstructured r = Ok u → RESTMapping (U_Group u) (U_Version u) (U_Kind u) = Ok false →
  createResource RESTMapping SetControllerReference u instance w = (w', Ok tt) →
  ∃ o, stored w' (objectKey u) = Some o ∧
    ∀ e, Forall (sameMetadata (U_Meta o)) (eventObjects e) →
      ∀ request, request ∈ ownedRequests (U_Kind u) e ↔
        U_Kind u ∈ ownedKinds ∧ U_Kind u ≠ "PersistentVolumeClaim" ∧ request = serverKey instance.
Proof.
  intros Hn Hns Hk Hb Hok Hset Hnames Hfaith Hout Hr Hu Hscope Hrun.
  destruct (Hfaith r u Hu) as (Hkind & Howners & Hnamespace & Hlabels).
  pose proof (manifests_visible QuantityString IsDNS1123Label Exists Run HPAToUnstructured path instance ctx operatorNS out
    Hn Hns Hk Hb Hok Hout) as Hvis. rewrite Forall_forall in Hvis. specialize (Hvis r Hr).
  assert (Obj_Namespace (U_Meta u) = Meta_Namespace (Server_Meta instance)) as Hnsu.
  { apply Hnamespace.
    pose proof (manifests_namespaced QuantityString IsDNS1123Label Exists Run HPAToUnstructured instance Hn Hns Hk ctx operatorNS
      path out Hb Hok Hout) as Hall.
    rewrite Forall_forall in Hall. by apply Hall. }
  assert (cached (U_Kind u) (Obj_Labels (U_Meta u)) = true) as Hcached.
  { unfold cached. unfold visible in Hvis. rewrite Hkind. destruct (newCacheOptions _) as [[key value]|]; [|done].
    apply bool_decide_eq_true. by apply Hlabels. }
  destruct (createResource_namespaced u instance w w' Hscope Hrun) as (u' & Hcreate & Hu').
  pose proof (Create_spec w u') as Hs. rewrite Hcreate in Hs. destruct Hs as [_ Hs].
  destruct (Hs eq_refl) as (_ & o & Ho & _ & Hlo & _ & Hoo & _).
  assert (objectKey u' = objectKey u ∧ Obj_Labels (U_Meta u') = Obj_Labels (U_Meta u)) as [Hkey Hlu].
  { case_bool_decide; [by subst|]. destruct Hu' as (m & Hm & ->). destruct (Hset _ _ _ Hm) as [-> _]. done. }
  rewrite Hkey in Ho. exists o. split; [done|]. rewrite Hlu in Hlo.
  assert (Obj_Namespace (U_Meta o) = Obj_Namespace (U_Meta u)) as Hnso.
  { apply stored_key in Ho. by apply keyOf_inj in Ho as (_ & _ & ? & _). }
  intros e He request. rewrite Forall_forall in He. unfold ownedRequests.
  destruct (He _ (eventObject_in e)) as (_ & -> & _). rewrite Hlo, Hcached. cbn [andb]. rewrite ownerRequests_objects.
  destruct (decide (U_Kind u ∈ ownedKinds)) as [Howned|Howned];
    [rewrite (bool_decide_eq_true_2 _ Howned)|rewrite (bool_decide_eq_false_2 _ Howned); split; [by intros ?%not_elem_of_nil|by intros (? & _)]].
  destruct (decide (U_Kind u = "PersistentVolumeClaim")) as [Hpvc|Hpvc];
    [rewrite bool_decide_eq_true_2 in Hu' by done|rewrite bool_decide_eq_false_2 in Hu' by done].
  - subst u'. assert (Hnone : ∀ m, m ∈ eventObjects e → ownerRequest m = []).
    { intros m Hm. destruct (He m Hm) as (_ & _ & Hom). unfold ownerRequest, GetControllerOf. by rewrite Hom, Hoo, Howners. }
    rewrite list_elem_of_bind. split; [|by intros (_ & ? & _)]. intros (m & Hin & Hm). rewrite (Hnone m Hm) in Hin. by apply not_elem_of_nil in Hin.
  - destruct Hu' as (m' & Hm' & ->). destruct (Hnames _ _ _ Hm' Howners) as (ref & Href & Hc & Hkd & Hp & Hnm).
    assert (Hone : ∀ m, m ∈ eventObjects e → ownerRequest m = [serverKey instance]).
    { intros m Hm. destruct (He m Hm) as (Hnsm & _ & Hom).
      apply (ownerRequest_controlled m ref); try done; [by rewrite Hom, Hoo|congruence]. }
    rewrite list_elem_of_bind. split.
    + intros (m & Hin & Hm). rewrite (Hone m Hm) in Hin. by apply list_elem_of_singleton in Hin.
    + intros (_ & _ & ->). exists (eventObject e). rewrite (Hone _ (eventObject_in e)). split; [by left|apply eventObject_in].
Qed.
End events.
