(* ===== verification/Configgen.v ===== *)
(** * The configgen command

    The file [cmd/configgen/main.go]: the generation of a configuration outside of
    the cluster, with the functions of the operator.  Its theorem says that it
    makes what the operator makes.  Files, decoding and the test API server are
    parameters; the flags and the printing are in the file CommandLine. *)

From Stdlib Require Import ZArith.
From S2P Require Import Prelude Value ApiProviders ApiServer Secret Provider Merge Generator Webhook Resolver Common Fmt Client Action Objects ConfigMaps Status GeneratedConfig GeneratedConfigFacts.

(** The flags. *)
Record options := {
  crPath : string;
  basePath : string;
  crdPath : string;
  distributionsPath : string;
  outputConfig : bool;
  validate : bool;
}.

(** The copy that is validated, in a namespace of its own. *)
Definition inNamespace (ns : string) (server : OGXServer) : OGXServer :=
  let m := Server_Meta server in
  {| Server_Meta :=
       {| Meta_Name := if bool_decide (Meta_Name m = "") then ns else Meta_Name m; Meta_Namespace := ns;
          Meta_UID := Meta_UID m; Meta_Generation := Meta_Generation m; Meta_Annotations := Meta_Annotations m;
          Meta_Labels := Meta_Labels m |};
     Server_Spec := Server_Spec server |}.

Section configgen.
Context {MR : MapRange}.
Context (yaml_base : string → result BaseConfig) (yaml_map : string → result (option object))
        (yaml_marshal : object → result string) (json_object : string → result (option object)).
(** The standard input and the files. *)
Context (ReadStdin : result string) (ReadHostFile : string → result string).
(** The decoder gives a server, or an object of another type, named. *)
Context (Decode : string → result (string + OGXServer)).
Context (json_strings : string → result (gmap string string)).
(** [KUBEBUILDER_ASSETS], whether a path is a directory, and the API server of the
    tests: its start with the CRDs of a directory and these binaries, its client, and
    what it answers to the creation of a namespace and to a dry run; the text of
    aggregated errors; the label fetcher. *)
Context (assets : string) (isDirectory : string → bool).
Context (startEnvTest : string → string → result unit) (newClient : result unit)
  (createNamespace : string → result unit) (createDryRun : OGXServer → result unit).
Context (DeepEqualVolume : Volume → Volume → bool)
  (DeepEqualExternalAccess : option ExternalAccessConfig → option ExternalAccessConfig → bool) (aggregateText : list fieldError → string).
Context (fetcher : labelFetcher).

Definition readFile (path : string) : result string :=
  if bool_decide (path = "-") then ReadStdin else ReadHostFile path.

Definition loadCR (path : string) : result OGXServer :=
  data ← readFile path;
  obj ← wrap "failed to decode CR: %w" [] (Decode data);
  match obj with
  | inr server => Ok server
  | inl type => Err (Errorf "failed to cast decoded object: expected OGXServer, got %T" [type])
  end.

Definition loadKnownDistributionNames (server : OGXServer) (distributionsPath : string) : result (list string) :=
  if bool_decide (Dist_Name (Spec_Distribution (Server_Spec server)) = "") then Ok []
  else
    data ← wrap "failed to read distributions file %q: %w" [distributionsPath] (readFile distributionsPath);
    distributionImages ← wrap "failed to parse distributions file %q: %w" [distributionsPath] (json_strings data);
    Ok (sort_strings (range (distributionImages : gmap string string)).*1).

Definition validateWithEnvTest (server : OGXServer) (crdPath : string) : result unit :=
  _ ← wrap "failed to start envtest: %w" [] (startEnvTest crdPath assets);
  _ ← wrap "failed to create envtest client: %w" [] newClient;
  _ ← wrap "failed to create namespace: %w" [] (createNamespace "configgen-validate");
  createDryRun (inNamespace "configgen-validate" server).

(** Both validations run, and their errors are joined; without the names of the
    distributions none is known. *)
Definition validateCR (server : OGXServer) (crdPath distributionsPath : string) : result unit :=
  if bool_decide (assets = "") then
    Err (New "failed to find KUBEBUILDER_ASSETS: not set; run: make envtest && export KUBEBUILDER_ASSETS=$(bin/setup-envtest use 1.31.0 --bin-dir bin -p path)")
  else if negb (isDirectory crdPath) then
    Err (Errorf "failed to find CRD path %q: does not exist or is not a directory; use -crd-path to specify" [crdPath])
  else
    let names := loadKnownDistributionNames server distributionsPath in
    let errs :=
      match validateWithEnvTest server crdPath with Err e => [("CRD/CEL: " +:+ Error e)%string] | Ok _ => [] end ++
      match names with Err e => [("webhook: " +:+ Error e)%string] | Ok _ => [] end ++
      match (ValidateCreate DeepEqualVolume DeepEqualExternalAccess (match names with Ok l => l | Err _ => [] end) server).2 with
      | [] => [] | l => [("webhook: " +:+ aggregateText l)%string]
      end in
    match errs with
    | [] => Ok tt
    | _ => Err (Errorf (("failed to validate CR:" +:+ String (Ascii.ascii_of_nat 10) "%s")%string) [joinWith (String (Ascii.ascii_of_nat 10) "") errs])
    end.

Definition resolveBaseConfig (basePath : string) (spec : OGXServerSpec) : result string :=
  if negb (bool_decide (basePath = "")) then readFile basePath
  else
    match Spec_BaseConfig spec with
    | Some _ => Err (New "configgen cannot read spec.baseConfig from Kubernetes; pass -base with the ConfigMap's config.yaml contents")
    | None =>
        if bool_decide (Dist_Image (Spec_Distribution spec) = "") then
          Err (New "configgen requires spec.distribution.image or -base because named distributions are resolved by the operator")
        else
          match Resolve (Some fetcher) newOCIConfigCache (Dist_Image (Spec_Distribution spec)) with
          | Some (r, _) => r
          | None => Err panic
          end
    end.

Definition run (opts : options) : result GeneratedConfig :=
  server ← wrap "failed to load CR: %w" [] (loadCR (crPath opts));
  let spec := Server_Spec server in
  if HasOverrideConfig server then
    Err (New "failed to generate config: CR has overrideConfig set; the operator would skip config generation and use the override ConfigMap directly")
  else if negb (HasDeclarativeConfig server) && negb (IsPraxisModeEnabled spec) then
    Err (New "failed to generate config: CR has no declarative config fields (providers, resources, storage, or disabledAPIs); nothing to generate")
  else
    _ ← (if validate opts
         then wrap (("failed to validate CR:" +:+ String (Ascii.ascii_of_nat 10) "%w")%string) []
                (validateCR server (crdPath opts) (distributionsPath opts))
         else Ok tt);
    baseConfigData ← wrap "failed to resolve base config: %w" [] (resolveBaseConfig (basePath opts) spec);
    _ ← wrap "failed to validate secret ref env var names: %w" [] (ValidateSecretRefEnvVarNames spec);
    if HasDeclarativeConfig server
    then GenerateConfig yaml_base yaml_marshal json_object spec baseConfigData (IsPraxisModeEnabled spec)
    else GeneratePraxisDefaultConfig yaml_base yaml_map yaml_marshal spec baseConfigData.

(** ** It makes what the operator makes *)

Abbreviation generated := (generate yaml_base yaml_map yaml_marshal json_object).

Lemma run_Ok opts server g :
  loadCR (crPath opts) = Ok server →
  run opts = Ok g ↔
  shouldGenerateConfig server (IsPraxisModeEnabled (Server_Spec server)) = true ∧
  (validate opts = true → validateCR server (crdPath opts) (distributionsPath opts) = Ok tt) ∧
  ValidateSecretRefEnvVarNames (Server_Spec server) = Ok tt ∧
  ∃ base, resolveBaseConfig (basePath opts) (Server_Spec server) = Ok base ∧ generated server base = Ok g.
Proof.
  intros Hl. unfold run, shouldGenerateConfig, generate. rewrite Hl. cbn [wrap mbind result_bind]. cbv zeta.
  destruct (HasOverrideConfig server); cbn [negb andb]; [naive_solver|].
  destruct (HasDeclarativeConfig server) eqn:Hd, (IsPraxisModeEnabled (Server_Spec server)) eqn:Hp; cbn [negb andb orb]; try naive_solver.
  all: destruct (validate opts); [destruct (validateCR _ _ _) as [[]|e]|]; cbn [wrap mbind result_bind].
  all: try (split; [done|]; intros (_ & Hv & _); specialize (Hv eq_refl); done).
  all: destruct (resolveBaseConfig _ _) as [base|e]; cbn [wrap mbind result_bind]; [|by split; [|intros (_ & _ & _ & ? & ? & _)]].
  all: destruct (ValidateSecretRefEnvVarNames _) as [[]|e]; cbn [wrap mbind result_bind]; [|by split; [|intros (_ & _ & ? & _)]].
  all: split; [intros H; split_and!; [done..|by exists base]|by intros (_ & _ & _ & b & [= <-] & H)].
Qed.

Context (SetControllerReference : OGXServer → Metadata → result Metadata) (env : environment).
Context {W : Type} `{!Client W ConfigMapObject, !ReadCache W ConfigMapObject, !CachedLaws W ConfigMapObject}.

Abbreviation operator := (reconcileGeneratedConfig yaml_base yaml_map yaml_marshal json_object SetControllerReference env).

(** The operator's write of a configuration. *)
Abbreviation write server g w :=
  (ensureGeneratedConfigMap SetControllerReference server
     (generatedConfigMapName (Server_Name server) (Gen_ContentHash g)) (Gen_ConfigYAML g) (configMaps w)).

(** C24. The command and the operator agree.  Take a server that the command loads
    (and validates, if it is asked to), and a base configuration that both resolve
    for it.  If the command makes a configuration, the operator goes on to write
    the ConfigMap of exactly that configuration, and its answer is that
    configuration when the write succeeds and the write's error when it does not.
    If the command fails, the operator makes no configuration and changes no
    ConfigMap: it fails too, or it has nothing to generate.  So what either makes,
    the other makes. *)
Theorem configgen_agrees opts server base (w w' : world W) r :
  loadCR (crPath opts) = Ok server →
  (validate opts = true → validateCR server (crdPath opts) (distributionsPath opts) = Ok tt) →
  resolveBaseConfig (basePath opts) (Server_Spec server) = Ok base →
  (GeneratedConfig.resolveBaseConfig env Error server w).2 = Ok base →
  operator Error server w = (w', r) →
  match run opts with
  | Ok g =>
      configMaps w' = (write server g w).1 ∧
      r = match (write server g w).2 with Ok _ => Ok (Some g) | Err e => Err e end
  | Err _ => configMaps w' = configMaps w ∧ ∀ g, r ≠ Ok (Some g)
  end ∧
  (r = Ok None ↔ shouldGenerateConfig server (IsPraxisModeEnabled (Server_Spec server)) = false).
Proof using Type*.
  intros Hl Hv Hb Hb' Hr. pose proof (run_Ok opts server) as Hrun. unfold reconcileGeneratedConfig in Hr.
  destruct (shouldGenerateConfig server _) eqn:Hs; cbn [negb] in Hr.
  2:{ injection Hr as <- <-. split; [|done]. destruct (run opts) as [g|e]; [|done].
      by destruct (proj1 (Hrun g Hl) eq_refl). }
  revert Hr. rewrite bindM_run. pose proof (resolveBaseConfig_run env Error server w) as Hw.
  destruct (GeneratedConfig.resolveBaseConfig env Error server w) as [w1 b]. cbn [fst snd] in *. subst b.
  rewrite bindM_run, wrapM_run. cbn [pureM fst snd].
  destruct (ValidateSecretRefEnvVarNames _) as [[]|e] eqn:Hval; cbn [wrap].
  2:{ intros [= <- <-]. destruct (run opts) as [g|e']; [|by rewrite Hw].
      by destruct (proj1 (Hrun g Hl) eq_refl) as (_ & _ & ? & _). }
  rewrite bindM_run, wrapM_run. cbn [pureM fst snd].
  change (if HasDeclarativeConfig server then _ else _) with (generated server base).
  destruct (generated server base) as [g|e] eqn:Eg; cbn [wrap].
  2:{ intros [= <- <-]. destruct (run opts) as [g|e']; [|by rewrite Hw].
      destruct (proj1 (Hrun g Hl) eq_refl) as (_ & _ & _ & b & Hb2 & Hg). congruence. }
  assert (Er : run opts = Ok g) by (apply (Hrun g Hl); split_and!; [done..|by exists base]).
  rewrite Er, bindM_run. unfold onConfigMaps. rewrite zoom_run, Hw. cbn [fst snd].
  destruct (write server g w) as [c [[]|e]]; by intros [= <- <-].
Qed.
End configgen.
