(* ===== verification/CommandLine.v ===== *)
(** * The command line of configgen

    The flags of [cmd/configgen/main.go] as Go's package [flag] reads them, what the
    command prints, and a theorem that says which arguments count. *)

From Stdlib Require Import Ascii ZArith.
From stdpp Require Import pretty.
From S2P Require Import Prelude Value ApiProviders ApiServer Secret Provider Merge Generator Common Fmt Configgen.

(** ** The package [flag] *)

Definition setString (name value : string) (o : options) : options :=
  if bool_decide (name = "base") then
    {| crPath := crPath o; basePath := value; crdPath := crdPath o; distributionsPath := distributionsPath o;
       outputConfig := outputConfig o; validate := validate o |}
  else if bool_decide (name = "crd-path") then
    {| crPath := crPath o; basePath := basePath o; crdPath := value; distributionsPath := distributionsPath o;
       outputConfig := outputConfig o; validate := validate o |}
  else
    {| crPath := crPath o; basePath := basePath o; crdPath := crdPath o; distributionsPath := value;
       outputConfig := outputConfig o; validate := validate o |}.

Definition setBool (name : string) (value : bool) (o : options) : options :=
  if bool_decide (name = "output-config") then
    {| crPath := crPath o; basePath := basePath o; crdPath := crdPath o; distributionsPath := distributionsPath o;
       outputConfig := value; validate := validate o |}
  else
    {| crPath := crPath o; basePath := basePath o; crdPath := crdPath o; distributionsPath := distributionsPath o;
       outputConfig := outputConfig o; validate := value |}.

Definition stringFlags : list string := ["base"; "crd-path"; "distributions-path"].
Definition boolFlags : list string := ["output-config"; "validate"].

(** [strconv.ParseBool] *)
Definition ParseBool (s : string) : option bool :=
  if bool_decide (s ∈ ["1"; "t"; "T"; "true"; "TRUE"; "True"]) then Some true
  else if bool_decide (s ∈ ["0"; "f"; "F"; "false"; "FALSE"; "False"]) then Some false
  else None.

(** The name of a flag, and the value behind the first equals sign. *)
Fixpoint cutFlag (s : string) : string * option string :=
  match s with
  | EmptyString => (EmptyString, None)
  | String c s =>
      if Ascii.eqb c "=" then (EmptyString, Some s)
      else let '(name, value) := cutFlag s in (String c name, value)
  end.

Definition badName (name : string) : bool :=
  match name with EmptyString => true | String c _ => Ascii.eqb c "-" || Ascii.eqb c "=" end.

(** [flag.Parse]: it stops at the first argument that is no flag, and gives the
    arguments from there on. *)
Fixpoint parseArgs (o : options) (args : list string) {struct args} : result (options * list string) :=
  match args with
  | String "-" (String c body as tail) as s :: args =>
      if bool_decide (s = "--") then Ok (o, args)
      else
        let flag := if Ascii.eqb c "-" then body else tail in
        if badName flag then Err (Errorf "bad flag syntax: %s" [s])
        else
          let '(name, value) := cutFlag flag in
          if bool_decide (name ∈ boolFlags) then
            match value with
            | None => parseArgs (setBool name true o) args
            | Some v =>
                match ParseBool v with
                | Some b => parseArgs (setBool name b o) args
                | None => Err (Errorf "invalid boolean value %q for -%s: %v" [v; name; "parse error"])
                end
            end
          else if bool_decide (name ∈ stringFlags) then
            match value, args with
            | Some v, _ => parseArgs (setString name v o) args
            | None, v :: args => parseArgs (setString name v o) args
            | None, [] => Err (Errorf "flag needs an argument: -%s" [name])
            end
          else if bool_decide (name ∈ ["help"; "h"]) then Err (New "flag: help requested")
          else Err (Errorf "flag provided but not defined: -%s" [name])
  | _ => Ok (o, args)
  end.

(** ** The command *)

Definition defaultOptions : options :=
  {| crPath := ""; basePath := ""; crdPath := "config/crd/bases"; distributionsPath := "distributions.json";
     outputConfig := false; validate := false |}.

Definition withCR (path : string) (o : options) : options :=
  {| crPath := path; basePath := basePath o; crdPath := crdPath o; distributionsPath := distributionsPath o;
     outputConfig := outputConfig o; validate := validate o |}.

Definition parseFlags (args : list string) : result options :=
  p ← parseArgs defaultOptions args;
  let path := match p.2 with [] => ""%string | path :: _ => path end in
  if bool_decide (path = "") then
    Err (New "usage: configgen <ogxserver.yaml> [-base <config.yaml>] [-crd-path <dir>] [-distributions-path <file>] [-output-config] [-validate]")
  else Ok (withCR path p.1).

Definition endLine (s : string) : string := (s +:+ String "010" "")%string.

Definition boolText (b : bool) : string := if b then "true" else "false".

Definition envLine (e : EnvVar) : string :=
  match Env_ValueFrom e ≫= Src_SecretKeyRef with
  | Some r => endLine (Env_Name e +:+ " -> " +:+ Sel_Name r +:+ "/" +:+ Sel_Key r)
  | None => ""
  end.

Definition printFullOutput (g : GeneratedConfig) : string :=
  endLine "--- config.yaml ---" +:+ Gen_ConfigYAML g +:+
  endLine "" +:+ endLine "--- metadata ---" +:+
  endLine ("content-hash:   " +:+ Gen_ContentHash g) +:+
  endLine ("config-version: " +:+ pretty (Gen_ConfigVersion g)) +:+
  endLine ("config-version-defaulted: " +:+ boolText (Gen_ConfigVersionDefaulted g)) +:+
  endLine ("providers:      " +:+ pretty (Gen_ProviderCount g)) +:+
  endLine ("resources:      " +:+ pretty (Gen_ResourceCount g)) +:+
  match Gen_EnvVars g with
  | [] => ""
  | l => endLine "" +:+ endLine "--- env vars ---" +:+ foldr (λ e s, envLine e +:+ s) "" l
  end.

(** What is printed, given the generation. *)
Definition main (run : options → result GeneratedConfig) (args : list string) : result string :=
  opts ← parseFlags args;
  generated ← run opts;
  Ok (if outputConfig opts then Gen_ConfigYAML generated else printFullOutput generated).

(** ** Which arguments count *)

(** An argument that is no flag. *)
Definition plain (s : string) : bool := match s with String "-" (String _ _) => false | _ => true end.

Lemma parseArgs_plain o s args : plain s = true → parseArgs o (s :: args) = Ok (o, s :: args).
Proof.
  intros H. destruct s as [|c [|c' s]]; [done|by destruct c as [[] [] [] [] [] [] [] []]|].
  destruct c as [[] [] [] [] [] [] [] []]; try done.
Qed.

(** Options written as flags, before the path. *)
Definition flagsOf (o : options) : list string :=
  ["-base"; basePath o; "-crd-path"; crdPath o; "-distributions-path"; distributionsPath o;
   "-output-config=" +:+ boolText (outputConfig o); "-validate=" +:+ boolText (validate o); crPath o].

(** All options can be written, in front of the path, and are read back whatever the
    values are. *)
Theorem flags_round_trip o : plain (crPath o) = true → crPath o ≠ "" → parseFlags (flagsOf o) = Ok o.
Proof.
  intros Hp Hne. unfold parseFlags, flagsOf. destruct o as [cr base crd dist out val]. cbn [crPath basePath crdPath distributionsPath outputConfig validate] in *.
  assert (parseArgs defaultOptions
    ["-base"; base; "-crd-path"; crd; "-distributions-path"; dist; "-output-config=" +:+ boolText out; "-validate=" +:+ boolText val; cr] =
    parseArgs {| crPath := ""; basePath := base; crdPath := crd; distributionsPath := dist; outputConfig := out; validate := val |} [cr]) as ->
    by (destruct out, val; reflexivity).
  rewrite (parseArgs_plain _ _ _ Hp). cbn. by rewrite bool_decide_eq_false_2.
Qed.

(** Flags behind the path, where the usage puts them, are not read: the options are
    the defaults, and nothing is said. *)
Lemma flags_behind_ignored cr args :
  plain cr = true → cr ≠ "" → parseFlags (cr :: args) = Ok (withCR cr defaultOptions).
Proof.
  intros Hp Hne. unfold parseFlags. rewrite (parseArgs_plain _ _ _ Hp). cbn. by rewrite bool_decide_eq_false_2.
Qed.

(** So a command as documented validates nothing and does not use the base. *)
Example documented_usage :
  parseFlags ["ogxserver.yaml"; "-base"; "config.yaml"; "-validate"] = Ok (withCR "ogxserver.yaml" defaultOptions).
Proof. reflexivity. Qed.
