(* ===== verification/Samples.v ===== *)
(** * Sample objects

    Concrete specs, base configurations and stand-ins for the parameters of the
    model, at which the theorems with hypotheses are applied. *)

From S2P Require Import Prelude Value ApiProviders ApiServer Provider Merge Base64 Resolver Webhook Client NetworkPolicy NetworkPolicyFacts NetworkResources Preflight Status Common Migration MigrationFacts.

#[export] Existing Instance map_to_list_range.

(** ** A spec with secrets *)

Definition noID : RoutedProviderBase := {| Base_ID := "" |}.

Definition noCommon : RemoteInferenceCommonConfig :=
  {| RIC_AllowedModels := []; RIC_RefreshModels := None; RIC_Network := None |}.

Definition vllmToken : SecretKeyRef := {| SKR_Name := "vllm"; SKR_Key := "token" |}.

Definition sampleVLLM : VLLMProvider :=
  {| VLLM_Base := noID; VLLM_Common := noCommon; VLLM_Endpoint := "http://vllm:8000";
     VLLM_APIToken := Some vllmToken; VLLM_MaxTokens := None |}.

Definition sampleCustom : CustomProvider :=
  {| Custom_Base := {| Base_ID := "mine" |}; Custom_Type := "remote::mine";
     Custom_SecretRefs := {["api_key" := {| SKR_Name := "mine"; SKR_Key := "key" |}]};
     Custom_Settings := None |}.

Definition sampleInference : InferenceProvidersSpec :=
  {| Inference_Remote := Some
       {| IR_VLLM := [sampleVLLM]; IR_OpenAI := []; IR_Azure := []; IR_Bedrock := [];
          IR_VertexAI := []; IR_Watsonx := []; IR_Custom := [sampleCustom] |};
     Inference_Inline := None |}.

Definition sampleProviders : ProvidersSpec :=
  {| PS_Inference := Some sampleInference; PS_VectorIo := None; PS_ToolRuntime := None;
     PS_Files := None; PS_Batches := None; PS_Responses := None; PS_FileProcessors := None |}.

Definition sampleStorage : StateStorageSpec :=
  {| Storage_KV := Some {| KV_Type := "redis"; KV_Endpoint := "redis:6379";
                           KV_Password := Some {| SKR_Name := "redis"; SKR_Key := "pw" |} |};
     Storage_SQL := Some {| SQL_Type := "postgres";
                            SQL_ConnectionString := Some {| SKR_Name := "pg"; SKR_Key := "dsn" |} |} |}.

Definition sampleModel : ModelConfig :=
  {| Model_Name := "granite"; Model_Provider := ""; Model_ContextLength := Some 4096%Z;
     Model_ModelType := ""; Model_Quantization := "" |}.

Definition sampleNetwork : NetworkSpec :=
  {| Net_Port := 9000%Z; Net_TLS := None; Net_ExternalAccess := None; Net_Policy := None |}.

Definition emptySpec : OGXServerSpec :=
  {| Spec_Distribution := {| Dist_Name := "starter"; Dist_Image := "" |};
     Spec_Providers := None; Spec_Resources := None; Spec_Storage := None;
     Spec_DisabledAPIs := []; Spec_RegistryRefreshIntervalSeconds := None;
     Spec_Network := None; Spec_TLS := None; Spec_Workload := None; Spec_Monitoring := None;
     Spec_BaseConfig := None; Spec_OverrideConfig := None; Spec_PraxisMode := None |}.

(** The sample spec, with a list of disabled APIs. *)
Definition sampleSpec (disabled : list string) : OGXServerSpec :=
  {| Spec_Distribution := {| Dist_Name := "starter"; Dist_Image := "" |};
     Spec_Providers := Some sampleProviders;
     Spec_Resources := Some {| Resources_Models := [sampleModel] |};
     Spec_Storage := Some sampleStorage;
     Spec_DisabledAPIs := disabled; Spec_RegistryRefreshIntervalSeconds := None;
     Spec_Network := Some sampleNetwork; Spec_TLS := None; Spec_Workload := None;
     Spec_Monitoring := None; Spec_BaseConfig := None; Spec_OverrideConfig := None;
     Spec_PraxisMode := None |}.

(** ** A base configuration *)

Definition sampleBase : BaseConfig :=
  {| Base_Version := "2"; Base_DistroName := "starter"; Base_ImageName := "";
     Base_APIs := ["inference"; "responses"]; Base_Providers := Some ∅;
     Base_RegisteredResources := None; Base_VectorStores := None;
     Base_Server := Some {["tenancy" := AString "single"]}; Base_Storage := None |}.

(** The same document as a raw map, with a vector_io provider and a SQL backend. *)
Definition sampleRaw : object :=
  <["version" := AString "2"]>
  (<["apis" := AList [AString "inference"; AString "responses"]]>
  (<["server" := AMap {["tenancy" := AString "single"]}]>
  (<["providers" := AMap {["vector_io" := AList [AMap ∅]]}]>
  {["storage" := AMap {["backends" := AMap {["sql_main" := AMap {["type" := AString "sql_sqlite"]}]}]}]}))).

(** Stand-ins for the libraries: decoders that know the sample document, and a
    serializer that writes the keys of the top-level map. *)
Definition sampleYamlBase (_ : string) : result BaseConfig := Ok sampleBase.

Definition sampleYamlMap (_ : string) : result (option object) := Ok (Some sampleRaw).

Definition sampleMarshal (cfg : object) : result string :=
  Ok (foldr (λ kv acc, (kv.1 +:+ "," +:+ acc)%string) ""%string (map_to_list cfg)).

Definition sampleJSON (_ : string) : result (option object) := Ok None.

(** ** An object and its admission *)

Definition hostPathVolume : Volume :=
  {| Vol_Name := "host"; Vol_Source :=
       {| Vol_ConfigMap := None; Vol_Secret := None; Vol_EmptyDir := None;
          Vol_PersistentVolumeClaim := None; Vol_Projected := None; Vol_DownwardAPI := None;
          Vol_Other := Some ("hostPath", "{}") |} |}.

(** A server whose override volume is no longer allowed. *)
Definition legacyWorkload : WorkloadSpec :=
  {| WL_Replicas := None; WL_Workers := None; WL_Resources := None; WL_ResourceClaims := [];
     WL_Autoscaling := None; WL_Storage := None; WL_PodDisruptionBudget := None;
     WL_TopologySpreadConstraints := [];
     WL_Overrides := Some
       {| WO_ServiceAccountName := ""; WO_Env := []; WO_Command := []; WO_Args := [];
          WO_Volumes := [hostPathVolume]; WO_VolumeMounts := [] |} |}.

Definition sampleMeta : ObjectMeta :=
  {| Meta_Name := "ogx"; Meta_Namespace := "default"; Meta_UID := "u1"; Meta_Generation := 1%Z;
     Meta_Annotations := ∅; Meta_Labels := ∅ |}.

Definition sampleServer : OGXServer :=
  {| Server_Meta := sampleMeta; Server_Spec := sampleSpec [] |}.

Definition legacyServer : OGXServer :=
  {| Server_Meta := sampleMeta;
     Server_Spec :=
       {| Spec_Distribution := {| Dist_Name := "starter"; Dist_Image := "" |};
          Spec_Providers := None; Spec_Resources := None; Spec_Storage := None;
          Spec_DisabledAPIs := []; Spec_RegistryRefreshIntervalSeconds := None;
          Spec_Network := None; Spec_TLS := None; Spec_Workload := Some legacyWorkload;
          Spec_Monitoring := None; Spec_BaseConfig := None; Spec_OverrideConfig := None;
          Spec_PraxisMode := None |} |}.

Definition equalVolumes (v1 v2 : Volume) : bool := bool_decide (v1 = v2).

Definition equalAccess (a1 a2 : option ExternalAccessConfig) : bool := bool_decide (a1 = a2).

(** ** An image and its labels *)

Definition pinnedImage : string := "registry/ogx@sha256:0123".

Definition sampleLabels : gmap string string :=
  <["com.ogx.config.run.yaml" := EncodeBase64 "version: 2"]>
  {[OCIDefaultConfigLabel := "run.yaml"]}.

Definition samplePublished (_ : string) (labels : gmap string string) : Prop := labels = sampleLabels.

Definition sampleFetch : labelFetcher := λ _, Ok sampleLabels.

(** ** Network policy and Ingress *)

Definition operatorNamespace : result string := Ok "ogx-system".

Definition policyConfig (praxis : bool) : NetworkPolicyTransformerConfig :=
  transformerConfig sampleServer (Some (BuildPraxisPeer sampleServer)) praxis operatorNamespace.

(** A pod of the default Praxis instance, and its traffic. *)
Definition praxisPod : Pod :=
  {| Pod_Namespace := "praxis-standalone"; Pod_Labels := {["app.kubernetes.io/name" := "praxis-gateway"]};
     Pod_Deleting := false; Pod_Phase := "Running";
     Pod_Conditions := [{| PodCond_Type := "Ready"; PodCond_Status := "True" |}] |}.

Definition praxisTraffic : traffic := trafficOf praxisPod ∅ false 9000.

(** Traffic from the namespace of the server. *)
Definition localTraffic : traffic :=
  {| T_NamespaceLabels := ∅; T_PodLabels := ∅; T_SameNamespace := true; T_Port := 9000 |}.

(** A selector is its own parse, and the list is filtered by it. *)
Definition sampleList (ns : string) (selector : LabelSelector) : result (list Pod) :=
  Ok (List.filter (λ pod, bool_decide (Pod_Namespace pod = ns) && selectorMatches selector (Pod_Labels pod))
        [praxisPod]).

(** A server to be exposed over TLS, outside Praxis mode. *)
Definition exposedServer : OGXServer :=
  {| Server_Meta := sampleMeta;
     Server_Spec :=
       {| Spec_Distribution := {| Dist_Name := "starter"; Dist_Image := "" |};
          Spec_Providers := None; Spec_Resources := None; Spec_Storage := None;
          Spec_DisabledAPIs := []; Spec_RegistryRefreshIntervalSeconds := None;
          Spec_Network := Some
            {| Net_Port := 9000; Net_TLS := None;
               Net_ExternalAccess := Some
                 {| EA_Enabled := true; EA_Hostname := "ogx.example.com";
                    EA_TLS := Some {| TLS_SecretName := "ogx-tls" |} |};
               Net_Policy := None |};
          Spec_TLS := None; Spec_Workload := None; Spec_Monitoring := None;
          Spec_BaseConfig := None; Spec_OverrideConfig := None;
          Spec_PraxisMode := Some {| Praxis_Enabled := Some false; Praxis_PraxisSelector := None;
                                     Praxis_MigrationJob := None |} |} |}.

(** [SetControllerReference] without its checks. *)
Definition sampleSetController (instance : OGXServer) (i : Ingress) : result Ingress :=
  Ok {| Ing_Namespace := Ing_Namespace i; Ing_Name := Ing_Name i; Ing_Labels := Ing_Labels i;
        Ing_TLS := Ing_TLS i; Ing_Rules := Ing_Rules i;
        Ing_Controller := Some (Meta_UID (Server_Meta instance)); Ing_Deleting := Ing_Deleting i;
        Ing_ResourceVersion := Ing_ResourceVersion i; Ing_LoadBalancer := Ing_LoadBalancer i |}.

(** An Ingress of the server's name that another object controls. *)
Definition foreignIngress : Ingress :=
  {| Ing_Namespace := "default"; Ing_Name := "ogx-ingress"; Ing_Labels := ∅; Ing_TLS := []; Ing_Rules := [];
     Ing_Controller := Some "other"; Ing_Deleting := false; Ing_ResourceVersion := "1"; Ing_LoadBalancer := [] |}.

#[export] Instance sampleClient : Client (mapState (O := Ingress)) Ingress := map_client (λ _ _, None).

#[export] Instance sampleClient_laws : ClientLaws (mapState (O := Ingress)) Ingress.
Proof. apply map_client_laws. intros i. repeat split. Qed.

#[export] Instance sampleCache : ReadCache (mapState (O := Ingress)) Ingress := λ _, true.

#[export] Instance sampleCache_laws : CachedLaws (mapState (O := Ingress)) Ingress.
Proof. by apply full_cache_laws; [apply _|]. Qed.

Definition emptyState : mapState (O := Ingress) := file ∅ (map_Forall_empty _).

Lemma foreign_filed : filed ({[("default", "ogx-ingress") := foreignIngress]} : gmap NamespacedName Ingress).
Proof. by apply map_Forall_singleton. Qed.

Definition foreignState : mapState (O := Ingress) := file _ foreign_filed.

(** ** A migration *)

Definition migrationSpec (enabled : bool) : MigrationJobSpec :=
  {| MJ_Enabled := Some enabled;
     MJ_TargetConnectionString := Some {| SKR_Name := "praxis"; SKR_Key := "dsn" |};
     MJ_FallbackTenant := "o'brien"; MJ_FallbackOwnerSubject := "" |}.

(** A server whose migration is enabled or not. *)
Definition migratingServer (enabled : bool) : OGXServer :=
  {| Server_Meta := sampleMeta;
     Server_Spec :=
       {| Spec_Distribution := {| Dist_Name := "starter"; Dist_Image := "" |};
          Spec_Providers := None; Spec_Resources := None;
          Spec_Storage := Some {| Storage_KV := None;
            Storage_SQL := Some {| SQL_Type := "postgres";
                                   SQL_ConnectionString := Some {| SKR_Name := "pg"; SKR_Key := "dsn" |} |} |};
          Spec_DisabledAPIs := []; Spec_RegistryRefreshIntervalSeconds := None;
          Spec_Network := None; Spec_TLS := None; Spec_Workload := None; Spec_Monitoring := None;
          Spec_BaseConfig := None; Spec_OverrideConfig := None;
          Spec_PraxisMode := Some {| Praxis_Enabled := None; Praxis_PraxisSelector := None;
                                     Praxis_MigrationJob := Some (migrationSpec enabled) |} |} |}.

Definition watchedSecret (value : string) : SecretObject :=
  {| Secret_Labels := {[WatchLabelKey := WatchLabelValue]}; Secret_Data := {["dsn" := value]} |}.

(** Both Secrets are there, and no ConfigMap. *)
Definition migrationEnv : environment :=
  {| GetSecret := λ k, if bool_decide (k.2 = "pg") then inr (watchedSecret "postgres://ogx")
                       else if bool_decide (k.2 = "praxis") then inr (watchedSecret "postgres://praxis")
                       else inl (NotFound (New "not found"));
     GetConfigMap := λ _, inl (NotFound (New "not found"));
     DistributionImages := {["starter" := "registry/ogx:1"]}; ImageMappingOverrides := ∅; now := 7%Z |}.

(** The Secrets cannot be read. *)
Definition brokenEnv : environment :=
  {| GetSecret := λ _, inl (OtherError (New "timeout")); GetConfigMap := λ _, inl (OtherError (New "timeout"));
     DistributionImages := {["starter" := "registry/ogx:1"]}; ImageMappingOverrides := ∅; now := 8%Z |}.

Definition jobSetController (instance : OGXServer) (j : Job) : result Job :=
  Ok {| Job_Namespace := Job_Namespace j; Job_Name := Job_Name j; Job_Labels := Job_Labels j;
        Job_Annotations := Job_Annotations j; Job_Controller := Some (Meta_UID (Server_Meta instance));
        Job_Deleting := Job_Deleting j; Job_BackoffLimit := Job_BackoffLimit j;
        Job_Completions := Job_Completions j; Job_Parallelism := Job_Parallelism j;
        Job_ActiveDeadlineSeconds := Job_ActiveDeadlineSeconds j;
        Job_TemplateLabels := Job_TemplateLabels j; Job_PodSpec := Job_PodSpec j;
        Job_Conditions := Job_Conditions j; Job_Active := Job_Active j |}.

#[export] Instance jobClient : Client (mapState (O := Job)) Job := map_client (λ _ _, None).

#[export] Instance jobClient_laws : ClientLaws (mapState (O := Job)) Job.
Proof. apply map_client_laws. intros j. repeat split. Qed.

Definition emptyJobs : mapState (O := Job) := file ∅ (map_Forall_empty _).

(** A status with a migration phase and nothing else. *)
Definition phaseStatus (m : option MigrationStatus) : OGXServerStatus :=
  {| Status_Phase := OGXServerPhaseUnset;
     Status_Version := {| VI_OperatorVersion := ""; VI_ServerVersion := ""; VI_LastUpdated := 0 |};
     Status_DistributionConfig := {| DC_ActiveDistribution := ""; DC_Providers := []; DC_AvailableDistributions := ∅ |};
     Status_ResolvedDistribution := None; Status_ConfigGeneration := None; Status_Migration := m;
     Status_Conditions := []; Status_AvailableReplicas := 0; Status_ServiceURL := ""; Status_ExternalURL := None |}.

Definition validatedMigration : MigrationStatus :=
  {| MS_Phase := MigrationPhaseValidated; MS_ObservedGeneration := 1; MS_AttemptKey := "k"; MS_JobName := "";
     MS_Message := ""; MS_SoftRollbackWarning := "" |}.

(** A state with a phase and the Jobs of a cluster. *)
Definition migrationState (m : option MigrationStatus) (jobs : mapState (O := Job)) : state :=
  {| cluster := jobs; status := phaseStatus m; recorded := None |}.
