(* ===== verification/ModuleParams.v ===== *)
(** * The staged manifests of the module operator

    The file handling of [ogx-module/internal/controller/ogx/reconciler.go]: the
    overlay of a platform, the copy of the manifests into a file system in
    memory, and the images that the environment substitutes in [params.env]. *)

From Stdlib Require Import Ascii.
From S2P Require Import Prelude Common Fmt CABundle Resolver.

(** ** Strings *)

Fixpoint trimLeft (l : list ascii) : list ascii :=
  match l with
  | [] => []
  | c1 :: l1 =>
      if isSpace1 c1 then trimLeft l1
      else
        match l1 with
        | c2 :: l2 =>
            if isSpace2 c1 c2 then trimLeft l2
            else match l2 with c3 :: l3 => if isSpace3 c1 c2 c3 then trimLeft l3 else l | [] => l end
        | [] => l
        end
  end.

(** The same from the end, on the reversed list. *)
Fixpoint trimLast (l : list ascii) : list ascii :=
  match l with
  | [] => []
  | c1 :: l1 =>
      if isSpace1 c1 then trimLast l1
      else
        match l1 with
        | c2 :: l2 =>
            if isSpace2 c2 c1 then trimLast l2
            else match l2 with c3 :: l3 => if isSpace3 c3 c2 c1 then trimLast l3 else l | [] => l end
        | [] => l
        end
  end.

(** [strings.TrimSpace], on the bytes of UTF-8. *)
Definition trim (l : list ascii) : list ascii := rev (trimLast (rev (trimLeft l))).
Definition TrimSpace (s : string) : string := of_chars (trim (chars s)).

(** [strings.Split] at a byte: there is always a part. *)
Fixpoint splitAt (c : ascii) (l : list ascii) : list (list ascii) :=
  match l with
  | [] => [[]]
  | x :: l =>
      if Ascii.eqb x c then [] :: splitAt c l
      else match splitAt c l with p :: ps => (x :: p) :: ps | [] => [[x]] end
  end.

Definition newline : ascii := ascii_of_nat 10.
Definition equals : ascii := "=".
Definition Split (s : string) : list string := of_chars <$> splitAt newline (chars s).
Definition Join (l : list string) : string := joinWith (String newline "") l.

(** [strings.SplitN] at the first byte: no second part without it. *)
Fixpoint cutAt (c : ascii) (l : list ascii) : list ascii * option (list ascii) :=
  match l with
  | [] => ([], None)
  | x :: l => if Ascii.eqb x c then ([], Some l) else let '(p, q) := cutAt c l in (x :: p, q)
  end.

Definition SplitN (line : string) : string * option string :=
  let '(p, q) := cutAt equals (chars line) in (of_chars p, of_chars <$> q).

Definition lowerChar (c : ascii) : ascii := if in_range "A" "Z" c then ascii_of_nat (nat_of_ascii c + 32) else c.

(** ** The overlay *)

Definition overlayODH : string := "overlays/odh".
Definition overlayRhoai : string := "overlays/rhoai".

(** [strings.ToLower] as far as ASCII letters of the result go: of the other
    letters only U+0130 has a lower case among those that are looked for. *)
Fixpoint lower (l : list ascii) : list ascii :=
  match l with
  | [] => []
  | c :: l' =>
      match l' with
      | d :: l'' => if byteIs 196 c && byteIs 176 d then "i"%char :: lower l'' else lowerChar c :: lower l'
      | [] => [lowerChar c]
      end
  end.

Definition overlayForPlatform (platformName : string) : string :=
  let value := of_chars (lower (chars (TrimSpace platformName))) in
  if Contains value "rhoai" || Contains value "open shift ai" || Contains value "openshift ai" then overlayRhoai
  else overlayODH.

Example overlay_examples :
  overlayForPlatform "  OpenShift AI Self-Managed" = overlayRhoai ∧ overlayForPlatform "OpenDataHub" = overlayODH.
Proof. split; vm_compute; reflexivity. Qed.

(** ** The substituted images *)

Definition imageParams : list string :=
  ["RELATED_IMAGE_ODH_OGX_K8S_OPERATOR_IMAGE"; "RELATED_IMAGE_ODH_OGX_CORE_IMAGE"].

(** Each parameter is read from the variables of this list, which is the
    variable of its own name. *)
Definition imageParamEnvMap (key : string) : option (list string) :=
  if bool_decide (key ∈ imageParams) then Some [key] else None.

Section environment.
(** [os.Getenv], and [reference.ParseAnyReference]. *)
Context (Getenv : string → string) (ParseAnyReference : string → result unit).

Definition hasImageParamOverrides : bool :=
  existsb (λ key, existsb (λ envName, negb (bool_decide (Getenv envName = "")))
                    (default [] (imageParamEnvMap key))) imageParams.

Fixpoint firstImage (envNames : list string) : option string :=
  match envNames with
  | [] => None
  | envName :: envNames =>
      let value := TrimSpace (Getenv envName) in
      if bool_decide (value = "") then firstImage envNames
      else match ParseAnyReference value with Err _ => firstImage envNames | Ok _ => Some value end
  end.

Definition resolveImageParamOverride (key : string) : option string := imageParamEnvMap key ≫= firstImage.

Definition isQuote (c : ascii) : bool := Ascii.eqb c (ascii_of_nat 34) || Ascii.eqb c "'".

(** The quote that encloses a value of two bytes or more. *)
Definition enclosing (l : list ascii) : option ascii :=
  match l, last l with
  | q :: _ :: _, Some q' => if isQuote q && Ascii.eqb q q' then Some q else None
  | _, _ => None
  end.

Definition rewriteEnvLine (line key value : string) : string :=
  match SplitN line with
  | (_, None) => (key +:+ "=" +:+ value)%string
  | (name, Some rest) =>
      match enclosing (trim (chars rest)) with
      | Some q => (name +:+ "=" +:+ String q value +:+ String q "")%string
      | None => (name +:+ "=" +:+ value)%string
      end
  end.

(** The body of the loop: the new line, if it changes. *)
Definition overrideLine (line : string) : option string :=
  let trimmed := TrimSpace line in
  if bool_decide (trimmed = "") || String.prefix "#" trimmed then None
  else
    let key := TrimSpace (SplitN line).1 in
    rewriteEnvLine line key <$> resolveImageParamOverride key.

Definition overrideContent (content : string) : option string :=
  let lines := Split content in
  if existsb (λ line, bool_decide (is_Some (overrideLine line))) lines
  then Some (Join ((λ line, default line (overrideLine line)) <$> lines)) else None.

(** ** The file system in memory

    [kyaml]'s [FileSystem] is a parameter: what was written is what is read. *)

Class FileSystem (FS : Type) := {
  Exists : FS → string → bool;
  ReadFile : FS → string → result string;
  WriteFile : FS → string → string → FS * option error;
  MkdirAll : FS → string → FS * option error;
}.

Class FileSystemLaws (FS : Type) `{FileSystem FS} : Prop := {
  WriteFile_spec : ∀ fs path data,
    let '(fs', e) := WriteFile fs path data in
    e = None → Exists fs' path = true ∧ ReadFile fs' path = Ok data ∧
      ∀ p, p ≠ path → ReadFile fs' p = ReadFile fs p;
  MkdirAll_spec : ∀ fs path,
    let '(fs', e) := MkdirAll fs path in
    e = None → ∀ p d, ReadFile fs p = Ok d → ReadFile fs' p = Ok d;
}.

Context {FS : Type} `{!FileSystem FS}.

Definition applyParamsEnvOverrides (target : FS) (paramsPath : string) : FS * option error :=
  if negb (Exists target paramsPath) then (target, None)
  else
    match ReadFile target paramsPath with
    | Err e => (target, Some (Wrapf "failed to read %s: %w" [paramsPath] e))
    | Ok content =>
        match overrideContent content with
        | None => (target, None)
        | Some content' => WriteFile target paramsPath content'
        end
    end.

(** An entry of [filepath.Walk]: its path below the root ([.] is the root), the
    error that the walk reports, and the file's contents. *)
Record walkEntry := { WE_Rel : string; WE_Err : option error; WE_IsDir : bool; WE_Data : result string }.

(** [path.Join] of clean paths, and [path.Dir] of one. *)
Definition pathJoin (a b : string) : string := (a +:+ "/" +:+ b)%string.

Definition parentOf (path : string) : string :=
  match rev (splitAt "/" (chars path)) with
  | _ :: (d :: ds) => joinWith "/" (of_chars <$> rev (d :: ds))
  | _ => "."
  end.

Definition copyEntry (dstRoot : string) (target : FS) (e : walkEntry) : FS * option error :=
  match WE_Err e with
  | Some err => (target, Some err)
  | None =>
      let targetPath := if bool_decide (WE_Rel e = ".") then dstRoot else pathJoin dstRoot (WE_Rel e) in
      if WE_IsDir e then MkdirAll target targetPath
      else
        match WE_Data e with
        | Err err => (target, Some err)
        | Ok data =>
            let parent := parentOf targetPath in
            let '(target, err) := if bool_decide (parent = ".") then (target, None) else MkdirAll target parent in
            match err with Some err => (target, Some err) | None => WriteFile target targetPath data end
        end
  end.

(** The walk stops at the first error. *)
Fixpoint copyDirToFS (dstRoot : string) (entries : list walkEntry) (target : FS) : FS * option error :=
  match entries with
  | [] => (target, None)
  | e :: entries =>
      match copyEntry dstRoot target e with
      | (target, None) => copyDirToFS dstRoot entries target
      | failed => failed
      end
  end.

Definition componentName : string := "ogx".
Definition paramsFileName : string := "params.env".

(** With the directory to render. *)
Definition prepareManifestFSWithOverrides (empty : FS) (entries : list walkEntry) (overlay : string) : result (FS * string) :=
  match copyDirToFS componentName entries empty with
  | (_, Some e) => Err e
  | (fs, None) =>
      match applyParamsEnvOverrides fs (pathJoin (pathJoin componentName overlay) paramsFileName) with
      | (_, Some e) => Err e
      | (fs, None) => Ok (fs, pathJoin componentName overlay)
      end
  end.
End environment.

(** ** Trimming *)

(** Printable ASCII, without the space: nothing that is trimmed starts or ends so. *)
Definition solid (c : ascii) : bool := byteIn 33 126 c.

Lemma solid_not_space c : solid c = true →
  isSpace1 c = false ∧ (∀ d, isSpace2 c d = false ∧ isSpace2 d c = false) ∧
  (∀ d e, isSpace3 c d e = false ∧ isSpace3 d e c = false).
Proof.
  intros [H1 H2]%andb_true_iff. apply Nat.leb_le in H1, H2.
  assert (Hs : ∀ n, (126 < n ∨ n < 33)%nat → byteIs n c = false) by (intros n Hn; apply Nat.eqb_neq; lia).
  assert (Hn : ∀ lo hi, (126 < lo ∨ hi < 33)%nat → byteIn lo hi c = false).
  { intros lo hi Hlh. apply andb_false_iff. rewrite !Nat.leb_gt. lia. }
  unfold isSpace1, isSpace2, isSpace3.
  split_and!; intros; try split; rewrite ?Hs, ?Hn by lia; by rewrite ?andb_false_r.
Qed.

Lemma trimLeft_solid c l : solid c = true → trimLeft (c :: l) = c :: l.
Proof.
  intros (H1 & H2 & H3)%solid_not_space. cbn [trimLeft]. rewrite H1.
  destruct l as [|c2 l]; [done|]. rewrite (proj1 (H2 c2)). destruct l as [|c3 l]; [done|]. by rewrite (proj1 (H3 c2 c3)).
Qed.

Lemma trimLast_solid c l : solid c = true → trimLast (c :: l) = c :: l.
Proof.
  intros (H1 & H2 & H3)%solid_not_space. cbn [trimLast]. rewrite H1.
  destruct l as [|c2 l]; [done|]. rewrite (proj2 (H2 c2)). destruct l as [|c3 l]; [done|]. by rewrite (proj2 (H3 c3 c2)).
Qed.

Lemma trim_solid c d l : solid c = true → solid d = true → trim (c :: l ++ [d]) = c :: l ++ [d].
Proof.
  intros Hc Hd. unfold trim. rewrite trimLeft_solid by done. change (c :: l ++ [d]) with ((c :: l) ++ [d]).
  rewrite rev_app_distr. cbn [rev app]. rewrite trimLast_solid by done. cbn [rev].
  by rewrite rev_app_distr, rev_involutive.
Qed.

Lemma trim_Forall l : Forall (λ c, solid c = true) l → trim l = l.
Proof.
  destruct l as [|c l]; [done|]. destruct l as [|d l _] using rev_ind.
  - intros [Hc _]%Forall_cons. unfold trim. rewrite trimLeft_solid by done. change (rev [c]) with [c]. by rewrite trimLast_solid.
  - intros [Hc [_ [Hd _]%Forall_cons]%Forall_app]%Forall_cons. by apply trim_solid.
Qed.

(** What is trimmed at the end is an end. *)
Lemma trimLast_suffix l : ∃ k, l = k ++ trimLast l.
Proof.
  remember (length l) as n eqn:Hn. revert l Hn. induction n as [n IH] using lt_wf_ind. intros l ->.
  destruct l as [|c1 l1]; [by exists []|]. cbn [trimLast].
  destruct (isSpace1 c1); [destruct (IH (length l1) ltac:(cbn; lia) l1 eq_refl) as [k Hk]; exists (c1 :: k); cbn; congruence|].
  destruct l1 as [|c2 l2]; [by exists []|].
  destruct (isSpace2 c2 c1); [destruct (IH (length l2) ltac:(cbn; lia) l2 eq_refl) as [k Hk]; exists (c1 :: c2 :: k); cbn; congruence|].
  destruct l2 as [|c3 l3]; [by exists []|].
  destruct (isSpace3 c3 c2 c1); [|by exists []].
  destruct (IH (length l3) ltac:(cbn; lia) l3 eq_refl) as [k Hk]. exists (c1 :: c2 :: c3 :: k). cbn. congruence.
Qed.

Lemma trim_prefix l : ∃ k, trimLeft l = trim l ++ k.
Proof.
  unfold trim. destruct (trimLast_suffix (rev (trimLeft l))) as [k Hk]. exists (rev k).
  apply (f_equal (@rev _)) in Hk. rewrite rev_involutive, rev_app_distr in Hk. done.
Qed.

(** What follows a solid byte does not change what is trimmed before it. *)
Lemma trimLeft_app p c t q : trimLeft p = c :: t → solid c = true → trimLeft (p ++ q) = c :: t ++ q.
Proof.
  remember (length p) as n eqn:Hn. revert p Hn. induction n as [n IH] using lt_wf_ind. intros p -> E Hc.
  destruct p as [|c1 l1]; [done|]. cbn [trimLeft app] in *.
  destruct (isSpace1 c1) eqn:E1; [by apply (IH (length l1) ltac:(cbn; lia) l1)|].
  assert (Hsolid : ∀ l, c1 :: l = c :: t → trimLeft (c1 :: l ++ q) = c :: t ++ q)
    by (intros l [= <- <-]; by rewrite trimLeft_solid).
  destruct l1 as [|c2 l2]; [specialize (Hsolid [] E); cbn [trimLeft app] in Hsolid; by rewrite E1 in Hsolid|].
  cbn [app]. destruct (isSpace2 c1 c2) eqn:E2; [by apply (IH (length l2) ltac:(cbn; lia) l2)|].
  destruct l2 as [|c3 l3]; [specialize (Hsolid [c2] E); cbn [trimLeft app] in Hsolid; by rewrite E1, E2 in Hsolid|].
  cbn [app]. destruct (isSpace3 c1 c2 c3) eqn:E3; [by apply (IH (length l3) ltac:(cbn; lia) l3)|].
  by injection E as <- <-.
Qed.

(** ** Splitting *)

Lemma cutAt_Some c l p r : cutAt c l = (p, Some r) ↔ l = p ++ c :: r ∧ c ∉ p.
Proof.
  revert p. induction l as [|x l IH]; intros p; cbn [cutAt].
  - split; [done|]. intros [H _]. by destruct p.
  - destruct (Ascii.eqb_spec x c) as [->|Hx].
    + split; [intros [= <- <-]; split; [done|apply not_elem_of_nil]|]. intros [H Hn]. destruct p as [|y p]; injection H as <-; [congruence|].
      destruct Hn. by left.
    + destruct (cutAt c l) as [p' q] eqn:E. split.
      * intros [= <- ->]. destruct (proj1 (IH p') eq_refl) as [-> Hn]. split; [done|]. apply not_elem_of_cons. split; [congruence|done].
      * intros [H Hn]. destruct p as [|y p]; injection H as <- H; [done|]. apply not_elem_of_cons in Hn as [_ Hn].
        by injection (proj2 (IH p) (conj H Hn)) as <- ->.
Qed.

Lemma cutAt_None c l p : cutAt c l = (p, None) ↔ p = l ∧ c ∉ l.
Proof.
  revert p. induction l as [|x l IH]; intros p; cbn [cutAt].
  - split; [intros [= <-]; split; [done|apply not_elem_of_nil]|]. by intros [-> _].
  - destruct (Ascii.eqb_spec x c) as [->|Hx]; [split; [done|]; intros [_ []]; by left|].
    destruct (cutAt c l) as [p' q] eqn:E. rewrite not_elem_of_cons. split.
    + intros [= <- ->]. destruct (proj1 (IH p') eq_refl) as [-> Hn]. split_and!; [done|congruence|done].
    + intros [-> [_ Hn]]. by injection (proj2 (IH l) (conj eq_refl Hn)) as <- ->.
Qed.

Lemma splitAt_nonempty c l : splitAt c l ≠ [].
Proof. destruct l as [|x l]; cbn; [done|]. destruct (Ascii.eqb x c); [done|]. by destruct (splitAt c l). Qed.

(** The parts have no separator, and joining them gives the text back. *)
Lemma splitAt_parts c l : Forall (λ p, c ∉ p) (splitAt c l).
Proof.
  induction l as [|x l IH]; cbn [splitAt]; [constructor; [apply not_elem_of_nil|constructor]|].
  destruct (Ascii.eqb_spec x c) as [->|Hx]; [constructor; [apply not_elem_of_nil|done]|].
  destruct (splitAt c l) as [|p ps]; [constructor; [|done]; apply not_elem_of_cons; split; [congruence|apply not_elem_of_nil]|].
  apply Forall_cons in IH as [Hp IH]. constructor; [|done]. apply not_elem_of_cons. split; [congruence|done].
Qed.

Lemma splitAt_no c p : c ∉ p → splitAt c p = [p].
Proof.
  induction p as [|x p IH]; [done|]. intros [Hx Hp]%not_elem_of_cons. cbn [splitAt].
  destruct (Ascii.eqb_spec x c); [congruence|]. by rewrite IH.
Qed.

Lemma splitAt_app c p l : c ∉ p → splitAt c (p ++ c :: l) = p :: splitAt c l.
Proof.
  induction p as [|x p IH]; cbn [app splitAt]; [by rewrite Ascii.eqb_refl|]. intros [Hx Hp]%not_elem_of_cons.
  destruct (Ascii.eqb_spec x c); [congruence|]. by rewrite IH.
Qed.

Lemma Split_Join lines : lines ≠ [] → Forall (λ line, newline ∉ chars line) lines → Split (Join lines) = lines.
Proof.
  intros Hne H. unfold Split, Join. induction H as [|line lines Hl _ IH]; [done|]. destruct lines as [|line' lines].
  - cbn [joinWith]. rewrite splitAt_no by done. cbn. by rewrite of_chars_chars.
  - change (joinWith (String newline "") (line :: line' :: lines)) with
      (line +:+ String newline "" +:+ joinWith (String newline "") (line' :: lines))%string.
    rewrite chars_app. change (chars (String newline "" +:+ ?s)) with (newline :: chars s).
    rewrite splitAt_app by done. cbn [fmap list_fmap]. rewrite of_chars_chars. f_equal. by apply IH.
Qed.

Lemma Split_lines s : Forall (λ line, newline ∉ chars line) (Split s).
Proof.
  unfold Split. apply Forall_fmap. eapply Forall_impl; [apply splitAt_parts|]. intros p Hp. cbn. by rewrite chars_of_chars.
Qed.

Lemma Split_nonempty s : Split s ≠ [].
Proof. unfold Split. intros H%fmap_nil_inv. by apply splitAt_nonempty in H. Qed.

(** ** What a line says *)

Definition unquoted (l : list ascii) : list ascii :=
  match enclosing l with Some _ => removelast (tail l) | None => l end.

(** The parameter of a line: comments and blank lines have none. *)
Definition paramOf (line : string) : option (string * string) :=
  let trimmed := TrimSpace line in
  if bool_decide (trimmed = "") || String.prefix "#" trimmed then None
  else
    let '(name, rest) := SplitN line in
    Some (TrimSpace name, match rest with Some r => of_chars (unquoted (trim (chars r))) | None => "" end).

Section override.
Context (Getenv : string → string) (ParseAnyReference : string → result unit).

(** References have neither spaces nor quotes. *)
Definition refChar (c : ascii) : bool := solid c && negb (isQuote c).

Definition plainReferences : Prop := ∀ v, ParseAnyReference v = Ok tt → Forall (λ c, refChar c = true) (chars v).

Context (HP : plainReferences).

Abbreviation override := (resolveImageParamOverride Getenv ParseAnyReference).
Abbreviation rewritten := (overrideLine Getenv ParseAnyReference).

Lemma firstImage_ref names v : firstImage Getenv ParseAnyReference names = Some v →
  v ≠ "" ∧ Forall (λ c, refChar c = true) (chars v).
Proof using HP.
  induction names as [|n names IH]; cbn [firstImage]; [done|]. case_bool_decide as Hv; [done|].
  destruct (ParseAnyReference _) as [[]|e] eqn:E; [|done]. intros [= <-]. split; [done|by apply HP].
Qed.

Lemma override_ref key v : override key = Some v →
  key ∈ imageParams ∧ v ≠ "" ∧ Forall (λ c, refChar c = true) (chars v).
Proof using HP.
  unfold resolveImageParamOverride, imageParamEnvMap. case_bool_decide as Hk; [|done]. intros H. split; [done|].
  by apply firstImage_ref in H.
Qed.

Lemma imageParam_solid key : key ∈ imageParams → ∃ c l, chars key = c :: l ∧ c = "R"%char ∧ Forall (λ c, solid c = true) (chars key) ∧
  (equals ∉ chars key) ∧ (newline ∉ chars key).
Proof using Type.
  unfold imageParams. intros H. repeat (apply elem_of_cons in H as [->|H]; [do 2 eexists; split; [reflexivity|]; split; [done|];
    split_and!; apply (bool_decide_unpack _); vm_compute; exact I|]). by apply not_elem_of_nil in H.
Qed.

(** A plain value, quoted or not, is read back. *)
Lemma plain_value v : Forall (λ c, refChar c = true) (chars v) → v ≠ "" →
  enclosing (trim (chars v)) = None ∧ of_chars (unquoted (trim (chars v))) = v.
Proof using Type.
  intros Hv Hne. assert (Hs : Forall (λ c, solid c = true) (chars v)).
  { eapply Forall_impl; [exact Hv|]. by intros c [? _]%andb_true_iff. }
  assert (He : enclosing (trim (chars v)) = None).
  { rewrite trim_Forall by done. unfold enclosing. destruct (chars v) as [|q [|c l]]; try done.
    apply Forall_cons in Hv as [[_ Hq]%andb_true_iff _]. destruct (last _); [|done]. by destruct (isQuote q). }
  split; [done|]. unfold unquoted. by rewrite He, trim_Forall, of_chars_chars.
Qed.

Lemma isQuote_solid q : isQuote q = true → solid q = true ∧ q ≠ newline.
Proof using Type.
  unfold isQuote. intros [H|H]%orb_true_iff; apply Ascii.eqb_eq in H as ->; split; done.
Qed.

Lemma quoted_value q v : isQuote q = true → Forall (λ c, refChar c = true) (chars v) →
  trim (q :: chars v ++ [q]) = q :: chars v ++ [q] ∧ enclosing (q :: chars v ++ [q]) = Some q ∧
  unquoted (q :: chars v ++ [q]) = chars v.
Proof using Type.
  intros Hq Hv. destruct (isQuote_solid q Hq) as [Hs _]. split; [by apply trim_solid|].
  assert (He : enclosing (q :: chars v ++ [q]) = Some q).
  { pose proof (last_snoc q (q :: chars v) : last (q :: (chars v ++ [q])) = Some q) as El.
    unfold enclosing. destruct (chars v ++ [q]) as [|c l] eqn:E; [by destruct (chars v)|]. by rewrite El, Hq, Ascii.eqb_refl. }
  split; [done|]. unfold unquoted. rewrite He. cbn [tail]. apply removelast_last.
Qed.

Lemma enclosing_quote l q : enclosing l = Some q → isQuote q = true.
Proof using Type.
  unfold enclosing. destruct l as [|x [|y l]]; try done. destruct (last _); [|done].
  destruct (isQuote x) eqn:E; [|done]. cbn. case_match; [|done]. by intros [= <-].
Qed.

(** The line of an image parameter, once rewritten. *)
Definition rewrittenTo (line key v line' : string) : Prop :=
  ∃ name value, chars line' = name ++ equals :: value ∧ (equals ∉ name) ∧ trim name = chars key ∧
    (newline ∉ chars line → newline ∉ chars line') ∧ of_chars (unquoted (trim value)) = v ∧
    rewriteEnvLine line' key v = line'.

Lemma chars_entry name value : chars (of_chars name +:+ "=" +:+ of_chars value)%string = name ++ equals :: value.
Proof using Type. by rewrite chars_app, chars_app, !chars_of_chars. Qed.

Lemma SplitN_entry line name value : chars line = name ++ equals :: value → equals ∉ name →
  SplitN line = (of_chars name, Some (of_chars value)).
Proof using Type. intros Hl Hn. unfold SplitN. by rewrite Hl, (proj2 (cutAt_Some equals _ name value) (conj eq_refl Hn)). Qed.

Lemma newline_entry name value : newline ∉ name → newline ∉ value → newline ∉ name ++ equals :: value.
Proof using Type. intros Hn Hv. rewrite not_elem_of_app, not_elem_of_cons. by split_and!. Qed.

(** The two forms of a value that is written. *)
Lemma written_plain name v : equals ∉ name → v ≠ "" → Forall (λ c, refChar c = true) (chars v) →
  let line' := (of_chars name +:+ "=" +:+ v)%string in
  of_chars (unquoted (trim (chars v))) = v ∧ ∀ key, rewriteEnvLine line' key v = line'.
Proof using Type.
  intros Hn Hne Hv. destruct (plain_value v Hv Hne) as [He Hu]. split; [done|]. intros key. unfold rewriteEnvLine.
  rewrite (SplitN_entry _ name (chars v)) by (done || by rewrite chars_app, chars_app, chars_of_chars).
  by rewrite chars_of_chars, He.
Qed.

Lemma written_quoted name q v : equals ∉ name → isQuote q = true → Forall (λ c, refChar c = true) (chars v) →
  let line' := (of_chars name +:+ "=" +:+ String q v +:+ String q "")%string in
  chars line' = name ++ equals :: q :: chars v ++ [q] ∧
  of_chars (unquoted (trim (q :: chars v ++ [q]))) = v ∧ ∀ key, rewriteEnvLine line' key v = line'.
Proof using Type.
  intros Hn Hq Hv. cbv zeta. destruct (quoted_value q v Hq Hv) as (Ht & He & Hu).
  assert (Hl : chars (of_chars name +:+ "=" +:+ String q v +:+ String q "")%string = name ++ equals :: q :: chars v ++ [q])
    by (rewrite chars_app, chars_app, chars_app, chars_of_chars; done).
  split; [done|]. rewrite Ht, Hu, of_chars_chars. split; [done|]. intros key. unfold rewriteEnvLine.
  rewrite (SplitN_entry _ name (q :: chars v ++ [q])) by done. by rewrite chars_of_chars, Ht, He.
Qed.

Lemma rewriteEnvLine_spec line v : let key := TrimSpace (SplitN line).1 in
  key ∈ imageParams → v ≠ "" → Forall (λ c, refChar c = true) (chars v) →
  rewrittenTo line key v (rewriteEnvLine line key v).
Proof using Type.
  intros key Hk Hne Hv. destruct (imageParam_solid key Hk) as (_ & _ & _ & _ & Hs & He & Hn).
  assert (Hvn : newline ∉ chars v).
  { intros Hin. rewrite Forall_forall in Hv. by specialize (Hv _ Hin). }
  subst key. unfold SplitN in *. destruct (cutAt equals (chars line)) as [name rest] eqn:E. cbn [fst] in *.
  set (key := TrimSpace (of_chars name)) in *. unfold rewriteEnvLine at 1, SplitN. rewrite E.
  destruct rest as [rest|]; cbn [fmap option_fmap option_map].
  - apply cutAt_Some in E as [Hline Hname].
    assert (Htrim : trim name = chars key) by (subst key; unfold TrimSpace; by rewrite !chars_of_chars).
    assert (Hnn : newline ∉ chars line → newline ∉ name) by (rewrite Hline, not_elem_of_app; by intros []).
    rewrite chars_of_chars. destruct (enclosing (trim rest)) as [q|] eqn:Eq.
    + pose proof (enclosing_quote _ _ Eq) as Hq. destruct (written_quoted name q v Hname Hq Hv) as (Hl & Hval & Hagain).
      exists name, (q :: chars v ++ [q]). split_and!; [done..| |done|done].
      intros Hnl. rewrite Hl. apply newline_entry; [by apply Hnn|]. destruct (isQuote_solid q Hq) as [_ Hqn].
      rewrite not_elem_of_cons, not_elem_of_app, list_elem_of_singleton. by split_and!.
    + destruct (written_plain name v Hname Hne Hv) as [Hval Hagain].
      assert (Hl : chars (of_chars name +:+ "=" +:+ v)%string = name ++ equals :: chars v) by by rewrite !chars_app, chars_of_chars.
      exists name, (chars v). split_and!; [done..| |done|done]. intros Hnl. rewrite Hl. apply newline_entry; [by apply Hnn|done].
  - destruct (written_plain (chars key) v He Hne Hv) as [Hval Hagain]. rewrite of_chars_chars in *.
    assert (Hl : chars (key +:+ "=" +:+ v)%string = chars key ++ equals :: chars v) by by rewrite !chars_app.
    exists (chars key), (chars v). split_and!; [done|done|by apply trim_Forall| |done|done].
    intros _. rewrite Hl. by apply newline_entry.
Qed.

Lemma trimLast_keeps c l : solid c = true → ∃ l', trimLast (l ++ [c]) = l' ++ [c].
Proof using Type.
  intros Hc. pose proof (solid_not_space c Hc) as (H1 & H2 & H3).
  remember (length l) as n eqn:Hn. revert l Hn. induction n as [n IH] using lt_wf_ind. intros l ->.
  destruct l as [|c1 l1]; [exists []; by apply (trimLast_solid c [])|]. cbn [app trimLast].
  destruct (isSpace1 c1); [by apply (IH (length l1)); [cbn; lia|]|].
  destruct l1 as [|c2 l2]; cbn [app].
  { rewrite (proj1 (H2 c1)). by exists [c1]. }
  destruct (isSpace2 c2 c1); [by apply (IH (length l2)); [cbn; lia|]|].
  destruct l2 as [|c3 l3]; cbn [app].
  { rewrite (proj1 (H3 c2 c1)). by exists [c1; c2]. }
  destruct (isSpace3 c3 c2 c1); [by apply (IH (length l3)); [cbn; lia|]|]. by exists (c1 :: c2 :: c3 :: l3).
Qed.

Lemma trim_head name q c t : trim name = c :: t → solid c = true → ∃ t', trim (name ++ q) = c :: t'.
Proof using Type.
  intros Ht Hc. destruct (trim_prefix name) as [k Hk]. rewrite Ht in Hk. unfold trim at 1.
  rewrite (trimLeft_app name c (t ++ k) q Hk Hc). cbn [rev].
  destruct (trimLast_keeps c (rev ((t ++ k) ++ q)) Hc) as [l' Hl']. rewrite Hl', rev_app_distr. by exists (rev l').
Qed.

(** A line of an image parameter is neither blank nor a comment. *)
Lemma entry_says line name value key : chars line = name ++ equals :: value → equals ∉ name →
  trim name = chars key → key ∈ imageParams →
  bool_decide (TrimSpace line = "") || String.prefix "#" (TrimSpace line) = false ∧
  TrimSpace (SplitN line).1 = key ∧ paramOf line = Some (key, of_chars (unquoted (trim value))).
Proof using Type.
  intros Hl Hn Ht Hk. destruct (imageParam_solid key Hk) as (c & t & Hc & -> & Hs & _).
  assert (Hhead : bool_decide (TrimSpace line = "") || String.prefix "#" (TrimSpace line) = false).
  { unfold TrimSpace. rewrite Hl. rewrite Hc in Ht.
    destruct (trim_head name (equals :: value) "R" t Ht eq_refl) as [t' ->]. by rewrite bool_decide_eq_false_2. }
  assert (Hkey : TrimSpace (of_chars name) = key) by (unfold TrimSpace; by rewrite chars_of_chars, Ht, of_chars_chars).
  split; [done|]. rewrite (SplitN_entry _ _ _ Hl Hn). split; [done|].
  unfold paramOf. rewrite Hhead, (SplitN_entry _ _ _ Hl Hn), Hkey. by rewrite chars_of_chars.
Qed.

(** An overridden line says the image of the environment, nothing else, and
    stays as it is the next time. *)
Lemma overridden line line' : rewritten line = Some line' →
  ∃ key old v, paramOf line = Some (key, old) ∧ override key = Some v ∧ paramOf line' = Some (key, v) ∧
    (newline ∉ chars line → newline ∉ chars line') ∧ rewritten line' = Some line'.
Proof using HP.
  unfold overrideLine at 1. destruct (_ || _) eqn:Hc; [done|]. set (key := TrimSpace (SplitN line).1).
  destruct (override key) as [v|] eqn:Ho; [|done]. intros [= <-].
  destruct (override_ref _ _ Ho) as (Hk & Hne & Hv).
  destruct (rewriteEnvLine_spec line v Hk Hne Hv) as (name & value & Hl & Hn & Ht & Hnl & Hval & Hagain). fold key in Hl, Hnl, Ht, Hagain.
  set (line' := rewriteEnvLine line key v) in *.
  destruct (entry_says line' name value key Hl Hn Ht Hk) as (Hc' & Hkey & Hp).
  assert (Hold : ∃ old, paramOf line = Some (key, old)).
  { unfold paramOf. rewrite Hc. subst key. destruct (SplitN line) as [n r]. by eexists. }
  destruct Hold as [old Hold]. exists key, old, v. split_and!; [done..|by rewrite Hp, Hval|done|].
  unfold overrideLine. rewrite Hc', Hkey, Ho. cbn [fmap option_fmap option_map]. by rewrite Hagain.
Qed.

Lemma kept line : rewritten line = None → ∀ key v, paramOf line = Some (key, v) → override key = None.
Proof using Type.
  unfold overrideLine, paramOf. destruct (_ || _); [done|]. destruct (SplitN line) as [n r]. cbn [fst].
  destruct (override _) eqn:E; [done|]. intros _ key v [= <- _]. done.
Qed.

(** ** The file *)

(** The parameters of a file, in order. *)
Definition params (content : string) : list (string * string) := omap paramOf (Split content).

Definition overriding : string * string → string * string := λ '(key, v), (key, default v (override key)).

Definition newLine (line : string) : string := default line (rewritten line).

Lemma newLine_says line : paramOf (newLine line) = overriding <$> paramOf line.
Proof using HP.
  unfold newLine.
  destruct (rewritten line) as [line'|] eqn:E; cbn [default from_option id].
  - destruct (overridden _ _ E) as (key & old & v & -> & Ho & -> & _). cbn. by rewrite Ho.
  - pose proof (kept _ E) as Hk. destruct (paramOf line) as [[key v]|]; [|done]. cbn. by rewrite (Hk key v eq_refl).
Qed.

Lemma newLine_again line : newLine (newLine line) = newLine line.
Proof using HP.
  unfold newLine.
  destruct (rewritten line) as [line'|] eqn:E; cbn [default from_option id]; [|by rewrite E].
  destruct (overridden _ _ E) as (key & old & v & _ & _ & _ & _ & ->). done.
Qed.

Lemma newLine_newline line : newline ∉ chars line → newline ∉ chars (newLine line).
Proof using HP.
  unfold newLine.
  destruct (rewritten line) as [line'|] eqn:E; cbn [default from_option id]; [|done].
  by destruct (overridden _ _ E) as (key & old & v & _ & _ & _ & H & _).
Qed.

Lemma omap_newLine (lines : list string) : omap paramOf (newLine <$> lines) = overriding <$> omap paramOf lines.
Proof using HP.
  induction lines as [|line lines IH]; [done|]. cbn. rewrite newLine_says, IH. by destruct (paramOf line).
Qed.

Lemma overrideContent_lines content content' :
  overrideContent Getenv ParseAnyReference content = Some content' →
  Split content' = newLine <$> Split content.
Proof using HP.
  unfold overrideContent. destruct (existsb _ _); [|done]. intros [= <-]. apply Split_Join.
  - intros H%fmap_nil_inv. by apply Split_nonempty in H.
  - apply Forall_fmap. eapply Forall_impl; [apply Split_lines|]. intros line Hl. by apply newLine_newline.
Qed.

Lemma overrideContent_none content :
  overrideContent Getenv ParseAnyReference content = None → ∀ line, line ∈ Split content → rewritten line = None.
Proof using Type.
  unfold overrideContent. destruct (existsb _ _) eqn:E; [done|]. intros _ line Hin.
  apply not_true_iff_false in E. destruct (rewritten line) as [l|] eqn:El; [|done]. destruct E. apply existsb_exists.
  exists line. rewrite <- list_elem_of_In. split; [done|]. rewrite El. by apply bool_decide_eq_true.
Qed.

Context {FS : Type} `{!FileSystem FS, !FileSystemLaws FS}.

(** C40. Substituting the images in [params.env], when it succeeds on a file that can
    be read: each parameter keeps its name and its place and has the image of the
    environment if there is a valid one, its old value otherwise; comments, blank
    lines and all other parameters are the same lines as before; no other file
    changes; and doing it again gives the same file. *)
Theorem params_overridden (target fs : FS) path content :
  Exists target path = true → ReadFile target path = Ok content →
  applyParamsEnvOverrides Getenv ParseAnyReference target path = (fs, None) →
  ∃ content', ReadFile fs path = Ok content' ∧ (∀ p, p ≠ path → ReadFile fs p = ReadFile target p) ∧
    params content' = overriding <$> params content ∧
    (∀ i line, Split content !! i = Some line →
       (∀ key v, paramOf line = Some (key, v) → override key = None) → Split content' !! i = Some line) ∧
    default content' (overrideContent Getenv ParseAnyReference content') = content'.
Proof using HP FileSystemLaws0.
  intros He Hr. unfold applyParamsEnvOverrides. rewrite He, Hr. cbn [negb].
  destruct (overrideContent Getenv ParseAnyReference content) as [content'|] eqn:E.
  - pose proof (WriteFile_spec target path content') as Hw. destruct (WriteFile target path content') as [fs' e].
    intros [= <- ->]. destruct (Hw eq_refl) as (_ & Hread & Hother). exists content'. pose proof (overrideContent_lines _ _ E) as Hl.
    split_and!; [done|done|by unfold params; rewrite Hl, omap_newLine| |].
    + intros i line Hi Hno. rewrite Hl, list_lookup_fmap, Hi. cbn. unfold newLine. destruct (rewritten line) as [line'|] eqn:El; [|done].
      destruct (overridden _ _ El) as (key & old & v & Hp & Ho & _). by rewrite (Hno _ _ Hp) in Ho.
    + destruct (overrideContent Getenv ParseAnyReference content') as [again|] eqn:E2; [|done]. cbn.
      unfold overrideContent in E2. rewrite Hl in E2. destruct (existsb _ _) in E2; [|done]. injection E2 as <-.
      unfold overrideContent in E. destruct (existsb _ _) in E; [|done]. injection E as <-. f_equal.
      rewrite <- list_fmap_compose. apply list_fmap_ext. intros _ line _. apply newLine_again.
  - intros [= <-]. exists content. pose proof (overrideContent_none _ E) as Hno. split_and!; [done|done| |done|by rewrite E].
    unfold params. rewrite <- omap_newLine. f_equal. rewrite <- (list_fmap_id (Split content)) at 1.
    apply list_fmap_ext. intros i line Hi. unfold newLine. rewrite (Hno line); [done|]. by apply list_elem_of_lookup_2 in Hi.
Qed.
End override.
