(* ===== verification/Module.v ===== *)
(** * The module operator

    The reconciler of [ogx-module/internal/controller/ogx/reconciler.go]: it
    deploys the staged manifests of the operator for the custom resource [OGX] of
    the platform, watches them become ready, aggregates the health of the
    servers, and removes everything again.  Deploying, garbage collection, the
    rendering of overlays and the condition manager are libraries of the
    platform, and are parameters. *)

From Stdlib Require Import ZArith.
From stdpp Require Import pretty.
From S2P Require Import Prelude Value Fmt Client Action Objects Kustomize Apply CABundle ModuleParams.

#[local] Open Scope Z_scope.

(** ** The custom resource *)

Inductive ManagementState := Managed | Removed | OtherState (s : string).
#[export] Instance ManagementState_eq_dec : EqDecision ManagementState.
Proof. solve_decision. Defined.

Record ComponentRelease := { Release_Name : string; Release_Version : string; Release_RepoURL : string }.

Inductive Severity := SeverityError | SeverityInfo.
Inductive ConditionState := ConditionTrue | ConditionFalse | ConditionUnknown.
#[export] Instance ConditionState_eq_dec : EqDecision ConditionState.
Proof. solve_decision. Defined.

Record ModuleCondition := {
  MCond_Type : string;
  MCond_Status : ConditionState;
  MCond_Reason : string;
  MCond_Message : string;
  MCond_Severity : Severity;
  MCond_ObservedGeneration : Z;
}.

Inductive Phase := PhaseNone | PhaseReady | PhaseNotReady.

Record OGXStatus := {
  OS_ObservedGeneration : Z;
  OS_Phase : Phase;
  OS_Conditions : list ModuleCondition;
  OS_Releases : list ComponentRelease;
  OS_DistributionName : string;
  OS_DistributionVersion : string;
}.

Record OGX := {
  OGX_Namespace : string;
  OGX_Name : string;
  OGX_Generation : Z;
  OGX_Finalizers : list string;
  OGX_Deleting : bool;
  OGX_ResourceVersion : string;
  OGX_ManagementState : ManagementState;
  OGX_Status : OGXStatus;
}.

Definition ogxKey (o : OGX) : NamespacedName := (OGX_Namespace o, OGX_Name o).

Definition managementState (instance : OGX) : ManagementState :=
  if decide (OGX_ManagementState instance = Removed) then Removed else Managed.

Definition withFinalizers (l : list string) (o : OGX) : OGX :=
  {| OGX_Namespace := OGX_Namespace o; OGX_Name := OGX_Name o; OGX_Generation := OGX_Generation o; OGX_Finalizers := l;
     OGX_Deleting := OGX_Deleting o; OGX_ResourceVersion := OGX_ResourceVersion o;
     OGX_ManagementState := OGX_ManagementState o; OGX_Status := OGX_Status o |}.

Definition withOGXStatus (st : OGXStatus) (o : OGX) : OGX :=
  {| OGX_Namespace := OGX_Namespace o; OGX_Name := OGX_Name o; OGX_Generation := OGX_Generation o;
     OGX_Finalizers := OGX_Finalizers o; OGX_Deleting := OGX_Deleting o; OGX_ResourceVersion := OGX_ResourceVersion o;
     OGX_ManagementState := OGX_ManagementState o; OGX_Status := st |}.

(** ** Finalizers *)

Definition ogxFinalizer : string := "components.platform.opendatahub.io/ogx-finalizer".

(** [controllerutil.ContainsFinalizer]; [AddFinalizer] and [RemoveFinalizer] with
    the object they leave. *)
Definition hasFinalizer (instance : OGX) : bool := bool_decide (ogxFinalizer ∈ OGX_Finalizers instance).

Definition ensureFinalizer (instance : OGX) : OGX * bool :=
  if hasFinalizer instance then (instance, false)
  else (withFinalizers (OGX_Finalizers instance ++ [ogxFinalizer]) instance, true).

Definition clearFinalizer (instance : OGX) : OGX :=
  withFinalizers (filter (λ f, f ≠ ogxFinalizer) (OGX_Finalizers instance)) instance.

(** ** Configuration *)

Record Config := {
  ManifestsPath : string;
  ApplicationsNamespace : string;
  PlatformName : string;
  PlatformVersion : string;
}.

Definition DefaultPlatformVersion : string := "unknown".
Definition KeyPlatformVersion : string := "platform-version".

Definition withPlatformVersion (v : string) (c : Config) : Config :=
  {| ManifestsPath := ManifestsPath c; ApplicationsNamespace := ApplicationsNamespace c;
     PlatformName := PlatformName c; PlatformVersion := v |}.

Definition platformConfigCMName : string := ("odh-" +:+ componentName +:+ "-config")%string.
Definition platformVersionDataKey : string := "platformVersion".
Definition platformReleaseName : string := "platform".

(** The version that the data of the platform's ConfigMap carries; a nil map is
    an empty one. *)
Definition versionOf (data : gmap string string) : string :=
  let version := TrimSpace (default "" (data !! platformVersionDataKey)) in
  if negb (bool_decide (version = "")) then version else TrimSpace (default "" (data !! KeyPlatformVersion)).

Definition isPlatformConfigMap (cfg : Config) (name namespace : string) : bool :=
  bool_decide (name = platformConfigCMName) && bool_decide (namespace = ApplicationsNamespace cfg).

Definition platformVersion (cfg : Config) : string := TrimSpace (PlatformVersion cfg).

(** ** Releases *)

Fixpoint setRelease (version : string) (l : list ComponentRelease) : option (list ComponentRelease) :=
  match l with
  | [] => None
  | r :: l =>
      if bool_decide (Release_Name r = platformReleaseName)
      then Some ({| Release_Name := Release_Name r; Release_Version := version; Release_RepoURL := Release_RepoURL r |} :: l)
      else cons r <$> setRelease version l
  end.

Definition setPlatformRelease (version : string) (releases : list ComponentRelease) : list ComponentRelease :=
  if bool_decide (version = "") || bool_decide (version = DefaultPlatformVersion) then releases
  else
    default (releases ++ [{| Release_Name := platformReleaseName; Release_Version := version; Release_RepoURL := "" |}])
      (setRelease version releases).

(** ** Conditions

    The condition manager of [odh-platform-utilities].  Its first argument is the
    condition that sums the others up, which it maintains itself, and those. *)

Inductive conditionOption :=
| WithObservedGeneration (g : Z)
| WithReason (reason : string)
| WithMessage (message : string)
| WithError (e : error)
| WithSeverity (s : Severity).

Class ConditionManager := {
  newManager : list string → list ModuleCondition → list ModuleCondition;
  mark : list string → ConditionState → string → list conditionOption → list ModuleCondition → list ModuleCondition;
  sortConditions : list ModuleCondition → list ModuleCondition;
  isHappy : list string → list ModuleCondition → bool;
}.

(** The condition of a type; the first one counts. *)
Definition conditionOf (l : list ModuleCondition) (t : string) : option ModuleCondition :=
  List.find (λ c, bool_decide (MCond_Type c = t)) l.

(** Marking sets the status and the reason of one condition, and leaves the others
    alone but for the summary; sorting changes no condition. *)
Class ConditionManagerLaws `{ConditionManager} : Prop := {
  mark_status : ∀ types status t opts l, ∃ c, conditionOf (mark types status t opts l) t = Some c ∧ MCond_Status c = status;
  mark_reason : ∀ types status t opts l reason c, List.filter (λ o, match o with WithReason _ => true | _ => false end) opts = [WithReason reason] →
    conditionOf (mark types status t opts l) t = Some c → MCond_Reason c = reason;
  mark_other : ∀ types status t opts l t', t' ≠ t → head types ≠ Some t' →
    conditionOf (mark types status t opts l) t' = conditionOf l t';
  sort_conditions : ∀ l t, conditionOf (sortConditions l) t = conditionOf l t;
}.

Definition ConditionTypeReady : string := "Ready".
Definition ConditionTypeProvisioningSucceeded : string := "ProvisioningSucceeded".
Definition ConditionTypeDegraded : string := "Degraded".
Definition conditionTypeRootOperatorReady : string := "RootOperatorReady".
Definition conditionTypeRootWebhookReady : string := "RootWebhookReady".

Definition managedTypes : list string :=
  [ConditionTypeReady; ConditionTypeProvisioningSucceeded; conditionTypeRootOperatorReady; conditionTypeRootWebhookReady].

(** ** Health of the servers *)

Definition ogxServerDeploymentReady : string := "DeploymentReady".
Definition ogxServerHealthCheck : string := "HealthCheck".

(** [unstructured.NestedSlice]: absent, of another type, or a slice. *)
Fixpoint nestedField (v : any) (path : list string) : result (option any) :=
  match path with
  | [] => Ok (Some v)
  | f :: path =>
      match v with
      | ANil => Ok None
      | AMap m => match m !! f with None => Ok None | Some v => nestedField v path end
      | _ => Err (New "accessor error: not a map")
      end
  end.

Definition nestedSlice (d : object) (path : list string) : result (option (list any)) :=
  found ← nestedField (AMap d) path;
  match found with
  | None => Ok None
  | Some (AList l) => Ok (Some l)
  | Some _ => Err (New "accessor error: not a slice")
  end.

(** A field of a map that is a string, or the empty string. *)
Definition textField (m : object) (f : string) : string :=
  match m !! f with Some (AString s) => s | _ => "" end.

Definition hasConditionStatus (conditions : list any) (conditionType status : string) : bool :=
  existsb (λ v, match v with
                | AMap m => bool_decide (textField m "type" = conditionType) && bool_decide (textField m "status" = status)
                | _ => false
                end) conditions.

Definition ogxServerIsHealthy (obj : object) : bool :=
  match nestedSlice obj ["status"; "conditions"] with
  | Ok (Some conditions) =>
      negb (hasConditionStatus conditions ogxServerDeploymentReady "False") &&
      negb (hasConditionStatus conditions ogxServerHealthCheck "False")
  | _ => false
  end.

Record ogxServerHealthSummary := { Total : Z; UnhealthyCount : Z; Unhealthy : list string }.
Definition noServers : ogxServerHealthSummary := {| Total := 0; UnhealthyCount := 0; Unhealthy := [] |}.

(** A server, by its namespace, its name and its tree. *)
Definition summarize (items : list (NamespacedName * object)) : ogxServerHealthSummary :=
  foldl (λ s '((namespace, name), obj),
    if negb (ogxServerIsHealthy obj) then
      {| Total := Total s; UnhealthyCount := UnhealthyCount s + 1; Unhealthy := Unhealthy s ++ [(namespace +:+ "/" +:+ name)%string] |}
    else s)
    {| Total := Z.of_nat (length items); UnhealthyCount := 0; Unhealthy := [] |} items.

Definition aggregateOGXServerHealth (listed : apiError + list (NamespacedName * object)) : result ogxServerHealthSummary :=
  match listed with
  | inl e => if IsNoMatchError e || IsNotFound e then Ok noServers
             else Err (Wrapf "failed to list OGXServer instances: %w" [] (apiErr e))
  | inr items => Ok (summarize items)
  end.

(** ** Readiness of what was deployed *)

Definition isGVK (group version kind : string) (u : Unstructured) : bool :=
  bool_decide (U_Group u = group) && bool_decide (U_Version u = version) && bool_decide (U_Kind u = kind).

Definition isDeployment : Unstructured → bool := isGVK "apps" "v1" "Deployment".
Definition isCRD : Unstructured → bool := isGVK "apiextensions.k8s.io" "v1" "CustomResourceDefinition".
Definition isNamespace : Unstructured → bool := isGVK "" "v1" "Namespace".
Definition isServiceMonitor : Unstructured → bool := isGVK "monitoring.coreos.com" "v1" "ServiceMonitor".
Definition isPrometheusRule : Unstructured → bool := isGVK "monitoring.coreos.com" "v1" "PrometheusRule".
Definition isWebhookConfiguration : Unstructured → bool :=
  isGVK "admissionregistration.k8s.io" "v1" "ValidatingWebhookConfiguration".

Definition keyOfResource (u : Unstructured) : NamespacedName := (Obj_Namespace (U_Meta u), Obj_Name (U_Meta u)).

(** What is read of a Deployment. *)
Record DeploymentReport := {
  DR_Generation : Z;
  DR_ObservedGeneration : Z;
  DR_Replicas : option Z;
  DR_ReadyReplicas : Z;
  DR_AvailableReplicas : Z;
}.

Definition deploymentReady (d : DeploymentReport) : bool :=
  let expected := default 1 (DR_Replicas d) in
  negb (DR_ObservedGeneration d <? DR_Generation d) &&
  negb ((DR_ReadyReplicas d <? expected) || (DR_AvailableReplicas d <? expected)).

Definition keyText (k : NamespacedName) : string := (k.1 +:+ "/" +:+ k.2)%string.

Section readiness.
(** The services of the webhooks of a configuration; [None] is a webhook without a service. *)
Context (GetDeployment : NamespacedName → apiError + DeploymentReport)
  (GetWebhookConfiguration : string → apiError + list (option NamespacedName))
  (GetService GetSecret : NamespacedName → option apiError).

Fixpoint deploymentsReady (keys : list NamespacedName) : result bool :=
  match keys with
  | [] => Ok true
  | k :: keys =>
      match GetDeployment k with
      | inl e => Err (Wrapf "failed to get deployment %s: %w" [keyText k] (apiErr e))
      | inr d => if deploymentReady d then deploymentsReady keys else Ok false
      end
  end.

Definition rootDeploymentsReady (resources : list Unstructured) : result bool :=
  deploymentsReady (keyOfResource <$> List.filter isDeployment resources).

Definition webhookSecretRefsFromDeployment (u : Unstructured) : result (list NamespacedName) :=
  found ← nestedSlice (U_Object u) ["spec"; "template"; "spec"; "volumes"];
  Ok (match found with
      | None => []
      | Some volumes =>
          omap (λ v, match v with
                     | AMap volume =>
                         match volume !! "secret" with
                         | Some (AMap secret) =>
                             let secretName := textField secret "secretName" in
                             if bool_decide (secretName = "") then None
                             else Some (Obj_Namespace (U_Meta u), secretName)
                         | _ => None
                         end
                     | _ => None
                     end) volumes
      end).

(** Whether all objects are there: one that is missing is not an error. *)
Fixpoint allPresent (read : NamespacedName → option apiError) (format : string) (keys : list NamespacedName) : result bool :=
  match keys with
  | [] => Ok true
  | k :: keys =>
      match read k with
      | Some e => if IsNotFound e then Ok false else Err (Wrapf format [keyText k] (apiErr e))
      | None => allPresent read format keys
      end
  end.

Fixpoint webhooksReady (names : list string) : result bool :=
  match names with
  | [] => Ok true
  | name :: names =>
      match GetWebhookConfiguration name with
      | inl e => if IsNotFound e then Ok false
                 else Err (Wrapf "failed to get validating webhook configuration %s: %w" [name] (apiErr e))
      | inr webhooks =>
          present ← allPresent GetService "failed to get webhook service %s: %w" (omap id webhooks);
          if present : bool then webhooksReady names else Ok false
      end
  end.

(** The Secrets of the Deployments are collected first, in the order of the resources. *)
Definition rootWebhookResourcesReady (resources : list Unstructured) : result bool :=
  secretRefs ← mapM_result webhookSecretRefsFromDeployment (List.filter isDeployment resources);
  let webhookNames := (λ u, Obj_Name (U_Meta u)) <$> List.filter isWebhookConfiguration resources in
  match webhookNames with
  | [] => Ok true
  | _ =>
      webhooks ← webhooksReady webhookNames;
      if webhooks : bool then allPresent GetSecret "failed to get webhook secret %s: %w" (mjoin secretRefs) else Ok false
  end.
End readiness.

(** ** The status *)

Section status.
Context `{CM : ConditionManager}.

Definition marking : Type := ConditionState * string * list conditionOption.

Definition failed (t reason message : string) : marking := (ConditionFalse, t, [WithReason reason; WithMessage message]).
Definition succeeded (t reason message : string) : marking := (ConditionTrue, t, [WithReason reason; WithMessage message]).

(** The arms of the switch, in their order. *)
Definition outcomeMarks (instance : OGX) (provisioningSucceeded rootOperatorReady rootWebhookReady : bool)
    (reconcileErr : option error) : list marking :=
  if decide (managementState instance = Removed) then
    [failed ConditionTypeProvisioningSucceeded "Removed" "OGX module resources were removed";
     failed conditionTypeRootOperatorReady "Removed" "Root OGX operator deployment is removed";
     failed conditionTypeRootWebhookReady "Removed" "Root OGX operator webhook resources are removed";
     failed ConditionTypeDegraded "Removed" "OGX module is not degraded"]
  else
    match reconcileErr with
    | Some e =>
        [(ConditionFalse, ConditionTypeProvisioningSucceeded, [WithReason "DeployFailed"; WithError e]);
         failed conditionTypeRootOperatorReady "DeployFailed" "Root OGX operator deployment is not ready";
         failed conditionTypeRootWebhookReady "DeployFailed" "Root OGX operator webhook resources are not ready";
         failed ConditionTypeDegraded "DeployFailed" "OGX module deploy failed"]
    | None =>
        if rootOperatorReady then
          [succeeded ConditionTypeProvisioningSucceeded "Provisioned" "Root OGX operator manifests applied successfully";
           succeeded conditionTypeRootOperatorReady "DeploymentReady" "Root OGX operator deployment is ready";
           if rootWebhookReady
           then succeeded conditionTypeRootWebhookReady "WebhookReady" "Root OGX operator webhook resources are ready"
           else failed conditionTypeRootWebhookReady "WebhookNotReady" "Root OGX operator webhook resources are not ready"]
        else if provisioningSucceeded then
          [succeeded ConditionTypeProvisioningSucceeded "Provisioned" "Root OGX operator manifests applied successfully";
           failed conditionTypeRootOperatorReady "Deploying" "Waiting for root OGX operator deployment to become ready";
           failed conditionTypeRootWebhookReady "Deploying" "Waiting for root OGX operator webhook resources to become ready"]
        else
          [failed ConditionTypeProvisioningSucceeded "Unknown" "OGX module provisioning state is unknown";
           (ConditionUnknown, conditionTypeRootOperatorReady, [WithReason "Unknown"; WithMessage "OGX module state is unknown"]);
           (ConditionUnknown, conditionTypeRootWebhookReady, [WithReason "Unknown"; WithMessage "OGX module webhook state is unknown"])]
    end.

Definition degradedMark (h : ogxServerHealthSummary) : marking :=
  if 0 <? UnhealthyCount h then
    (ConditionTrue, ConditionTypeDegraded,
     [WithReason "UnhealthyOGXServers"; WithMessage (Sprintf "Unhealthy OGXServer instances: %s" [joinWith ", " (Unhealthy h)]);
      WithSeverity SeverityInfo])
  else
    (ConditionFalse, ConditionTypeDegraded,
     [WithReason "Healthy"; WithMessage "No unhealthy OGXServer instances detected"; WithSeverity SeverityInfo]).

Definition applyMark (g : Z) (l : list ModuleCondition) (m : marking) : list ModuleCondition :=
  let '(status, t, opts) := m in mark managedTypes status t (WithObservedGeneration g :: opts) l.

(** [releases] is what was loaded, if it could be. *)
Definition reportedStatus (cfg : Config) (releases : result (list ComponentRelease)) (instance : OGX)
    (provisioningSucceeded rootOperatorReady rootWebhookReady : bool) (h : ogxServerHealthSummary)
    (reconcileErr : option error) : OGXStatus :=
  let st := OGX_Status instance in
  let loaded := match releases with Ok l => l | Err _ => OS_Releases st end in
  let conditions :=
    sortConditions (foldl (applyMark (OGX_Generation instance)) (newManager managedTypes (OS_Conditions st))
      (outcomeMarks instance provisioningSucceeded rootOperatorReady rootWebhookReady reconcileErr ++ [degradedMark h])) in
  {| OS_ObservedGeneration := OGX_Generation instance;
     OS_Phase := if isHappy managedTypes conditions then PhaseReady else PhaseNotReady;
     OS_Conditions := conditions;
     OS_Releases := setPlatformRelease (platformVersion cfg) loaded;
     OS_DistributionName := PlatformName cfg; OS_DistributionVersion := platformVersion cfg |}.
End status.

(** ** The cluster *)

Class OGXStore (WO : Type) := {
  storedOGX : WO → NamespacedName → option OGX;
  GetOGX : WO → NamespacedName → apiError + OGX;
  UpdateOGX : WO → OGX → WO * (apiError + OGX);
  UpdateOGXStatus : WO → OGX → WO * (apiError + OGX);
}.

(** An update writes the object without its status, and returns what is stored;
    the last finalizer of an object that is being deleted removes it.  The status
    subresource writes the status only.  What fails changes nothing. *)
Class OGXStoreLaws (WO : Type) `{OGXStore WO} : Prop := {
  storedOGX_key : ∀ w k o, storedOGX w k = Some o → ogxKey o = k;
  GetOGX_spec : ∀ w k,
    match GetOGX w k with
    | inr o => storedOGX w k = Some o
    | inl (NotFound _) => storedOGX w k = None
    | inl _ => True
    end;
  UpdateOGX_spec : ∀ w o,
    let '(w', r) := UpdateOGX w o in
    match r with
    | inl _ => ∀ k, storedOGX w' k = storedOGX w k
    | inr o' => (∀ k, k ≠ ogxKey o → storedOGX w' k = storedOGX w k) ∧
        ogxKey o' = ogxKey o ∧ OGX_Finalizers o' = OGX_Finalizers o ∧
        ∃ before, storedOGX w (ogxKey o) = Some before ∧ OGX_Status o' = OGX_Status before ∧
          OGX_Deleting o' = OGX_Deleting before ∧ OGX_ManagementState o' = OGX_ManagementState o ∧
          storedOGX w' (ogxKey o) =
            (if OGX_Deleting before && bool_decide (OGX_Finalizers o = []) then None else Some o')
    end;
  UpdateOGXStatus_spec : ∀ w o,
    let '(w', r) := UpdateOGXStatus w o in
    match r with
    | inl _ => ∀ k, storedOGX w' k = storedOGX w k
    | inr o' => (∀ k, k ≠ ogxKey o → storedOGX w' k = storedOGX w k) ∧
        ∃ before, storedOGX w (ogxKey o) = Some before ∧ storedOGX w' (ogxKey o) = Some o' ∧
          OGX_Status o' = OGX_Status o ∧ ogxKey o' = ogxKey before ∧ OGX_Finalizers o' = OGX_Finalizers before ∧
          OGX_Deleting o' = OGX_Deleting before ∧ OGX_ManagementState o' = OGX_ManagementState before
    end;
}.

Section reconciler.
Context `{CM : ConditionManager}.
(** The environment and the disk of the operator. *)
Context (Getenv : string → string) (ParseAnyReference : string → result unit)
  (Walk : string → list walkEntry) (ReadHostFile : string → result string)
  (yaml_releases : string → result (list ComponentRelease)).
Context {FS : Type} `{!FileSystem FS} (emptyFS : FS).
(** Kustomize: the directory, the file system if it is not the disk, the namespace. *)
Context (Render : string → option FS → string → result (list Unstructured)).
Context {WO WR : Type} `{OS : !OGXStore WO}.
(** Reads of the cluster: the kinds of the monitoring group, if there is a
    discovery client, and the objects. *)
Context (ServerResources : WR → option (apiError + list string)) (GroupDiscoveryFailed : apiError → bool)
  (GetConfigMapData : WR → NamespacedName → apiError + gmap string string)
  (GetDeployment : WR → NamespacedName → apiError + DeploymentReport)
  (GetWebhookConfiguration : WR → string → apiError + list (option NamespacedName))
  (GetService GetSecret : WR → NamespacedName → option apiError)
  (ListServers : WR → apiError + list (NamespacedName * object)).
(** The deployer and the garbage collector of the platform. *)
Context (Deploy : Config → OGX → list Unstructured → WR → WR * option error)
  (CollectGarbage : option (Config → OGX → WR → WR * option error)).

Record state := { ogxs : WO; resources : WR; config : Config }.

Implicit Types (instance : OGX) (s : state).

Definition withOGXs (w : WO) s : state := {| ogxs := w; resources := resources s; config := config s |}.
Definition withResources (w : WR) s : state := {| ogxs := ogxs s; resources := w; config := config s |}.
Definition withConfig (c : Config) s : state := {| ogxs := ogxs s; resources := resources s; config := c |}.

Definition monitoringCRDsAvailableViaDiscovery (listed : apiError + list string) : result bool :=
  match listed with
  | inl e =>
      if GroupDiscoveryFailed e || IsNoMatchError e || IsNotFound e then Ok false
      else Err (Wrapf "failed to discover monitoring.coreos.com/v1 resources: %w" [] (apiErr e))
  | inr kinds => Ok (bool_decide ("ServiceMonitor" ∈ kinds) && bool_decide ("PrometheusRule" ∈ kinds))
  end.

Definition monitoringCRDsAvailable (w : WR) : result bool :=
  match ServerResources w with
  | None => Ok false
  | Some listed => monitoringCRDsAvailableViaDiscovery listed
  end.

Definition withoutNamespace (u : Unstructured) : Unstructured :=
  withUMeta (λ m, {| Obj_Namespace := ""; Obj_Name := Obj_Name m; Obj_Labels := Obj_Labels m;
                     Obj_Annotations := Obj_Annotations m; Obj_OwnerReferences := Obj_OwnerReferences m;
                     Obj_Deleting := Obj_Deleting m |}) u.

(** What becomes of a rendered object. *)
Definition staged (monitoringAvailable : bool) (u : Unstructured) : option Unstructured :=
  if isNamespace u then None
  else if isCRD u then Some (withoutNamespace u)
  else if (isServiceMonitor u || isPrometheusRule u) && negb monitoringAvailable then None
  else Some u.

(** The file system, if it is not the disk, and the directory of the overlay in it. *)
Definition stagingSource (cfg : Config) : result (option FS * string) :=
  let overlay := overlayForPlatform (PlatformName cfg) in
  let componentRoot := pathJoin (ManifestsPath cfg) componentName in
  if hasImageParamOverrides Getenv then
    match prepareManifestFSWithOverrides Getenv ParseAnyReference emptyFS (Walk componentRoot) overlay with
    | Err e => Err (Wrapf "failed to prepare manifest filesystem with image overrides: %w" [] e)
    | Ok (fs, path) => Ok (Some fs, path)
    end
  else Ok (None, pathJoin componentRoot overlay).

Definition renderedResources (cfg : Config) (w : WR) : result (list Unstructured) :=
  source ← stagingSource cfg;
  rendered ← wrap "failed to render root operator manifests from %s: %w" [source.2]
               (Render source.2 source.1 (ApplicationsNamespace cfg));
  monitoringAvailable ← wrap "failed to check monitoring CRD availability: %w" [] (monitoringCRDsAvailable w);
  Ok (omap (staged monitoringAvailable) (rendered : list Unstructured)).

Definition renderRootOperatorResources : M state (list Unstructured) := λ s, (s, renderedResources (config s) (resources s)).

Definition readPlatformVersionFromConfigMap : M state string := λ s,
  let ns := ApplicationsNamespace (config s) in
  (s, if bool_decide (ns = "") then Ok ""
      else
        match GetConfigMapData (resources s) (ns, platformConfigCMName) with
        | inl e => if IsNotFound e then Ok ""
                   else Err (Wrapf "failed to get platform config ConfigMap %s/%s: %w" [ns; platformConfigCMName] (apiErr e))
        | inr data => Ok (versionOf data)
        end).

Definition refreshPlatformVersion : M state unit :=
  version ← readPlatformVersionFromConfigMap;
  if negb (bool_decide (version = "")) then modify (λ s, withConfig (withPlatformVersion version (config s)) s) else mret tt.

Definition cleanupRootOperatorResources instance : M state unit := λ s,
  match CollectGarbage with
  | None => (s, Err (New "failed to run cleanup because garbage collector is not configured"))
  | Some run => let '(w, e) := run (config s) instance (resources s) in
                (withResources w s, match e with Some e => Err e | None => Ok tt end)
  end.

Definition deployResources instance (rendered : list Unstructured) : M state unit := λ s,
  let '(w, e) := Deploy (config s) instance rendered (resources s) in
  (withResources w s, match e with Some e => Err e | None => Ok tt end).

Definition loadComponentReleases (cfg : Config) : result (list ComponentRelease) :=
  let path := pathJoin (pathJoin (ManifestsPath cfg) componentName) "component_metadata.yaml" in
  data ← wrap "failed to read component metadata %s: %w" [path] (ReadHostFile path);
  wrap "failed to unmarshal component metadata %s: %w" [path] (yaml_releases data).

(** An update of the object or of its status: the result replaces the caller's copy. *)
Definition updating (run : WO → OGX → WO * (apiError + OGX)) instance : M state OGX := λ s,
  let '(w, r) := run (ogxs s) instance in
  (withOGXs w s, match r with inl e => Err (apiErr e) | inr o => Ok o end).

(** The caller's copy is replaced by what is stored, unless that is gone. *)
Definition updateStatus instance (provisioningSucceeded rootOperatorReady rootWebhookReady : bool)
    (h : ogxServerHealthSummary) (reconcileErr : option error) : M state OGX := λ s,
  match GetOGX (ogxs s) (ogxKey instance) with
  | inl e => (s, if IsNotFound e then Ok instance else Err (apiErr e))
  | inr fresh =>
      updating UpdateOGXStatus
        (withOGXStatus (reportedStatus (config s) (loadComponentReleases (config s)) fresh provisioningSucceeded
                          rootOperatorReady rootWebhookReady h reconcileErr) fresh) s
  end.

(** Reports an error, and returns it: a report that fails is logged. *)
Definition failing {A} instance (provisioningSucceeded rootOperatorReady rootWebhookReady : bool) (e : error) : M state A :=
  λ s, ((updateStatus instance provisioningSucceeded rootOperatorReady rootWebhookReady noServers (Some e) s).1, Err e).

(** Runs a step, and reports its error. *)
Definition reporting {A} instance (provisioningSucceeded rootOperatorReady rootWebhookReady : bool) (m : M state A) : M state A :=
  λ s, match m s with
       | (s', Ok a) => (s', Ok a)
       | (s', Err e) => failing instance provisioningSucceeded rootOperatorReady rootWebhookReady e s'
       end.

(** The outcome of a step as a value. *)
Definition attempt {A} (m : M state A) : M state (result A) := λ s, ((m s).1, Ok (m s).2).

(** Seconds. *)
Definition notReadyRequeueAfter : Z := 10.

Definition removeModule instance : M state Z :=
  cleaned ← attempt (cleanupRootOperatorResources instance);
  reported ← attempt (updateStatus instance false false false noServers
                        match cleaned with Err e => Some e | Ok _ => None end);
  match cleaned, reported with
  | Err e, _ => raise e
  | Ok _, Err e => raise e
  | Ok _, Ok instance =>
      if hasFinalizer instance then
        _ ← updating UpdateOGX (clearFinalizer instance);
        mret 0
      else mret 0
  end.

Definition reading {A} (f : WR → result A) : M state A := λ s, (s, f (resources s)).

Definition deployModule instance (rendered : list Unstructured) : M state Z :=
  _ ← reporting instance false false false (deployResources instance rendered);
  deploymentsReady ← reporting instance true false false (reading (λ w, rootDeploymentsReady (GetDeployment w) rendered));
  webhookReady ← reporting instance true deploymentsReady false
                   (reading (λ w, rootWebhookResourcesReady (GetWebhookConfiguration w) (GetService w) (GetSecret w) rendered));
  healthSummary ← reporting instance true deploymentsReady webhookReady (reading (λ w, aggregateOGXServerHealth (ListServers w)));
  _ ← updateStatus instance true deploymentsReady webhookReady healthSummary None;
  mret (if negb deploymentsReady || negb webhookReady then notReadyRequeueAfter else 0).

(** An instance is removed when it is deleted or when it says so. *)
Definition removing instance : bool := OGX_Deleting instance || bool_decide (managementState instance = Removed).

Definition reconcileInstance instance : M state Z :=
  instance ← (if decide (managementState instance = Managed) then
                let '(instance, changed) := ensureFinalizer instance in
                if changed : bool then updating UpdateOGX instance else mret instance
              else mret instance);
  _ ← reporting instance false false false refreshPlatformVersion;
  rendered ← reporting instance false false false renderRootOperatorResources;
  if removing instance then removeModule instance else deployModule instance rendered.

Definition Reconcile (key : NamespacedName) : M state Z := λ s,
  match GetOGX (ogxs s) key with
  | inl e => (s, if IsNotFound e then Ok 0 else Err (apiErr e))
  | inr instance => reconcileInstance instance s
  end.
End reconciler.
