(* ===== verification/ModuleFacts.v ===== *)
(** * What the module operator guarantees

    The finalizer, what is deployed and what is collected, what the status says,
    and where removal goes wrong. *)

From Stdlib Require Import ZArith.
From S2P Require Import Prelude Value Fmt Client Action Objects Kustomize Apply CABundle ModuleParams Module.

#[local] Open Scope Z_scope.

(** ** The status *)

Section status.
Context `{CM : ConditionManager, CL : !ConditionManagerLaws}.
#[local] Set Default Proof Using "Type*".

(** The last mark of a type in a list of marks. *)
Fixpoint lastMark (t : string) (l : list marking) : option marking :=
  match l with
  | [] => None
  | m :: l => match lastMark t l with Some m' => Some m' | None => if bool_decide (m.1.2 = t) then Some m else None end
  end.

Definition statusIs (l : list ModuleCondition) (t : string) (status : ConditionState) : Prop :=
  ∃ c, conditionOf l t = Some c ∧ MCond_Status c = status.

Lemma applyMarks_status g marks l t m : t ≠ ConditionTypeReady → lastMark t marks = Some m →
  statusIs (foldl (applyMark g) l marks) t m.1.1.
Proof.
  intros Ht. revert l. induction marks as [|x marks IH]; [done|]. intros l. cbn [lastMark foldl].
  destruct (lastMark t marks) as [m'|] eqn:E; [intros [= <-]; by apply IH|].
  case_bool_decide as Hx; [|done]. intros [= ->]. destruct m as [[status t'] opts]. cbn [fst snd] in *. subst t'.
  destruct (mark_status managedTypes status t (WithObservedGeneration g :: opts) l) as (c & Hc & Hs).
  cbn [applyMark]. clear IH. assert (Hkeep : ∀ l, conditionOf l t = Some c → conditionOf (foldl (applyMark g) l marks) t = Some c).
  { clear Hc. revert E. induction marks as [|[[st t'] o] marks IH]; cbn [lastMark foldl]; [done|].
    destruct (lastMark t marks) eqn:E; [done|]. case_bool_decide as Hne; [done|]. intros _ l' Hl'. apply IH; [done|].
    unfold applyMark. rewrite mark_other; [done| |by intros [= <-]]. intros ->. by apply Hne. }
  exists c. by rewrite Hkeep.
Qed.

Lemma reported_status cfg releases instance deployed operatorReady webhookReady h e t m : t ≠ ConditionTypeReady →
  lastMark t (outcomeMarks instance deployed operatorReady webhookReady e ++ [degradedMark h]) = Some m →
  statusIs (OS_Conditions (reportedStatus cfg releases instance deployed operatorReady webhookReady h e)) t m.1.1.
Proof.
  intros Ht Hm. unfold reportedStatus, statusIs. cbn [OS_Conditions]. rewrite sort_conditions.
  by apply applyMarks_status.
Qed.

Lemma lastMark_app t l1 l2 : lastMark t (l1 ++ l2) = match lastMark t l2 with Some m => Some m | None => lastMark t l1 end.
Proof using Type. induction l1 as [|m l1 IH]; cbn [app lastMark]; [by destruct (lastMark t l2)|]. rewrite IH. by destruct (lastMark t l2). Qed.

(** The status whose flag is the boolean. *)
Definition flag (b : bool) : ConditionState := if b then ConditionTrue else ConditionFalse.

(** What the conditions of the module say.  Degraded is True exactly when a
    server is unhealthy: that the module itself failed, or was removed, never
    shows there.  The others are True exactly when the run got that far: the
    manifests are provisioned only after an error-free deployment of an instance
    that is not removed, the operator is ready only when its Deployments are, and
    the webhooks only when both are. *)
Theorem module_conditions cfg releases instance deployed operatorReady webhookReady h e :
  let conditions := OS_Conditions (reportedStatus cfg releases instance deployed operatorReady webhookReady h e) in
  let ok := negb (bool_decide (managementState instance = Removed)) && bool_decide (e = None) in
  statusIs conditions ConditionTypeDegraded (flag (0 <? UnhealthyCount h)) ∧
  ∃ provisioned ready webhooks,
    statusIs conditions ConditionTypeProvisioningSucceeded provisioned ∧
    statusIs conditions conditionTypeRootOperatorReady ready ∧
    statusIs conditions conditionTypeRootWebhookReady webhooks ∧
    (provisioned = ConditionTrue ↔ ok && (operatorReady || deployed) = true) ∧
    (ready = ConditionTrue ↔ ok && operatorReady = true) ∧
    (webhooks = ConditionTrue ↔ ok && operatorReady && webhookReady = true).
Proof.
  cbv zeta. split.
  - replace (flag _) with (degradedMark h).1.1 by (unfold degradedMark; by destruct (0 <? UnhealthyCount h)).
    apply reported_status; [done|]. rewrite lastMark_app. cbn [lastMark].
    rewrite bool_decide_eq_true_2; [done|]. unfold degradedMark. by destruct (0 <? UnhealthyCount h).
  - assert (Hmarks : ∀ t, t ≠ ConditionTypeReady → t ≠ ConditionTypeDegraded → ∀ m,
      lastMark t (outcomeMarks instance deployed operatorReady webhookReady e) = Some m →
      statusIs (OS_Conditions (reportedStatus cfg releases instance deployed operatorReady webhookReady h e)) t m.1.1).
    { intros t Hr Hd m Hm. apply reported_status; [done|]. rewrite lastMark_app. cbn [lastMark].
      rewrite bool_decide_eq_false_2; [done|]. unfold degradedMark. destruct (0 <? UnhealthyCount h); cbn; congruence. }
    unfold outcomeMarks in Hmarks. case_bool_decide as Hm; [rewrite decide_True in Hmarks by done|rewrite decide_False in Hmarks by done].
    2: destruct e as [e|]; [|destruct operatorReady; [|destruct deployed]; [destruct webhookReady| |]].
    all: do 3 eexists; (split; [apply Hmarks; [done|done|reflexivity]|]);
      (split; [apply Hmarks; [done|done|reflexivity]|]); (split; [apply Hmarks; [done|done|reflexivity]|]); by split_and!.
Qed.
End status.

(** ** The reconciler *)

Section reconciler.
Context `{CM : ConditionManager}.
Context (Getenv : string → string) (ParseAnyReference : string → result unit)
  (Walk : string → list walkEntry) (ReadHostFile : string → result string)
  (yaml_releases : string → result (list ComponentRelease)).
Context {FS : Type} `{!FileSystem FS} (emptyFS : FS).
Context (Render : string → option FS → string → result (list Unstructured)).
Context {WO WR : Type} `{OS : !OGXStore WO, OL : !OGXStoreLaws WO}.
Context (ServerResources : WR → option (apiError + list string)) (GroupDiscoveryFailed : apiError → bool)
  (GetConfigMapData : WR → NamespacedName → apiError + gmap string string)
  (GetDeployment : WR → NamespacedName → apiError + DeploymentReport)
  (GetWebhookConfiguration : WR → string → apiError + list (option NamespacedName))
  (GetService GetSecret : WR → NamespacedName → option apiError)
  (ListServers : WR → apiError + list (NamespacedName * object)).
Context (Deploy : Config → OGX → list Unstructured → WR → WR * option error)
  (CollectGarbage : option (Config → OGX → WR → WR * option error)).

#[local] Set Default Proof Using "Type*".

Implicit Types (instance o : OGX) (s : state (WO := WO) (WR := WR)) (k : NamespacedName).

Abbreviation reconcile := (Reconcile Getenv ParseAnyReference Walk ReadHostFile yaml_releases emptyFS Render ServerResources
  GroupDiscoveryFailed GetConfigMapData GetDeployment GetWebhookConfiguration GetService GetSecret ListServers Deploy CollectGarbage).
Abbreviation rendering := (renderedResources Getenv ParseAnyReference Walk emptyFS Render ServerResources GroupDiscoveryFailed).
Abbreviation report := (updateStatus ReadHostFile yaml_releases).

(** ** What a report leaves alone *)

Definition identity (o : OGX) : list string * bool * ManagementState := (OGX_Finalizers o, OGX_Deleting o, OGX_ManagementState o).

(** The instances keep their finalizers, their deletion and what they ask for. *)
Definition sameInstances : relation (state (WO := WO) (WR := WR)) := λ s s',
  ∀ k, identity <$> storedOGX (ogxs s') k = identity <$> storedOGX (ogxs s) k.

#[local] Instance sameInstances_preorder : PreOrder sameInstances.
Proof using Type. split; [done|]. intros s1 s2 s3 H12 H23 k. by rewrite H23, H12. Qed.

Lemma updateStatus_run instance a b c h e s :
  let '(s', r) := report instance a b c h e s in
  sameInstances s s' ∧ resources s' = resources s ∧ config s' = config s ∧
  ∀ instance', r = Ok instance' →
    match storedOGX (ogxs s) (ogxKey instance) with
    | Some o => storedOGX (ogxs s') (ogxKey instance) = Some instance' ∧ identity instance' = identity o ∧
        OGX_Status instance' = reportedStatus (config s) (loadComponentReleases ReadHostFile yaml_releases (config s)) o a b c h e
    | None => instance' = instance ∧ s' = s
    end.
Proof.
  unfold updateStatus. pose proof (GetOGX_spec (ogxs s) (ogxKey instance)) as Hg.
  destruct (GetOGX (ogxs s) (ogxKey instance)) as [err|fresh].
  - destruct err; cbn [IsNotFound]; split_and!; try done. intros i [= <-]. by rewrite Hg.
  - pose proof (storedOGX_key _ _ _ Hg) as Hk. unfold updating. set (o := withOGXStatus _ fresh).
    pose proof (UpdateOGXStatus_spec (ogxs s) o) as Hu. change (ogxKey o) with (ogxKey fresh) in Hu. rewrite Hk in Hu.
    destruct (UpdateOGXStatus (ogxs s) o) as [w [err|o']]; cbn [fst snd].
    + split_and!; [|done..]. intros k. cbn. by rewrite Hu.
    + destruct Hu as (Hf & before & Hb & Hs & Hst & Hkey & Hfin & Hdel & Hms). rewrite Hg in Hb. injection Hb as <-.
      assert (Hid : identity o' = identity fresh) by (unfold identity; by rewrite Hfin, Hdel, Hms).
      split_and!; [|done..|].
      * intros k. cbn. destruct (decide (k = ogxKey instance)) as [->|Hne]; [by rewrite Hs, Hg; cbn; rewrite Hid|by rewrite Hf].
      * intros i [= <-]. rewrite Hg. split_and!; [done|done|]. by rewrite Hst.
Qed.

(** The cluster and the configuration stay as they are. *)
Definition calm : relation (state (WO := WO) (WR := WR)) := λ s s',
  sameInstances s s' ∧ resources s' = resources s ∧ config s' = config s.

#[local] Instance calm_preorder : PreOrder calm.
Proof.
  split; [done|]. intros s1 s2 s3 (H12 & R12 & C12) (H23 & R23 & C23). split_and!; [by etransitivity|congruence|congruence].
Qed.

Lemma report_calm instance a b c h e : keeps calm (report instance a b c h e).
Proof.
  intros s. pose proof (updateStatus_run instance a b c h e s) as H. destruct (report instance a b c h e s) as [s' r].
  by destruct H as (? & ? & ? & _).
Qed.

Lemma failing_calm {A} instance a b c e : keeps calm (failing (A := A) ReadHostFile yaml_releases instance a b c e).
Proof. intros s. apply report_calm. Qed.

Lemma reporting_calm {A} instance a b c (m : M _ A) :
  keeps calm m → keeps calm (reporting ReadHostFile yaml_releases instance a b c m).
Proof.
  intros Hm s. unfold reporting. specialize (Hm s). destruct (m s) as [s1 [x|e]]; [done|].
  etransitivity; [exact Hm|apply failing_calm].
Qed.

Lemma reporting_Ok {A} instance a b c (m : M _ A) s s' x :
  reporting ReadHostFile yaml_releases instance a b c m s = (s', Ok x) ↔ m s = (s', Ok x).
Proof. unfold reporting. destruct (m s) as [s1 [y|e]]; [done|]. split; [|done]. unfold failing. by intros [=]. Qed.

Lemma reading_calm {A} (f : WR → result A) : keeps calm (reading f).
Proof. intros s. reflexivity. Qed.

(** ** Deployment *)

Abbreviation deployed := (deployModule ReadHostFile yaml_releases GetDeployment GetWebhookConfiguration GetService GetSecret ListServers Deploy).

(** What is deployed is ready as far as the cluster shows. *)
Definition observed (rendered : list Unstructured) (w : WR) (deployments webhooks : bool) : Prop :=
  rootDeploymentsReady (GetDeployment w) rendered = Ok deployments ∧
  rootWebhookResourcesReady (GetWebhookConfiguration w) (GetService w) (GetSecret w) rendered = Ok webhooks.

Lemma deploy_step instance rendered s :
  reporting ReadHostFile yaml_releases instance false false false (deployResources Deploy instance rendered) s =
  match Deploy (config s) instance rendered (resources s) with
  | (w, Some e) => failing ReadHostFile yaml_releases instance false false false e (withResources w s)
  | (w, None) => (withResources w s, Ok tt)
  end.
Proof. unfold reporting, deployResources. by destruct (Deploy _ _ _ _) as [w [e|]]. Qed.

Lemma deployModule_run instance rendered s :
  let '(s', r) := deployed instance rendered s in
  sameInstances s s' ∧ config s' = config s ∧ resources s' = (Deploy (config s) instance rendered (resources s)).1 ∧
  ∀ n, r = Ok n → (Deploy (config s) instance rendered (resources s)).2 = None ∧
    ∃ d w h, observed rendered (resources s') d w ∧ aggregateOGXServerHealth (ListServers (resources s')) = Ok h ∧
      n = (if negb d || negb w then notReadyRequeueAfter else 0) ∧
      ∀ o, storedOGX (ogxs s) (ogxKey instance) = Some o →
        ∃ o', storedOGX (ogxs s') (ogxKey instance) = Some o' ∧
          OGX_Status o' = reportedStatus (config s) (loadComponentReleases ReadHostFile yaml_releases (config s)) o true d w h None.
Proof.
  unfold deployModule. rewrite bindM_run, deploy_step. destruct (Deploy (config s) instance rendered (resources s)) as [wr [e|]]; cbn [fst snd].
  { pose proof (failing_calm (A := unit) instance false false false e (withResources wr s)) as H.
    assert (E : (failing (A := unit) ReadHostFile yaml_releases instance false false false e (withResources wr s)).2 = Err e) by done.
    destruct (failing _ _ _ _ _ _ _ _) as [s' r]. cbn [fst snd] in *. subst r. destruct H as (Hs & Hr & Hc). by split_and!. }
  set (s1 := withResources wr s). match goal with |- let '(s', r) := ?m s1 in _ => assert (Hcalm : keeps calm m);
    [|pose proof (Hcalm s1) as H; destruct (m s1) as [s' r] eqn:E] end.
  { repeat (apply keeps_bind; [apply _|apply reporting_calm, reading_calm|intros]).
    apply keeps_bind; [apply _|apply report_calm|intros]. apply keeps_ret, _. }
  destruct H as (Hs & Hr & Hc). cbn [fst] in Hs, Hr, Hc. split_and!; [done..|]. intros n ->.
  apply bindM_Ok in E as (s2 & d & [= <- Hd]%reporting_Ok & E).
  apply bindM_Ok in E as (s3 & w & [= <- Hw]%reporting_Ok & E).
  apply bindM_Ok in E as (s4 & h & [= <- Hh]%reporting_Ok & E).
  apply bindM_Ok in E as (s5 & o5 & E5 & [= <- <-]). change (resources s1) with wr in *.
  split; [done|]. exists d, w, h. change (resources s1) with wr in Hr. rewrite Hr. split_and!; [by split|done|done|].
  intros o Ho. pose proof (updateStatus_run instance true d w h None s1) as Hu. rewrite E5 in Hu.
  destruct Hu as (_ & _ & _ & Hu). specialize (Hu _ eq_refl). change (ogxs s1) with (ogxs s) in Hu. rewrite Ho in Hu.
  exists o5. by destruct Hu as (? & _ & ?).
Qed.

(** ** Removal *)

Abbreviation removed := (removeModule ReadHostFile yaml_releases CollectGarbage).

(** What the garbage collector makes of the cluster; without one it fails. *)
Definition collected (cfg : Config) (o : OGX) (w : WR) : WR * bool :=
  match CollectGarbage with
  | None => (w, false)
  | Some run => ((run cfg o w).1, bool_decide ((run cfg o w).2 = None))
  end.

Lemma attempt_run {A} (m : M (state (WO := WO) (WR := WR)) A) s : attempt m s = ((m s).1, Ok (m s).2).
Proof using Type. done. Qed.

Lemma collection_run instance s :
  let '(s', r) := cleanupRootOperatorResources CollectGarbage instance s in
  s' = withResources (collected (config s) instance (resources s)).1 s ∧ is_ok r = (collected (config s) instance (resources s)).2.
Proof.
  unfold cleanupRootOperatorResources, collected. destruct CollectGarbage as [run|]; [|by destruct s].
  destruct (run (config s) instance (resources s)) as [w [e|]]; by split.
Qed.

(** Only after a collection and a report that succeeded does the instance lose the finalizer. *)
Lemma removeModule_run instance s :
  let '(s', r) := removed instance s in
  config s' = config s ∧ resources s' = (collected (config s) instance (resources s)).1 ∧
  (∀ k, k ≠ ogxKey instance → identity <$> storedOGX (ogxs s') k = identity <$> storedOGX (ogxs s) k) ∧
  (sameInstances s s' ∨ (collected (config s) instance (resources s)).2 = true ∧ r = Ok 0) ∧
  (is_ok r = true → (collected (config s) instance (resources s)).2 = true ∧ r = Ok 0 ∧
    ∀ o, storedOGX (ogxs s') (ogxKey instance) = Some o → hasFinalizer o = false).
Proof.
  unfold removeModule. rewrite bindM_run, attempt_run.
  pose proof (collection_run instance s) as Hc. destruct (cleanupRootOperatorResources _ _ _) as [s1 cleaned]. cbn [fst snd].
  destruct Hc as [-> Hc]. set (s1 := withResources (collected (config s) instance (resources s)).1 s). rewrite bindM_run, attempt_run.
  set (err := match cleaned with Ok _ => None | Err e => Some e end).
  pose proof (updateStatus_run instance false false false noServers err s1) as Hu.
  destruct (report instance false false false noServers err s1) as [s2 reported]. cbn [fst snd].
  destruct Hu as (Hs & Hr & Hcfg & Hi). change (resources s1) with (collected (config s) instance (resources s)).1 in Hr.
  change (config s1) with (config s) in Hcfg.
  destruct cleaned as [[]|e]; [|split_and!; try done; by first [left|intros k _; rewrite Hs]].
  destruct reported as [i'|e]; [|split_and!; try done; by first [left|intros k _; rewrite Hs]].
  symmetry in Hc. cbn [is_ok] in Hc. specialize (Hi i' eq_refl).
  assert (Hkey : ogxKey i' = ogxKey instance).
  { change (ogxs s1) with (ogxs s) in Hi. destruct (storedOGX (ogxs s) _) as [o|] eqn:E; [|by destruct Hi as [-> _]].
    destruct Hi as (Hst & _). by apply storedOGX_key in Hst. }
  assert (Hcopy : ∀ o, storedOGX (ogxs s2) (ogxKey instance) = Some o → OGX_Finalizers o = OGX_Finalizers i').
  { intros o Ho. change (ogxs s1) with (ogxs s) in Hi. destruct (storedOGX (ogxs s) (ogxKey instance)) as [o0|] eqn:E.
    - destruct Hi as (Hst & _). congruence.
    - destruct Hi as [-> ->]. change (ogxs s1) with (ogxs s) in Ho. congruence. }
  destruct (hasFinalizer i') eqn:Hf.
  - rewrite bindM_run. unfold updating. pose proof (UpdateOGX_spec (ogxs s2) (clearFinalizer i')) as Hup.
    change (ogxKey (clearFinalizer i')) with (ogxKey i') in Hup. rewrite Hkey in Hup.
    destruct (UpdateOGX (ogxs s2) (clearFinalizer i')) as [w [e|o']]; cbn [fst snd].
    + split_and!; try done; [intros k _; cbn; by rewrite Hup, Hs|left; intros k; cbn; by rewrite Hup, Hs].
    + destruct Hup as (Hother & _ & Hfin & before & _ & _ & _ & _ & Hnew). split_and!; try done.
      * intros k Hk. cbn. by rewrite Hother, Hs.
      * by right.
      * intros _. split_and!; [done|done|]. intros o Ho. cbn in Ho. rewrite Hnew in Ho. destruct (_ && _); [done|].
        injection Ho as <-. unfold hasFinalizer. rewrite Hfin. apply bool_decide_eq_false. cbn.
        intros [Hne _]%list_elem_of_filter. by apply Hne.
  - split_and!; try done; [by left|]. intros _. split_and!; [done..|].
    intros o Ho. unfold hasFinalizer in *. by rewrite (Hcopy o Ho).
Qed.
(** ** The whole reconciliation *)

(** The first step: the instance gets the finalizer, unless it says Removed. *)
Definition guarded instance : M (state (WO := WO) (WR := WR)) OGX :=
  if decide (managementState instance = Managed) then
    let '(instance, changed) := ensureFinalizer instance in
    if changed : bool then updating UpdateOGX instance else mret instance
  else mret instance.

Lemma ensureFinalizer_spec instance :
  hasFinalizer (ensureFinalizer instance).1 = true ∧ ogxKey (ensureFinalizer instance).1 = ogxKey instance ∧
  OGX_ManagementState (ensureFinalizer instance).1 = OGX_ManagementState instance.
Proof.
  unfold ensureFinalizer. destruct (hasFinalizer instance) eqn:E; [done|]. split_and!; [|done..].
  apply bool_decide_eq_true. cbn. apply elem_of_app. right. apply list_elem_of_here.
Qed.

Lemma hasFinalizer_identity o o' : identity o' = identity o → hasFinalizer o' = hasFinalizer o.
Proof. unfold hasFinalizer. by intros [= -> _ _]. Qed.

Lemma guarded_run s k o : storedOGX (ogxs s) k = Some o →
  let '(s', r) := guarded o s in
  resources s' = resources s ∧ config s' = config s ∧
  (∀ k', k' ≠ k → storedOGX (ogxs s') k' = storedOGX (ogxs s) k') ∧
  (hasFinalizer o = true → s' = s ∧ r = Ok o) ∧
  ∀ o', r = Ok o' → storedOGX (ogxs s') k = Some o' ∧ removing o' = removing o ∧
    (managementState o = Managed → hasFinalizer o' = true).
Proof.
  intros Ho. pose proof (storedOGX_key _ _ _ Ho) as Hk. unfold guarded. case_decide as Hm.
  2: { split_and!; [done..|]. by intros o' [= <-]. }
  pose proof (ensureFinalizer_spec o) as (Hf & Hkey & Hms). unfold ensureFinalizer in *.
  destruct (hasFinalizer o) eqn:Hfin; cbn [fst] in *.
  { split_and!; [done..|]. by intros o' [= <-]. }
  unfold updating. set (o1 := withFinalizers _ o) in *. pose proof (UpdateOGX_spec (ogxs s) o1) as Hu.
  rewrite Hkey, Hk in Hu. destruct (UpdateOGX (ogxs s) o1) as [w [e|o']]; [split_and!; by try intros; try apply Hu|].
  destruct Hu as (Hother & _ & Hfin' & before & Hb & _ & Hd & Hm' & Hnew). rewrite Ho in Hb. injection Hb as <-.
  split_and!; [done|done|exact Hother|done|]. intros o2 [= <-]. cbn [ogxs withOGXs].
  assert (hasFinalizer o' = true) as Hf' by (unfold hasFinalizer in *; by rewrite Hfin').
  split_and!; [|by unfold removing, managementState; rewrite Hd, Hm', Hms|done].
  rewrite Hnew. rewrite (bool_decide_eq_false_2 (OGX_Finalizers o1 = [])); [by rewrite andb_false_r|].
  intros E. unfold hasFinalizer in Hf. apply bool_decide_eq_true in Hf. rewrite E in Hf. set_solver.
Qed.

(** The instances and the cluster stay as they are; the configuration may change. *)
Definition unmoved : relation (state (WO := WO) (WR := WR)) := λ s s', sameInstances s s' ∧ resources s' = resources s.

#[local] Instance unmoved_preorder : PreOrder unmoved.
Proof. split; [done|]. intros s1 s2 s3 (H12 & R12) (H23 & R23). split; [by etransitivity|congruence]. Qed.

Lemma reporting_run {A} instance a b c (m : M _ A) s :
  keeps unmoved m →
  let '(s', r) := reporting ReadHostFile yaml_releases instance a b c m s in
  unmoved s s' ∧ ∀ x, r = Ok x → m s = (s', Ok x).
Proof.
  intros Hm. unfold reporting. specialize (Hm s). destruct (m s) as [s1 [x|e]]; cbn [fst] in *.
  { split; [done|]. by intros x' [= <-]. }
  destruct (failing_calm (A := A) instance a b c e s1) as (Hs & Hr & _). unfold failing in *. cbn [fst] in *.
  split; [|done]. etransitivity; [exact Hm|by split].
Qed.

Lemma version_refresh_run s s' :
  refreshPlatformVersion GetConfigMapData s = (s', Ok tt) → ogxs s' = ogxs s ∧ resources s' = resources s.
Proof.
  unfold refreshPlatformVersion. intros (s1 & v & E & H)%bindM_Ok. injection E as <- _. destruct (negb _); injection H as <-; done.
Qed.

Lemma refresh_unmoved : keeps unmoved (refreshPlatformVersion GetConfigMapData).
Proof.
  apply keeps_bind; [apply _|by intros s|]. intros v. destruct (negb _); [by intros s|apply keeps_ret, _].
Qed.

(** What a reconciliation of an instance comes to. *)
Inductive outcome k s o : state (WO := WO) (WR := WR) * result Z → Prop :=
| Gives_up s' e :
    resources s' = resources s →
    (∀ k', k' ≠ k → identity <$> storedOGX (ogxs s') k' = identity <$> storedOGX (ogxs s) k') →
    (hasFinalizer o = true → sameInstances s s') →
    outcome k s o (s', Err e)
| Gets_through s1 o1 rendered :
    resources s1 = resources s →
    (∀ k', k' ≠ k → identity <$> storedOGX (ogxs s1) k' = identity <$> storedOGX (ogxs s) k') →
    (hasFinalizer o = true → sameInstances s s1 ∧ o1 = o) →
    storedOGX (ogxs s1) k = Some o1 → removing o1 = removing o →
    (managementState o = Managed → hasFinalizer o1 = true) →
    rendering (config s1) (resources s1) = Ok rendered →
    outcome k s o ((if removing o1 then removed o1 else deployed o1 rendered) s1).

Lemma reconcile_run k s o : storedOGX (ogxs s) k = Some o → outcome k s o (reconcile k s).
Proof.
  intros Ho. unfold Reconcile. pose proof (GetOGX_spec (ogxs s) k) as Hg. destruct (GetOGX (ogxs s) k) as [e|i].
  { destruct e; cbn [IsNotFound]; [by rewrite Ho in Hg|by apply Gives_up..]. }
  rewrite Ho in Hg. injection Hg as <-. unfold reconcileInstance. fold (guarded o). rewrite bindM_run.
  pose proof (guarded_run s k o Ho) as H. destruct (guarded o s) as [s1 [o1|e]]; cbn [fst snd].
  2: { destruct H as (Hr & _ & Hother & Hf & _). apply Gives_up; [done|by intros; rewrite Hother|]. by intros [[= ->] _]%Hf. }
  destruct H as (Hr & _ & Hother & Hf & Hi). destruct (Hi _ eq_refl) as (Hst & Hrem & Hfin). clear Hi.
  rewrite bindM_run. pose proof (reporting_run o1 false false false _ s1 refresh_unmoved) as H.
  destruct (reporting _ _ _ _ _ _ (refreshPlatformVersion _) s1) as [s2 [[]|e]]; cbn [fst snd].
  all: destruct H as [[Hs2 Hr2] Hx].
  2: { apply Gives_up; [congruence|by intros; rewrite Hs2, Hother|]. intros [-> _]%Hf. done. }
  specialize (Hx _ eq_refl). apply version_refresh_run in Hx as [Hw2 _]. rewrite bindM_run.
  pose proof (reporting_run o1 false false false (renderRootOperatorResources Getenv ParseAnyReference Walk emptyFS Render ServerResources GroupDiscoveryFailed) s2) as H.
  assert (Hk : keeps unmoved (renderRootOperatorResources (WO := WO) Getenv ParseAnyReference Walk emptyFS Render ServerResources GroupDiscoveryFailed)) by (by intros s0).
  specialize (H Hk). destruct (reporting _ _ _ _ _ _ (renderRootOperatorResources _ _ _ _ _ _ _) s2) as [s3 [rendered|e]]; cbn [fst snd].
  all: destruct H as [[Hs3 Hr3] Hx].
  2: { apply Gives_up; [congruence|by intros; rewrite Hs3, Hs2, Hother|]. intros [-> _]%Hf. by etransitivity. }
  specialize (Hx _ eq_refl). injection Hx as <- Hx.
  apply Gets_through; [congruence|by intros; rewrite Hs2, Hother| |by rewrite Hw2|done|done|done].
  intros [-> [= ->]]%Hf. done.
Qed.
(** C22. The finalizer guards the clean-up: an instance that has it loses it only
    in a run whose garbage collection went through and that succeeds, and only
    when it is deleted or set to Removed.  A run that succeeds for such an instance
    has collected what was deployed, and leaves no finalizer behind; no run touches
    the finalizers of another instance. *)
Theorem finalizer_guard k s o :
  storedOGX (ogxs s) k = Some o →
  let '(s', r) := reconcile k s in
  (∀ k', k' ≠ k → identity <$> storedOGX (ogxs s') k' = identity <$> storedOGX (ogxs s) k') ∧
  (hasFinalizer o = true →
    sameInstances s s' ∨
    removing o = true ∧ r = Ok 0 ∧ collected (config s') o (resources s) = (resources s', true)) ∧
  (removing o = true → is_ok r = true →
    r = Ok 0 ∧ (∃ o1, collected (config s') o1 (resources s) = (resources s', true)) ∧
    ∀ o', storedOGX (ogxs s') k = Some o' → hasFinalizer o' = false).
Proof.
  intros Ho. destruct (reconcile_run k s o Ho) as [s' e Hr Hother Hf|s1 o1 rendered Hr Hother Hf Hst Hrem _ Hren].
  { split_and!; [done| |done]. intros H. left. by apply Hf. }
  pose proof (storedOGX_key _ _ _ Hst) as Hk. destruct (removing o1) eqn:E.
  - pose proof (removeModule_run o1 s1) as H. destruct (removed o1 s1) as [s' r].
    destruct H as (Hc & Hw & Ho' & Hid & Hok). rewrite Hk in *. rewrite Hr in *.
    assert (Hpair : (collected (config s1) o1 (resources s)).2 = true → collected (config s') o1 (resources s) = (resources s', true)).
    { intros Ht. rewrite Hc, Hw. by destruct (collected _ _ _) as [w b]; cbn in *; subst. }
    split_and!.
    + intros k' Hk'. by rewrite Ho', Hother.
    + intros [Hs1 ->]%Hf. destruct Hid as [Hid|[Ht ->]]; [left; by etransitivity|right]. split_and!; [done|done|by apply Hpair].
    + intros _ (Ht & -> & Hgone)%Hok. split_and!; [done|by exists o1; apply Hpair|done].
  - pose proof (deployModule_run o1 rendered s1) as H. destruct (deployed o1 rendered s1) as [s' r].
    destruct H as (Hid & _). split_and!; [intros k' Hk'; by rewrite Hid, Hother| |congruence].
    intros [Hs1 _]%Hf. left. by etransitivity.
Qed.

(** C23. What an instance that is not removed gets.  The cluster changes only by
    one deployment of what the rendering gives under the configuration that the
    run leaves, for the instance as it is stored, with its finalizer; a run that
    fails before leaves the cluster alone.  A run that succeeds has deployed
    without error, asks to run again exactly as long as the Deployments or the
    webhooks are not ready, and has written the status of what it observed. *)
Theorem deployment_guarded k s o :
  storedOGX (ogxs s) k = Some o → removing o = false →
  let '(s', r) := reconcile k s in
  (resources s' = resources s ∧ is_ok r = false) ∨
  ∃ o1 rendered, hasFinalizer o1 = true ∧ ogxKey o1 = k ∧
    (∃ o', storedOGX (ogxs s') k = Some o' ∧ hasFinalizer o' = true) ∧
    rendering (config s') (resources s) = Ok rendered ∧
    resources s' = (Deploy (config s') o1 rendered (resources s)).1 ∧
    ∀ n, r = Ok n → (Deploy (config s') o1 rendered (resources s)).2 = None ∧
      ∃ d w h, observed rendered (resources s') d w ∧ aggregateOGXServerHealth (ListServers (resources s')) = Ok h ∧
        n = (if d && w then 0 else notReadyRequeueAfter) ∧
        ∃ o', storedOGX (ogxs s') k = Some o' ∧
          OGX_Status o' = reportedStatus (config s') (loadComponentReleases ReadHostFile yaml_releases (config s')) o1 true d w h None.
Proof.
  intros Ho Hkeep. destruct (reconcile_run k s o Ho) as [s' e Hr Hother Hf|s1 o1 rendered Hr Hother Hf Hst Hrem Hfin Hren].
  { by left. }
  pose proof (storedOGX_key _ _ _ Hst) as Hk. rewrite Hrem, Hkeep.
  assert (Hf1 : hasFinalizer o1 = true).
  { apply Hfin. unfold removing in Hkeep. apply orb_false_iff in Hkeep as [_ Hkeep%bool_decide_eq_false].
    unfold managementState in *. by case_decide. }
  pose proof (deployModule_run o1 rendered s1) as H. destruct (deployed o1 rendered s1) as [s' r].
  destruct H as (Hid & Hc & Hw & Hok). rewrite Hk, Hr, Hc in *. right. exists o1, rendered.
  assert (Hst' : ∃ o', storedOGX (ogxs s') k = Some o' ∧ hasFinalizer o' = true).
  { specialize (Hid k). rewrite Hst in Hid. destruct (storedOGX (ogxs s') k) as [o'|]; [|done]. injection Hid as Hid.
    exists o'. split; [done|]. rewrite <- Hf1. apply hasFinalizer_identity. unfold identity. congruence. }
  split_and!; [done..|]. intros n (Hd & d & w & h & Hobs & Hh & Hn & Hrep)%Hok. split; [done|]. exists d, w, h.
  split_and!; [done|done|by rewrite Hn; destruct d, w|by apply Hrep].
Qed.

(** The removal of an instance waits for the rendering of manifests that it does
    not use: while that fails, no run collects anything. *)
Lemma removal_needs_render k s o :
  storedOGX (ogxs s) k = Some o → (∀ cfg, is_ok (rendering cfg (resources s)) = false) →
  let '(s', r) := reconcile k s in resources s' = resources s ∧ is_ok r = false.
Proof.
  intros Ho Hren. destruct (reconcile_run k s o Ho) as [s' e Hr _ _|s1 o1 rendered Hr _ _ _ _ _ H]; [done|].
  specialize (Hren (config s1)). by rewrite <- Hr, H in Hren.
Qed.

(** An instance that is being deleted, that another finalizer holds and that says
    Managed is given the finalizer again, which the API server forbids for a deleted
    object: every run fails, and the cluster is left as it is. *)
Lemma deleting_stuck k s o :
  (∀ w o, ∀ before, storedOGX w (ogxKey o) = Some before → OGX_Deleting before = true →
     (∃ f, f ∈ OGX_Finalizers o ∧ f ∉ OGX_Finalizers before) → ∃ w' e, UpdateOGX w o = (w', inl e)) →
  storedOGX (ogxs s) k = Some o → OGX_Deleting o = true → managementState o = Managed → hasFinalizer o = false →
  let '(s', r) := reconcile k s in resources s' = resources s ∧ is_ok r = false.
Proof.
  intros Hapi Ho Hd Hm Hf. unfold Reconcile. pose proof (GetOGX_spec (ogxs s) k) as Hg.
  destruct (GetOGX (ogxs s) k) as [e|i]; [destruct e; cbn [IsNotFound]; [by rewrite Ho in Hg|done..]|].
  rewrite Ho in Hg. injection Hg as <-. unfold reconcileInstance. fold (guarded o). rewrite bindM_run.
  assert (H : ∃ w e, guarded o s = (withOGXs w s, Err e)); [|by destruct H as (w & e & ->)].
  unfold guarded, ensureFinalizer. rewrite decide_True, Hf by done. unfold updating.
  destruct (Hapi (ogxs s) (withFinalizers (OGX_Finalizers o ++ [ogxFinalizer]) o) o) as (w & e & ->); [|done| |by do 2 eexists].
  - change (ogxKey (withFinalizers _ o)) with (ogxKey o). by rewrite (storedOGX_key _ _ _ Ho).
  - exists ogxFinalizer. cbn. split; [apply elem_of_app; right; apply list_elem_of_here|].
    by apply bool_decide_eq_false in Hf.
Qed.
End reconciler.
