(* ===== verification/ModuleConfig.v ===== *)
(** * The configuration of the module operator

    The file [ogx-module/pkg/config/config.go]: defaults, the files of the mounted
    ConfigMap, and the environment, merged by viper, which is a parameter. *)

From Stdlib Require Import Ascii.
From S2P Require Import Prelude Value Fmt Resolver ModuleParams Module.

Definition KeyManifestsPath : string := "manifests-path".
Definition KeyApplicationsNS : string := "applications-namespace".
Definition KeyPlatformName : string := "platform-name".
Definition KeyMetricsBindAddr : string := "controller.metrics.bind-address".
Definition KeyHealthBindAddr : string := "controller.health.bind-address".
Definition KeyLeaderElectEnabled : string := "controller.leader-election.enabled".
Definition KeyLeaderElectID : string := "controller.leader-election.id".

Definition DefaultManifestsPath : string := "config/manifests".
Definition DefaultApplicationsNS : string := "opendatahub".
Definition DefaultPlatformName : string := "OpenDataHub".
Definition DefaultMetricsBindAddr : string := ":8443".
Definition DefaultHealthBindAddr : string := ":8081".
Definition DefaultLeaderElectEnabled : bool := true.
Definition DefaultLeaderElectID : string := "opendatahub-ogx-operator-lock".

Definition EnvPrefix : string := "ODH_MODULE_OPERATOR".

Definition structuredExtensions (ext : string) : bool := bool_decide (ext ∈ ["yaml"; "yml"; "json"]).

(** ** Keys *)

(** [strings.ReplaceAll] of one byte by another. *)
Definition ReplaceByte (a b : ascii) (s : string) : string :=
  of_chars ((λ c, if Ascii.eqb c a then b else c) <$> chars s).

Definition canonicalConfigKey (name : string) : string :=
  let key := of_chars (lower (chars (ReplaceByte "_" "-" name))) in
  if bool_decide (key ∈ ["platformversion"; KeyPlatformVersion]) then KeyPlatformVersion
  else if bool_decide (key ∈ ["platformname"; KeyPlatformName]) then KeyPlatformName
  else name.

(** Two keys with one canonical key overwrite each other, in the order of the map. *)
Definition canonicalizeSettings {MR : MapRange} (settings : gmap string any) : gmap string any :=
  foldl (λ normalized '(key, value), <[canonicalConfigKey key := value]> normalized) ∅ (range settings).

(** [filepath.Ext] of a name without directories, and without its dot. *)
Definition extension (name : string) : string :=
  match rev (splitAt "." (chars name)) with
  | ext :: _ :: _ => of_chars ext
  | _ => ""
  end.

(** The rest of the configuration; the record of [Module] holds what its reconciler
    reads. *)
Record ControllerConfig := {
  Metrics_BindAddress : string;
  Health_BindAddress : string;
  LeaderElection_Enabled : bool;
  LeaderElection_ID : string;
}.

(** ** Viper *)

Class Viper (V : Type) := {
  viper_New : V;
  viper_SetDefault : string → any → V → V;
  viper_RegisterAlias : string → string → V → V;
  viper_Set : string → string → V → V;
  viper_AllSettings : V → gmap string any;
  viper_AllKeys : V → list string;
  viper_MergeConfigMap : gmap string any → V → result V;
  viper_ReadConfig : string → string → result V;        (* the type, and the text *)
  viper_SetEnv : string → V → V;                         (* prefix, replacer and [AutomaticEnv] *)
  viper_BindEnv : string → V → result V;
  viper_Unmarshal : V → result (Config * ControllerConfig);
}.

(** An entry of the directory. *)
Record configEntry := { CE_Name : string; CE_IsDir : bool; CE_Data : result string }.

Section load.
Context {MR : MapRange} {V : Type} `{!Viper V} (Getenv : string → string).

Definition defaultNamespace : string :=
  let applicationsNamespace := Getenv "APPLICATIONS_NAMESPACE" in
  let applicationsNamespace :=
    if bool_decide (applicationsNamespace = "") then Getenv "RHAI_APPLICATIONS_NAMESPACE" else applicationsNamespace in
  if bool_decide (applicationsNamespace = "") then DefaultApplicationsNS else applicationsNamespace.

Definition setDefaults (v : V) : V :=
  v |> viper_SetDefault KeyManifestsPath (AString DefaultManifestsPath)
    |> viper_SetDefault KeyApplicationsNS (AString defaultNamespace)
    |> viper_SetDefault KeyPlatformName (AString DefaultPlatformName)
    |> viper_SetDefault KeyPlatformVersion (AString DefaultPlatformVersion)
    |> viper_SetDefault KeyMetricsBindAddr (AString DefaultMetricsBindAddr)
    |> viper_SetDefault KeyHealthBindAddr (AString DefaultHealthBindAddr)
    |> viper_SetDefault KeyLeaderElectEnabled (ABool DefaultLeaderElectEnabled)
    |> viper_SetDefault KeyLeaderElectID (AString DefaultLeaderElectID).

Fixpoint bindKeys (keys : list string) (v : V) : result V :=
  match keys with
  | [] => Ok v
  | key :: keys =>
      v ← wrap "failed to bind env for key %s: %w" [key] (viper_BindEnv key v);
      bindKeys keys v
  end.

Definition bindEnv (v : V) : result V :=
  let v := viper_SetEnv EnvPrefix v in bindKeys (viper_AllKeys v) v.

Definition mergeStructuredFile (name ext data : string) (v : V) : result V :=
  fv ← wrap "failed to parse config file %s: %w" [name] (viper_ReadConfig ext data);
  wrap "failed to merge config from %s: %w" [name] (viper_MergeConfigMap (viper_AllSettings (fv : V)) v).

(** One entry: directories, hidden files and files that cannot be read are passed over. *)
Definition loadEntry (e : configEntry) (tmp : V) : result V :=
  if CE_IsDir e || String.prefix "." (CE_Name e) then Ok tmp
  else
    match CE_Data e with
    | Err _ => Ok tmp
    | Ok data =>
        let ext := extension (CE_Name e) in
        if structuredExtensions ext then mergeStructuredFile (CE_Name e) ext data tmp
        else Ok (viper_Set (CE_Name e) (TrimSpace data) tmp)
    end.

Fixpoint loadEntries (l : list configEntry) (tmp : V) : result V :=
  match l with [] => Ok tmp | e :: l => tmp ← loadEntry e tmp; loadEntries l tmp end.

Definition loadFromFS (entries : result (list configEntry)) (v : V) : result V :=
  entries ← wrap "failed to read config directory: %w" [] entries;
  tmp ← loadEntries entries viper_New;
  wrap "failed to merge config from filesystem: %w" [] (viper_MergeConfigMap (canonicalizeSettings (viper_AllSettings (tmp : V))) v).

(** [None] is no mounted directory. *)
Definition LoadFromFS (fsys : option (result (list configEntry))) : result (Config * ControllerConfig) :=
  let v := setDefaults viper_New
           |> viper_RegisterAlias "platformversion" KeyPlatformVersion
           |> viper_RegisterAlias "platformname" KeyPlatformName in
  v ← match fsys with
      | None => Ok v
      | Some entries => wrap "failed to load config from filesystem: %w" [] (loadFromFS entries v)
      end;
  v ← wrap "failed to bind env vars: %w" [] (bindEnv v);
  wrap "failed to unmarshal config: %w" [] (viper_Unmarshal (v : V)).

Definition ConfigPathEnvVar : string := "ODH_MODULE_OPERATOR_CONFIGURATION_PATH".

(** The entries of a directory of the host are an argument. *)
Definition Load (ReadDir : string → result (list configEntry)) : result (Config * ControllerConfig) :=
  let configPath := Getenv ConfigPathEnvVar in
  LoadFromFS (if negb (bool_decide (configPath = "")) then Some (ReadDir configPath) else None).

(** ** What the files amount to *)

(** What counts of a directory. *)
Definition relevant (e : configEntry) : bool :=
  negb (CE_IsDir e) && negb (String.prefix "." (CE_Name e)) && is_ok (CE_Data e).

Lemma loadEntries_relevant l tmp : loadEntries l tmp = loadEntries (List.filter relevant l) tmp.
Proof.
  revert tmp. induction l as [|e l IH]; intros tmp; [done|]. cbn [loadEntries List.filter].
  assert (relevant e = false → loadEntry e tmp = Ok tmp) as Hskip.
  { unfold relevant, loadEntry. destruct (CE_IsDir e), (String.prefix "." (CE_Name e)); cbn; try done. by destruct (CE_Data e). }
  destruct (relevant e); [|rewrite Hskip by done; apply IH]. cbn [loadEntries]. destruct (loadEntry e tmp) as [tmp'|e']; [apply IH|done].
Qed.

Lemma LoadFromFS_relevant l : LoadFromFS (Some (Ok l)) = LoadFromFS (Some (Ok (List.filter relevant l))).
Proof. unfold LoadFromFS, loadFromFS. cbn [wrap mbind result_bind]. by rewrite (loadEntries_relevant l). Qed.

(** A key is canonical when it names itself. *)
Lemma canonicalConfigKey_idempotent name : canonicalConfigKey (canonicalConfigKey name) = canonicalConfigKey name.
Proof.
  unfold canonicalConfigKey at 2 3. cbv zeta. case_bool_decide as H1; [reflexivity|].
  case_bool_decide as H2; [reflexivity|]. unfold canonicalConfigKey. cbv zeta.
  by rewrite (bool_decide_eq_false_2 _ H1), (bool_decide_eq_false_2 _ H2).
Qed.

Lemma normalized_lookup l (m : gmap string any) k v :
  foldl (λ normalized '(key, value), <[canonicalConfigKey key := value]> normalized) m l !! k = Some v →
  m !! k = Some v ∨ ∃ key, (key, v) ∈ l ∧ canonicalConfigKey key = k.
Proof.
  revert m. induction l as [|[key x] l IH]; intros m; [by left|]. cbn [foldl]. intros [H|(key' & Hin & Hk)]%IH.
  - destruct (decide (canonicalConfigKey key = k)) as [<-|Hne].
    + rewrite lookup_insert_eq in H. injection H as ->. right. exists key. split; [by left|done].
    + rewrite lookup_insert_ne in H by done. by left.
  - right. exists key'. split; [by right|done].
Qed.

(** Every value comes from a key with that canonical key, and no key is left that is not canonical. *)
Lemma canonicalizeSettings_spec settings k v :
  canonicalizeSettings settings !! k = Some v →
  canonicalConfigKey k = k ∧ ∃ key, settings !! key = Some v ∧ canonicalConfigKey key = k.
Proof.
  intros [H|(key & Hin & <-)]%normalized_lookup; [done|]. split; [apply canonicalConfigKey_idempotent|].
  exists key. split; [|done]. by apply elem_of_range.
Qed.
End load.

(** A ConfigMap with both spellings of a key has no fixed meaning: it depends on the
    order of the map which of them counts. *)
Lemma spelling_order :
  let settings : gmap string any := {[ "platformversion" := AString "1"; "platform-version" := AString "2" ]} in
  canonicalizeSettings (MR := map_to_list_range) settings ≠ canonicalizeSettings (MR := reverse_range) settings.
Proof. intros settings H. apply (f_equal (lookup KeyPlatformVersion)) in H. vm_compute in H. discriminate H. Qed.
