(* ===== verification/ModuleMain.v ===== *)
(** * The start of the module operator

    The files [ogx-module/cmd/ogx-module/main.go] and [metrics.go]: the options of
    its manager, and the order in which the parts are set up. *)

From Stdlib Require Import ZArith.
From S2P Require Import Prelude Value Fmt Resolver ModuleParams Module TLS ModuleTLS ModuleConfig.

(** [metricsserver.Options] *)
Record MetricsOptions := {
  BindAddress : string;
  SecureServing : bool;
  MO_TLSOpts : list option_fn;
  CertDir : string;
}.

(** [tls.LoadX509KeyPair] of the files [tls.crt] and [tls.key] in a directory. *)
Definition buildMetricsOptions (LoadX509KeyPair : string → result unit) (addr certPath : string)
    (tlsOpts : list option_fn) : result MetricsOptions :=
  let opts := {| BindAddress := addr; SecureServing := true; MO_TLSOpts := tlsOpts; CertDir := certPath |} in
  if negb (bool_decide (addr = "0")) && negb (bool_decide (certPath = "")) then
    _ ← wrap "failed to load metrics serving certificate: %w" [] (LoadX509KeyPair certPath);
    Ok opts
  else Ok opts.

(** The options of the manager: no namespace to watch means all of them. *)
Record ManagerOptions := {
  Mgr_Metrics : MetricsOptions;
  Mgr_HealthProbeBindAddress : string;
  Mgr_LeaderElection : bool;
  Mgr_LeaderElectionID : string;
  Mgr_LeaderElectionNamespace : string;
  Mgr_DefaultNamespaces : gset string;
}.

Definition watches (opts : ManagerOptions) (namespace : string) : Prop :=
  Mgr_DefaultNamespaces opts = ∅ ∨ namespace ∈ Mgr_DefaultNamespaces opts.

Section main.
Context (Getenv : string → string) (LoadX509KeyPair : string → result unit).
(** How the calls of the libraries end, and the manager that they make. *)
Context (GetConfig newDynamicClient newDiscoveryClient : result unit) (newManager : ManagerOptions → result unit)
  (setupReconciler healthz readyz registered added : result unit).

Definition operatorNamespace : string :=
  let operatorNS := Getenv "ODH_MODULE_OPERATOR_NAMESPACE" in
  if bool_decide (operatorNS = "") then Getenv "POD_NAMESPACE" else operatorNS.

Definition watchNamespaces (cfg : Config) : gset string :=
  (if bool_decide (operatorNamespace = "") then ∅ else {[operatorNamespace]}) ∪
  (if bool_decide (ApplicationsNamespace cfg = "") then ∅ else {[ApplicationsNamespace cfg]}).

(** The options of the manager that starts; the flags have the configuration as their
    defaults. *)
Definition run (cfg : Config * ControllerConfig) (metricsAddr probeAddr metricsCertPath : string) (enableLeaderElect : bool)
    (tls : result ModuleTLS.Result) : result ManagerOptions :=
  _ ← wrap "failed to get Kubernetes configuration: %w" [] GetConfig;
  tlsResult ← wrap "failed to set up TLS: %w" [] tls;
  metricsOptions ← buildMetricsOptions LoadX509KeyPair metricsAddr metricsCertPath (ModuleTLS.TLSOpts tlsResult);
  _ ← wrap "failed to create dynamic client: %w" [] newDynamicClient;
  _ ← wrap "failed to create discovery client: %w" [] newDiscoveryClient;
  let opts :=
    {| Mgr_Metrics := metricsOptions; Mgr_HealthProbeBindAddress := probeAddr; Mgr_LeaderElection := enableLeaderElect;
       Mgr_LeaderElectionID := LeaderElection_ID cfg.2; Mgr_LeaderElectionNamespace := operatorNamespace;
       Mgr_DefaultNamespaces := watchNamespaces cfg.1 |} in
  _ ← wrap "failed to create manager: %w" [] (newManager opts);
  _ ← wrap "failed to create OGX controller: %w" [] setupReconciler;
  _ ← wrap "failed to set up health check: %w" [] healthz;
  _ ← wrap "failed to set up ready check: %w" [] readyz;
  _ ← ModuleTLS.SetupWatcher registered added tlsResult;
  Ok opts.

(** When the manager starts, its metrics are served over TLS with the options that
    were resolved, by a certificate that could be loaded if one was given; a profile
    that can change is watched; and the namespace of the applications is in the
    cache. *)
Theorem module_startup cfg metricsAddr probeAddr certPath leader tls opts :
  run cfg metricsAddr probeAddr certPath leader tls = Ok opts →
  ∃ res, tls = Ok res ∧
    SecureServing (Mgr_Metrics opts) = true ∧ MO_TLSOpts (Mgr_Metrics opts) = ModuleTLS.TLSOpts res ∧
    (metricsAddr ≠ "0" → certPath ≠ "" → LoadX509KeyPair certPath = Ok tt) ∧
    match watcherOf res with NoWatcher => True | ProfileWatcher => registered = Ok tt | FallbackWatcher => added = Ok tt end ∧
    (ApplicationsNamespace cfg.1 ≠ "" → watches opts (ApplicationsNamespace cfg.1)).
Proof.
  unfold run. intros (? & _ & H)%bind_Ok. apply bind_Ok in H as (res & Hres%wrap_Ok & H).
  apply bind_Ok in H as (metrics & Hm & H). do 2 (apply bind_Ok in H as (? & _ & H)). cbv zeta in H.
  do 4 (apply bind_Ok in H as (? & _ & H)). apply bind_Ok in H as ([] & Hw & [= <-]). cbn.
  exists res. unfold buildMetricsOptions in Hm. cbv zeta in Hm.
  assert (SecureServing metrics = true ∧ MO_TLSOpts metrics = ModuleTLS.TLSOpts res ∧
    (metricsAddr ≠ "0" → certPath ≠ "" → LoadX509KeyPair certPath = Ok tt))
    as (H1 & H2 & H3).
  { case_bool_decide; [|case_bool_decide]; cbn [negb andb] in Hm; [by injection Hm as <-..|].
    apply bind_Ok in Hm as ([] & Hl%wrap_Ok & [= <-]). done. }
  split_and!; [done..| |].
  - unfold ModuleTLS.SetupWatcher in Hw. destruct (watcherOf res); [done|by apply wrap_Ok in Hw..].
  - intros Hne. right. unfold watchNamespaces. rewrite (bool_decide_eq_false_2 (ApplicationsNamespace cfg.1 = "")) by done. set_solver.
Qed.
End main.
