(* ===== verification/Witnesses.v ===== *)
(** * The theorems at concrete inputs

    Each lemma applies a theorem of the development at a sample object where
    its hypotheses hold. *)

From Stdlib Require Import ZArith.
From S2P Require Import Prelude Value ApiProviders ApiServer Secret Storage Provider ProviderFacts Hash Merge Generator GeneratorFacts Base64 Resolver ResolverFacts Webhook WebhookFacts Client NetworkPolicy NetworkPolicyFacts NetworkResources Preflight Samples.

(** Membership in a list that evaluates to a literal. *)
Ltac in_literal :=
  vm_compute; repeat (apply list_elem_of_here || apply list_elem_of_further).

Definition vllmEnv : EnvVar := secretToEnvVar "remote-vllm" "API_TOKEN" vllmToken.

Lemma CollectSecretRefs_complete_witness : vllmEnv ∈ CollectSecretRefs (sampleSpec []).
Proof.
  apply CollectSecretRefs_complete; [vm_compute; reflexivity|]. in_literal.
Defined.

Lemma ApplyStorage_resolved_witness :
  match ApplyStorage (Some sampleStorage) with Some s => stores_resolved s | None => False end.
Proof.
  destruct (ApplyStorage (Some sampleStorage)) as [s|] eqn:E; [|discriminate E].
  exact (ApplyStorage_resolved _ _ E).
Defined.

Lemma storage_secrets_match_witness :
  storageKVPasswordEnv ∈ Env_Name <$> collectStorageSecrets sampleStorage.
Proof.
  apply (storage_secrets_match sampleStorage).
  - intros kv [= <-]. repeat split; discriminate.
  - intros sql [= <-]. repeat split; discriminate.
  - eexists. split; reflexivity.
Defined.

Lemma ExpandProviders_IDs_witness :
  match ExpandProviders sampleJSON (Some sampleProviders) with
  | Ok (Some res) => flat_map (λ api, ProviderID <$> providersOf res api) apiTypes = ["remote-vllm"; "mine"]
  | _ => False
  end.
Proof.
  destruct (ExpandProviders sampleJSON (Some sampleProviders)) as [[res|]|] eqn:E;
    [|vm_compute in E; discriminate E..].
  exact (ExpandProviders_IDs sampleJSON _ _ E).
Defined.

Lemma ExpandProviders_covers_secrets_witness :
  match ExpandProviders sampleJSON (Some sampleProviders) with
  | Ok (Some res) => ∃ api cp cfg key,
      api ∈ apiTypes ∧ cp ∈ providersOf res api ∧ Config cp = Some cfg ∧
      cfg !! key = Some (AString "${env.OGX_REMOTE_VLLM_API_TOKEN}")
  | _ => False
  end.
Proof.
  destruct (ExpandProviders sampleJSON (Some sampleProviders)) as [[res|]|] eqn:E;
    [|vm_compute in E; discriminate E..].
  apply (ExpandProviders_covers_secrets sampleJSON _ _ vllmEnv E). in_literal.
Defined.

(** ** The pipeline *)

Definition sampleRun (disabled : list string) (praxis : bool) : result GeneratedConfig :=
  GenerateConfig sampleYamlBase sampleMarshal sampleJSON (sampleSpec disabled) "version: 2" praxis.

Lemma GenerateConfig_emits_witness :
  match sampleRun [] true with
  | Ok g => ∃ cfg server, sampleMarshal cfg = Ok (Gen_ConfigYAML g) ∧
      cfg !! "server" = Some (AMap server) ∧ server !! "auth" = Some praxisAuth
  | Err _ => False
  end.
Proof.
  destruct (sampleRun [] true) as [g|] eqn:E; [|vm_compute in E; discriminate E].
  destruct (GenerateConfig_emits _ _ _ _ _ _ _ E) as (base & cfg & server & _ & Hm & _ & _ & Hs & Ha & _).
  exists cfg, server. auto.
Defined.

Lemma GenerateConfig_all_disabled_witness :
  match sampleRun ["inference"] true with
  | Ok g => Gen_PraxisAPIsFiltered g = true ∧
      ∃ cfg, sampleMarshal cfg = Ok (Gen_ConfigYAML g) ∧ cfg !! "apis" = None ∧
             ∀ api, servesAPI cfg api = true
  | Err _ => False
  end.
Proof.
  destruct (sampleRun ["inference"] true) as [g|] eqn:E; [|vm_compute in E; discriminate E].
  apply (GenerateConfig_all_disabled _ _ _ _ _ sampleBase _ E); [reflexivity|discriminate|clear E].
  intros api Hapi. cbn in Hapi. apply elem_of_cons in Hapi as [->|Hapi]; [left; left|right].
  apply elem_of_cons in Hapi as [->|Hapi]; [left|by apply not_elem_of_nil in Hapi].
Defined.

Lemma GenerateConfig_filters_witness :
  match sampleRun [] true with
  | Ok g => Gen_PraxisAPIsFiltered g = true ∧
      ∃ cfg, sampleMarshal cfg = Ok (Gen_ConfigYAML g) ∧ servesAPI cfg "responses" = false
  | Err _ => False
  end.
Proof.
  destruct (sampleRun [] true) as [g|] eqn:E; [|vm_compute in E; discriminate E].
  apply (GenerateConfig_filters _ _ _ _ _ sampleBase _ _ E); [reflexivity| |right; left].
  exists "inference". repeat split; apply (bool_decide_unpack _); vm_compute; exact I.
Defined.

Lemma GenerateConfig_secrets_wired_witness :
  match sampleRun [] false with
  | Ok g => Env_Name vllmEnv ∈ Env_Name <$> Gen_EnvVars g
  | Err _ => False
  end.
Proof.
  destruct (sampleRun [] false) as [g|] eqn:E; [|vm_compute in E; discriminate E].
  refine (proj1 (GenerateConfig_secrets_wired _ _ _ _ _ _ _ sampleProviders vllmEnv E eq_refl _)).
  in_literal.
Defined.

Lemma GeneratePraxisDefaultConfig_spec_witness :
  match GeneratePraxisDefaultConfig sampleYamlBase sampleYamlMap sampleMarshal (sampleSpec []) "" with
  | Ok g => ∃ cfg, sampleMarshal cfg = Ok (Gen_ConfigYAML g) ∧ cfg !! "providers" = sampleRaw !! "providers"
  | Err _ => False
  end.
Proof.
  destruct (GeneratePraxisDefaultConfig sampleYamlBase sampleYamlMap sampleMarshal (sampleSpec []) "")
    as [g|] eqn:E; [|vm_compute in E; discriminate E].
  destruct (GeneratePraxisDefaultConfig_spec _ _ _ _ _ _ E) as (raw & cfg & _ & _ & Hr & Hm & Hk & _).
  exists cfg. split; [exact Hm|]. injection Hr as <-. apply Hk.
  apply (bool_decide_unpack _). vm_compute. exact I.
Defined.

(** ** The resolver *)

(** The cache after one store of the sample image. *)
Definition warmCache : ociConfigCache :=
  {| heap := {[0%nat := {| entry_key := pinnedImage; entry_data := "version: 2" |}]};
     items := {[pinnedImage := 0%nat]}; order := [0%nat]; next := 1 |}.

Lemma sampleConfig : configFromLabels pinnedImage sampleLabels = Ok "version: 2".
Proof. vm_compute. reflexivity. Qed.

Lemma sampleFetch_truthful : truthful samplePublished sampleFetch.
Proof. intros ref labels [= <-]. reflexivity. Qed.

(** One resolution of the sample image that ran to its end, and a second one of
    it that has not looked at the cache yet. *)
Definition sampleThreads : list thread := [Answered pinnedImage (Ok "version: 2"); Asked pinnedImage].

Lemma warmCache_reaches : reaches samplePublished warmCache sampleThreads.
Proof.
  pose proof sampleFetch_truthful as Hf.
  eapply (reaches_resume _ sampleFetch newOCIConfigCache _ (Fetched pinnedImage (Ok "version: 2")));
    [done| |vm_compute; reflexivity].
  eapply (reaches_resume _ sampleFetch newOCIConfigCache _ (Missed pinnedImage));
    [done| |vm_compute; reflexivity].
  eapply (reaches_resume _ sampleFetch newOCIConfigCache _ (Asked pinnedImage));
    [done| |vm_compute; reflexivity].
  do 2 apply reaches_call. apply rtc_refl.
Qed.

Lemma warmCache_reachable : reachable samplePublished warmCache.
Proof. exists sampleThreads. apply warmCache_reaches. Qed.

Lemma cache_refines_lru_witness :
  ∃ c', get warmCache pinnedImage = Some (Some "version: 2", c') ∧ wf c'.
Proof.
  destruct (cache_refines_lru warmCache pinnedImage "") as [(c' & Hg & Hwf & _) _].
  - apply (reachable_sound samplePublished warmCache warmCache_reachable).
  - exists c'. split; [exact Hg|exact Hwf].
Defined.

Lemma reachable_cache_witness :
  genuine samplePublished pinnedImage "version: 2" ∧
  (∃ r c', resolveFromOCI sampleFetch warmCache pinnedImage = Some (r, c') ∧
     reaches samplePublished c' (Answered pinnedImage r :: sampleThreads)).
Proof.
  destruct (reachable_cache samplePublished warmCache sampleThreads warmCache_reaches)
    as (_ & Hin & _ & _ & Hrun).
  split; [|apply Hrun, sampleFetch_truthful]. apply Hin. in_literal.
Defined.

Lemma Resolve_genuine_witness :
  ∃ c', Resolve (Some sampleFetch) warmCache pinnedImage = Some (Ok "version: 2", c') ∧
        reachable samplePublished c'.
Proof.
  destruct (Resolve_genuine samplePublished sampleFetch warmCache pinnedImage) as (r & c' & Hr & Hreach & _).
  - exact sampleFetch_truthful.
  - exact warmCache_reachable.
  - exists c'. split; [|exact Hreach]. rewrite Hr. vm_compute in Hr. injection Hr as <- _. reflexivity.
Defined.

Lemma Resolve_transparent_witness :
  ∃ c', Resolve (Some sampleFetch) warmCache pinnedImage = Some (Ok "version: 2", c').
Proof.
  destruct (Resolve_transparent samplePublished sampleFetch warmCache pinnedImage sampleLabels) as (c' & Hr).
  - intros l1 l2 -> ->. reflexivity.
  - exact sampleFetch_truthful.
  - reflexivity.
  - exact warmCache_reachable.
  - discriminate.
  - exists c'. rewrite Hr, sampleConfig. reflexivity.
Defined.

Lemma configFromLabels_roundtrip_witness :
  configFromLabels "img" (<["com.ogx.config.run.yaml" := EncodeBase64 "a: b"]>
    (<[OCIDefaultConfigLabel := "run.yaml"]> ∅)) = Ok "a: b".
Proof. apply (configFromLabels_roundtrip "img" "run.yaml" "a: b" ∅); discriminate. Defined.

(** ** Admission *)

Lemma update_ratchets_witness :
  (ValidateUpdate equalVolumes equalAccess ["starter"] legacyServer legacyServer).2 = [].
Proof.
  apply update_ratchets; try reflexivity.
  - intros v. by apply bool_decide_eq_true.
  - intros ea. by apply bool_decide_eq_true.
  - apply (bool_decide_unpack _). vm_compute. exact I.
  - split; [right; right; left|]. split; [discriminate|]. split; [discriminate|].
    intros key _. cbn. rewrite lookup_empty. discriminate.
Defined.

Lemma admitted_config_consistent_witness :
  match ExpandProviders sampleJSON (Some sampleProviders) with
  | Ok (Some res) => NoDup (flat_map (λ api, ProviderID <$> providersOf res api) apiTypes)
  | _ => False
  end.
Proof.
  destruct (ExpandProviders sampleJSON (Some sampleProviders)) as [[res|]|] eqn:E;
    [|vm_compute in E; discriminate E..].
  destruct (ExpandResources (Some {| Resources_Models := [sampleModel] |})
              (MergeProviders (Base_Providers sampleBase) (Some res))) as [models|] eqn:Em.
  - refine (proj1 (admitted_config_consistent equalVolumes equalAccess ["starter"] sampleJSON sampleServer
      sampleProviders res sampleBase _ models _ _ _ E Em)); vm_compute; reflexivity.
  - vm_compute in E. injection E as <-. vm_compute in Em. discriminate Em.
Defined.

(** ** Network policy, Ingress and preflight *)

Lemma praxis_lockdown_witness :
  allowsIngress (applyNetworkPolicySpec (policyConfig true) ∅) praxisTraffic = true.
Proof.
  apply (praxis_lockdown (policyConfig true) ∅ praxisTraffic eq_refl).
  left. split; [reflexivity|]. left. vm_compute. reflexivity.
Defined.

Lemma legacy_posture_witness :
  allowsIngress (applyNetworkPolicySpec (policyConfig false) ∅) localTraffic = true.
Proof.
  apply (legacy_posture (policyConfig false) ∅ localTraffic eq_refl).
  left. split; [reflexivity|]. left. reflexivity.
Defined.

Lemma praxis_namespace_isolation_witness :
  T_NamespaceLabels praxisTraffic !! "kubernetes.io/metadata.name" = Some "praxis-standalone" ∨
  T_NamespaceLabels praxisTraffic !! "kubernetes.io/metadata.name" = Some "ogx-system".
Proof.
  apply (praxis_namespace_isolation sampleServer operatorNamespace ∅ praxisTraffic);
    [reflexivity|discriminate|vm_compute; reflexivity|reflexivity].
Defined.

Lemma sampleList_lists : lists (Ok (A := LabelSelector)) sampleList.
Proof.
  intros selector sel ns pods pod [= <-] Hl Hin. unfold sampleList in Hl. res_inv.
  destruct (_ && _) eqn:Hb in Hin; [|by apply not_elem_of_nil in Hin].
  apply list_elem_of_singleton in Hin as ->.
  apply andb_true_iff in Hb as [Hns Hm]. by apply bool_decide_eq_true in Hns.
Qed.

Lemma ready_praxis_pods_admitted_witness :
  allowsIngress (applyNetworkPolicySpec (policyConfig true) ∅) praxisTraffic = true.
Proof.
  apply (ready_praxis_pods_admitted (Ok (A := LabelSelector)) sampleList sampleServer operatorNamespace ∅
           praxisPod ∅ false sampleList_lists).
  eexists _, [praxisPod]. split; [reflexivity|].
  split; [vm_compute; reflexivity|]. split; [left|reflexivity].
Defined.

Lemma sampleSetController_sets : setsController sampleSetController.
Proof. by intros instance i i' [= <-]. Qed.

Definition sampleCluster (s : mapState) : cluster := {| api := s; events := Some [] |}.

Lemma reconcileIngress_posture_witness :
  match reconcileIngress sampleSetController (sampleCluster emptyState) exposedServer with
  | (w', Ok tt) => ∃ i, stored (api w') ("default", "ogx-ingress") = Some i ∧
      (IsControlledBy i exposedServer = false ∨ exposesSafely exposedServer i)
  | _ => False
  end.
Proof.
  destruct (reconcileIngress sampleSetController (sampleCluster emptyState) exposedServer) as [w' [[]|e]] eqn:E;
    [|apply (f_equal (λ run, is_ok run.2)) in E; vm_compute in E; discriminate E].
  exact (reconcileIngress_posture sampleSetController _ _ exposedServer sampleSetController_sets E).
Defined.

Lemma ingress_ownership_witness :
  stored (api (reconcileIngress sampleSetController (sampleCluster foreignState) exposedServer).1)
    ("default", "ogx-ingress") = Some foreignIngress.
Proof.
  refine (proj1 (proj2 (ingress_ownership sampleSetController (sampleCluster foreignState) exposedServer _
    sampleSetController_sets (or_introl eq_refl))) foreignIngress _ _); vm_compute; reflexivity.
Defined.
