(* ===== verification/MigrationWitnesses.v ===== *)
(** * The migration theorems at concrete inputs *)

From Stdlib Require Import ZArith.
From S2P Require Import Prelude Value ApiProviders ApiServer Secret Hash Fmt Client Status Common Preflight Migration MigrationFacts MigrationJobFacts Samples.

#[local] Existing Instance map_to_list_range.

Lemma jobSetController_sets : setsController jobSetController.
Proof. intros instance job job' [= <-]. repeat split. Qed.

Lemma no_job : stored emptyJobs (jobKey (migratingServer true)) = None.
Proof. vm_compute. reflexivity. Qed.

(** Runs a reconciliation of the sample server. *)
Abbreviation run env s enabled := (reconcileMigration jobSetController env s (migratingServer enabled) None).

Lemma sample_preflight : preflightReady migrationEnv (migratingServer true) None.
Proof. apply runMigrationPreflight_ok. vm_compute. reflexivity. Qed.

Definition sampleKey : string :=
  match migrationAttemptKey migrationEnv (migratingServer true) None with Ok k => k | Err _ => "" end.

(** The Job of a state, and the Job in a given shape. *)
Definition jobOf (w : mapState (O := Job)) : option Job := stored w (jobKey (migratingServer true)).

Definition sampleJob (attempt : string) (conditions : list JobCondition) : Job :=
  {| Job_Namespace := "default"; Job_Name := "ogx-praxis-migration"; Job_Labels := ∅;
     Job_Annotations := {[migrationAttemptAnnotation := attempt]}; Job_Controller := Some "u1";
     Job_Deleting := false; Job_BackoffLimit := 2; Job_Completions := 1; Job_Parallelism := 1;
     Job_ActiveDeadlineSeconds := 3600; Job_TemplateLabels := ∅;
     Job_PodSpec := {| Pod_ServiceAccountName := ""; Pod_RestartPolicy := "OnFailure"; Pod_RunAsNonRoot := None;
                       Pod_SeccompProfile := ""; Pod_Containers := []; Pod_Volumes := [] |};
     Job_Conditions := conditions; Job_Active := 0 |}.

Definition complete : JobCondition :=
  {| JC_Type := "Complete"; JC_Status := "True"; JC_Reason := ""; JC_Message := "" |}.

Lemma sampleJob_filed attempt conditions :
  filed {[("default", "ogx-praxis-migration") := sampleJob attempt conditions]}.
Proof. by apply map_Forall_singleton. Qed.

(** A cluster with one Job. *)
Definition oneJob (attempt : string) (conditions : list JobCondition) : mapState (O := Job) :=
  file _ (sampleJob_filed attempt conditions).

Lemma reconcileMigration_refines_witness :
  match run migrationEnv (migrationState None emptyJobs) true with
  | (s', Ok tt) => migrationPhase (status s') = Some MigrationPhaseRunning ∧ cutoverReady (status s') = false
  | _ => False
  end.
Proof.
  destruct (run migrationEnv (migrationState None emptyJobs) true) as [s' [[]|e]] eqn:E;
    [|apply (f_equal (λ r, is_ok r.2)) in E; vm_compute in E; discriminate E].
  destruct (reconcileMigration_refines jobSetController migrationEnv _ (migratingServer true) None s'
    jobSetController_sets eq_refl sample_preflight E) as (key & _ & _ & Hp & Hr & _).
  split; [exact Hp|exact Hr].
Defined.

Lemma migration_job_ownership_witness :
  jobOf (cluster (run migrationEnv (migrationState None (oneJob sampleKey [])) true).1) = Some (sampleJob sampleKey []).
Proof.
  destruct (run migrationEnv (migrationState None (oneJob sampleKey [])) true) as [s' r] eqn:E.
  refine (proj2 (proj2 (migration_job_ownership jobSetController migrationEnv _ (migratingServer true) None s' r
    jobSetController_sets E)) (sampleJob sampleKey []) _ _); [vm_compute; reflexivity|].
  right. split; [reflexivity|]. right. vm_compute. reflexivity.
Defined.

(** A completed Job is reconciled once. *)
Lemma cutover_sound_witness :
  migrationPhase (status (run migrationEnv (migrationState None (oneJob sampleKey [complete])) true).1) =
  Some MigrationPhaseValidated.
Proof.
  set (s := migrationState None (oneJob sampleKey [complete])).
  refine (proj1 (cutover_sound jobSetController (migratingServer true)
    [cluster (run migrationEnv s true).1; cluster s] _ jobSetController_sets _ _)).
  - apply (reachable_step _ _ [cluster s] s); [apply reachable_start; reflexivity|].
    apply (step_reconcile _ _ migrationEnv (migratingServer true) None s _ (run migrationEnv s true).2);
      [by split|apply surjective_pairing].
  - vm_compute. reflexivity.
Defined.

Lemma validation_forgotten_witness :
  match run migrationEnv (run brokenEnv (migrationState (Some validatedMigration) emptyJobs) true).1 true with
  | (s2, Ok tt) => is_Some (jobOf (cluster s2))
  | _ => False
  end.
Proof.
  set (s := migrationState (Some validatedMigration) emptyJobs).
  destruct (run migrationEnv s true) as [s0 [[]|e]] eqn:E0;
    [|apply (f_equal (λ r, is_ok r.2)) in E0; vm_compute in E0; discriminate E0].
  destruct (run brokenEnv s true) as [s1 [[]|e]] eqn:E1;
    [|apply (f_equal (λ r, is_ok r.2)) in E1; vm_compute in E1; discriminate E1]. cbn [fst].
  destruct (run migrationEnv s1 true) as [s2 [[]|e]] eqn:E2.
  - destruct (runMigrationPreflight brokenEnv (migratingServer true) None) as [[]|e] eqn:Ep;
      [vm_compute in Ep; discriminate Ep|].
    destruct (validation_forgotten jobSetController brokenEnv migrationEnv s (migratingServer true) None e s0 s1 s2
      jobSetController_sets eq_refl eq_refl no_job sample_preflight Ep E0 E1 E2) as (_ & _ & _ & job & Hj & _).
    exists job. exact Hj.
  - apply (f_equal fst) in E1. cbn [fst] in E1. rewrite <- E1 in E2.
    apply (f_equal (λ r, is_ok r.2)) in E2. vm_compute in E2. discriminate E2.
Defined.

Lemma reenabled_never_ready_witness :
  match run migrationEnv (migrationState (Some validatedMigration) emptyJobs) false with
  | (s0, Ok tt) => cutoverReady (status (reconcileAll jobSetController (migratingServer true)
                     [(migrationEnv, None); (migrationEnv, None)] (withCluster s0 emptyJobs))) = false
  | _ => False
  end.
Proof.
  destruct (run migrationEnv (migrationState (Some validatedMigration) emptyJobs) false) as [s0 [[]|e]] eqn:E;
    [|apply (f_equal (λ r, is_ok r.2)) in E; vm_compute in E; discriminate E].
  refine (proj1 (proj2 (reenabled_never_ready jobSetController migrationEnv
    (migrationState (Some validatedMigration) emptyJobs) s0 (migratingServer false)
    (migratingServer true) None emptyJobs [(migrationEnv, None); (migrationEnv, None)]
    jobSetController_sets eq_refl eq_refl (conj eq_refl eq_refl) eq_refl E no_job _))).
  repeat constructor; apply sample_preflight.
Defined.

Lemma migration_converges_witness :
  let s1 := (run migrationEnv (migrationState None (oneJob "old" [])) true).1 in
  let s2 := (run migrationEnv (withCluster s1 emptyJobs) true).1 in
  let s3 := (run migrationEnv (withCluster s2 (oneJob sampleKey [complete])) true).1 in
  is_Some (jobOf (cluster s2)) ∧ cutoverReady (status s3) = true.
Proof.
  intros s1 s2 s3.
  assert (E1 : run migrationEnv (migrationState None (oneJob "old" [])) true = (s1, Ok tt)).
  { unfold s1. rewrite (surjective_pairing (run _ _ _)) at 1. apply f_equal. vm_compute. reflexivity. }
  assert (E2 : run migrationEnv (withCluster s1 emptyJobs) true = (s2, Ok tt)).
  { unfold s2. rewrite (surjective_pairing (run _ _ _)) at 1. apply f_equal. vm_compute. reflexivity. }
  assert (E3 : run migrationEnv (withCluster s2 (oneJob sampleKey [complete])) true = (s3, Ok tt)).
  { unfold s3. rewrite (surjective_pairing (run _ _ _)) at 1. apply f_equal. vm_compute. reflexivity. }
  assert (H : ∃ job1, jobOf (cluster s2) = Some job1 ∧ IsControlledBy job1 (migratingServer true) = true ∧ attemptOf job1 = sampleKey ∧
    ∀ w2 job2 s3, jobOf w2 = Some job2 → Job_Controller job2 = Job_Controller job1 →
      Job_Annotations job2 = Job_Annotations job1 → Job_Deleting job2 = false → jobHasCondition job2 JobComplete = true →
      run migrationEnv (withCluster s2 w2) true = (s3, Ok tt) →
      migrationPhase (status s3) = Some MigrationPhaseValidated ∧ cutoverReady (status s3) = true).
  { refine (proj2 (migration_converges jobSetController migrationEnv _ (migratingServer true) None sampleKey
      (sampleJob "old" []) s1 jobSetController_sets eq_refl sample_preflight _ _ _ _ _ E1) emptyJobs s2 _ E2).
    all: try (vm_compute; reflexivity).
    - vm_compute. discriminate.
    - intros job Hj. exfalso. pose proof (eq_trans (eq_sym no_job) Hj) as H. discriminate H. }
  destruct H as (job1 & Ej & _ & _ & H3).
  assert (Hc : Job_Controller <$> jobOf (cluster s2) = Some (Some "u1")) by (vm_compute; reflexivity).
  assert (Ha : Job_Annotations <$> jobOf (cluster s2) = Some {[migrationAttemptAnnotation := sampleKey]})
    by (vm_compute; reflexivity).
  rewrite Ej in Hc, Ha. injection Hc as Hc. injection Ha as Ha.
  split; [by exists job1|].
  refine (proj2 (H3 (oneJob sampleKey [complete]) (sampleJob sampleKey [complete]) s3 _ _ _ _ _ E3));
    [vm_compute; reflexivity|by rewrite Hc|by rewrite Ha|vm_compute; reflexivity..].
Defined.

Lemma migration_job_credentials_witness :
  match buildMigrationJob jobSetController migrationEnv (migratingServer true) None "ogx-praxis-migration" "k" with
  | Ok job => ∃ c e, Pod_Containers (Job_PodSpec job) = [c] ∧ e ∈ Ctr_Env c ∧ Env_Name e = "PRAXIS_DATABASE_URL" ∧
      Env_ValueFrom e ≫= Src_SecretKeyRef = Some {| Sel_Name := "praxis"; Sel_Key := "dsn" |}
  | Err _ => False
  end.
Proof.
  destruct (buildMigrationJob jobSetController migrationEnv (migratingServer true) None "ogx-praxis-migration" "k")
    as [job|e] eqn:E; [|apply (f_equal is_ok) in E; vm_compute in E; discriminate E].
  destruct (migration_job_credentials jobSetController migrationEnv (migratingServer true) None _ _ job
    jobSetController_sets E) as (c & Hc & _ & _ & _ & _ & _ & _ & Ht).
  destruct (Ht {| SKR_Name := "praxis"; SKR_Key := "dsn" |} eq_refl) as (e & He & Hn & Hr).
  exists c, e. auto.
Defined.
