(* ===== verification/AdoptionWitnesses.v ===== *)
(** * The adoption theorems at concrete inputs

    A server [ogx] that adopts the storage and the network of a
    LlamaStackDistribution [old]. *)

From Stdlib Require Import ZArith.
From S2P Require Import Prelude Value ApiProviders ApiServer Fmt Client Action Objects Status Common Adoption AdoptionFacts AdoptionTheorems Samples.

(** ** A cluster *)

(** The objects of one kind, read from the cache of the manager. *)
Abbreviation kindState Spec := (mapState (O := Object Spec)).

#[local] Instance managedCache {Spec} : ReadCache (kindState Spec) (Object Spec) := λ o, managed (Obj_Meta o).
#[local] Instance managedClient {Spec} : Client (kindState Spec) (Object Spec) := cached_client (map_client noFault).
#[local] Instance managedLister {Spec} : Lister (kindState Spec) (Object Spec) := cached_lister (map_lister noFault).
#[local] Instance managedPatcher {Spec} : Patcher (kindState Spec) (Object Spec) := map_patcher noFault.

#[local] Instance managedCache_managed {Spec} : ManagedCache (kindState Spec) Spec.
Proof. by intros o. Qed.
#[local] Instance managedClient_laws {Spec} : CachedLaws (kindState Spec) (Object Spec).
Proof. apply cached_client_laws, map_client_laws, persists_refl. Qed.
#[local] Instance managedLister_laws {Spec} : CachedListerLaws (kindState Spec) (Object Spec).
Proof. apply cached_lister_laws, map_lister_laws. Qed.
#[local] Instance managedPatcher_laws {Spec} : PatcherLaws (kindState Spec) (Object Spec).
Proof. apply cached_patcher_laws, (map_patcher_laws noFault persists_refl). Qed.
#[local] Instance managedClient_reliable {Spec} : Reliable (kindState Spec) (Object Spec).
Proof. apply cached_reliable, map_reliable. Qed.
#[local] Instance managedPatcher_reliable {Spec} : ReliablePatcher (kindState Spec) (Object Spec).
Proof. apply cached_reliable_patcher, map_reliable_patcher. Qed.

Lemma seen_only {Spec} (o : Object Spec) k o' : seen (fileAll [o]) k = Some o' → o' = o.
Proof. intros [Ho _]%seen_Some. by apply list_elem_of_singleton, (fileAll_in [o] k). Qed.

(** The pods, which the cache holds all. *)
Definition podState : Type := kindState any.
#[local] Typeclasses Opaque podState.

#[local] Instance podClient : Client podState (Object any) := map_client noFault.
#[local] Instance podLister : Lister podState (Object any) := map_lister noFault.
#[local] Instance podClient_laws : ClientLaws podState (Object any).
Proof. apply map_client_laws, persists_refl. Qed.
#[local] Instance podLister_laws : ListerLaws podState (Object any) := map_lister_laws noFault.
#[local] Instance podLister_reliable : ReliableLister podState (Object any) := map_reliable_lister.

(** ** Objects *)

Definition legacyOwner (name : string) : OwnerReference :=
  {| Owner_APIVersion := legacyGroupVersion; Owner_Kind := LlamaStackDistributionKind; Owner_Name := name;
     Owner_UID := "u0"; Owner_Controller := Some true |}.

(** The label by which the cache selects the objects. *)
Definition operatorLabel : gmap string string := {[managedByLabelKey := managedByLabelVal]}.

Definition ownedMeta (name : string) (labels : gmap string string) (owners : list OwnerReference) : Metadata :=
  {| Obj_Namespace := "default"; Obj_Name := name; Obj_Labels := labels; Obj_Annotations := ∅;
     Obj_OwnerReferences := owners; Obj_Deleting := false |}.

Definition oldClaim (labels : gmap string string) : Object any :=
  {| Obj_Meta := ownedMeta "old-pvc" labels [legacyOwner "old"]; Obj_Spec := ANil |}.

Definition oldService : Object ServiceSpec :=
  {| Obj_Meta := ownedMeta "old-service" operatorLabel [legacyOwner "old"];
     Obj_Spec := {| Svc_Selector := {["app" := "llama-stack"]}; Svc_Rest := ANil |} |}.

Definition oldIngress (owner : OwnerReference) : Object any :=
  {| Obj_Meta := ownedMeta "old-ingress" operatorLabel [owner]; Obj_Spec := ANil |}.

Definition oldDeployment (labels : gmap string string) : Object DeploymentSpec :=
  {| Obj_Meta := ownedMeta "old" labels [legacyOwner "old"];
     Obj_Spec := {| Dep_Replicas := Some 1%Z; Dep_Rest := ANil |} |}.

Definition oldPod : Object any :=
  {| Obj_Meta := ownedMeta "old-0" {[instanceLabelKey := "old"]} []; Obj_Spec := ANil |}.

Definition adoptingServer (storage networking : string) : OGXServer :=
  {| Server_Meta :=
       {| Meta_Name := "ogx"; Meta_Namespace := "default"; Meta_UID := "u1"; Meta_Generation := 1%Z;
          Meta_Annotations := <[AdoptStorageAnnotation := storage]> {[AdoptNetworkingAnnotation := networking]};
          Meta_Labels := ∅ |};
     Server_Spec := sampleSpec [] |}.

Abbreviation sampleState :=
  (state (kindState any) (kindState ServiceSpec) (kindState any) (kindState DeploymentSpec) podState).

Definition legacyCluster (claim : Object any) (owner : OwnerReference) (labels : gmap string string)
    (running : list (Object any)) : sampleState :=
  {| pvcs := fileAll [claim]; services := fileAll [oldService]; ingresses := fileAll [oldIngress owner];
     deployments := fileAll [oldDeployment labels]; pods := fileAll running; status := phaseStatus None |}.

Abbreviation adoptBy storage networking s :=
  (adoptLegacyResources appendController 0%Z (adoptingServer storage networking) s).

Definition freeCluster : sampleState := legacyCluster (oldClaim operatorLabel) (legacyOwner "old") operatorLabel [].

Lemma appendController_accepts : acceptsController appendController.
Proof. intros instance m Hm. unfold appendController. by rewrite Hm. Qed.

Lemma old_valid storage networking :
  storage = "" ∨ storage = "old" → networking = "" ∨ networking = "old" → validSources (adoptingServer storage networking).
Proof. intros [-> | ->] [-> | ->]; (split; [|]); (by left) || (right; split; [discriminate|reflexivity]). Qed.

Lemma free_takeable meta : Obj_OwnerReferences meta = [legacyOwner "old"] → takeable "old" meta.
Proof. intros H r. unfold GetControllerOf. rewrite H. by intros [= <-]. Qed.


Definition claimOf (s : sampleState)
    : option (Object any) := stored (pvcs s) ("default", "old-pvc").


(** A legacy Deployment without the operator's label: the cache does not hold it,
    and the claim changes hands in the first pass, while its pod is running. *)
Definition hiddenCluster : sampleState :=
  legacyCluster (oldClaim operatorLabel) (legacyOwner "old") ∅ [oldPod].

Example hidden_deployment_runs :
  let s := (adoptBy "old" "" hiddenCluster).1 in
  (Obj_Labels ∘ Obj_Meta <$> claimOf s) ≫= (.!! instanceLabelKey) = Some "ogx" ∧
  Dep_Replicas ∘ Obj_Spec <$> stored (deployments s) ("default", "old") = Some (Some 1%Z) ∧
  is_Some (stored (pods s) ("default", "old-0")).
Proof. split_and!; [vm_compute; reflexivity..|apply (bool_decide_unpack _); vm_compute; exact I]. Qed.

Lemma adopted_pvc_survives_witness :
  match (resolveEffectivePVCName 0 (adoptingServer "" "") (adoptBy "old" "" freeCluster).1).2 with
  | Ok name => name = "old-pvc"
  | Err (terminalError _) => False
  | Err _ => True
  end.
Proof.
  destruct (adoptBy "old" "" freeCluster) as [s' r] eqn:E.
  assert (Hr : r = Ok noRequeue) by (apply (f_equal snd) in E; cbn [snd] in E; rewrite <- E; vm_compute; reflexivity).
  rewrite Hr in E.
  refine (proj2 (adopted_pvc_survives appendController 0 (adoptingServer "old" "") (adoptingServer "" "") freeCluster s'
    (oldClaim operatorLabel) appendController_sets _ _ _ _ _ _ E _ _ _)).
  all: try (vm_compute; reflexivity).
  - discriminate.
  - apply (old_valid "old" ""); [by right|by left].
  - by left.
  - discriminate.
  - intros k (_ & o & Ho & Hl & _). exfalso.
    apply seen_only in Ho as ->. apply (bool_decide_pack _) in Hl. vm_compute in Hl. exact Hl.
  - by left.
Defined.

(** The cluster once all pods are gone. *)
Definition podsGone (s : sampleState) : sampleState :=
  {| pvcs := pvcs s; services := services s; ingresses := ingresses s; deployments := deployments s;
     pods := fileAll []; status := status s |}.

Lemma podsGone_same s :
  pvcs (podsGone s) = pvcs s ∧ services (podsGone s) = services s ∧
  ingresses (podsGone s) = ingresses s ∧ deployments (podsGone s) = deployments s.
Proof. repeat split. Qed.

Lemma podsGone_none ns src s : noLegacyPods ns src (podsGone s).
Proof. intros k p Hp. exfalso. exact (not_elem_of_nil _ (fileAll_in [] k p Hp)). Qed.

Definition runningCluster : sampleState := legacyCluster (oldClaim operatorLabel) (legacyOwner "old") operatorLabel [oldPod].

Lemma running_adoptable : adoptable (adoptingServer "old" "old") runningCluster.
Proof. split_and!; intros o ->%seen_only; left; by apply free_takeable. Qed.


(** The Ingress of the same name belongs to another resource. *)
Definition contestedCluster : sampleState := legacyCluster (oldClaim operatorLabel) (legacyOwner "other") operatorLabel [].

Lemma adopted_service_leaks_witness :
  is_ok (adoptBy "" "old" contestedCluster).2 = false ∧
  cleanupAdoptedNetworking 0 (adoptingServer "" "") (adoptBy "" "old" contestedCluster).1 =
  ((adoptBy "" "old" contestedCluster).1, Ok tt).
Proof.
  assert (Hv : validSources (adoptingServer "" "old")) by (apply old_valid; [by left|by right]).
  assert (Hn : GetAdoptNetworkingSource (adoptingServer "" "old") ≠ "") by discriminate.
  assert (Hu : "u0" ≠ "u1") by discriminate.
  assert (Hsvc : seen (services contestedCluster) ("default", "old-service") = Some oldService)
    by (vm_compute; reflexivity).
  assert (Hing : seen (ingresses contestedCluster) ("default", "old-ingress") = Some (oldIngress (legacyOwner "other")))
    by (vm_compute; reflexivity).
  destruct (adopted_service_leaks appendController 0 (adoptingServer "" "old") contestedCluster oldService
    (oldIngress (legacyOwner "other")) (legacyOwner "other") appendController_sets appendController_accepts
    managedClient_reliable managedClient_reliable Hv eq_refl Hn Hsvc (free_takeable (Obj_Meta oldService) eq_refl) eq_refl
    Hing eq_refl eq_refl Hu eq_refl) as (H & _ & Hc).
  split; [exact H|]. apply (Hc (adoptingServer "" "") eq_refl).
Defined.

(** ** Cleaning up *)

Definition adoptedCluster : sampleState := (adoptBy "" "old" freeCluster).1.

Definition cleanedCluster : sampleState * result unit :=
  cleanupAdoptedNetworking 0 (adoptingServer "" "") adoptedCluster.

Lemma cleanup_spec_witness :
  pvcs cleanedCluster.1 = pvcs adoptedCluster ∧
  IsConditionTrue (Some (status cleanedCluster.1)) ConditionTypeNetworkingAdopted = false.
Proof.
  pose proof (cleanup_spec 0 (adoptingServer "" "") adoptedCluster) as H.
  destruct (cleanupAdoptedNetworking 0 (adoptingServer "" "") adoptedCluster) as [s r] eqn:E.
  change cleanedCluster with (cleanupAdoptedNetworking 0 (adoptingServer "" "") adoptedCluster). rewrite E.
  destruct H as (_ & _ & (Hp & _ & _) & H). split; [exact Hp|].
  assert (Hr : r = Ok tt) by (apply (f_equal snd) in E; cbn [snd] in E; rewrite <- E; vm_compute; reflexivity).
  assert (Hc : bool_decide (GetAdoptNetworkingSource (adoptingServer "" "") = "") &&
    IsConditionTrue (Some (status adoptedCluster)) ConditionTypeNetworkingAdopted = true) by (vm_compute; reflexivity).
  rewrite Hc in H. exact (proj2 (proj2 (H Hr))).
Defined.
