(* ===== verification/ConfigMapWitnesses.v ===== *)
(** * The ConfigMap theorems at concrete inputs

    The managed CA bundle over a toy PEM, and the generated ConfigMaps of a
    server with three generations. *)

From Stdlib Require Import Ascii ZArith.
From S2P Require Import Prelude Value ApiProviders ApiServer Secret Provider Merge Generator Resolver Common Status Client Action Objects ConfigMaps CABundle CABundleFacts GeneratedConfig GeneratedConfigFacts Base64 Samples.

#[local] Open Scope Z_scope.

(** ** A toy PEM

    A block is two characters: [C] makes it a certificate, and the second one is
    its body. *)

Definition toyDecode (s : string) : option (Block * string) :=
  match s with
  | String c (String d rest) =>
      Some ({| Block_Type := if bool_decide (c = "C"%char) then "CERTIFICATE" else "PRIVATE KEY";
               Block_Headers := ""; Block_Bytes := String d "" |}, rest)
  | _ => None
  end.

Definition toyEncode (b : Block) : option string := Some ("cert:" +:+ Block_Bytes b)%string.

Definition toyParse (_ : string) : result unit := Ok tt.

Lemma toyDecode_consumes : consumes toyDecode.
Proof. intros [|c [|d s]] b rest; try done. intros [= _ <-]. cbn. lia. Qed.

Lemma toyEncode_nonempty b c : toyEncode b = Some c → c ≠ "".
Proof. by intros [= <-]. Qed.

Lemma toy_decoded : decoded toyDecode "C1K2" [{| Block_Type := "CERTIFICATE"; Block_Headers := ""; Block_Bytes := "1" |};
                                             {| Block_Type := "PRIVATE KEY"; Block_Headers := ""; Block_Bytes := "2" |}].
Proof. repeat (eapply decoded_cons; [reflexivity|]). by constructor. Qed.

Lemma extractValidCertificates_spec_witness :
  extractValidCertificates toyDecode toyEncode toyParse "C1K2" "ca.crt" = Some (Ok (["cert:1"], 6, 1)).
Proof.
  rewrite (extractValidCertificates_spec toyDecode toyEncode toyParse "C1K2" "ca.crt" _ toyDecode_consumes toy_decoded).
  reflexivity.
Defined.

(** ** A cluster of ConfigMaps *)

Definition configMap (name : string) (labels data : gmap string string) (created : Z) : ConfigMapObject :=
  {| CM_Meta := {| Obj_Namespace := "default"; Obj_Name := name; Obj_Labels := labels; Obj_Annotations := ∅;
                   Obj_OwnerReferences := []; Obj_Deleting := false |};
     CM_Data := data; CM_Immutable := None; CM_ResourceVersion := "1"; CM_CreationTimestamp := created |}.

Abbreviation configMapState := (mapState (O := ConfigMapObject)).

(** Reads of the trusted bundle fail, or nothing does. *)
Definition trustedFault (v : verb) (k : NamespacedName) : option error :=
  match v with
  | VGet => if bool_decide (k.2 = odhTrustedCABundleConfigMap) then Some (New "timeout") else None
  | _ => None
  end.

Definition good : Client configMapState ConfigMapObject := map_client noFault.
Definition flaky : Client configMapState ConfigMapObject := map_client trustedFault.

#[local] Instance good_laws : @ClientLaws configMapState ConfigMapObject _ good.
Proof. apply map_client_laws, ConfigMap_persists_refl. Qed.

#[local] Instance flaky_laws : @ClientLaws configMapState ConfigMapObject _ flaky.
Proof. apply map_client_laws, ConfigMap_persists_refl. Qed.

Definition goodPatcher : Patcher configMapState ConfigMapObject := map_patcher noFault.
Definition flakyPatcher : Patcher configMapState ConfigMapObject := map_patcher trustedFault.

#[local] Instance goodPatcher_laws : @PatcherLaws configMapState ConfigMapObject _ good goodPatcher.
Proof. apply map_patcher_laws, ConfigMap_persists_refl. Qed.

#[local] Instance flakyPatcher_laws : @PatcherLaws configMapState ConfigMapObject _ flaky flakyPatcher.
Proof. apply map_patcher_laws, ConfigMap_persists_refl. Qed.

Definition goodLister : Lister configMapState ConfigMapObject := map_lister noFault.

#[local] Instance goodLister_laws : @ListerLaws configMapState ConfigMapObject _ good goodLister.
Proof. apply map_lister_laws. Qed.

(** Every ConfigMap of the samples is in the cache. *)
Definition everything : ReadCache configMapState ConfigMapObject := λ _, true.

#[local] Existing Instance everything.

#[local] Instance good_cached : @CachedLaws configMapState ConfigMapObject _ good everything.
Proof. apply (full_cache_laws (Client0 := good)); [apply good_laws|done]. Qed.

#[local] Instance goodLister_cached : @CachedListerLaws configMapState ConfigMapObject _ good everything goodLister.
Proof.
  split. intros w ns p. pose proof (@List_spec _ _ _ good goodLister _ w ns p) as Hl. destruct (List w ns p); [done|].
  destruct Hl as [Hnd Hl]. split; [done|]. intros o. rewrite Hl, (@seen_Some _ _ good everything).
  intuition done.
Qed.

Definition trusted (data : gmap string string) : ConfigMapObject := configMap odhTrustedCABundleConfigMap ∅ data 0.

Definition twoKeys : gmap string string := <["a" := "C1"]> {["b" := "C2"]}.

Definition bundleCluster : configMapState := fileAll [trusted twoKeys].

Definition bundleRun (MR : MapRange) (w : configMapState) : configMapState * result unit :=
  @reconcileManagedCABundle toyDecode toyEncode toyParse configMapState good goodPatcher MR appendController sampleServer w.

Definition bundleText (MR : MapRange) (w : configMapState) : result string :=
  (@gatherCABundleData toyDecode toyEncode toyParse configMapState good MR sampleServer w).2.

Lemma ca_bundle_bounds_witness :
  match @gatherCABundleData toyDecode toyEncode toyParse configMapState good map_to_list_range sampleServer bundleCluster with
  | (_, Ok data) => ∃ certs, data = joinLines certs ∧ (1 <= length certs)%nat
  | _ => False
  end.
Proof.
  destruct (gatherCABundleData _ _ _ _ _) as [w' [data|e]] eqn:E; [|apply (f_equal snd) in E; vm_compute in E; discriminate E].
  destruct (ca_bundle_bounds (Client0 := good) (ClientLaws0 := good_laws) (Patcher0 := goodPatcher)
              toyDecode toyEncode toyParse toyDecode_consumes sampleServer bundleCluster w' data E)
    as (_ & certs & Hd & Hl & _).
  exists certs. auto.
Defined.

Lemma managed_bundle_spec_witness :
  ∃ cm data, @stored _ _ good (bundleRun map_to_list_range bundleCluster).1 ("default", "ogx-ca-bundle") = Some cm ∧
    CM_Data cm !! ManagedCABundleKey = Some data ∧ IsControlledBy (CM_Meta cm) sampleServer = true.
Proof.
  destruct (managed_bundle_spec (Client0 := good) (Patcher0 := goodPatcher) toyDecode toyEncode toyParse appendController
              toyDecode_consumes toyEncode_nonempty sampleServer bundleCluster
              (bundleRun map_to_list_range bundleCluster).1 (bundleRun map_to_list_range bundleCluster).2
              appendController_sets (surjective_pairing _)) as [_ H].
  specialize (H ltac:(vm_compute; reflexivity)).
  assert (Hw : bundleWanted (Client0 := good) sampleServer bundleCluster = true) by (vm_compute; reflexivity).
  rewrite Hw in H. destruct H as (cm & data & Hcm & _ & Hd & Hc). exists cm, data. split; [exact Hcm|]. split; [exact Hd|].
  apply Hc. vm_compute. reflexivity.
Defined.

(** The trusted bundle cannot be read while the server has a bundle. *)
Definition mountedCluster : configMapState :=
  fileAll [trusted twoKeys; configMap "ogx-ca-bundle" ∅ {[ManagedCABundleKey := "cert:1"]} 0].

Definition flakyRun : configMapState * result unit :=
  @reconcileManagedCABundle toyDecode toyEncode toyParse configMapState flaky flakyPatcher map_to_list_range
    appendController sampleServer mountedCluster.

Lemma transient_read_deletes_bundle_witness :
  flakyRun.2 = Ok tt ∧
  ∀ cm, @stored _ _ flaky flakyRun.1 ("default", "ogx-ca-bundle") = Some cm → Obj_Deleting (CM_Meta cm) = true.
Proof.
  apply (transient_read_deletes_bundle (Client0 := flaky) (Patcher0 := flakyPatcher) toyDecode toyEncode toyParse
           appendController toyDecode_consumes toyEncode_nonempty sampleServer mountedCluster flakyRun.1
           (New "timeout") flakyRun.2 (configMap "ogx-ca-bundle" ∅ {[ManagedCABundleKey := "cert:1"]} 0)
           appendController_sets).
  - vm_compute. reflexivity.
  - vm_compute. reflexivity.
  - vm_compute. reflexivity.
  - vm_compute. reflexivity.
  - exact (surjective_pairing flakyRun).
Defined.

Definition blankData : gmap string string := {["ca-bundle.crt" := " "]}.

Definition blankCluster : configMapState := fileAll [trusted blankData].

Lemma blank_bundle_fails_witness : is_ok (bundleRun map_to_list_range blankCluster).2 = false.
Proof.
  apply (blank_bundle_fails (Client0 := good) (Patcher0 := goodPatcher) toyDecode toyEncode toyParse
           appendController toyDecode_consumes toyEncode_nonempty sampleServer blankCluster (trusted blankData)
           appendController_sets).
  - vm_compute. reflexivity.
  - vm_compute. reflexivity.
  - discriminate.
  - intros key data. change (CM_Data (trusted blankData)) with blankData. unfold blankData. intros [_ <-]%lookup_singleton_Some. reflexivity.
Defined.

(** ** Two orders of the keys *)

Definition firstBundle : configMapState := (bundleRun map_to_list_range bundleCluster).1.
Definition secondBundle : configMapState := (bundleRun reverse_range firstBundle).1.

Lemma gather_pair MR w data :
  bundleText MR w = Ok data →
  @gatherCABundleData toyDecode toyEncode toyParse configMapState good MR sampleServer w = (w, Ok data).
Proof.
  unfold bundleText. intros E.
  destruct (gather_run (Client0 := good) (ClientLaws0 := good_laws) (Patcher0 := goodPatcher) (PatcherLaws0 := goodPatcher_laws)
              toyDecode toyEncode toyParse toyDecode_consumes sampleServer w) as (r & Er & _).
  rewrite Er in *. cbn in E. by rewrite E.
Qed.

Lemma run_pair {S} (run : S * result unit) : is_ok run.2 = true → run = (run.1, Ok tt).
Proof. by destruct run as [s [[]|e]]. Qed.

Lemma bundle_follows_order_witness :
  @stored _ _ good secondBundle ("default", "ogx-ca-bundle") ≠ @stored _ _ good firstBundle ("default", "ogx-ca-bundle").
Proof.
  apply (bundle_follows_order (Client0 := good) (Patcher0 := goodPatcher) toyDecode toyEncode toyParse
           map_to_list_range reverse_range appendController sampleServer bundleCluster firstBundle secondBundle
           (default "" (match bundleText map_to_list_range bundleCluster with Ok d => Some d | Err _ => None end))
           (default "" (match bundleText reverse_range firstBundle with Ok d => Some d | Err _ => None end))).
  - exact toyDecode_consumes.
  - exact toyEncode_nonempty.
  - exact appendController_sets.
  - vm_compute. reflexivity.
  - vm_compute. reflexivity.
  - apply (run_pair (bundleRun map_to_list_range bundleCluster)). vm_compute. reflexivity.
  - apply (run_pair (bundleRun reverse_range firstBundle)). vm_compute. reflexivity.
  - apply gather_pair. vm_compute. reflexivity.
  - apply gather_pair. vm_compute. reflexivity.
  - vm_compute. discriminate.
Defined.

(** ** Four generations of the configuration *)

Definition generatedLabels : gmap string string := <[generatedConfigLabel := "true"]> {[instanceLabelKey := "ogx"]}.

Definition generation (name : string) (created : Z) : ConfigMapObject :=
  configMap name generatedLabels {[generatedConfigKeyName := name]} created.

Definition generationsCluster : configMapState :=
  fileAll [generation "g1" 1; generation "g2" 2; generation "g3" 3; generation "g4" 4].

(** A ReplicaSet that still mounts the oldest. *)
Definition oldReplicaSet : Workload :=
  {| WK_Meta := {| Obj_Namespace := "default"; Obj_Name := "ogx-1"; Obj_Labels := {[instanceLabelKey := "ogx"]};
                   Obj_Annotations := ∅; Obj_OwnerReferences := []; Obj_Deleting := false |};
     WK_Volumes := [{| TV_Name := "user-config"; TV_ConfigMap := Some "g1" |}] |}.

Definition rolloutEnv : environment :=
  {| GetDeployment := λ _, inl (NotFound (New "not found"));
     ListReplicaSets := λ _ p, inr (List.filter p [oldReplicaSet]);
     DistributionImages := {["starter" := "registry/ogx@sha256:1"]}; ImageMappingOverrides := ∅;
     OCILabelFetcher := Some sampleFetch; now := 5 |}.

#[local] Instance createdBefore_dec : RelDecision createdBefore.
Proof. intros a b. unfold createdBefore. apply _. Defined.

#[local] Instance createdBefore_trans : Transitive createdBefore.
Proof. intros a b c. unfold createdBefore. lia. Qed.

#[local] Instance createdBefore_total : Total createdBefore.
Proof. intros a b. unfold createdBefore. lia. Qed.

Lemma sort_created : sortsByCreation (merge_sort createdBefore).
Proof.
  intros l. split; [apply merge_sort_Permutation|]. apply (StronglySorted_merge_sort createdBefore).
Qed.

Definition cleanupRun : configMapState * result unit :=
  @cleanupOldGeneratedConfigMaps (merge_sort createdBefore) rolloutEnv configMapState good goodLister sampleServer
    (phaseStatus None) "g4" generationsCluster.

Lemma cleanup_protects_witness :
  ∃ cm, @stored _ _ good generationsCluster ("default", "g2") = Some cm ∧
    isGenerated sampleServer cm = true ∧ ¬ inUse rolloutEnv sampleServer (phaseStatus None) "g4" "g2".
Proof.
  destruct (cleanup_protects (Client0 := good) (Lister0 := goodLister) (merge_sort createdBefore) rolloutEnv sampleServer (phaseStatus None) "g4"
              generationsCluster cleanupRun.1 cleanupRun.2 ("default", "g2") sort_created) as (cm & H1 & _ & H2 & H3).
  - exact (surjective_pairing cleanupRun).
  - vm_compute. discriminate.
  - exists cm. auto.
Defined.

#[local] Instance good_deletes : @Deletes configMapState ConfigMapObject _ good.
Proof.
  split.
  - intros w k. cbn. unfold mapDelete, failing. cbn. destruct (_ !! k) eqn:E.
    + by rewrite lift_filed_2 by apply filed_delete, (bool_decide_unpack _ (proj2_sig w)).
    + by rewrite lift_filed_2 by apply (bool_decide_unpack _ (proj2_sig w)).
  - intros w k. change (Delete w k) with (lift w (mapDelete noFault (`w) k)). destruct (lift_filed w (mapDelete noFault (`w) k)) as (w' & -> & Hw').
    { unfold mapDelete, failing. cbn. pose proof (bool_decide_unpack _ (proj2_sig w)).
      destruct (_ !! k); [by apply filed_delete|done]. }
    cbn. rewrite Hw'. unfold mapDelete, failing. cbn. destruct (`w !! k) eqn:E; cbn; [apply lookup_delete_eq|done].
Qed.

Definition listed : list ConfigMapObject :=
  match @List _ _ goodLister generationsCluster "default" (isGenerated sampleServer) with inr l => l | inl _ => [] end.

Definition protectedNames : gset string :=
  match referencedRuntimeConfigMapNames rolloutEnv sampleServer (phaseStatus None) "g4" with Ok p => p | Err _ => ∅ end.

Lemma cleanup_retention_witness :
  ∃ kept deleted : list ConfigMapObject, listed ≡ₚ kept ++ deleted ∧ Z.of_nat (length kept) = 2.
Proof.
  destruct (cleanup_retention (Client0 := good) (Lister0 := goodLister) (merge_sort createdBefore) rolloutEnv sampleServer
              (phaseStatus None) "g4" generationsCluster listed protectedNames sort_created)
    as (kept & deleted & w' & _ & Hperm & _ & _ & Hlen & _).
  - vm_compute. reflexivity.
  - vm_compute. reflexivity.
  - exists kept, deleted. split; [exact Hperm|]. rewrite Hlen. vm_compute. reflexivity.
Defined.

(** ** Generating *)

Definition emptyConfigMaps : world configMapState := {| configMaps := fileAll []; resolver := None |}.

Definition generateRun : world configMapState * result (option GeneratedConfig) :=
  @reconcileGeneratedConfig map_to_list_range sampleYamlBase sampleYamlMap sampleMarshal sampleJSON appendController rolloutEnv
    configMapState good (λ _, "error") sampleServer emptyConfigMaps.


(** A ConfigMap of the generated name that the manager's cache does not hold,
    since it has lost the label of [newCacheOptions], with another text: the
    reconciliation succeeds and leaves it in place. *)
#[local] Instance watched : ReadCache configMapState ConfigMapObject :=
  λ o, bool_decide (Obj_Labels (CM_Meta o) !! WatchLabelKey = Some WatchLabelValue).

Definition generatedName : string :=
  match generateRun.2 with Ok (Some g) => generatedConfigMapName "ogx" (Gen_ContentHash g) | _ => "" end.

Definition hiddenConfigMaps : world configMapState :=
  {| configMaps := fileAll [configMap generatedName ∅ {[generatedConfigKeyName := "stale"]} 0]; resolver := None |}.

Definition hiddenRun : world configMapState * result (option GeneratedConfig) :=
  @reconcileGeneratedConfig map_to_list_range sampleYamlBase sampleYamlMap sampleMarshal sampleJSON appendController rolloutEnv
    configMapState (cached_client good) (λ _, "error") sampleServer hiddenConfigMaps.

Example hidden_configmap_accepted :
  (match hiddenRun.2 with Ok (Some _) => true | _ => false end) = true ∧
  CM_Data <$> @stored _ _ good (configMaps hiddenRun.1) ("default", generatedName) =
    Some {[generatedConfigKeyName := "stale"]}.
Proof. split; vm_compute; reflexivity. Qed.
