(* ===== verification/WorkloadWitnesses.v ===== *)
(** * The pod theorems at concrete inputs *)

From Stdlib Require Import ZArith.
From stdpp Require Import pretty.
From S2P Require Import Prelude Value ApiProviders ApiServer Common Workload WorkloadFacts Samples.

#[local] Open Scope Z_scope.

(** A server with a workload section. *)
Definition workloadServer (w : WorkloadSpec) : OGXServer :=
  {| Server_Meta := sampleMeta;
     Server_Spec :=
       {| Spec_Distribution := {| Dist_Name := "starter"; Dist_Image := "" |};
          Spec_Providers := None; Spec_Resources := None; Spec_Storage := None;
          Spec_DisabledAPIs := []; Spec_RegistryRefreshIntervalSeconds := None;
          Spec_Network := None; Spec_TLS := None; Spec_Workload := Some w; Spec_Monitoring := None;
          Spec_BaseConfig := None; Spec_OverrideConfig := None; Spec_PraxisMode := None |} |}.

Definition sampleAutoscaling : AutoscalingSpec :=
  {| AS_MinReplicas := Some 2; AS_MaxReplicas := 3; AS_TargetCPUUtilizationPercentage := None;
     AS_TargetMemoryUtilizationPercentage := None |}.

(** Five replicas with an autoscaler of at most three, and a CPU limit. *)
Definition sampleWorkload : WorkloadSpec :=
  {| WL_Replicas := Some 5; WL_Workers := Some 4;
     WL_Resources := Some {| RR_Limits := {["cpu" := "500m"]}; RR_Requests := ∅; RR_Claims := [] |};
     WL_ResourceClaims := []; WL_Autoscaling := Some sampleAutoscaling; WL_Storage := None;
     WL_PodDisruptionBudget := None; WL_TopologySpreadConstraints := []; WL_Overrides := None |}.

Definition zeroQuantity (q : string) : bool := bool_decide (q = "0").

Lemma pretty_positive (n : Z) : 0 < n → zeroQuantity (pretty n) = false.
Proof. intros Hn. unfold zeroQuantity. apply bool_decide_eq_false_2. intros E.
  assert (H0 : pretty 0 = "0") by (vm_compute; reflexivity). rewrite <- H0 in E. apply (inj pretty) in E. lia. Qed.

Lemma zeroQuantity_quantities : quantities zeroQuantity.
Proof. split; [exact pretty_positive|reflexivity]. Qed.

Lemma resources_spec_witness :
  ∃ q, RR_Requests (resolvedResources zeroQuantity (workloadServer sampleWorkload)) !! "cpu" = Some q ∧ zeroQuantity q = false.
Proof.
  destruct (resources_spec zeroQuantity (workloadServer sampleWorkload) "cpu" zeroQuantity_quantities (or_introl eq_refl))
    as [(q & Hq & Hz & _) _].
  exists q. auto.
Defined.

Lemma hpa_bounds_witness :
  ∃ h, Workload.buildHPASpec (workloadServer sampleWorkload) = Some h ∧ HPA_MaxReplicas h < HPA_MinReplicas h.
Proof.
  destruct (hpa_bounds (workloadServer sampleWorkload) sampleAutoscaling) as (h & Hh & _ & _ & _ & _ & _ & Hlt).
  - reflexivity.
  - split; [vm_compute; discriminate|]. intros n [= <-]. split; vm_compute; discriminate.
  - exists h. split; [exact Hh|]. apply Hlt. vm_compute. reflexivity.
Defined.
