(* ===== verification/ManifestWitnesses.v ===== *)
(** * The rendering theorems at concrete inputs

    A kustomize whose resources are their trees, and the manifests of the
    repository rendered for the sample servers. *)

From Stdlib Require Import ZArith.
From S2P Require Import Prelude Value ApiProviders ApiServer Common Fmt Workload Pointer NetworkPolicy Kustomize KustomizeFacts Manifests Samples WorkloadWitnesses.

#[local] Open Scope Z_scope.

(** ** Resources that are their trees *)

Definition sameIDb (d d' : object) : bool :=
  bool_decide (textAt ["apiVersion"] d = textAt ["apiVersion"] d') && bool_decide (kindOf d = kindOf d') &&
  bool_decide (nameOf d = nameOf d') && bool_decide (namespaceOf d = namespaceOf d').

Lemma sameIDb_spec d d' : sameIDb d d' = true → sameID d d'.
Proof. unfold sameIDb, sameID. rewrite !andb_true_iff, !bool_decide_eq_true. tauto. Qed.

Definition orFail {A} (o : option A) : result A := match o with Some a => Ok a | None => Err (New "invalid resource") end.

Lemma orFail_Ok {A} (o : option A) a : orFail o = Ok a → o = Some a.
Proof. by destruct o; intros [= ->]. Qed.

#[export] Instance tree_kustomize : Kustomize := {|
  Resource := object;
  view d := d;
  GetKind := kindOf;
  GetName := nameOf;
  GetNamespace := namespaceOf;
  IsClusterScoped d := contains ["Namespace"; "ClusterRole"; "ClusterRoleBinding"] (kindOf d);
  clusterScopedKind _ kind := contains ["Namespace"; "ClusterRole"; "ClusterRoleBinding"] kind;
  SetName n d := orFail (putIn ["metadata"; "name"] (AString n) d);
  SetNamespace n d := orFail (putIn ["metadata"; "namespace"] (AString n) d);
  AsYAML := Ok;
  FromBytes v :=
    d ← orFail (as_object v);
    if bool_decide (kindOf d = "") || bool_decide (nameOf d = "") then Err (New "missing kind or name") else Ok d;
  Append l d := if existsb (λ d', sameIDb d' d) l then Err (New "may not add resource with an already registered id") else Ok (l ++ [d]);
|}.

#[export] Instance tree_kustomize_laws : KustomizeLaws.
Proof.
  split; try done.
  - intros n r r' Hr. apply orFail_Ok in Hr. by apply putIn_Some.
  - intros n r r' Hr. apply orFail_Ok in Hr. by apply putIn_Some.
  - intros r d [= ->]. done.
  - intros v r Hr. apply bind_Ok in Hr as (d & Hd & Hr). apply orFail_Ok in Hd. destruct (_ || _); [done|]. injection Hr as <-.
    destruct v; try done. by injection Hd as ->.
  - intros l r l'. cbn [Append tree_kustomize]. case_match; [done|]. by intros [= <-].
  - intros l r Hl. cbn [Append tree_kustomize]. case_match eqn:He; [|done].
    apply existsb_exists in He as (d & Hd & Hid%sameIDb_spec). apply list_elem_of_In in Hd. by destruct (Hl d).
Qed.

(** ** The sample *)

Definition anyLabel (_ : string) : list string := [].
Definition sampleRun (_ : string) : result (list object) := Ok baseManifests.
Definition samplePodSpec : object := <["serviceAccountName" := AString "custom"]> {["volumes" := AList [AString "ogx-storage"]]}.

Definition sampleHPA (spec : HPASpec) : result object :=
  Ok (<["minReplicas" := AInt32 (HPA_MinReplicas spec)]> {["maxReplicas" := AInt32 (HPA_MaxReplicas spec)]}).

Definition sampleContext (instance : OGXServer) : ManifestContext :=
  {| MC_ResolvedImage := "quay.io/ogx:1"; MC_ConfigMapHash := "1-config"; MC_CABundleHash := ""; MC_SecretHash := "s1";
     MC_ContainerSpec := None; MC_PodSpec := Some samplePodSpec;
     MC_PodDisruptionBudgetSpec := buildPodDisruptionBudgetSpec instance; MC_HPASpec := buildHPASpec instance;
     MC_PraxisPeer := None; MC_PraxisMode := true |}.

Definition renderSample (instance : OGXServer) : result (list object) :=
  RenderManifestWithContext anyLabel (λ q, q) (λ _, true) sampleRun sampleHPA "manifests/base" instance
    (Some (sampleContext instance)) operatorNamespace.

Lemma sample_namespaced : namespacedKinds.
Proof. apply (bool_decide_unpack _). vm_compute. exact I. Qed.

Lemma sample_loads : loadsBase sampleRun.
Proof. intros path base [= <-]. apply list_fmap_id. Qed.

Lemma sample_renders :
  is_ok (renderSample sampleServer) = true ∧ is_ok (renderSample (workloadServer sampleWorkload)) = true.
Proof. split; vm_compute; reflexivity. Qed.

(** ** The theorems applied *)

Lemma setWithPathCreation_putPath_witness :
  ∃ ptr data', newPointer "/spec/strategy/type" = Ok ptr ∧
    setWithPathCreation (AMap deploymentManifest) ptr (AString "Recreate") = Ok data' ∧
    lookupAt ["spec"; "strategy"; "type"] data' = Some (AString "Recreate").
Proof.
  exists ["spec"; "strategy"; "type"].
  exists (default ANil (putPath ["spec"; "strategy"; "type"] (AString "Recreate") (AMap deploymentManifest))).
  split; [vm_compute; reflexivity|]. split; [|vm_compute; reflexivity].
  apply setWithPathCreation_putPath; [discriminate|repeat constructor|vm_compute; reflexivity].
Defined.

Definition serviceManifest_view : option object :=
  renderView (λ q, q) sampleHPA sampleServer (Some (sampleContext sampleServer)) operatorNamespace serviceManifest.

Lemma render_refines_witness :
  match renderSample sampleServer with
  | Ok out => is_Some serviceManifest_view ∧ out !! 2%nat = serviceManifest_view
  | Err _ => False
  end.
Proof.
  pose proof sample_renders as [Hok _].
  destruct (renderSample sampleServer) as [out|e] eqn:E; [clear Hok|discriminate Hok].
  assert (is_Some serviceManifest_view) as Hs by (apply (bool_decide_unpack _); vm_compute; exact I). split; [exact Hs|].
  destruct (render_refines (H := tree_kustomize) (H0 := token_pointer) anyLabel (λ q, q) (λ _, true) sampleRun sampleHPA "manifests/base" sampleServer
              (Some (sampleContext sampleServer)) operatorNamespace out E) as (base & Hbase & Hall).
  assert (base = baseManifests) as -> by (destruct Hbase as [[= <-]|[= <-]]; reflexivity).
  destruct (Forall2_lookup_l _ _ _ 2%nat serviceManifest Hall eq_refl) as (r & Hr & Hview).
  destruct Hs as [d Hd]. transitivity (Some d); [|done]. etransitivity; [exact Hr|]. f_equal. exact (Hview d Hd).
Defined.

Lemma manifests_agree_witness :
  match renderSample sampleServer with
  | Ok out => length out = 10%nat ∧
      ∃ service deployment, out !! 2%nat = Some service ∧ out !! 4%nat = Some deployment ∧
        at_ service ["spec"; "selector"] = at_ deployment ["spec"; "template"; "metadata"; "labels"]
  | Err _ => False
  end.
Proof.
  pose proof sample_renders as [Hok _].
  destruct (renderSample sampleServer) as [out|e] eqn:E; [clear Hok|discriminate Hok].
  destruct (manifests_agree (KU := tree_kustomize) (H := token_pointer) (λ q, q) anyLabel (λ _, true) sampleRun sampleHPA "manifests/base" sampleServer
              (sampleContext sampleServer) operatorNamespace out ltac:(discriminate) ltac:(discriminate)
              sample_namespaced sample_loads E)
    as (pvc & account & service & policy & deployment & hpa & pdb & binding & rule & monitor & -> & D & L & M & S & _).
  split; [reflexivity|]. exists service, deployment. split; [reflexivity|]. split; [reflexivity|]. by rewrite S, L.
Defined.

Lemma deployment_follows_spec_witness :
  match renderSample (workloadServer sampleWorkload) with
  | Ok out => ∃ deployment, out !! 4%nat = Some deployment ∧ at_ deployment ["spec"; "replicas"] = None ∧
                at_ deployment ["spec"; "template"; "spec"; "serviceAccountName"] = Some (AString "custom")
  | Err _ => False
  end.
Proof.
  pose proof sample_renders as [_ Hok].
  destruct (renderSample _) as [out|e] eqn:E; [clear Hok|discriminate Hok].
  destruct (deployment_follows_spec (KU := tree_kustomize) (H := token_pointer) (λ q, q) anyLabel (λ _, true) sampleRun sampleHPA "manifests/base" (workloadServer sampleWorkload)
              (sampleContext (workloadServer sampleWorkload)) operatorNamespace out ltac:(discriminate) ltac:(discriminate)
              sample_namespaced sample_loads E)
    as (deployment & Hd & _ & Hrep & _ & Hspec & _).
  exists deployment. split; [exact Hd|]. split; [exact Hrep|]. by apply Hspec.
Defined.
