(* ===== verification/ApplyWitnesses.v ===== *)
(** * The apply theorems at concrete inputs

    A cluster that is a map of objects, in which the Deployment of the sample
    server still has the rolling update of the time before it had storage. *)

From S2P Require Import Prelude Value ApiProviders ApiServer Common Fmt Client Action Objects Pointer Kustomize KustomizeFacts Samples Manifests ManifestWitnesses Apply ApplyFacts.

(** ** A cluster *)

Lemma includes_refl d : includes d d.
Proof. intros path v H. exact H. Qed.

Lemma unstructured_persists (u : Unstructured) : persists u u.
Proof. cbn. split_and!; try done; apply includes_refl. Qed.

Section map_applier.
Context (fault : verb → NamespacedName → option error).

#[local] Abbreviation clusterMap := (mapState (O := Unstructured)).

(** The fields of the manifest, the identity and the owners of the object. *)
Definition applied (o desired : Unstructured) : Unstructured :=
  {| U_Group := U_Group o; U_Version := U_Version desired; U_Kind := U_Kind o; U_Meta := U_Meta o; U_UID := U_UID o;
     U_ResourceVersion := U_ResourceVersion o; U_Object := U_Object desired |}.

Definition mapApply (s : clusterMap) (existing desired : Unstructured) : clusterMap * option apiError :=
  lift s (failing fault VPatch (objectKey desired) (`s)
    match `s !! objectKey desired with
    | Some o => (<[objectKey (applied o desired) := applied o desired]> (`s), None)
    | None => (<[objectKey desired := desired]> (`s), None)
    end).

Definition mapDeleteExact (s : clusterMap) (existing : Unstructured) : clusterMap * option apiError :=
  lift s (failing fault VDelete (objectKey existing) (`s)
    match `s !! objectKey existing with
    | Some o =>
        if bool_decide (U_UID o = U_UID existing) && bool_decide (U_ResourceVersion o = U_ResourceVersion existing)
        then (delete (objectKey existing) (`s), None) else (`s, Some (Conflict (New "the object has been modified")))
    | None => (`s, Some (NotFound (New "not found")))
    end).

#[export] Instance map_applier : Applier clusterMap := {| ApplyPatch := mapApply; DeleteExact := mapDeleteExact |}.

#[export] Instance map_applier_laws : @ApplierLaws clusterMap (map_client fault) map_applier.
Proof.
  split.
  - intros s existing desired Hk. unfold ApplyPatch, map_applier, mapApply.
    pose proof (bool_decide_unpack _ (proj2_sig s)) as Hw.
    set (run := failing fault VPatch _ _ _).
    destruct (lift_filed s run) as (w' & -> & Hw').
    { subst run. unfold failing. repeat case_match; cbn [fst]; auto using filed_insert. }
    unfold stored, map_client. rewrite Hw'. subst run. unfold failing.
    destruct (fault VPatch _); cbn [fst snd]; [done|].
    destruct (`s !! objectKey desired) as [o|] eqn:E; cbn [fst snd].
    * assert (objectKey (applied o desired) = objectKey desired) as Hko by exact (Hw _ _ E).
      rewrite Hko. split; [intros k [?|?]; [by rewrite lookup_insert_ne|done]|].
      intros _ o0 [= <-]. exists (applied o desired). rewrite lookup_insert_eq. cbn. split_and!; try done; apply includes_refl.
    * split; [intros k [?|?]; [by rewrite lookup_insert_ne|done]|]. by intros _ o0.
  - intros s existing. unfold DeleteExact, map_applier, mapDeleteExact.
    pose proof (bool_decide_unpack _ (proj2_sig s)) as Hw.
    set (run := failing fault VDelete _ _ _).
    destruct (lift_filed s run) as (w' & -> & Hw').
    { subst run. unfold failing. repeat case_match; cbn [fst]; auto using filed_delete. }
    unfold stored, map_client. rewrite Hw'. subst run. unfold failing.
    destruct (fault VDelete _); cbn [fst snd]; [by split_and!|].
    destruct (`s !! objectKey existing) as [o|] eqn:E; cbn [fst snd]; [|by split_and!].
    case_bool_decide as Hu; cbn [andb fst snd]; [|by split_and!]. case_bool_decide as Hr; cbn [fst snd]; [|by split_and!].
    split; [intros k [?|?]; [by rewrite lookup_delete_ne|done]|]. split; [|done].
    intros _. exists o. split_and!; try done. intros o'. by rewrite lookup_delete_eq.
Qed.
End map_applier.

(** ** The sample *)

Definition splitVersion (apiVersion : string) : string * string :=
  if bool_decide (apiVersion = "v1") then ("", "v1") else (apiVersion, "").

(** A rendered tree as an object: it has no identity and no owners yet. *)
Definition treeUnstructured (d : object) : result Unstructured :=
  let '(group, version) := splitVersion (textAt ["apiVersion"] d) in
  Ok {| U_Group := group; U_Version := version; U_Kind := kindOf d;
        U_Meta := {| Obj_Namespace := namespaceOf d; Obj_Name := nameOf d; Obj_Labels := ∅; Obj_Annotations := ∅;
                     Obj_OwnerReferences := []; Obj_Deleting := false |};
        U_UID := ""; U_ResourceVersion := ""; U_Object := delete "metadata" d |}.

Definition treeDeployment (d : object) : result DeploymentObject :=
  Ok {| Dep_Volumes := []; Dep_StrategyType := textAt ["spec"; "strategy"; "type"] d;
        Dep_RollingUpdate := lookupAt ["spec"; "strategy"; "rollingUpdate"] (AMap d) |}.

Definition namespacedMapper (_ _ _ : string) : result bool := Ok false.
Definition anyService (_ : object) : result unit := Ok tt.

Definition strategyTree (strategy : object) : object :=
  <["apiVersion" := AString "apps/v1"]> (<["kind" := AString "Deployment"]>
    (<["metadata" := AMap (<["name" := AString (Server_Name sampleServer)]>
                             {["namespace" := AString (Meta_Namespace (Server_Meta sampleServer))]})]>
      {["spec" := AMap {["strategy" := AMap strategy]}]})).

(** What is rendered once there is storage, and what is running. *)
Definition recreateTree : object := strategyTree {["type" := AString "Recreate"]}.
Definition rollingTree : object :=
  strategyTree (<["type" := AString "RollingUpdate"]> {["rollingUpdate" := AMap {["maxSurge" := AInt 1]}]}).

Definition unstructuredOf (d : object) : Unstructured :=
  match treeUnstructured d with
  | Ok u => u
  | Err _ => {| U_Group := ""; U_Version := ""; U_Kind := "";
                U_Meta := {| Obj_Namespace := ""; Obj_Name := ""; Obj_Labels := ∅; Obj_Annotations := ∅;
                             Obj_OwnerReferences := []; Obj_Deleting := false |};
                U_UID := ""; U_ResourceVersion := ""; U_Object := ∅ |}
  end.

Definition ownedMeta (m : Metadata) : Metadata :=
  match appendController sampleServer m with Ok m => m | Err _ => m end.

Definition runningDeployment : Unstructured := withUMeta ownedMeta (unstructuredOf rollingTree).

Definition runningState : mapState := fileAll [runningDeployment].

Definition manageSample : mapState * result unit :=
  manageResource (W := mapState) (Client0 := map_client noFault) (Applier0 := map_applier noFault) (KU := tree_kustomize)
    namespacedMapper treeDeployment anyService appendController treeUnstructured recreateTree sampleServer runningState.

Definition applySample : mapState * result unit :=
  ApplyResources (W := mapState) (Client0 := map_client noFault) (Applier0 := map_applier noFault) (KU := tree_kustomize)
    namespacedMapper treeDeployment anyService appendController treeUnstructured sampleServer [Manifests.serviceAccountManifest; recreateTree] runningState.

#[local] Existing Instance tree_kustomize.

Lemma sample_laws : @ClientLaws (mapState (O := Unstructured)) Unstructured Unstructured_object (map_client noFault).
Proof. apply map_client_laws, unstructured_persists. Qed.

Lemma sample_results : is_ok manageSample.2 = true ∧ is_ok applySample.2 = true.
Proof. split; vm_compute; reflexivity. Qed.

Lemma run_ok {S} (p : S * result unit) : is_ok p.2 = true → p = (p.1, Ok tt).
Proof. by destruct p as [s [[]|e]]. Qed.

(** ** The theorems applied *)

Definition foreignDeployment : Unstructured := unstructuredOf rollingTree.

Lemma apply_ownership_witness :
  ownedByInstance foreignDeployment sampleServer = false ∧
  stored (Client := map_client noFault)
    (ApplyResources (W := mapState) (Client0 := map_client noFault) (Applier0 := map_applier noFault) (KU := tree_kustomize)
       namespacedMapper treeDeployment anyService appendController treeUnstructured sampleServer [recreateTree]
       (fileAll [foreignDeployment])).1 (objectKey foreignDeployment) = Some foreignDeployment.
Proof.
  assert (ownedByInstance foreignDeployment sampleServer = false) as Ho by (vm_compute; reflexivity).
  split; [exact Ho|].
  apply (apply_ownership (CL := sample_laws) (AL := map_applier_laws noFault) (KU := tree_kustomize)
    namespacedMapper treeDeployment anyService appendController treeUnstructured sampleServer appendController_sets
    [recreateTree] (fileAll [foreignDeployment])).
  - vm_compute. reflexivity.
  - left. exact Ho.
Defined.

Lemma apply_establishes_witness :
  established (Client0 := map_client noFault) namespacedMapper sampleServer (unstructuredOf Manifests.serviceAccountManifest)
    runningState applySample.1.
Proof.
  apply (apply_establishes (CL := sample_laws) (AL := map_applier_laws noFault) (KU := tree_kustomize)
    namespacedMapper treeDeployment anyService appendController treeUnstructured sampleServer appendController_sets
    [Manifests.serviceAccountManifest; recreateTree] runningState applySample.1 Manifests.serviceAccountManifest).
  - exact (run_ok applySample (proj2 sample_results)).
  - apply (bool_decide_unpack _). vm_compute. exact I.
  - left.
  - vm_compute. reflexivity.
  - vm_compute. reflexivity.
  - vm_compute. discriminate.
Defined.

Lemma full_replacement_orphans_witness :
  ownedByInstance runningDeployment sampleServer = true ∧
  ∃ o', stored (Client := map_client noFault) manageSample.1 (objectKey runningDeployment) = Some o' ∧
    ownedByInstance o' sampleServer = false.
Proof.
  assert (ownedByInstance runningDeployment sampleServer = true) as Ho by (vm_compute; reflexivity).
  split; [exact Ho|].
  destruct (full_replacement_orphans (CL := sample_laws) (AL := map_applier_laws noFault) (KU := tree_kustomize)
    namespacedMapper treeDeployment anyService appendController treeUnstructured sampleServer appendController_sets
    recreateTree (unstructuredOf recreateTree) runningDeployment runningState manageSample.1) as (o' & Hs & _ & Hn & _).
  - vm_compute. reflexivity.
  - vm_compute. reflexivity.
  - vm_compute. reflexivity.
  - vm_compute. reflexivity.
  - vm_compute. reflexivity.
  - exact Ho.
  - vm_compute. discriminate.
  - exact (run_ok manageSample (proj1 sample_results)).
  - exists o'. split; [exact Hs|]. unfold ownedByInstance. by rewrite Hn.
Defined.
