(* ===== verification/ControllerWitnesses.v ===== *)
(** * The controller's theorems at concrete inputs

    A cluster of maps, in which a server with providers is reconciled from
    nothing, and one that asks for unsafe external access loses its Ingress. *)

From Stdlib Require Import ZArith.
From S2P Require Import Prelude Value ApiProviders ApiServer Secret Merge Generator Resolver Common Fmt Client Action Objects Status NetworkPolicy Preflight ConfigMaps CABundle CABundleFacts Workload GeneratedConfig GeneratedConfigFacts Pointer Kustomize KustomizeFacts Manifests Apply ApplyFacts Migration Adoption NetworkResources Watches OperatorConfig StatusUpdate Exclusion ManifestStep AdoptionFacts Reconcile Samples AdoptionWitnesses WorkloadWitnesses ConfigMapWitnesses ManifestWitnesses ApplyWitnesses.

#[local] Open Scope Z_scope.

(** ** The stores *)

#[local] Existing Instance managedCache.
#[local] Existing Instance managedClient.
#[local] Existing Instance managedLister.
#[local] Existing Instance managedPatcher.
#[local] Existing Instance managedCache_managed.
#[local] Existing Instance managedClient_laws.
#[local] Existing Instance managedLister_laws.
#[local] Existing Instance managedPatcher_laws.
#[local] Existing Instance podClient.
#[local] Existing Instance podLister.
#[local] Existing Instance podClient_laws.
#[local] Existing Instance podLister_laws.
#[local] Typeclasses Opaque podState.
#[local] Existing Instance everything.
#[local] Existing Instance good_cached.
#[local] Existing Instance goodLister_cached.
#[local] Existing Instance good.
#[local] Existing Instance goodPatcher.
#[local] Existing Instance goodLister.
#[local] Existing Instance good_laws.
#[local] Existing Instance goodPatcher_laws.
#[local] Existing Instance goodLister_laws.
#[local] Existing Instance createdBefore_dec.
#[local] Instance objectClient : Client (mapState (O := Unstructured)) Unstructured := map_client noFault.
#[local] Instance objectApplier : Applier (mapState (O := Unstructured)) := map_applier noFault.
#[local] Instance objectLaws : ClientLaws (mapState (O := Unstructured)) Unstructured.
Proof. apply sample_laws. Qed.
#[local] Instance objectApplierLaws : ApplierLaws (mapState (O := Unstructured)) := map_applier_laws noFault.
#[local] Existing Instance tree_kustomize.
#[local] Existing Instance tree_kustomize_laws.
#[local] Existing Instance token_pointer.

(** An Ingress as an object: what is not metadata is kept in one number. *)
#[local] Instance IngressTLS_eq_dec : EqDecision IngressTLS.
Proof. solve_decision. Defined.
#[local] Instance IngressRule_eq_dec : EqDecision IngressRule.
Proof. solve_decision. Defined.

#[local] Instance IngressTLS_countable : Countable IngressTLS.
Proof.
  refine (inj_countable' (λ t, (TLS_Hosts t, TLS_Secret t)) (λ p, {| TLS_Hosts := p.1; TLS_Secret := p.2 |}) _). by intros [].
Defined.

#[local] Instance IngressRule_countable : Countable IngressRule.
Proof.
  refine (inj_countable' (λ r, (Rule_Host r, Rule_Path r, Rule_ServiceName r, Rule_ServicePort r))
    (λ p, {| Rule_Host := p.1.1.1; Rule_Path := p.1.1.2; Rule_ServiceName := p.1.2; Rule_ServicePort := p.2 |}) _).
  by intros [].
Defined.

Abbreviation ingressRest := (list IngressTLS * list IngressRule * string * list (string * string))%type.

Definition restOf (a : any) : ingressRest :=
  match a with
  | AInt (Zpos p) => default ([], [], "", []) (countable.decode p)
  | _ => ([], [], "", [])
  end.

Definition encodeIngress (i : Ingress) : Object any :=
  {| Obj_Meta :=
       {| Obj_Namespace := Ing_Namespace i; Obj_Name := Ing_Name i; Obj_Labels := Ing_Labels i; Obj_Annotations := ∅;
          Obj_OwnerReferences :=
            match Ing_Controller i with
            | Some uid => [{| Owner_APIVersion := ""; Owner_Kind := ""; Owner_Name := ""; Owner_UID := uid;
                              Owner_Controller := Some true |}]
            | None => []
            end;
          Obj_Deleting := Ing_Deleting i |};
     Obj_Spec := AInt (Zpos (countable.encode (Ing_TLS i, Ing_Rules i, Ing_ResourceVersion i, Ing_LoadBalancer i))) |}.

Definition decodeIngress (o : Object any) : Ingress :=
  let rest := restOf (Obj_Spec o) in
  {| Ing_Namespace := Obj_Namespace (Obj_Meta o); Ing_Name := Obj_Name (Obj_Meta o); Ing_Labels := Obj_Labels (Obj_Meta o);
     Ing_TLS := rest.1.1.1; Ing_Rules := rest.1.1.2; Ing_Controller := Owner_UID <$> GetControllerOf (Obj_Meta o);
     Ing_Deleting := Obj_Deleting (Obj_Meta o); Ing_ResourceVersion := rest.1.2; Ing_LoadBalancer := rest.2 |}.

#[local] Instance ingressConversion : Conversion (Object any) Ingress.
Proof.
  refine {| encode := encodeIngress; decode := decodeIngress |}; try done.
  - intros t o (Hl & _ & Ho & Hs). cbn. unfold GetControllerOf. rewrite Hl, Hs, Ho. cbn. rewrite decode_encode.
    split_and!; try done. by destruct (Ing_Controller t).
  - intros o o' (Hl & _ & Ho & Hs). cbn. unfold GetControllerOf. by rewrite Hl, Hs, Ho.
Defined.

#[local] Instance ingressView : IngressView.
Proof. by split. Qed.

(** At most one server, and writes of its status that check its version. *)
#[local] Instance oneServer : StatusWriter (option ServerObject) := {|
  storedServer w k := match w with Some o => if decide (StatusUpdate.serverKey (SO_Server o) = k) then Some o else None | None => None end;
  GetServer w k :=
    match w with
    | Some o => if decide (StatusUpdate.serverKey (SO_Server o) = k) then inr o else inl (NotFound (New "not found"))
    | None => inl (NotFound (New "not found"))
    end;
  UpdateStatus w o :=
    match w with
    | Some cur =>
        if decide (StatusUpdate.serverKey (SO_Server cur) = StatusUpdate.serverKey (SO_Server o)) then
          if decide (SO_ResourceVersion cur = SO_ResourceVersion o) then
            (Some {| SO_Server := SO_Server cur; SO_Status := SO_Status o; SO_ResourceVersion := "next" |}, None)
          else (w, Some (Conflict (New "the object has been modified")))
        else (w, Some (NotFound (New "not found")))
    | None => (w, Some (NotFound (New "not found")))
    end;
|}.

#[local] Arguments StatusUpdate.serverKey : simpl never.

#[local] Instance oneServer_laws : StatusWriterLaws (option ServerObject).
Proof.
  split; cbn.
  - intros [o|] k o'; [case_decide|]; by intros [= <-].
  - intros [o|] k; [case_decide|]; done.
  - intros [cur|] o; [|by split]. case_decide as Hk; [|by split]. case_decide; [|by split]. split.
    + intros k [Hne|?]; [|done]. cbn. rewrite !decide_False; [done|intros E; apply Hne; congruence..].
    + intros _. exists cur. eexists. rewrite !decide_True by done. done.
Qed.

(** One more attempt after a conflict. *)
Definition twice (attempt : option ServerObject → option ServerObject * option apiError) (w : option ServerObject)
    : option ServerObject * option apiError :=
  match attempt w with
  | (w', Some e) => if IsConflict e then attempt w' else (w', Some e)
  | out => out
  end.

Lemma twice_retried attempt w : retried attempt w (twice attempt w).
Proof.
  unfold twice. destruct (attempt w) as [w' [e|]] eqn:E; [destruct (IsConflict e) eqn:He|].
  - eapply retried_again; [exact E|exact He|apply retried_last].
  - rewrite <- E. apply retried_last.
  - rewrite <- E. apply retried_last.
Qed.

(** The API server refuses to create only what exists. *)
Lemma mapCreate_alone (w w' : mapState (O := ConfigMapObject)) cm e :
  Create w cm = (w', Some (AlreadyExists e)) → stored w (objectKey cm) ≠ None.
Proof.
  change (lift w (mapCreate noFault (`w) cm) = (w', Some (AlreadyExists e)) → `w !! objectKey cm ≠ None).
  unfold lift, mapCreate. destruct (`w !! objectKey cm); [done|]. by destruct (decide _).
Qed.

(** ** A reconciliation *)

(** Nothing exists but the Deployment's report of one ready replica. *)
Definition notFound : apiError := NotFound (New "not found").

Definition quietReads : reads :=
  {| R_GetDeployment := λ _, inl notFound; R_ListReplicaSets := λ _ _, inr [];
     R_GetSecret := λ _, inr (watchedSecret "value"); R_GetConfigMap := λ _, inl notFound;
     R_ReadyReplicas := λ _, inr 1; R_ClaimPhase := λ _, inl notFound; R_GetService := λ _, None; R_now := 7 |}.

Definition images : gmap string string := {["starter" := "registry/ogx:1"]}.

Definition samplePod (_ : Workload.PodSpec) : result object := Ok samplePodSpec.

Abbreviation clusterState :=
  (Reconcile.state (WV := kindState any) (WS := kindState ServiceSpec) (WI := kindState any) (WD := kindState DeploymentSpec)
     (WP := podState) (WC := mapState (O := ConfigMapObject)) (WU := mapState (O := Unstructured))
     (WJ := mapState (O := Job)) (WO := option ServerObject)).

(** A cluster with the custom resource, the ConfigMaps and the Ingresses. *)
Definition clusterWith (instance : OGXServer) (maps : list ConfigMapObject) (network : list Ingress) : clusterState :=
  {| adoptionState := {| pvcs := fileAll []; services := fileAll []; ingresses := fileAll (encode <$> network);
                         deployments := fileAll []; pods := fileAll []; status := phaseStatus None |};
     ingressEvents := None;
     serverStore := Some {| SO_Server := instance; SO_Status := phaseStatus None; SO_ResourceVersion := "1" |};
     configState := {| configMaps := fileAll maps; resolver := None |};
     objectStore := fileAll []; jobStore := emptyJobs; jobEvents := None;
     fields := {| OperatorConfig.operatorNamespace := "ogx-system"; OperatorConfig.ImageMappingOverrides := ∅ |} |}.

Abbreviation resourcesOf instance s :=
  (reconcileResources (KU := tree_kustomize) sampleYamlBase sampleYamlMap sampleMarshal sampleJSON toyDecode toyEncode toyParse (merge_sort createdBefore) zeroQuantity
     (λ q, q) anyLabel (λ _, true) sampleRun samplePod sampleHPA namespacedMapper treeDeployment anyService treeUnstructured
     appendController sampleSetController jobSetController images (Some sampleFetch) operatorNamespace (λ _, quietReads)
     instance s).

(** Nothing is asked of the server. *)
Definition noRequest (_ : string) : result unit := Err (New "no network").
Definition noResponse (_ : unit) : result unit := Err (New "no network").

Abbreviation reconciled key s :=
  (Reconcile (KU := tree_kustomize) sampleYamlBase sampleYamlMap sampleMarshal sampleJSON (λ _, Ok ∅) (λ _, Ok tt) toyDecode toyEncode toyParse (merge_sort createdBefore)
     zeroQuantity (λ q, q) anyLabel (λ _, true) sampleRun samplePod sampleHPA namespacedMapper treeDeployment anyService
     treeUnstructured appendController sampleSetController jobSetController noRequest noResponse (λ _, 200) (λ _, Ok "")
     (λ _, Ok []) (λ _, Ok "") (λ l : LabelSelector, Ok l) sampleList "1.0" images (Some sampleFetch) operatorNamespace
     twice (λ _, quietReads) key s).

Definition freshCluster : clusterState := clusterWith sampleServer [] [].

Definition freshRun : clusterState * result unit := resourcesOf sampleServer freshCluster.

Lemma freshRun_ok : is_ok freshRun.2 = true.
Proof. vm_compute. reflexivity. Qed.

Lemma ingressController_sets : NetworkResources.setsController sampleSetController.
Proof. by intros instance i i' [= <-]. Qed.


(** A server that asks for external access without TLS, and whose distribution is
    not known, so that its manifests fail. *)
Definition unsafeServer : OGXServer :=
  {| Server_Meta := sampleMeta;
     Server_Spec :=
       {| Spec_Distribution := {| Dist_Name := "unknown"; Dist_Image := "" |};
          Spec_Providers := None; Spec_Resources := None; Spec_Storage := None;
          Spec_DisabledAPIs := []; Spec_RegistryRefreshIntervalSeconds := None;
          Spec_Network := Some
            {| Net_Port := 9000; Net_TLS := None;
               Net_ExternalAccess := Some {| EA_Enabled := true; EA_Hostname := "ogx.example.com"; EA_TLS := None |};
               Net_Policy := None |};
          Spec_TLS := None; Spec_Workload := None; Spec_Monitoring := None;
          Spec_BaseConfig := None; Spec_OverrideConfig := None;
          Spec_PraxisMode := Some {| Praxis_Enabled := Some false; Praxis_PraxisSelector := None;
                                     Praxis_MigrationJob := None |} |} |}.

Definition ownIngress : Ingress :=
  {| Ing_Namespace := "default"; Ing_Name := "ogx-ingress"; Ing_Labels := operatorLabel; Ing_TLS := []; Ing_Rules := [];
     Ing_Controller := Some "u1"; Ing_Deleting := false; Ing_ResourceVersion := "1"; Ing_LoadBalancer := [] |}.

Definition unsafeCluster : clusterState := clusterWith unsafeServer [] [ownIngress].

Definition unsafeRun : clusterState * result unit := resourcesOf unsafeServer unsafeCluster.

#[local] Existing Instance ingressClient.
#[local] Existing Instance ingressCache.


Definition freshKey : NamespacedName := ("default", "ogx").

Lemma fresh_answer : is_ok (reconciled freshKey freshCluster).2 = true.
Proof. vm_compute. reflexivity. Qed.

(** The first reconciliation succeeds and says when to look again. *)
Lemma reconcile_answers_witness :
  match reconciled freshKey freshCluster with
  | (s', Ok after) => 10 <= after <= 300
  | (_, Err _) => False
  end.
Proof.
  pose proof (reconcile_answers (KU := tree_kustomize) sampleYamlBase sampleYamlMap sampleMarshal sampleJSON (λ _, Ok ∅) (λ _, Ok tt)
    toyDecode toyEncode toyParse (merge_sort createdBefore) zeroQuantity (λ q, q) anyLabel (λ _, true) sampleRun samplePod
    sampleHPA namespacedMapper treeDeployment anyService treeUnstructured appendController sampleSetController
    jobSetController noRequest noResponse (λ _, 200) (λ _, Ok "") (λ _, Ok []) (λ _, Ok "") (λ l : LabelSelector, Ok l)
    sampleList "1.0" images (Some sampleFetch) operatorNamespace twice (λ _, quietReads) twice_retried freshKey freshCluster) as H.
  pose proof fresh_answer as Hok. destruct (reconciled freshKey freshCluster) as [s' [after|e]]; [|discriminate Hok].
  destruct H as [H Hb]. change (GetServer (serverStore freshCluster) freshKey) with
    (@inr apiError ServerObject {| SO_Server := sampleServer; SO_Status := phaseStatus None; SO_ResourceVersion := "1" |}) in H.
  cbn beta iota in H.
  match type of H with context [let '(_, _) := ?run in _] => destruct run as [s1 [[]|e]] eqn:E end.
  - destruct H as (_ & _ & H). destruct (H eq_refl) as [[= ->] _]. apply Hb.
  - apply (f_equal (λ p, is_ok p.2)) in E. vm_compute in E. discriminate E.
Defined.

(** The report of that server: one replica is wanted and ready. *)
Definition reportEnv : statusEnvironment :=
  {| StatusUpdate.OPERATOR_VERSION := "1.0"; ReadyReplicas := λ _, inr 1; ClaimPhase := λ _, inl notFound;
     GetService := λ _, None; GetTLSSecret := λ _, None; StatusUpdate.DistributionImages := images; clock := 7 |}.

Definition reportStart : reporting (WV := kindState any) (WS := kindState ServiceSpec)
    (WI := kindState any) (WD := kindState DeploymentSpec) (WP := podState) (WO := option ServerObject) :=
  {| adoption := adoptionState freshCluster; servers := serverStore freshCluster |}.

Definition reportRun :=
  updateStatus noRequest noResponse (λ _, 200) (λ _, Ok "") (λ _, Ok []) (λ _, Ok "") (λ l : LabelSelector, Ok l) sampleList
    (ingressState freshCluster) reportEnv twice sampleServer None reportStart.

Lemma reportRun_ok : is_ok reportRun.2 = true.
Proof. vm_compute. reflexivity. Qed.

Lemma status_report_witness :
  Status_Phase (statusOf reportRun.1) = OGXServerPhaseReady ∧
  IsConditionTrue (Some (statusOf reportRun.1)) ConditionTypeDeploymentReady = true.
Proof.
  pose proof (status_report noRequest noResponse (λ _, 200) (λ _, Ok "") (λ _, Ok []) (λ _, Ok "")
    (λ l : LabelSelector, Ok l) sampleList (ingressState freshCluster) reportEnv twice twice_retried sampleServer reportStart) as H.
  pose proof reportRun_ok as Hok. unfold reportRun in *.
  destruct (updateStatus _ _ _ _ _ _ _ _ _ _ _ _ _ _) as [s' r]. destruct H as (_ & _ & H).
  destruct (H Hok) as (p & Hp & Hr). vm_compute in Hp. injection Hp as <-. destruct Hr as (Hph & _ & _ & Hd & _).
  split; [exact Hph|exact Hd].
Defined.

(** ** Exclusion *)

Definition policyKey : NamespacedName := childKey sampleServer "NetworkPolicy" "networking.k8s.io" "-network-policy".

Definition policyObject (owners : list OwnerReference) (name : string) : Unstructured :=
  {| U_Group := "networking.k8s.io"; U_Version := "v1"; U_Kind := "NetworkPolicy";
     U_Meta := {| Obj_Namespace := "default"; Obj_Name := name; Obj_Labels := ∅; Obj_Annotations := ∅;
                  Obj_OwnerReferences := owners; Obj_Deleting := false |};
     U_UID := "n1"; U_ResourceVersion := "1"; U_Object := ∅ |}.

(** The sample server with its network policy switched off. *)
Definition openServer : OGXServer :=
  {| Server_Meta := sampleMeta;
     Server_Spec :=
       {| Spec_Distribution := {| Dist_Name := "starter"; Dist_Image := "" |};
          Spec_Providers := None; Spec_Resources := None; Spec_Storage := None;
          Spec_DisabledAPIs := []; Spec_RegistryRefreshIntervalSeconds := None;
          Spec_Network := Some
            {| Net_Port := 9000; Net_TLS := None; Net_ExternalAccess := None;
               Net_Policy := Some {| NP_Enabled := Some false; NP_PolicyTypes := []; NP_Ingress := []; NP_Egress := [] |} |};
          Spec_TLS := None; Spec_Workload := None; Spec_Monitoring := None;
          Spec_BaseConfig := None; Spec_OverrideConfig := None; Spec_PraxisMode := None |} |}.

Definition ownPolicy : Unstructured := withUMeta ownedMeta (policyObject [] "ogx-network-policy").
Definition otherPolicy : Unstructured := policyObject [] "other-network-policy".

Definition excludeRun : mapState (O := Unstructured) * result unit :=
  excludeAndApply namespacedMapper treeDeployment anyService appendController treeUnstructured openServer "ogx-pvc"
    [Manifests.serviceAccountManifest] (fileAll [ownPolicy; otherPolicy]).

Lemma excludeRun_ok : is_ok excludeRun.2 = true.
Proof. vm_compute. reflexivity. Qed.

Lemma treeUnstructured_kind (res : object) u : treeUnstructured res = Ok u → U_Kind u = kindOf res.
Proof. unfold treeUnstructured. destruct (splitVersion _). by intros [= <-]. Qed.

Lemma mapGet_served : unserved (W := mapState (O := Unstructured)).
Proof.
  intros w k e. change (mapGet noFault (`w) k = inl (NoMatch e) → `w !! k = None).
  unfold mapGet. by destruct (`w !! k).
Qed.


(** ** Watches *)

(** A Secret that nothing refers to changes. *)
Definition otherSecret (env : Migration.environment) : Migration.environment :=
  {| Migration.GetSecret := λ k, if bool_decide (k.2 = "other") then inl (NotFound (New "not found")) else Migration.GetSecret env k;
     Migration.GetConfigMap := Migration.GetConfigMap env; Migration.DistributionImages := Migration.DistributionImages env;
     Migration.ImageMappingOverrides := Migration.ImageMappingOverrides env; Migration.now := Migration.now env |}.

Lemma secrets_watched_witness :
  runMigrationPreflight migrationEnv (migratingServer true) None =
    runMigrationPreflight (otherSecret migrationEnv) (migratingServer true) None.
Proof.
  refine (proj1 (proj2 (secrets_watched (migratingServer true) migrationEnv (otherSecret migrationEnv) None _
    eq_refl eq_refl eq_refl _))).
  - intros env env' H H' _. vm_compute in H, H'. 
    apply list_elem_of_singleton in H as ->. apply list_elem_of_singleton in H' as ->. reflexivity.
  - intros name Hr. unfold otherSecret. cbn [Migration.GetSecret snd].
    destruct (decide (name = "other")) as [->|Hn]; [vm_compute in Hr; discriminate Hr|].
    by rewrite (bool_decide_eq_false_2 (name = "other")).
Defined.

Definition watchedMaps : configMapState := fileAll [trusted twoKeys].
Definition otherMaps : configMapState := fileAll [trusted twoKeys; configMap "other" ∅ ∅ 0].

Lemma configMaps_watched_witness :
  (gatherCABundleData toyDecode toyEncode toyParse sampleServer watchedMaps).2 =
  (gatherCABundleData toyDecode toyEncode toyParse sampleServer otherMaps).2.
Proof.
  refine (proj1 (proj2 (proj2 (proj2 (configMaps_watched toyDecode toyEncode toyParse "ogx-system" sampleServer watchedMaps otherMaps _))))).
  intros [ns name] Hw. change (mapGet noFault (listMap [trusted twoKeys]) (ns, name) =
    mapGet noFault (listMap [trusted twoKeys; configMap "other" ∅ ∅ 0]) (ns, name)).
  assert (Hn : (ns, name) ≠ ("default", "other")).
  { intros [= -> ->]. vm_compute in Hw. discriminate Hw. }
  unfold mapGet, listMap. cbn [fmap list_fmap list_to_map foldr fst snd].
  destruct (decide ((ns, name) = objectKey (trusted twoKeys))) as [->|Ht].
  - by rewrite !lookup_insert_eq.
  - rewrite !(lookup_insert_ne _ (objectKey (trusted twoKeys))) by done. by rewrite lookup_insert_ne by done.
Defined.

(** ** The operator's configuration *)

Definition initializeRun : configMapState * result ConfigMapObject := InitializeOperatorConfigMap "ogx-system" (fileAll []).

Definition listing (servers : list OGXServer) (ns : option string) : apiError + list OGXServer :=
  inr (filter (λ i, match ns with Some n => bool_decide (Meta_Namespace (Server_Meta i) = n) | None => true end = true) servers).

Lemma listing_servers servers : listsServers (listing servers) servers.
Proof.
  intros ns. eexists. split; [reflexivity|]. intros i. rewrite list_elem_of_filter.
  destruct ns as [n|]; [rewrite bool_decide_eq_true|]; naive_solver.
Qed.

Lemma operator_config_wakes_all_witness :
  ∃ cm, stored initializeRun.1 ("ogx-system", operatorConfigData) = Some cm ∧
    Watches.serverKey sampleServer ∈ mapConfigMapToReconcileRequests "ogx-system" (listing [sampleServer]) cm.
Proof.
  destruct (operator_config_wakes_all "ogx-system" (fileAll []) initializeRun.1 initializeRun.2 (listing [sampleServer])
    [sampleServer] (surjective_pairing _) (listing_servers _)) as [_ H].
  destruct H as [(cm & Hcm & Hl & _ & Hm) H]; [vm_compute; reflexivity|].
  exists cm. split; [exact Hcm|]. apply H; [exact Hcm| |left].
  rewrite Hm by discriminate. vm_compute. discriminate.
Defined.
