(* ===== verification/ModuleWitnesses.v ===== *)
(** * The module operator on concrete clusters

    A condition manager, a file system and a store of instances, as they are
    implemented, and runs of the reconciler over them. *)

From Stdlib Require Import ZArith Ascii.
From S2P Require Import Prelude Value Fmt Client Action Objects Common Kustomize Apply CABundle ModuleParams Module ModuleFacts.

#[local] Open Scope Z_scope.

(** ** Conditions *)

Definition conditionBase (t : string) (status : ConditionState) : ModuleCondition :=
  {| MCond_Type := t; MCond_Status := status; MCond_Reason := ""; MCond_Message := ""; MCond_Severity := SeverityError;
     MCond_ObservedGeneration := 0 |}.

Definition withOption (c : ModuleCondition) (o : conditionOption) : ModuleCondition :=
  let '(reason, message, severity, g) :=
    match o with
    | WithObservedGeneration g => (MCond_Reason c, MCond_Message c, MCond_Severity c, g)
    | WithReason r => (r, MCond_Message c, MCond_Severity c, MCond_ObservedGeneration c)
    | WithMessage m => (MCond_Reason c, m, MCond_Severity c, MCond_ObservedGeneration c)
    | WithError _ => (MCond_Reason c, "error"%string, MCond_Severity c, MCond_ObservedGeneration c)
    | WithSeverity s => (MCond_Reason c, MCond_Message c, s, MCond_ObservedGeneration c)
    end in
  {| MCond_Type := MCond_Type c; MCond_Status := MCond_Status c; MCond_Reason := reason; MCond_Message := message;
     MCond_Severity := severity; MCond_ObservedGeneration := g |}.

Definition listMark (t : string) (status : ConditionState) (opts : list conditionOption) (l : list ModuleCondition) :
    list ModuleCondition :=
  foldl withOption (conditionBase t status) opts :: List.filter (λ c, negb (bool_decide (MCond_Type c = t))) l.

#[local] Instance listManager : ConditionManager := {
  newManager := λ _ l, l;
  mark := λ _ status t opts l, listMark t status opts l;
  sortConditions := λ l, l;
  isHappy := λ types l, forallb (λ t, match conditionOf l t with
                                      | Some c => bool_decide (MCond_Status c = ConditionTrue) | None => false end) (tail types);
}.

Lemma options_keep opts c : MCond_Type (foldl withOption c opts) = MCond_Type c ∧ MCond_Status (foldl withOption c opts) = MCond_Status c.
Proof. revert c. induction opts as [|o opts IH]; [done|]. intros c. cbn [foldl]. rewrite !(proj1 (IH _)), !(proj2 (IH _)). by destruct o. Qed.

Lemma options_reason opts c r :
  List.filter (λ o, match o with WithReason _ => true | _ => false end) opts = [] →
  MCond_Reason c = r → MCond_Reason (foldl withOption c opts) = r.
Proof.
  revert c. induction opts as [|o opts IH]; [done|]. intros c. cbn [List.filter foldl].
  destruct o; try done; intros H Hc; apply IH; by try done.
Qed.

Lemma options_reason_one opts c r :
  List.filter (λ o, match o with WithReason _ => true | _ => false end) opts = [WithReason r] →
  MCond_Reason (foldl withOption c opts) = r.
Proof.
  revert c. induction opts as [|o opts IH]; [done|]. intros c. cbn [List.filter foldl].
  destruct o; try apply IH. intros [= -> H]. by apply options_reason.
Qed.

#[local] Instance listManager_laws : ConditionManagerLaws.
Proof.
  assert (Hm : ∀ status t opts l, conditionOf (listMark t status opts l) t = Some (foldl withOption (conditionBase t status) opts)).
  { intros status t opts l. unfold listMark, conditionOf. cbn [List.find].
    destruct (options_keep opts (conditionBase t status)) as [-> _]. cbn. by rewrite bool_decide_eq_true_2. }
  split.
  - intros types status t opts l. eexists. split; [apply Hm|]. by destruct (options_keep opts (conditionBase t status)) as [_ ->].
  - intros types status t opts l reason c Hr Hc. change (conditionOf (listMark t status opts l) t = Some c) in Hc. rewrite Hm in Hc. injection Hc as <-. by apply options_reason_one.
  - intros types status t opts l t' Hne _. cbn -[conditionOf listMark]. unfold listMark, conditionOf. cbn [List.find].
    destruct (options_keep opts (conditionBase t status)) as [-> _]. cbn [MCond_Type conditionBase].
    rewrite bool_decide_eq_false_2 by done. induction l as [|c l IH]; [done|]. cbn [List.filter List.find].
    destruct (decide (MCond_Type c = t)) as [->|Hc].
    + rewrite bool_decide_eq_true_2 by done. cbn. by rewrite bool_decide_eq_false_2.
    + rewrite bool_decide_eq_false_2 by done. cbn [negb List.find]. by destruct (bool_decide _).
  - done.
Qed.

(** ** A store of one instance *)

#[local] Instance oneInstance : OGXStore (option OGX) := {
  storedOGX := λ w k, w ≫= λ o, if bool_decide (ogxKey o = k) then Some o else None;
  GetOGX := λ w k, match w with
                   | Some o => if bool_decide (ogxKey o = k) then inr o else inl (NotFound (New "not found"))
                   | None => inl (NotFound (New "not found"))
                   end;
  UpdateOGX := λ w o, match w with
                      | Some before =>
                          if bool_decide (ogxKey before = ogxKey o) then
                            let o' := {| OGX_Namespace := OGX_Namespace o; OGX_Name := OGX_Name o;
                                         OGX_Generation := OGX_Generation o; OGX_Finalizers := OGX_Finalizers o;
                                         OGX_Deleting := OGX_Deleting before; OGX_ResourceVersion := OGX_ResourceVersion o;
                                         OGX_ManagementState := OGX_ManagementState o; OGX_Status := OGX_Status before |} in
                            (if OGX_Deleting before && bool_decide (OGX_Finalizers o = []) then None else Some o', inr o')
                          else (w, inl (NotFound (New "not found")))
                      | None => (w, inl (NotFound (New "not found")))
                      end;
  UpdateOGXStatus := λ w o, match w with
                            | Some before =>
                                if bool_decide (ogxKey before = ogxKey o)
                                then (Some (withOGXStatus (OGX_Status o) before), inr (withOGXStatus (OGX_Status o) before))
                                else (w, inl (NotFound (New "not found")))
                            | None => (w, inl (NotFound (New "not found")))
                            end;
}.

#[local] Instance oneInstance_laws : OGXStoreLaws (option OGX).
Proof.
  split.
  - intros [w|] k o; cbn; [|done]. case_bool_decide; [|done]. by intros [= <-].
  - intros [w|] k; cbn; [|done]. by case_bool_decide.
  - intros [before|] o; cbn -[ogxKey]; [|done]. case_bool_decide as Hk; [|done]. split_and!; [|done|done|].
    + intros k Hk'. rewrite (bool_decide_eq_false_2 (ogxKey before = k)) by congruence.
      destruct (_ && _); [done|]. cbn. by rewrite bool_decide_eq_false_2.
    + exists before. split_and!; [done..|]. destruct (_ && _); [done|]. cbn. by rewrite bool_decide_eq_true_2.
  - intros [before|] o; cbn -[ogxKey]; [|done]. case_bool_decide as Hk; [|done].
    unfold mbind, option_bind. split.
    + intros k Hk'. assert (Hne : ogxKey before ≠ k) by congruence. by rewrite !bool_decide_eq_false_2.
    + exists before. by rewrite !bool_decide_eq_true_2.
Qed.

(** ** A file system *)

#[local] Instance mapFileSystem : FileSystem (gmap string string) := {
  Exists := λ fs p, bool_decide (is_Some (fs !! p));
  ReadFile := λ fs p, match fs !! p with Some d => Ok d | None => Err (New "not found") end;
  WriteFile := λ fs p d, (<[p := d]> fs, None);
  MkdirAll := λ fs _, (fs, None);
}.

#[local] Instance mapFileSystem_laws : FileSystemLaws (gmap string string).
Proof.
  split.
  - intros fs path data _. cbn. rewrite lookup_insert_eq. split_and!; [by apply bool_decide_eq_true_2|done|].
    intros p Hp. by rewrite lookup_insert_ne.
  - intros fs path _ p d. done.
Qed.

(** The references whose characters are those of references. *)
Definition plainReference (v : string) : result unit :=
  if forallb refChar (chars v) then Ok tt else Err (New "invalid reference format").

Lemma plainReference_plain : plainReferences plainReference.
Proof.
  intros v. unfold plainReference. destruct (forallb refChar (chars v)) eqn:E; [|done]. intros _.
  apply List.Forall_forall. by apply forallb_forall.
Qed.

Definition operatorImage (name : string) : string :=
  if bool_decide (name = "RELATED_IMAGE_ODH_OGX_K8S_OPERATOR_IMAGE") then "quay.io/ogx/operator:v2" else "".

Definition paramsPath : string := "ogx/overlays/odh/params.env".
Definition paramsContent : string :=
  Join ["# images"; "RELATED_IMAGE_ODH_OGX_K8S_OPERATOR_IMAGE='quay.io/ogx/operator:v1'"; "NAMESPACE=ogx"].
Definition someFiles : gmap string string := {[ paramsPath := paramsContent ]}.

Lemma params_overridden_witness :
  ReadFile (applyParamsEnvOverrides operatorImage plainReference someFiles paramsPath).1 paramsPath =
    Ok (Join ["# images"; "RELATED_IMAGE_ODH_OGX_K8S_OPERATOR_IMAGE='quay.io/ogx/operator:v2'"; "NAMESPACE=ogx"]) ∧
  ∃ content', ReadFile (applyParamsEnvOverrides operatorImage plainReference someFiles paramsPath).1 paramsPath = Ok content' ∧
    Split content' !! 2%nat = Some "NAMESPACE=ogx".
Proof.
  split; [vm_compute; reflexivity|].
  destruct (params_overridden operatorImage plainReference plainReference_plain someFiles
    (applyParamsEnvOverrides operatorImage plainReference someFiles paramsPath).1 paramsPath paramsContent)
    as (content' & Hr & _ & _ & Hk & _); [vm_compute; reflexivity..|].
  exists content'. split; [exact Hr|]. apply Hk; [vm_compute; reflexivity|].
  intros key v H. assert (E : paramOf "NAMESPACE=ogx" = Some ("NAMESPACE", "ogx")%string) by (vm_compute; reflexivity).
  rewrite E in H. injection H as <- <-. vm_compute. reflexivity.
Defined.

(** ** Runs *)

Definition emptyStatus : OGXStatus :=
  {| OS_ObservedGeneration := 0; OS_Phase := PhaseNone; OS_Conditions := []; OS_Releases := []; OS_DistributionName := "";
     OS_DistributionVersion := "" |}.

Definition anInstance (deleting : bool) (finalizers : list string) : OGX :=
  {| OGX_Namespace := ""; OGX_Name := "default-ogx"; OGX_Generation := 1; OGX_Finalizers := finalizers;
     OGX_Deleting := deleting; OGX_ResourceVersion := "1"; OGX_ManagementState := Managed; OGX_Status := emptyStatus |}.

Definition aConfig : Config :=
  {| ManifestsPath := "/opt/manifests"; ApplicationsNamespace := "opendatahub"; PlatformName := "OpenDataHub";
     PlatformVersion := "unknown" |}.

Definition aDeployment : Unstructured :=
  {| U_Group := "apps"; U_Version := "v1"; U_Kind := "Deployment";
     U_Meta := {| Obj_Namespace := "opendatahub"; Obj_Name := "ogx-k8s-operator"; Obj_Labels := ∅; Obj_Annotations := ∅;
                  Obj_OwnerReferences := []; Obj_Deleting := false |};
     U_UID := "1"; U_ResourceVersion := "1"; U_Object := ∅ |}.

(** The cluster is the number of Deployments that it runs. *)
Definition aDeploymentReport : DeploymentReport :=
  {| DR_Generation := 1; DR_ObservedGeneration := 1; DR_Replicas := None; DR_ReadyReplicas := 1; DR_AvailableReplicas := 1 |}.

Definition unset (_ : string) : string := "".
Definition noFile {A} (_ : string) : result A := Err (New "no such file").
Definition noEntries (_ : string) : list walkEntry := [].
Definition noFiles : gmap string string := ∅.
Definition oneDeployment (_ : string) (_ : option (gmap string string)) (_ : string) : result (list Unstructured) := Ok [aDeployment].
Definition noDiscovery (_ : nat) : option (apiError + list string) := None.
Definition platformMap (_ : nat) (_ : NamespacedName) : apiError + gmap string string := inr {[ platformVersionDataKey := "2.30"%string ]}.
Definition getDeployment (n : nat) (_ : NamespacedName) : apiError + DeploymentReport :=
  if (n =? 0)%nat then inl (NotFound (New "not found")) else inr aDeploymentReport.
Definition noWebhook (_ : nat) (_ : string) : apiError + list (option NamespacedName) := inl (NotFound (New "not found")).
Definition anyObject (_ : nat) (_ : NamespacedName) : option apiError := None.
Definition noServer (_ : nat) : apiError + list (NamespacedName * object) := inr [].
Definition addAll (_ : Config) (_ : OGX) (l : list Unstructured) (n : nat) : nat * option error := ((n + length l)%nat, None).
Definition removeAll : option (Config → OGX → nat → nat * option error) := Some (λ _ _ _, (0%nat, None)).

Definition aRun (o : OGX) (deployed : nat) := Reconcile unset plainReference noEntries noFile noFile noFiles oneDeployment noDiscovery (λ _, false)
    platformMap getDeployment noWebhook anyObject anyObject noServer addAll removeAll
    (ogxKey o) {| ogxs := Some o; resources := deployed; config := aConfig |}.

Lemma deployment_guarded_witness :
  let '(s', r) := aRun (anInstance false []) 0 in
  r = Ok 0 ∧ resources s' = 1%nat ∧ ∃ o', storedOGX (ogxs s') ("", "default-ogx")%string = Some o' ∧ hasFinalizer o' = true.
Proof.
  split; [vm_compute; reflexivity|]. split; [vm_compute; reflexivity|].
  pose proof (deployment_guarded unset plainReference noEntries noFile noFile noFiles oneDeployment noDiscovery (λ _, false)
    platformMap getDeployment noWebhook anyObject anyObject noServer addAll removeAll
    ("", "default-ogx")%string {| ogxs := Some (anInstance false []); resources := 0%nat; config := aConfig |}
    (anInstance false []) ) as H.
  destruct H as [[_ H]|(o1 & rendered & _ & _ & H & _)]; [vm_compute; reflexivity..| |].
  - vm_compute in H. discriminate H.
  - exact H.
Defined.

Lemma finalizer_guard_witness :
  let '(s', r) := aRun (anInstance true [ogxFinalizer]) 1 in
  r = Ok 0 ∧ resources s' = 0%nat ∧ ogxs s' = None ∧
  ∃ o1, collected removeAll (config s') o1 1%nat = (0%nat, true).
Proof.
  split; [vm_compute; reflexivity|]. split; [vm_compute; reflexivity|]. split; [vm_compute; reflexivity|].
  pose proof (finalizer_guard unset plainReference noEntries noFile noFile noFiles oneDeployment noDiscovery (λ _, false)
    platformMap getDeployment noWebhook anyObject anyObject noServer addAll removeAll
    ("", "default-ogx")%string {| ogxs := Some (anInstance true [ogxFinalizer]); resources := 1%nat; config := aConfig |}
    (anInstance true [ogxFinalizer])) as H.
  destruct H as (_ & _ & H); [vm_compute; reflexivity|]. destruct H as (_ & H & _); [vm_compute; reflexivity..|]. exact H.
Defined.

Lemma module_conditions_witness :
  statusIs (OS_Conditions (reportedStatus aConfig (Err (New "no releases")) (anInstance false []) true true false
    {| Total := 2; UnhealthyCount := 1; Unhealthy := ["ns/a"] |} None)) ConditionTypeDegraded ConditionTrue.
Proof.
  exact (proj1 (module_conditions aConfig (Err (New "no releases")) (anInstance false []) true true false
    {| Total := 2; UnhealthyCount := 1; Unhealthy := ["ns/a"] |} None)).
Defined.
