(* ===== verification/StartWitnesses.v ===== *)
(** * The theorems of the start at concrete inputs

    A profile whose option looks the suites up by their names, a start on an empty
    cluster, the manifests of a sample server, and its configuration made by the
    command. *)

From Stdlib Require Import ZArith.
From S2P Require Import Prelude Value ApiProviders ApiServer Secret Provider Merge Generator Fmt Common Status Client Action Objects ConfigMaps Workload Pointer NetworkPolicy Kustomize KustomizeFacts Manifests GeneratedConfig GeneratedConfigFacts NetworkResources OperatorConfig Resolver TLS ModuleTLS Startup Cache Watches Apply ApplyFacts Wiring Configgen Samples WorkloadWitnesses ConfigMapWitnesses ManifestWitnesses ApplyWitnesses.

#[local] Open Scope Z_scope.

(** ** A profile *)

Definition toyOption (p : TLSProfileSpec) : option_fn * list string :=
  (λ c,
     let v := match minTLSVersion (MinTLSVersion p) with Ok v => v | Err _ => VersionTLS12 end in
     {| TLS_MinVersion := v;
        TLS_CipherSuites :=
          if VersionTLS13 <=? v then TLS_CipherSuites c
          else Suite_ID <$> List.filter (λ s, bool_decide (Suite_Name s ∈ Ciphers p)) allSuites;
        TLS_CurvePreferences := TLS_CurvePreferences c;
        TLS_NextProtos := TLS_NextProtos c |}, []).

#[export] Instance toy_option : ProfileOption toyOption.
Proof.
  split.
  - intros p c v H. unfold toyOption. cbn [fst TLS_MinVersion]. by rewrite H.
  - intros p c c' v H Hv. unfold toyOption. cbn [fst TLS_CipherSuites]. rewrite H. apply Z.leb_gt in Hv. by rewrite Hv.
  - intros p c. reflexivity.
Qed.

Definition intermediate : TLSProfileSpec :=
  {| Ciphers := ["TLS_ECDHE_RSA_WITH_AES_128_GCM_SHA256"; "TLS_ECDHE_RSA_WITH_RC4_128_SHA"; "TLS_AES_128_GCM_SHA256"];
     MinTLSVersion := ProtoTLS12; Groups := [GroupX25519] |}.

Definition resolvedTLS : TLS.Result :=
  {| TLS.TLSOpts := [(toyOption intermediate).1; setCurvePreferences [29]; setCipherSuites [0xc02f; 0xc011]; nextProtos];
     TLS.Profile := intermediate; TLS.AdherencePolicy := StrictAllComponents; TLS.HasOpenShiftConfigAPI := true |}.

Lemma tls_follows_profile_witness :
  TLS_CipherSuites (serve (TLS.TLSOpts resolvedTLS)) = [0xc02f; 0xc011] ∧
  follows intermediate StrictAllComponents (serve (TLS.TLSOpts resolvedTLS)).
Proof.
  split; [vm_compute; reflexivity|].
  destruct (tls_follows_profile toyOption intermediate (Ok tt) (Ok tt) (inr intermediate) (inr StrictAllComponents)
              resolvedTLS) as (_ & _ & H & _).
  - vm_compute. reflexivity.
  - exact H.
Defined.

Definition moduleSuites : list Z := [0xc02f].

Lemma tls_operators_agree_witness :
  match buildProfileTLSOptsWithAdherence toyOption intermediate StrictAllComponents,
        OptionsFromProfile toyOption intermediate StrictAllComponents with
  | Ok opts, Ok opts' =>
      TLS_CipherSuites (serve opts') = moduleSuites ∧
      TLS_MinVersion (serve opts') = TLS_MinVersion (serve (opts ++ [nextProtos]))
  | _, _ => False
  end.
Proof.
  destruct (buildProfileTLSOptsWithAdherence _ _ _) as [opts|e] eqn:E; [|vm_compute in E; discriminate E].
  destruct (OptionsFromProfile _ _ _) as [opts'|e] eqn:E'; [|vm_compute in E'; discriminate E'].
  destruct (tls_operators_agree toyOption intermediate StrictAllComponents opts opts' E E') as (Hm & _).
  split; [|exact Hm]. vm_compute in E'. injection E' as <-. vm_compute. reflexivity.
Defined.

(** The API is not there yet: the fallback, with a watcher. *)
Definition unavailable : readError :=
  ReadError (New "unavailable")
    {| EF_Forbidden := false; EF_Unauthorized := false; EF_NoMatch := false; EF_NotFound := false; EF_ServiceUnavailable := true;
       EF_InternalError := false; EF_Timeout := false; EF_ServerTimeout := false; EF_TooManyRequests := false;
       EF_DeadlineExceeded := false; EF_NetError := None |} None None.

Lemma module_tls_resolved_witness :
  match readTLSConfig toyOption intermediate (inl unavailable) with
  | Ok r => excusable unavailable ∧ watcherOf r = FallbackWatcher ∧ ModuleTLS.Profile r = intermediate
  | Err _ => False
  end.
Proof.
  destruct (readTLSConfig _ _ _) as [r|e] eqn:E; [|vm_compute in E; discriminate E].
  destruct (module_tls_resolved toyOption intermediate (inl unavailable) r E) as ((He & Hp & _) & _).
  split; [exact He|]. split; [|exact Hp]. vm_compute in E. injection E as <-. reflexivity.
Defined.

(** ** A start *)

Definition goodBindings : Client (mapState (O := ClusterRoleBinding)) ClusterRoleBinding := map_client noFault.

Lemma goodBindings_laws : @ClientLaws (mapState (O := ClusterRoleBinding)) ClusterRoleBinding _ goodBindings.
Proof. apply map_client_laws. done. Qed.

Abbreviation bindingState := (mapState (O := ClusterRoleBinding)).

Definition listBindings (s : bindingState) : apiError + list ClusterRoleBinding := inr (map_to_list (`s)).*2.

Lemma listBindings_all s items :
  listBindings s = inr items → ∀ crb, crb ∈ items ↔ @stored _ _ goodBindings s (objectKey crb) = Some crb.
Proof.
  intros [= <-] crb. rewrite list_elem_of_fmap. split.
  - intros ([k o] & -> & Hin%elem_of_map_to_list). cbn -[objectKey]. pose proof (mapState_key s k o Hin) as E. rewrite E. exact Hin.
  - intros H. exists (objectKey crb, crb). split; [done|by apply elem_of_map_to_list].
Qed.

Definition binding (name namespace : string) : ClusterRoleBinding :=
  {| Obj_Meta := {| Obj_Namespace := ""; Obj_Name := name;
                    Obj_Labels := {["app.kubernetes.io/managed-by" := "ogx-operator"]}; Obj_Annotations := ∅;
                    Obj_OwnerReferences := []; Obj_Deleting := false |};
     Obj_Spec := [{| Subject_Kind := "ServiceAccount"; Subject_Namespace := namespace |}] |}.

(** A leftover of an older version, and a binding of another kind of subject. *)
Definition upgradedCluster : @Startup.state bindingState configMapState :=
  {| bindings := fileAll [binding "ogx-old" "default"; binding "ogx-group" ""]; Startup.configMaps := fileAll [];
     started := None |}.

Definition oneImage (_ : string) : result (gmap string string) := Ok {["starter" := "registry/ogx@sha256:1"]}.

Definition startRun : @Startup.state bindingState configMapState * result unit :=
  @Startup.run map_to_list_range (Some "operator-system"%string) (""%string, None) (λ _, ""%string) oneImage "{}"%string oneImage (λ _, Ok tt)
    _ _ goodBindings good listBindings (Ok tt) (Ok tt) (Ok tt) (λ _, Ok tt) (λ _ _, Ok tt) (Ok tt) (Ok tt) (Ok tt)
    ":8443" ":8081" "/certs" true (Ok resolvedTLS) (Ok tt) false upgradedCluster.


(** The leftover is deleted, the other binding stays. *)
Example leftover_deleted :
  (λ name, is_ok (default (Err (New "gone")) (Ok <$> @stored _ _ goodBindings (bindings startRun.1) ("", name)%string))) <$>
    ["ogx-old"; "ogx-group"] = [false; true].
Proof. vm_compute. reflexivity. Qed.

(** ** The cache *)

Lemma own_objects_cached_witness :
  match renderSample sampleServer with
  | Ok out => length out = 10%nat ∧ Forall visible out
  | Err _ => False
  end.
Proof.
  pose proof sample_renders as [Hok _].
  destruct (renderSample sampleServer) as [out|e] eqn:E; [|discriminate Hok].
  destruct (own_objects_cached (H := tree_kustomize) (H0 := token_pointer) (λ q, q) anyLabel (λ _, true) sampleRun sampleHPA "manifests/base" sampleServer
              (sampleContext sampleServer) operatorNamespace out ltac:(discriminate) ltac:(discriminate)
              sample_namespaced sample_loads ltac:(reflexivity) E) as (H & _).
  split; [|exact H]. apply (f_equal (λ r, match r with Ok l => length l | Err _ => 0%nat end)) in E. vm_compute in E. symmetry. exact E.
Defined.

(** ** Events *)

Definition treeLabels (d : object) : gmap string string :=
  match lookupAt ["metadata"; "labels"] (AMap d) with
  | Some (AMap m) => omap (λ v, match v with AString s => Some s | _ => None end) m
  | _ => ∅
  end.

(** Labels are a map. *)
Definition treeObject (d : object) : result Unstructured :=
  match lookupAt ["metadata"; "labels"] (AMap d) with
  | Some (AList _) => Err (New "labels: expected a map")
  | _ =>
      Ok {| U_Group := ""; U_Version := ""; U_Kind := kindOf d;
            U_Meta := {| Obj_Namespace := textAt ["metadata"; "namespace"] d; Obj_Name := Kustomize.nameOf d; Obj_Labels := treeLabels d;
                         Obj_Annotations := ∅; Obj_OwnerReferences := []; Obj_Deleting := false |};
            U_UID := ""; U_ResourceVersion := ""; U_Object := delete "metadata" d |}
  end.

Lemma treeLabels_spec d u k v : treeObject d = Ok u → lookupAt ["metadata"; "labels"; k] (AMap d) = Some (AString v) →
  treeLabels d !! k = Some v.
Proof.
  intros Hu H. unfold treeObject in Hu. unfold treeLabels.
  assert (Hl : lookupAt (["metadata"; "labels"] ++ [k]) (AMap d) = Some (AString v)) by exact H.
  rewrite lookupAt_app in Hl. destruct (lookupAt ["metadata"; "labels"] (AMap d)) as [x|]; [|discriminate Hl].
  destruct x as [| | | | | |l|m| | |]; try discriminate Hl; [discriminate Hu|]. rewrite lookup_omap. cbn in Hl.
  destruct (m !! k) as [y|]; [|discriminate Hl]. injection Hl as ->. reflexivity.
Qed.

Lemma treeObject_faithful : faithful treeObject.
Proof.
  intros d u Hu. pose proof (treeLabels_spec d u) as Hlabels. specialize (λ k v, Hlabels k v Hu).
  assert (u = {| U_Group := ""; U_Version := ""; U_Kind := kindOf d;
            U_Meta := {| Obj_Namespace := textAt ["metadata"; "namespace"] d; Obj_Name := Kustomize.nameOf d; Obj_Labels := treeLabels d;
                         Obj_Annotations := ∅; Obj_OwnerReferences := []; Obj_Deleting := false |};
            U_UID := ""; U_ResourceVersion := ""; U_Object := delete "metadata" d |}) as ->.
  { unfold treeObject in Hu. destruct (lookupAt _ _) as [[]|]; (discriminate Hu || by injection Hu as <-). }
  cbn [U_Kind U_Meta Obj_OwnerReferences Obj_Namespace Obj_Labels]. split_and!; [done|done| |exact Hlabels].
  intros ns H. unfold at_ in H. cbn [view tree_kustomize] in H. unfold textAt. by rewrite H.
Qed.

Lemma appendController_names : namesOwner appendController.
Proof.
  intros instance m m' H Ho. unfold appendController, GetControllerOf in H. rewrite Ho in H. cbn in H. injection H as <-.
  eexists. cbn. split_and!; reflexivity.
Qed.

Definition emptyObjects : mapState (O := Unstructured) := fileAll [].

Definition created (d : object) : mapState (O := Unstructured) * result unit :=
  match treeObject d with
  | Ok u => createResource (Client0 := map_client noFault) (λ _ _ _, Ok false) appendController u sampleServer emptyObjects
  | Err e => (emptyObjects, Err e)
  end.

Definition renderedDeployment : object :=
  match renderSample sampleServer with Ok out => default ∅ (out !! 4%nat) | Err _ => ∅ end.

Lemma created_objects_wake_witness :
  kindOf renderedDeployment = "Deployment" ∧
  ∃ o, stored (Client := map_client noFault) (created renderedDeployment).1 (keyOf "" "Deployment" "default" "ogx") = Some o ∧
    serverKey sampleServer ∈ ownedRequests "Deployment" (DeleteEvent (U_Meta o)).
Proof.
  assert (kindOf renderedDeployment = "Deployment") as Hkind by (vm_compute; reflexivity). split; [exact Hkind|].
  pose proof sample_renders as [Hok _].
  destruct (renderSample sampleServer) as [out|e] eqn:E; [clear Hok|discriminate Hok].
  assert (Hin : renderedDeployment ∈ out).
  { unfold renderedDeployment. rewrite E. destruct (out !! 4%nat) as [d|] eqn:Ed; [by eapply list_elem_of_lookup_2|].
    unfold renderedDeployment in Hkind. rewrite E, Ed in Hkind. discriminate Hkind. }
  destruct (created_objects_wake (H := tree_kustomize) (H0 := token_pointer) (Client0 := map_client noFault) (CL := sample_laws)
              (λ q, q) anyLabel (λ _, true) sampleRun sampleHPA (λ _ _ _, Ok false) appendController treeObject
              "manifests/base" sampleServer (sampleContext sampleServer) operatorNamespace out renderedDeployment
              (match treeObject renderedDeployment with Ok u => u | Err _ => unstructuredOf ∅ end) emptyObjects
              (created renderedDeployment).1) as (o & Ho & He).
  - discriminate.
  - discriminate.
  - exact sample_namespaced.
  - exact sample_loads.
  - reflexivity.
  - exact appendController_sets.
  - exact appendController_names.
  - exact treeObject_faithful.
  - exact E.
  - exact Hin.
  - reflexivity.
  - reflexivity.
  - apply (run_ok (created renderedDeployment)). vm_compute. reflexivity.
  - exists o. split; [exact Ho|].
    assert (Hu : U_Kind (match treeObject renderedDeployment with Ok u => u | Err _ => unstructuredOf ∅ end) = "Deployment"%string)
      by (vm_compute; reflexivity).
    rewrite Hu in He.
    apply (proj2 (He (DeleteEvent (U_Meta o))
      (Forall_cons_2 (sameMetadata (U_Meta o)) (U_Meta o) [] (conj eq_refl (conj eq_refl eq_refl)) (Forall_nil_2 _)) _)).
    split; [apply (bool_decide_unpack _); vm_compute; exact I|]. split; [discriminate|reflexivity].
Defined.

(** ** The command *)

Definition operatorBase : result string := (GeneratedConfig.resolveBaseConfig (W := configMapState) (Client0 := good) rolloutEnv Error sampleServer emptyConfigMaps).2.

Definition baseText : string := match operatorBase with Ok base => base | Err _ => "" end.

Definition commandLine : options :=
  {| crPath := "-"; basePath := "base.yaml"; crdPath := "config/crd/bases"; distributionsPath := "distributions.json"; outputConfig := true; validate := false |}.

Definition commandRun : result GeneratedConfig :=
  Configgen.run sampleYamlBase sampleYamlMap sampleMarshal sampleJSON (Ok "cr"%string) (λ _, Ok baseText)
    (λ _, Ok (inr sampleServer)) oneImage "" (λ _, false) (λ _ _, Ok tt) (Ok tt) (λ _, Ok tt) (λ _, Ok tt) (λ _ _, true) (λ _ _, true) (λ _, "invalid"%string) sampleFetch commandLine.

Definition operatorRun : world configMapState * result (option GeneratedConfig) :=
  @reconcileGeneratedConfig map_to_list_range sampleYamlBase sampleYamlMap sampleMarshal sampleJSON appendController rolloutEnv
    configMapState good Error sampleServer emptyConfigMaps.

Lemma configgen_agrees_witness :
  match commandRun, operatorRun.2 with Ok g, Ok (Some g') => g' = g | _, _ => False end.
Proof.
  destruct (configgen_agrees (Client0 := good) (CachedLaws0 := good_cached) (MR := map_to_list_range) sampleYamlBase sampleYamlMap sampleMarshal sampleJSON (Ok "cr"%string) (λ _, Ok baseText)
    (λ _, Ok (inr sampleServer)) oneImage "" (λ _, false) (λ _ _, Ok tt) (Ok tt) (λ _, Ok tt) (λ _, Ok tt) (λ _ _, true) (λ _ _, true) (λ _, "invalid"%string) sampleFetch
    appendController rolloutEnv commandLine sampleServer baseText emptyConfigMaps operatorRun.1 operatorRun.2) as (H & _).
  - reflexivity.
  - discriminate.
  - reflexivity.
  - vm_compute. reflexivity.
  - exact (surjective_pairing operatorRun).
  - fold commandRun in H. destruct commandRun as [g|e] eqn:E; [|apply (f_equal is_ok) in E; vm_compute in E; discriminate E].
    destruct H as [_ H]. destruct operatorRun.2 as [[g'|]|e] eqn:Er; [|vm_compute in Er; discriminate Er..].
    destruct (snd _) as [[]|e] in H; [by injection H|discriminate H].
Defined.
