(* ===== verification/EndToEndWitnesses.v ===== *)
(** * The end-to-end theorem at a concrete input

    The sample server, its configuration generated on an empty cluster, and the
    manifests of the repository rendered for it. *)

From Stdlib Require Import ZArith.
From S2P Require Import Prelude Value ApiProviders ApiServer Secret Merge Generator Common Fmt Client Action Objects ConfigMaps Workload WorkloadFacts GeneratedConfig GeneratedConfigFacts Pointer Kustomize Manifests Migration Watches ManifestStep EndToEnd Samples Witnesses ConfigMapWitnesses WorkloadWitnesses ManifestWitnesses.

#[local] Existing Instance good.
#[local] Existing Instance good_laws.
#[local] Existing Instance everything.
#[local] Existing Instance good_cached.

(** A conversion that keeps the images and the environment of the containers. *)
Definition serverTree (c : Workload.Container) : any :=
  AMap (<["image" := AString (Ctn_Image c)]> {["env" := AList ((λ e, AString (Env_Name e)) <$> Ctn_Env c)]}).

Definition podTree (p : Workload.PodSpec) : result object :=
  Ok {["containers" := AList (serverTree <$> PodS_Containers p)]}.

Definition anySecret (_ : NamespacedName) : apiError + SecretObject := inr {| Secret_Labels := ∅; Secret_Data := ∅ |}.

Definition runtimeRef : option runtimeConfigRef :=
  match generateRun.2 with
  | Ok (Some g) => resolveRuntimeConfigRef sampleServer (generatedConfigMapName "ogx" (Gen_ContentHash g))
  | _ => None
  end.

Definition podContext : configMapState * result ManifestContext :=
  @buildManifestContext map_to_list_range zeroQuantity podTree {["starter" := "quay.io/ogx:1"]} ∅ anySecret
    configMapState good sampleServer runtimeRef "" (configMaps generateRun.1).

Definition podManifests : result (list object) :=
  ctx ← podContext.2;
  RenderManifestWithContext anyLabel (λ q, q) (λ _, true) sampleRun sampleHPA "manifests/base" sampleServer (Some ctx) operatorNamespace.

Lemma podManifests_ok : is_ok podManifests = true.
Proof. vm_compute. reflexivity. Qed.

Lemma generated_config_reaches_pods_witness :
  match podManifests with
  | Ok out => ∃ deployment podSpec server,
      out !! 4%nat = Some deployment ∧ PodS_Containers podSpec = [server] ∧
      at_ deployment ["spec"; "template"; "spec"; "containers"] = Some (AList [serverTree server]) ∧
      effective (Ctn_Env server) "OGX_CONFIG" = Some (plainEnv "OGX_CONFIG" "/etc/ogx/config.yaml") ∧
      effective (Ctn_Env server) (Env_Name vllmEnv) = Some vllmEnv
  | Err _ => False
  end.
Proof.
  pose proof podManifests_ok as Hok. unfold podManifests in *.
  destruct podContext.2 as [ctx|e] eqn:Ec; [|discriminate Hok]. cbn [mbind result_bind] in *.
  destruct (RenderManifestWithContext _ _ _ _ _ _ _ _ _) as [out|e] eqn:Eo; [clear Hok|discriminate Hok].
  destruct generateRun.2 as [[g|]|e] eqn:Eg; [|vm_compute in Eg; discriminate Eg..].
  destruct (generated_config_reaches_pods (KU := tree_kustomize) (JP := token_pointer) (CC := good) (MR := map_to_list_range)
    sampleYamlBase sampleYamlMap sampleMarshal sampleJSON appendController (λ _, "error") zeroQuantity (λ q, q) anyLabel (λ _, true)
    sampleRun podTree sampleHPA rolloutEnv {["starter" := "quay.io/ogx:1"]} ∅ anySecret operatorNamespace
    sampleServer emptyConfigMaps generateRun.1 g "" podContext.1 ctx "manifests/base" out)
    as (deployment & podSpec & tree & server & Hd & Ht & Hspec & Hs & _ & _ & Hcfg & Henv & _).
  - exact appendController_sets.
  - rewrite <- Eg. apply surjective_pairing.
  - rewrite <- Ec. unfold podContext, runtimeRef. rewrite Eg. apply surjective_pairing.
  - discriminate.
  - discriminate.
  - exact sample_namespaced.
  - exact sample_loads.
  - exact Eo.
  - exists deployment, podSpec, server. split; [exact Hd|]. split; [exact Hs|]. split_and!.
    + apply Hspec. unfold podTree in Ht. rewrite Hs in Ht. injection Ht as <-. reflexivity.
    + apply Hcfg; [|reflexivity]. in_literal.
    + apply Henv; [|reflexivity]. in_literal.
Defined.

(** ** A name that two sides use *)

(** A custom provider named after the metrics, with a secret for its port. *)
Definition metricsProvider : CustomProvider :=
  {| Custom_Base := {| Base_ID := "metrics" |}; Custom_Type := "remote::mine";
     Custom_SecretRefs := {["port" := vllmToken]}; Custom_Settings := None |}.

Definition metricsProviders : ProvidersSpec :=
  {| PS_Inference := Some {| Inference_Remote := Some
       {| IR_VLLM := []; IR_OpenAI := []; IR_Azure := []; IR_Bedrock := []; IR_VertexAI := []; IR_Watsonx := [];
          IR_Custom := [metricsProvider] |}; Inference_Inline := None |};
     PS_VectorIo := None; PS_ToolRuntime := None; PS_Files := None; PS_Batches := None; PS_Responses := None;
     PS_FileProcessors := None |}.

Definition metricsServer : OGXServer :=
  {| Server_Meta := sampleMeta;
     Server_Spec :=
       {| Spec_Distribution := {| Dist_Name := "starter"; Dist_Image := "" |};
          Spec_Providers := Some metricsProviders; Spec_Resources := None; Spec_Storage := None; Spec_DisabledAPIs := [];
          Spec_RegistryRefreshIntervalSeconds := None; Spec_Network := None; Spec_TLS := None; Spec_Workload := None;
          Spec_Monitoring := None; Spec_BaseConfig := None; Spec_OverrideConfig := None; Spec_PraxisMode := None |} |}.

(** The names of the secrets are compared with each other only: a secret's
    variable may be one of the operator's own, and it then wins. *)
Lemma operator_variable_shadowed :
  ValidateSecretRefEnvVarNames (Server_Spec metricsServer) = Ok tt ∧
  effective (operatorEnv metricsServer false runtimeRef) "OGX_METRICS_PORT" = Some (plainEnv "OGX_METRICS_PORT" "9464") ∧
  effective (operatorEnv metricsServer false runtimeRef ++ CollectSecretRefs (Server_Spec metricsServer)) "OGX_METRICS_PORT" =
    Some (secretToEnvVar "metrics" "PORT" vllmToken).
Proof. split_and!; vm_compute; reflexivity. Qed.
